(** * The Akaros arena (vmem) and slab allocators: model and properties

    A shallow embedding of [kern/src/arena.c] and [kern/src/slab.c] (both
    in the repository's concatenated source file) together with
    [kern/include/arena.h].  Boundary tags live in a tag memory indexed
    by their address; the segment tree, the free lists, the allocation
    hash and the unused list hold tag addresses, so that a write through
    one of them is seen through the others, as with the C pointers. *)

From Stdlib Require Import ZArith List Bool Lia.
Import ListNotations.
Local Open Scope Z_scope.

(** ** Machine words: [uintptr_t] and [size_t] are 64-bit, unsigned *)

Definition WORD : Z := 2 ^ 64.
Definition wrap (x : Z) : Z := x mod WORD.
Definition wadd (x y : Z) : Z := wrap (x + y).
Definition wsub (x y : Z) : Z := wrap (x - y).
Definition wshl (x n : Z) : Z := wrap (Z.shiftl x n).

(** ** Macros and constants the sources use but do not define *)

(** Modelled from the spec: [PGSIZE], "assume PGSIZE = 4096". *)
Definition PGSIZE : Z := 4096.

(** Modelled from the spec: [ROUNDDOWN(a, n)], "round_down": the largest
    multiple of [n] that is not above [a]. *)
Definition ROUNDDOWN (a n : Z) : Z := a - a mod n.

(** Modelled from the spec: [ROUNDUP(a, n)], "round_up": [a + n - 1]
    rounded down, the sum taken in a machine word. *)
Definition ROUNDUP (a n : Z) : Z := ROUNDDOWN (wrap (a + n - 1)) n.

(** Modelled from the spec: [ALIGNED(p, a)], "quantum-aligned": [p] is a
    multiple of [a] (for [a = 0] only [p = 0] passes, as with the mask
    test [p & (a - 1)]). *)
Definition ALIGNED (p a : Z) : bool := p mod a =? 0.

(** Modelled from the spec: [IS_PWR2(x)], "power of two". *)
Definition IS_PWR2 (x : Z) : bool :=
  negb (x =? 0) && (Z.land x (x - 1) =? 0).

(** Modelled from the spec: [LOG2_DOWN(x)] is "floor(log2(x))" and
    [LOG2_UP(x)] is "ceil(log2(x))". *)
Definition LOG2_DOWN (x : Z) : Z := Z.log2 x.
Definition LOG2_UP (x : Z) : Z := Z.log2_up x.

Definition MAX (x y : Z) : Z := if x <? y then y else x.

(** [sizeof(struct btag)]: "~64 BTs per page" in the spec, "already 64 b"
    in the source comment. *)
Definition BTAG_SZ : Z := 64.

Definition ARENA_NR_FREE_LISTS : Z := 64.

(** Allocation styles, from [arena.h]. *)
Definition ARENA_BESTFIT : Z := 0x100.
Definition ARENA_INSTANTFIT : Z := 0x200.
Definition ARENA_NEXTFIT : Z := 0x400.
Definition ARENA_ALLOC_STYLES : Z :=
  Z.lor ARENA_BESTFIT (Z.lor ARENA_INSTANTFIT ARENA_NEXTFIT).

(** Modelled from the spec: the memory flags [MEM_ATOMIC], [MEM_WAIT] and
    [MEM_ERROR], "style bits and memory bits occupy disjoint ranges". *)
Definition MEM_ATOMIC : Z := 0x2.
Definition MEM_WAIT : Z := 0x4.
Definition MEM_ERROR : Z := 0x8.
Definition MEM_FLAGS : Z := Z.lor MEM_ATOMIC (Z.lor MEM_WAIT MEM_ERROR).

(** [flags & f] as a C condition. *)
Definition has_flag (flags f : Z) : bool := negb (Z.land flags f =? 0).

(** ** Boundary tags *)

Inductive btag_status_t : Type := BTAG_FREE | BTAG_ALLOC | BTAG_SPAN.

Definition status_eqb (s t : btag_status_t) : bool :=
  match s, t with
  | BTAG_FREE, BTAG_FREE | BTAG_ALLOC, BTAG_ALLOC | BTAG_SPAN, BTAG_SPAN => true
  | _, _ => false
  end.

(** [struct btag] without its links: the links are the positions of the
    tag's address in the lists below. *)
Record btag : Type := mk_btag {
  bt_start : Z;
  bt_size : Z;
  bt_status : btag_status_t;
}.

(** ** Intrusive lists and the segment tree, as sequences of tag addresses *)

Definition fupd {B : Type} (f : Z -> B) (k : Z) (v : B) : Z -> B :=
  fun x => if x =? k then v else f x.

(** [BSD_LIST_REMOVE]: the element leaves the list it is linked on. *)
Fixpoint list_remove (x : Z) (l : list Z) : list Z :=
  match l with
  | [] => []
  | y :: l' => if y =? x then l' else y :: list_remove x l'
  end.

(** [rb_next] and [rb_prev] on the in-order sequence of the tree. *)
Fixpoint rb_next (l : list Z) (bt : Z) : option Z :=
  match l with
  | [] => None
  | x :: l' => if x =? bt then hd_error l' else rb_next l' bt
  end.

Fixpoint rb_prev_from (p : option Z) (l : list Z) (bt : Z) : option Z :=
  match l with
  | [] => None
  | x :: l' => if x =? bt then p else rb_prev_from (Some x) l' bt
  end.

Definition rb_prev (l : list Z) (bt : Z) : option Z := rb_prev_from None l bt.

(** ** The arena

    [all_segs] is the in-order sequence of the red-black tree.
    [alloc_hash] is the content of the hash chains, latest insertion
    first: a lookup walks the chain of [start] and compares [start], so it
    finds the latest tag with that start whatever the hash function is.
    [bts] is the memory holding the tags.  The source arena is seen
    through its two callbacks: [afunc] lists the addresses the import
    calls will return (0 for a failed import, also once the list is used
    up), [ffunc] records the spans handed back.  [base_pages] lists what
    [arena_alloc(find_my_base(arena), PGSIZE, ...)] will return to an
    arena that is not itself the base. *)
Record arena : Type := mk_arena {
  import_scale : Z;
  is_base : bool;
  quantum : Z;
  all_segs : list Z;
  unused_btags : list Z;
  alloc_hash : list Z;
  afunc : list Z;
  ffunc : list (Z * Z);
  source : bool;
  amt_total_segs : Z;
  amt_alloc_segs : Z;
  nr_allocs : Z;
  last_nextfit_alloc : Z;
  free_segs : Z -> list Z;
  bts : Z -> btag;
  base_pages : list Z;
}.

Definition set_import_scale (v : Z) (a : arena) : arena :=
  mk_arena v (is_base a) (quantum a) (all_segs a) (unused_btags a)
    (alloc_hash a) (afunc a) (ffunc a) (source a) (amt_total_segs a)
    (amt_alloc_segs a) (nr_allocs a) (last_nextfit_alloc a) (free_segs a)
    (bts a) (base_pages a).

Definition set_is_base (v : bool) (a : arena) : arena :=
  mk_arena (import_scale a) v (quantum a) (all_segs a) (unused_btags a)
    (alloc_hash a) (afunc a) (ffunc a) (source a) (amt_total_segs a)
    (amt_alloc_segs a) (nr_allocs a) (last_nextfit_alloc a) (free_segs a)
    (bts a) (base_pages a).

Definition set_all_segs (v : list Z) (a : arena) : arena :=
  mk_arena (import_scale a) (is_base a) (quantum a) v (unused_btags a)
    (alloc_hash a) (afunc a) (ffunc a) (source a) (amt_total_segs a)
    (amt_alloc_segs a) (nr_allocs a) (last_nextfit_alloc a) (free_segs a)
    (bts a) (base_pages a).

Definition set_unused_btags (v : list Z) (a : arena) : arena :=
  mk_arena (import_scale a) (is_base a) (quantum a) (all_segs a) v
    (alloc_hash a) (afunc a) (ffunc a) (source a) (amt_total_segs a)
    (amt_alloc_segs a) (nr_allocs a) (last_nextfit_alloc a) (free_segs a)
    (bts a) (base_pages a).

Definition set_alloc_hash (v : list Z) (a : arena) : arena :=
  mk_arena (import_scale a) (is_base a) (quantum a) (all_segs a)
    (unused_btags a) v (afunc a) (ffunc a) (source a) (amt_total_segs a)
    (amt_alloc_segs a) (nr_allocs a) (last_nextfit_alloc a) (free_segs a)
    (bts a) (base_pages a).

Definition set_afunc (v : list Z) (a : arena) : arena :=
  mk_arena (import_scale a) (is_base a) (quantum a) (all_segs a)
    (unused_btags a) (alloc_hash a) v (ffunc a) (source a)
    (amt_total_segs a) (amt_alloc_segs a) (nr_allocs a)
    (last_nextfit_alloc a) (free_segs a) (bts a) (base_pages a).

Definition set_ffunc (v : list (Z * Z)) (a : arena) : arena :=
  mk_arena (import_scale a) (is_base a) (quantum a) (all_segs a)
    (unused_btags a) (alloc_hash a) (afunc a) v (source a)
    (amt_total_segs a) (amt_alloc_segs a) (nr_allocs a)
    (last_nextfit_alloc a) (free_segs a) (bts a) (base_pages a).

Definition set_amt_total_segs (v : Z) (a : arena) : arena :=
  mk_arena (import_scale a) (is_base a) (quantum a) (all_segs a)
    (unused_btags a) (alloc_hash a) (afunc a) (ffunc a) (source a) v
    (amt_alloc_segs a) (nr_allocs a) (last_nextfit_alloc a) (free_segs a)
    (bts a) (base_pages a).

Definition set_amt_alloc_segs (v : Z) (a : arena) : arena :=
  mk_arena (import_scale a) (is_base a) (quantum a) (all_segs a)
    (unused_btags a) (alloc_hash a) (afunc a) (ffunc a) (source a)
    (amt_total_segs a) v (nr_allocs a) (last_nextfit_alloc a) (free_segs a)
    (bts a) (base_pages a).

Definition set_nr_allocs (v : Z) (a : arena) : arena :=
  mk_arena (import_scale a) (is_base a) (quantum a) (all_segs a)
    (unused_btags a) (alloc_hash a) (afunc a) (ffunc a) (source a)
    (amt_total_segs a) (amt_alloc_segs a) v (last_nextfit_alloc a)
    (free_segs a) (bts a) (base_pages a).

Definition set_last_nextfit_alloc (v : Z) (a : arena) : arena :=
  mk_arena (import_scale a) (is_base a) (quantum a) (all_segs a)
    (unused_btags a) (alloc_hash a) (afunc a) (ffunc a) (source a)
    (amt_total_segs a) (amt_alloc_segs a) (nr_allocs a) v (free_segs a)
    (bts a) (base_pages a).

Definition set_free_segs (v : Z -> list Z) (a : arena) : arena :=
  mk_arena (import_scale a) (is_base a) (quantum a) (all_segs a)
    (unused_btags a) (alloc_hash a) (afunc a) (ffunc a) (source a)
    (amt_total_segs a) (amt_alloc_segs a) (nr_allocs a)
    (last_nextfit_alloc a) v (bts a) (base_pages a).

Definition set_bts (v : Z -> btag) (a : arena) : arena :=
  mk_arena (import_scale a) (is_base a) (quantum a) (all_segs a)
    (unused_btags a) (alloc_hash a) (afunc a) (ffunc a) (source a)
    (amt_total_segs a) (amt_alloc_segs a) (nr_allocs a)
    (last_nextfit_alloc a) (free_segs a) v (base_pages a).

Definition set_base_pages (v : list Z) (a : arena) : arena :=
  mk_arena (import_scale a) (is_base a) (quantum a) (all_segs a)
    (unused_btags a) (alloc_hash a) (afunc a) (ffunc a) (source a)
    (amt_total_segs a) (amt_alloc_segs a) (nr_allocs a)
    (last_nextfit_alloc a) (free_segs a) (bts a) v.

(** Field reads and writes through a tag pointer. *)
Definition start_of (a : arena) (bt : Z) : Z := bt_start (bts a bt).
Definition size_of (a : arena) (bt : Z) : Z := bt_size (bts a bt).
Definition status_of (a : arena) (bt : Z) : btag_status_t := bt_status (bts a bt).

Definition set_start (bt v : Z) (a : arena) : arena :=
  set_bts (fupd (bts a) bt (mk_btag v (size_of a bt) (status_of a bt))) a.
Definition set_size (bt v : Z) (a : arena) : arena :=
  set_bts (fupd (bts a) bt (mk_btag (start_of a bt) v (status_of a bt))) a.
Definition set_status (bt : Z) (v : btag_status_t) (a : arena) : arena :=
  set_bts (fupd (bts a) bt (mk_btag (start_of a bt) (size_of a bt) v)) a.

(** ** Results: a call returns a value and the next state, or panics
    ([panic] and failed [assert]s do not return). *)
Inductive res (A : Type) : Type :=
| Panic : res A
| Ret : A -> arena -> res A.
Arguments Panic {A}.
Arguments Ret {A} _ _.

Definition bind {A B : Type} (r : res A) (k : A -> arena -> res B) : res B :=
  match r with
  | Panic => Panic
  | Ret v a => k v a
  end.

Notation "'do' x , a <- r ; k" := (bind r (fun x a => k))
  (at level 10, x name, a name, r at level 100, k at level 200).

(** ** arena.c: tag bookkeeping *)

(** [arena_init]: the fields it sets.  It does not write
    [last_nextfit_alloc]; [cursor] is what the arena's memory held
    there.  [mem] is the memory the tags will be carved from. *)
Definition arena_init (quantum : Z) (has_source : bool) (afunc_rets : list Z)
    (pages : list Z) (cursor : Z) (mem : Z -> btag) : arena :=
  mk_arena 0 false quantum [] [] [] afunc_rets [] has_source 0 0 0 cursor
    (fun _ => []) mem pages.

(** [__insert_btag]: the descent goes right past the tags that start
    lower and past a span with the same start, left before a tag that
    starts higher, and panics on a segment tag with the same start. *)
Fixpoint insert_walk (a : arena) (bt : Z) (l : list Z) : option (list Z) :=
  match l with
  | [] => Some [bt]
  | node :: l' =>
      if start_of a bt <? start_of a node then Some (bt :: l)
      else if (start_of a node <? start_of a bt)
              || status_eqb (status_of a node) BTAG_SPAN
      then option_map (cons node) (insert_walk a bt l')
      else None
  end.

Definition __insert_btag (a : arena) (bt : Z) : res unit :=
  match insert_walk a bt (all_segs a) with
  | Some l => Ret tt (set_all_segs l a)
  | None => Panic
  end.

Definition __track_alloc_seg (a : arena) (bt : Z) : arena :=
  let a := set_status bt BTAG_ALLOC a in
  set_alloc_hash (bt :: alloc_hash a) a.

Fixpoint find_start (a : arena) (start : Z) (l : list Z) : option Z :=
  match l with
  | [] => None
  | bt_i :: l' =>
      if start_of a bt_i =? start then Some bt_i else find_start a start l'
  end.

Definition __untrack_alloc_seg (a : arena) (start : Z) : res (option Z) :=
  match find_start a start (alloc_hash a) with
  | Some bt_i =>
      let a1 := set_alloc_hash (list_remove bt_i (alloc_hash a)) a in
      if status_eqb (status_of a1 bt_i) BTAG_ALLOC then Ret (Some bt_i) a1
      else Panic
  | None => Ret None a
  end.

Definition __has_enough_btags (a : arena) (nr_needed : Z) : bool :=
  (1 <=? nr_needed) && (nr_needed <=? Z.of_nat (length (unused_btags a))).

Definition __get_btag (a : arena) : res Z :=
  match unused_btags a with
  | [] => Panic
  | ret :: rest => Ret ret (set_unused_btags rest a)
  end.

Definition __free_btag (a : arena) (bt : Z) : arena :=
  set_unused_btags (bt :: unused_btags a) a.

Definition __track_free_seg (a : arena) (bt : Z) : arena :=
  let list_idx := LOG2_DOWN (size_of a bt) in
  let a := set_status bt BTAG_FREE a in
  set_free_segs (fupd (free_segs a) list_idx (bt :: free_segs a list_idx)) a.

(** [__untrack_free_seg]: the tag is unlinked from the list it is on; a
    free tag is on the list of its size. *)
Definition __untrack_free_seg (a : arena) (bt : Z) : arena :=
  let list_idx := LOG2_DOWN (size_of a bt) in
  set_free_segs
    (fupd (free_segs a) list_idx (list_remove bt (free_segs a list_idx))) a.

Definition __account_alloc (a : arena) (bt size : Z) (new : option Z)
    : res bool :=
  if negb (status_eqb (status_of a bt) BTAG_FREE) then Panic else
  do ret, a <-
    (if size_of a bt =? size then Ret false a else
     if negb (size_of a bt >? size) then Panic else
     do new_ret, a <-
       (match new with
        | Some n => Ret (n, true) a
        | None => do n, a <- __get_btag a; Ret (n, false) a
        end);
     let new := fst new_ret in
     let a := set_start new (wadd (start_of a bt) size) a in
     let a := set_size new (wsub (size_of a bt) size) a in
     let a := set_size bt size a in
     let a := __track_free_seg a new in
     do _, a <- __insert_btag a new;
     Ret (snd new_ret) a);
  let a := __track_alloc_seg a bt in
  let a := set_amt_alloc_segs (wadd (amt_alloc_segs a) size) a in
  let a := set_nr_allocs (wadd (nr_allocs a) 1) a in
  Ret ret a.

Fixpoint get_from_freelists_loop (n : nat) (a : arena) (i : Z)
    : option Z * arena :=
  match n with
  | O => (None, a)
  | S n' =>
      match free_segs a i with
      | ret :: rest => (Some ret, set_free_segs (fupd (free_segs a) i rest) a)
      | [] => get_from_freelists_loop n' a (i + 1)
      end
  end.

Definition __get_from_freelists (a : arena) (list_idx : Z) : option Z * arena :=
  get_from_freelists_loop (Z.to_nat (ARENA_NR_FREE_LISTS - list_idx)) a list_idx.

(** The tags of a fresh page, pushed one by one on the unused list. *)
Definition push_tags (tags nr_bts : Z) (a : arena) : arena :=
  fold_left (fun a i => __free_btag a (wadd tags (Z.of_nat i * BTAG_SZ)))
    (seq 0 (Z.to_nat nr_bts)) a.

Definition __add_more_btags (a : arena) (mem_flags : Z) : res Z :=
  let nr_bts := PGSIZE / BTAG_SZ in
  if is_base a then
    match __get_from_freelists a (LOG2_UP PGSIZE) with
    | (None, a) => if negb (has_flag mem_flags MEM_ATOMIC) then Panic else Ret 0 a
    | (Some bt, a) =>
        let tags := start_of a bt in
        do used, a <- __account_alloc a bt PGSIZE (Some tags);
        let tags := if used then wadd tags BTAG_SZ else tags in
        let nr_bts := if used then nr_bts - 1 else nr_bts in
        Ret tags (push_tags tags nr_bts a)
    end
  else
    let tags := hd 0 (base_pages a) in
    let a := set_base_pages (tl (base_pages a)) a in
    if tags =? 0 then Ret 0 a else Ret tags (push_tags tags nr_bts a).

Definition __get_enough_btags (a : arena) (nr_needed mem_flags : Z) : res bool :=
  if __has_enough_btags a nr_needed then Ret true a else
  do tags, a <- __add_more_btags a mem_flags;
  if tags =? 0 then
    (if has_flag mem_flags MEM_ATOMIC then Ret false a else Panic)
  else if __has_enough_btags a nr_needed then Ret true a else Panic.

(** ** arena.c: allocation policies *)

(** [__find_sufficient]: 0 is the failure value.  The second call, with
    [nocross = 0], returns before it could recurse, so two levels are
    all the recursion there is. *)
Fixpoint find_sufficient_rec (depth : nat)
    (bt_start bt_size size align phase nocross : Z) : Z :=
  let try := wadd (ROUNDUP bt_start align) phase in
  if try <? bt_start then 0 else
  if wadd try size <? try then 0 else
  if wadd try size >? wadd bt_start bt_size then 0 else
  if nocross =? 0 then try else
  if ROUNDUP try nocross >=? wadd try size then try else
  let try := ROUNDUP bt_start nocross in
  let try_size := wsub bt_size (wsub try bt_start) in
  if try_size >? bt_size then 0 else
  if wadd try try_size <? try then 0 else
  match depth with
  | O => 0
  | S d => find_sufficient_rec d try try_size size align phase 0
  end.

Definition __find_sufficient : Z -> Z -> Z -> Z -> Z -> Z -> Z :=
  find_sufficient_rec 1.

Definition __split_bt_at (a : arena) (bt at_ : Z) : res unit :=
  do front, a <- __get_btag a;
  let a := set_status front BTAG_FREE a in
  let a := set_start front (start_of a bt) a in
  let a := set_size front (wsub at_ (start_of a bt)) a in
  let a := set_start bt (wadd (start_of a bt) (size_of a front)) a in
  let a := set_size bt (wsub (size_of a bt) (size_of a front)) a in
  let a := __track_free_seg a front in
  __insert_btag a front.

Definition __found_least_upper_btag (a : arena) (bt : Z) (prev : option Z)
    (minaddr : Z) : bool :=
  if start_of a bt <? minaddr then false else
  match prev with
  | None => true
  | Some p => start_of a p <? minaddr
  end.

(** The descent of [__xalloc_min_max]: the tags from the least upper one
    on, in order.  With the tags in address order at most one tag passes
    [__found_least_upper_btag], and the descent, which compares [minaddr]
    with each start, ends there; when a span and its first segment both
    start at [minaddr] the real descent may pass the span by and end
    empty, depending on the shape of the tree. *)
Fixpoint least_upper_from (a : arena) (minaddr : Z) (prev : option Z)
    (l : list Z) : list Z :=
  match l with
  | [] => []
  | bt :: l' =>
      if __found_least_upper_btag a bt prev minaddr then l
      else least_upper_from a minaddr (Some bt) l'
  end.

Fixpoint min_max_scan (a : arena) (size align phase nocross maxaddr : Z)
    (l : list Z) : res Z :=
  match l with
  | [] => Ret 0 a
  | bt :: l' =>
      let try := __find_sufficient (start_of a bt) (size_of a bt) size align
                   phase nocross in
      if try =? 0 then min_max_scan a size align phase nocross maxaddr l' else
      if negb (maxaddr =? 0) && (wadd try size >? maxaddr) then Ret 0 a else
      let a := __untrack_free_seg a bt in
      do _, a <- (if negb (try =? start_of a bt) then __split_bt_at a bt try
                  else Ret tt a);
      do _, a <- __account_alloc a bt size None;
      Ret (start_of a bt) a
  end.

Definition __xalloc_min_max (a : arena)
    (size align phase nocross minaddr maxaddr : Z) : res Z :=
  min_max_scan a size align phase nocross maxaddr
    (least_upper_from a minaddr None (all_segs a)).

(** The inner [BSD_LIST_FOREACH] of [__xalloc_from_freelists]. *)
Fixpoint first_sufficient (a : arena) (size align phase nocross : Z)
    (l : list Z) : option (Z * Z) :=
  match l with
  | [] => None
  | bt_i :: l' =>
      let try := __find_sufficient (start_of a bt_i) (size_of a bt_i) size
                   align phase nocross in
      if negb (try =? 0) then Some (bt_i, try)
      else first_sufficient a size align phase nocross l'
  end.

Fixpoint xalloc_lists_loop (n : nat) (a : arena)
    (size align phase nocross : Z) (i : Z) : option (Z * Z) * arena :=
  match n with
  | O => (None, a)
  | S n' =>
      match first_sufficient a size align phase nocross (free_segs a i) with
      | Some (bt_i, try) =>
          (Some (bt_i, try),
           set_free_segs
             (fupd (free_segs a) i (list_remove bt_i (free_segs a i))) a)
      | None => xalloc_lists_loop n' a size align phase nocross (i + 1)
      end
  end.

Definition __xalloc_from_freelists (a : arena)
    (size align phase nocross : Z) (try_instant_fit : bool) : res Z :=
  if wadd (ROUNDUP size align) phase <? size then Ret 0 a else
  let list_idx := LOG2_DOWN (wadd (ROUNDUP size align) phase) in
  let list_idx := list_idx + (if try_instant_fit then 1 else 0) in
  match xalloc_lists_loop (Z.to_nat (ARENA_NR_FREE_LISTS - list_idx)) a
          size align phase nocross list_idx with
  | (None, a) => Ret 0 a
  | (Some (bt_i, try), a) =>
      do _, a <- (if negb (try =? start_of a bt_i)
                  then __split_bt_at a bt_i try else Ret tt a);
      do _, a <- __account_alloc a bt_i size None;
      Ret (start_of a bt_i) a
  end.

Definition __xalloc_nextfit (a : arena) (size align phase nocross : Z)
    : res Z :=
  do ret, a <- __xalloc_min_max a size align phase nocross
                 (wadd (last_nextfit_alloc a) (quantum a)) 0;
  do ret, a <- (if ret =? 0
                then __xalloc_min_max a size align phase nocross (quantum a) 0
                else Ret ret a);
  if ret =? 0 then Ret 0 a else Ret ret (set_last_nextfit_alloc ret a).

(** The scan of [__alloc_bestfit] over one free list. *)
Fixpoint bestfit_scan (a : arena) (size : Z) (best : option Z) (l : list Z)
    : option Z :=
  match l with
  | [] => best
  | bt_i :: l' =>
      let best :=
        if size_of a bt_i >=? size then
          match best with
          | None => Some bt_i
          | Some b => if size_of a b >? size_of a bt_i then Some bt_i else best
          end
        else best in
      bestfit_scan a size best l'
  end.

(** [__alloc_bestfit].  A tag the scan picks is handed to
    [__account_alloc] as it is: the C has no [BSD_LIST_REMOVE] on this
    path, so the head of the free list goes on pointing at the tag, and
    the tag stays in [free_segs] here.  (In C the one link field of the
    tag then serves the hash chain; a later [BSD_LIST_REMOVE] of the tag
    writes the chain's head and leaves the free list's head alone.) *)
Definition __alloc_bestfit (a : arena) (size : Z) : res Z :=
  let list_idx := LOG2_DOWN size in
  let best := bestfit_scan a size None (free_segs a list_idx) in
  let '(best, a) :=
    match best with
    | Some b => (Some b, a)
    | None => __get_from_freelists a (list_idx + 1)
    end in
  match best with
  | None => Ret 0 a
  | Some best =>
      do _, a <- __account_alloc a best size None;
      Ret (start_of a best) a
  end.

Definition __alloc_nextfit (a : arena) (size : Z) : res Z :=
  __xalloc_nextfit a size (quantum a) 0 0.

Definition __alloc_instantfit (a : arena) (size : Z) : res Z :=
  match __get_from_freelists a (LOG2_UP size) with
  | (None, a) => Ret 0 a
  | (Some ret, a) =>
      do _, a <- __account_alloc a ret size None;
      Ret (start_of a ret) a
  end.

Definition alloc_from_arena (a : arena) (size flags : Z) : res Z :=
  do enough, a <- __get_enough_btags a 1 (Z.land flags MEM_FLAGS);
  if negb enough then Ret 0 a else
  if has_flag flags ARENA_BESTFIT then __alloc_bestfit a size
  else if has_flag flags ARENA_NEXTFIT then __alloc_nextfit a size
  else __alloc_instantfit a size.

Definition assert_quantum_alignment (a : arena) (base size : Z) : bool :=
  ALIGNED base (quantum a) && ALIGNED size (quantum a).

Definition __arena_add (a : arena) (base size flags : Z) : res Z :=
  if negb (assert_quantum_alignment a base size) then Panic else
  if negb (base <? wadd base size) then Panic else
  do enough, a <- __get_enough_btags a 2 (Z.land flags MEM_FLAGS);
  if negb enough then Ret 0 a else
  do bt, a <- __get_btag a;
  do _, a <-
    (if source a then
       do span_bt, a <- __get_btag a;
       let a := set_start span_bt base a in
       let a := set_size span_bt size a in
       let a := set_status span_bt BTAG_SPAN a in
       __insert_btag a span_bt
     else Ret tt a);
  let a := set_start bt base a in
  let a := set_size bt size a in
  let a := set_amt_total_segs (wadd (amt_total_segs a) size) a in
  let a := __track_free_seg a bt in
  do _, a <- __insert_btag a bt;
  Ret base a.

Definition arena_add (a : arena) (base size flags : Z) : res Z :=
  if source a then Panic else __arena_add a base size flags.

Definition get_more_resources (a : arena) (size flags : Z) : res bool :=
  let import_size := MAX size (wshl size (import_scale a)) in
  if source a then
    let span := hd 0 (afunc a) in
    let a := set_afunc (tl (afunc a)) a in
    if span =? 0 then Ret false a else
    do added, a <- __arena_add a span import_size flags;
    if added =? 0
    then Ret false (set_ffunc (ffunc a ++ [(span, import_size)]) a)
    else Ret true a
  else
    if negb (has_flag flags MEM_ATOMIC) then Panic else Ret false a.

(** The [while (1)] of [arena_alloc]: every turn that goes on has taken
    one address from [afunc], so [S (length (afunc a))] turns are
    enough. *)
Fixpoint arena_alloc_loop (turns : nat) (a : arena) (size flags : Z) : res Z :=
  match turns with
  | O => Panic
  | S t =>
      do ret, a <- alloc_from_arena a size flags;
      if negb (ret =? 0) then Ret ret a else
      do more, a <- get_more_resources a size flags;
      if negb more then Ret 0 a else arena_alloc_loop t a size flags
  end.

Definition arena_alloc (a : arena) (size flags : Z) : res Z :=
  let size := ROUNDUP size (quantum a) in
  if size =? 0 then Panic else
  arena_alloc_loop (S (length (afunc a))) a size flags.

Definition xalloc_from_arena (a : arena)
    (size align phase nocross minaddr maxaddr flags : Z) : res Z :=
  do enough, a <- __get_enough_btags a 2 (Z.land flags MEM_FLAGS);
  if negb enough then Ret 0 a else
  if negb (minaddr =? 0) || negb (maxaddr =? 0) then
    __xalloc_min_max a size align phase nocross minaddr maxaddr
  else if has_flag flags ARENA_BESTFIT then
    __xalloc_from_freelists a size align phase nocross false
  else if has_flag flags ARENA_NEXTFIT then
    __xalloc_nextfit a size align phase nocross
  else
    __xalloc_from_freelists a size align phase nocross true.

Fixpoint arena_xalloc_loop (turns : nat) (a : arena)
    (size align phase nocross minaddr maxaddr flags : Z) : res Z :=
  match turns with
  | O => Panic
  | S t =>
      do ret, a <- xalloc_from_arena a size align phase nocross minaddr
                     maxaddr flags;
      if negb (ret =? 0) then Ret ret a else
      let req_size := wadd (wadd size align) phase in
      if req_size <? size then Panic else
      do more, a <- get_more_resources a req_size flags;
      if negb more then Ret 0 a else
      let flags := Z.land flags (Z.lnot ARENA_ALLOC_STYLES) in
      let flags := Z.lor flags ARENA_BESTFIT in
      arena_xalloc_loop t a size align phase nocross minaddr maxaddr flags
  end.

Definition arena_xalloc (a : arena)
    (size align phase nocross minaddr maxaddr flags : Z) : res Z :=
  let size := ROUNDUP size (quantum a) in
  if size =? 0 then Panic else
  if negb (IS_PWR2 align) then Panic else
  if negb (nocross =? 0) && negb (IS_PWR2 nocross) then Panic else
  if negb (ALIGNED align (quantum a)) then Panic else
  if negb (ALIGNED nocross (quantum a)) then Panic else
  if negb (ALIGNED phase (quantum a)) then Panic else
  if wadd size align <? size then Panic else
  if wadd size phase <? size then Panic else
  if wadd align phase <? align then Panic else
  if source a && (negb (nocross =? 0) || negb (minaddr =? 0)
                  || negb (maxaddr =? 0)) then Panic else
  arena_xalloc_loop (S (length (afunc a))) a size align phase nocross minaddr
    maxaddr flags.

(** ** arena.c: free and coalesce *)

Definition __merge_right_to_left (a : arena) (left right : Z) : bool * arena :=
  if negb (status_eqb (status_of a left) BTAG_FREE) then (false, a) else
  if negb (status_eqb (status_of a right) BTAG_FREE) then (false, a) else
  if wadd (start_of a left) (size_of a left) =? start_of a right then
    let a := __untrack_free_seg a left in
    let a := __untrack_free_seg a right in
    let a := set_size left (wadd (size_of a left) (size_of a right)) a in
    let a := __track_free_seg a left in
    let a := set_all_segs (list_remove right (all_segs a)) a in
    let a := __free_btag a right in
    (true, a)
  else (false, a).

(** The two merges of [__coalesce_free_seg]: the tag that holds the
    freed segment afterwards, and the state. *)
Definition coalesce_merge (a : arena) (bt : Z) : Z * arena :=
  let a :=
    match rb_next (all_segs a) bt with
    | Some bt_n => snd (__merge_right_to_left a bt bt_n)
    | None => a
    end in
  match rb_prev (all_segs a) bt with
  | Some bt_p =>
      let '(merged, a) := __merge_right_to_left a bt_p bt in
      (if merged then bt_p else bt, a)
  | None => (bt, a)
  end.

(** The span check of [__coalesce_free_seg]: [to_free_addr],
    [to_free_sz], and the state. *)
Definition coalesce_span (a : arena) (bt : Z) : (Z * Z) * arena :=
  match rb_prev (all_segs a) bt with
  | Some bt_p =>
      if status_eqb (status_of a bt_p) BTAG_SPAN
         && (start_of a bt_p =? start_of a bt)
         && (size_of a bt_p =? size_of a bt)
      then
        let to_free := (start_of a bt_p, size_of a bt_p) in
        let a := __untrack_free_seg a bt in
        let a := set_all_segs (list_remove bt_p (all_segs a)) a in
        let a := __free_btag a bt_p in
        let a := set_all_segs (list_remove bt (all_segs a)) a in
        let a := __free_btag a bt in
        (to_free, a)
      else ((0, 0), a)
  | None => ((0, 0), a)
  end.

Definition __coalesce_free_seg (a : arena) (bt : Z) : (Z * Z) * arena :=
  let '(bt, a) := coalesce_merge a bt in
  coalesce_span a bt.

Definition free_from_arena (a : arena) (addr size : Z) : res unit :=
  do bt, a <- __untrack_alloc_seg a addr;
  match bt with
  | None => Panic
  | Some bt =>
      if negb (size_of a bt =? size) then Panic else
      let a := set_amt_alloc_segs (wsub (amt_alloc_segs a) size) a in
      let a := set_nr_allocs (wsub (nr_allocs a) 1) a in
      let a := __track_free_seg a bt in
      let '((to_free_addr, to_free_sz), a) := __coalesce_free_seg a bt in
      let a := set_amt_total_segs (wsub (amt_total_segs a) to_free_sz) a in
      if negb (to_free_addr =? 0)
      then Ret tt (set_ffunc (ffunc a ++ [(to_free_addr, to_free_sz)]) a)
      else Ret tt a
  end.

Definition arena_free (a : arena) (addr size : Z) : res unit :=
  free_from_arena a addr (ROUNDUP size (quantum a)).

Definition arena_xfree (a : arena) (addr size : Z) : res unit :=
  free_from_arena a addr (ROUNDUP size (quantum a)).

(** ** arena.c: the sums of [__arena_asserter] *)

Definition seg_amt (a : arena) (st : btag_status_t) : Z :=
  fold_left (fun acc bt_i =>
               if status_eqb (status_of a bt_i) st
               then wadd acc (size_of a bt_i) else acc)
    (all_segs a) 0.

Definition seg_nr (a : arena) (st : btag_status_t) : Z :=
  fold_left (fun acc bt_i =>
               if status_eqb (status_of a bt_i) st then wadd acc 1 else acc)
    (all_segs a) 0.

(** The three closing assertions of [__arena_asserter]. *)
Definition asserter_counters (a : arena) : bool :=
  (amt_total_segs a =? wadd (seg_amt a BTAG_FREE) (seg_amt a BTAG_ALLOC))
  && (amt_alloc_segs a =? seg_amt a BTAG_ALLOC)
  && (nr_allocs a =? seg_nr a BTAG_ALLOC).


(** ** Reading results *)

(** The next call on the state a call left. *)
Definition and_then {A B : Type} (r : res A) (k : arena -> res B) : res B :=
  bind r (fun _ a => k a).

Definition ret_val {A : Type} (r : res A) : option A :=
  match r with
  | Panic => None
  | Ret v _ => Some v
  end.

Definition final {A B : Type} (obs : arena -> B) (r : res A) : option B :=
  match r with
  | Panic => None
  | Ret _ a => Some (obs a)
  end.

(** The tags of the segment tree, in order. *)
Definition segs (a : arena) : list btag := map (bts a) (all_segs a).

(** The free lists, bucket by bucket, as the tags they hold. *)
Definition buckets (a : arena) : list (list btag) :=
  map (fun i => map (bts a) (free_segs a (Z.of_nat i)))
    (seq 0 (Z.to_nat ARENA_NR_FREE_LISTS)).

Definition counters (a : arena) : Z * Z * Z :=
  (amt_total_segs a, amt_alloc_segs a, nr_allocs a).

(** Tag memory before any tag is written. *)
Definition mem0 : Z -> btag := fun _ => mk_btag 0 0 BTAG_FREE.

Arguments start_of : simpl never.
Arguments size_of : simpl never.
Arguments status_of : simpl never.
Arguments set_start : simpl never.
Arguments set_size : simpl never.
Arguments set_status : simpl never.

(** * slab.c: the slab caches *)

Module Slab.

(** [struct kmem_slab]: the list link is the slab's position in one of
    the three lists of its cache.  [free_small_obj] and [bufctl_freelist]
    share a union: a small slab uses the first, a large one the second. *)
Record kmem_slab : Type := mk_slab {
  slab_obj_size : Z;
  num_busy_obj : Z;
  num_total_obj : Z;
  free_small_obj : Z;
  bufctl_freelist : list Z;
}.

Record kmem_bufctl : Type := mk_bufctl {
  buf_addr : Z;
  my_slab : Z;
}.

(** [struct kmem_cache] and the memory it reaches: [slabs] and [bufctls]
    hold the slab headers and bufctls by address, [words] the
    pointer-sized words of object memory (the link behind each free
    object).  [kpages] lists the addresses that [kpage_alloc] and
    [get_cont_pages] will hand out, [seed_objs] those that
    [kmem_cache_alloc] on the seed caches will (0 is a failure). *)
Record kmem_cache : Type := mk_cache {
  obj_size : Z;
  align : Z;
  full_slab_list : list Z;
  partial_slab_list : list Z;
  empty_slab_list : list Z;
  nr_cur_alloc : Z;
  slabs : Z -> kmem_slab;
  bufctls : Z -> kmem_bufctl;
  words : Z -> Z;
  kpages : list Z;
  seed_objs : list Z;
}.

Definition set_full (v : list Z) (c : kmem_cache) : kmem_cache :=
  mk_cache (obj_size c) (align c) v (partial_slab_list c) (empty_slab_list c)
    (nr_cur_alloc c) (slabs c) (bufctls c) (words c) (kpages c) (seed_objs c).
Definition set_partial (v : list Z) (c : kmem_cache) : kmem_cache :=
  mk_cache (obj_size c) (align c) (full_slab_list c) v (empty_slab_list c)
    (nr_cur_alloc c) (slabs c) (bufctls c) (words c) (kpages c) (seed_objs c).
Definition set_empty (v : list Z) (c : kmem_cache) : kmem_cache :=
  mk_cache (obj_size c) (align c) (full_slab_list c) (partial_slab_list c) v
    (nr_cur_alloc c) (slabs c) (bufctls c) (words c) (kpages c) (seed_objs c).
Definition set_nr_cur_alloc (v : Z) (c : kmem_cache) : kmem_cache :=
  mk_cache (obj_size c) (align c) (full_slab_list c) (partial_slab_list c)
    (empty_slab_list c) v (slabs c) (bufctls c) (words c) (kpages c)
    (seed_objs c).
Definition set_slab (s : Z) (v : kmem_slab) (c : kmem_cache) : kmem_cache :=
  mk_cache (obj_size c) (align c) (full_slab_list c) (partial_slab_list c)
    (empty_slab_list c) (nr_cur_alloc c) (fupd (slabs c) s v) (bufctls c)
    (words c) (kpages c) (seed_objs c).
Definition set_bufctl (b : Z) (v : kmem_bufctl) (c : kmem_cache) : kmem_cache :=
  mk_cache (obj_size c) (align c) (full_slab_list c) (partial_slab_list c)
    (empty_slab_list c) (nr_cur_alloc c) (slabs c) (fupd (bufctls c) b v)
    (words c) (kpages c) (seed_objs c).
Definition set_word (p v : Z) (c : kmem_cache) : kmem_cache :=
  mk_cache (obj_size c) (align c) (full_slab_list c) (partial_slab_list c)
    (empty_slab_list c) (nr_cur_alloc c) (slabs c) (bufctls c)
    (fupd (words c) p v) (kpages c) (seed_objs c).
Definition set_kpages (v : list Z) (c : kmem_cache) : kmem_cache :=
  mk_cache (obj_size c) (align c) (full_slab_list c) (partial_slab_list c)
    (empty_slab_list c) (nr_cur_alloc c) (slabs c) (bufctls c) (words c) v
    (seed_objs c).
Definition set_seed_objs (v : list Z) (c : kmem_cache) : kmem_cache :=
  mk_cache (obj_size c) (align c) (full_slab_list c) (partial_slab_list c)
    (empty_slab_list c) (nr_cur_alloc c) (slabs c) (bufctls c) (words c)
    (kpages c) v.

Definition set_busy (s v : Z) (c : kmem_cache) : kmem_cache :=
  let sl := slabs c s in
  set_slab s (mk_slab (slab_obj_size sl) v (num_total_obj sl)
                (free_small_obj sl) (bufctl_freelist sl)) c.
Definition set_free_small_obj (s v : Z) (c : kmem_cache) : kmem_cache :=
  let sl := slabs c s in
  set_slab s (mk_slab (slab_obj_size sl) (num_busy_obj sl) (num_total_obj sl)
                v (bufctl_freelist sl)) c.
Definition set_bufctl_freelist (s : Z) (v : list Z) (c : kmem_cache)
    : kmem_cache :=
  let sl := slabs c s in
  set_slab s (mk_slab (slab_obj_size sl) (num_busy_obj sl) (num_total_obj sl)
                (free_small_obj sl) v) c.

Section Params.

(** What [slab.h] defines: the size of a slab header, the largest object
    of the small layout, and the objects asked for per large slab. *)
Variable sizeof_kmem_slab : Z.
Variable SLAB_LARGE_CUTOFF : Z.
Variable NUM_BUF_PER_SLAB : Z.

(** [sizeof(uintptr_t)]. *)
Definition PTR_SZ : Z := 8.

(** [__kmem_cache_create]: the fields of a new cache (the slab lists are
    empty); the registry of caches is left out. *)
Definition __kmem_cache_create (osize al : Z) (pages seeds : list Z)
    : kmem_cache :=
  mk_cache osize al [] [] [] 0
    (fun _ => mk_slab 0 0 0 0 []) (fun _ => mk_bufctl 0 0) (fun _ => 0)
    pages seeds.

(** The loop of the small branch of [kmem_cache_grow] that threads the
    free list through the objects; for [n] links from [buf] on. *)
Fixpoint thread_small (n : nat) (buf step : Z) (c : kmem_cache)
    : Z * kmem_cache :=
  match n with
  | O => (buf, c)
  | S n' =>
      let c := set_word (wadd buf (obj_size c)) (wadd buf step) c in
      thread_small n' (wadd buf step) step c
  end.

(** The loop of the large branch: one bufctl per object, taken from the
    bufctl cache without a check of what it returned. *)
Fixpoint thread_large (n : nat) (buf a_slab : Z) (c : kmem_cache)
    : kmem_cache :=
  match n with
  | O => c
  | S n' =>
      let a_bufctl := hd 0 (seed_objs c) in
      let c := set_seed_objs (tl (seed_objs c)) c in
      let c := set_bufctl_freelist a_slab
                 (a_bufctl :: bufctl_freelist (slabs c a_slab)) c in
      let c := set_bufctl a_bufctl (mk_bufctl buf a_slab) c in
      let c := set_word (wadd buf (obj_size c)) a_bufctl c in
      thread_large n' (wadd buf (slab_obj_size (slabs c a_slab))) a_slab c
  end.

Definition kmem_cache_grow (c : kmem_cache) : bool * kmem_cache :=
  if obj_size c <=? SLAB_LARGE_CUTOFF then
    let a_page := hd 0 (kpages c) in
    let c := set_kpages (tl (kpages c)) c in
    if a_page =? 0 then (false, c) else
    let a_slab := wsub (wadd a_page PGSIZE) sizeof_kmem_slab in
    let osz := ROUNDUP (wadd (obj_size c) PTR_SZ) (align c) in
    let total := wsub PGSIZE sizeof_kmem_slab / osz in
    let c := set_slab a_slab (mk_slab osz 0 total a_page []) c in
    let '(buf, c) := thread_small (Z.to_nat (total - 1)) a_page osz c in
    let c := set_word (wadd buf (obj_size c)) 0 c in
    (true, set_empty (a_slab :: empty_slab_list c) c)
  else
    let a_slab := hd 0 (seed_objs c) in
    let c := set_seed_objs (tl (seed_objs c)) c in
    if a_slab =? 0 then (false, c) else
    let osz := ROUNDUP (wadd (obj_size c) PTR_SZ) (align c) in
    let min_pgs := ROUNDUP (wrap (NUM_BUF_PER_SLAB * osz)) PGSIZE / PGSIZE in
    let order_pg_alloc := LOG2_UP min_pgs in
    let buf := hd 0 (kpages c) in
    let c := set_kpages (tl (kpages c)) c in
    if buf =? 0 then (false, c) else
    let total := wrap (Z.shiftl 1 order_pg_alloc * PGSIZE) / osz in
    let c := set_slab a_slab (mk_slab osz 0 total 0 []) c in
    let c := thread_large (Z.to_nat total) buf a_slab c in
    (true, set_empty (a_slab :: empty_slab_list c) c).

(** [kmem_cache_alloc]: [None] when it does not return ([error] or
    [panic] after a failed growth). *)
Definition kmem_cache_alloc (c : kmem_cache) (flags : Z)
    : option (Z * kmem_cache) :=
  let found :=
    match partial_slab_list c with
    | a_slab :: _ => Some (a_slab, c)
    | [] =>
        let '(ok, c) :=
          match empty_slab_list c with
          | [] => kmem_cache_grow c
          | _ :: _ => (true, c)
          end in
        if negb ok then None else
        let a_slab := hd 0 (empty_slab_list c) in
        let c := set_empty (list_remove a_slab (empty_slab_list c)) c in
        let c := set_partial (a_slab :: partial_slab_list c) c in
        Some (a_slab, c)
    end in
  match found with
  | None => None
  | Some (a_slab, c) =>
      let '(retval, c) :=
        if obj_size c <=? SLAB_LARGE_CUTOFF then
          let retval := free_small_obj (slabs c a_slab) in
          (retval,
           set_free_small_obj a_slab (words c (wadd retval (obj_size c))) c)
        else
          let a_bufctl := hd 0 (bufctl_freelist (slabs c a_slab)) in
          let c := set_bufctl_freelist a_slab
                     (tl (bufctl_freelist (slabs c a_slab))) c in
          (buf_addr (bufctls c a_bufctl), c) in
      let c := set_busy a_slab (wadd (num_busy_obj (slabs c a_slab)) 1) c in
      let c :=
        if num_busy_obj (slabs c a_slab) =? num_total_obj (slabs c a_slab)
        then
          let c := set_partial (list_remove a_slab (partial_slab_list c)) c in
          set_full (a_slab :: full_slab_list c) c
        else c in
      let c := set_nr_cur_alloc (wadd (nr_cur_alloc c) 1) c in
      Some (retval, c)
  end.

Definition kmem_cache_free (c : kmem_cache) (buf : Z) : kmem_cache :=
  let '(a_slab, c) :=
    if obj_size c <=? SLAB_LARGE_CUTOFF then
      let a_slab :=
        wsub (wadd (ROUNDDOWN buf PGSIZE) PGSIZE) sizeof_kmem_slab in
      let c := set_word (wadd buf (obj_size c))
                 (free_small_obj (slabs c a_slab)) c in
      (a_slab, set_free_small_obj a_slab buf c)
    else
      let a_bufctl := words c (wadd buf (obj_size c)) in
      let a_slab := my_slab (bufctls c a_bufctl) in
      (a_slab,
       set_bufctl_freelist a_slab
         (a_bufctl :: bufctl_freelist (slabs c a_slab)) c) in
  let c := set_busy a_slab (wsub (num_busy_obj (slabs c a_slab)) 1) c in
  let c := set_nr_cur_alloc (wsub (nr_cur_alloc c) 1) c in
  if wadd (num_busy_obj (slabs c a_slab)) 1 =? num_total_obj (slabs c a_slab)
  then
    let c := set_full (list_remove a_slab (full_slab_list c)) c in
    set_partial (a_slab :: partial_slab_list c) c
  else if num_busy_obj (slabs c a_slab) =? 0 then
    let c := set_partial (list_remove a_slab (partial_slab_list c)) c in
    set_empty (a_slab :: empty_slab_list c) c
  else c.

(** Which list of the cache a slab is on. *)
Inductive slab_place : Type := on_full | on_partial | on_empty | on_none.

Definition mem_list (s : Z) (l : list Z) : bool := existsb (Z.eqb s) l.

Definition place_of (c : kmem_cache) (s : Z) : slab_place :=
  if mem_list s (full_slab_list c) then on_full
  else if mem_list s (partial_slab_list c) then on_partial
  else if mem_list s (empty_slab_list c) then on_empty
  else on_none.

(** [n] allocations in a row, the objects returned latest first. *)
Fixpoint alloc_n (n : nat) (c : kmem_cache) : option (list Z * kmem_cache) :=
  match n with
  | O => Some ([], c)
  | S n' =>
      match alloc_n n' c with
      | None => None
      | Some (objs, c) =>
          match kmem_cache_alloc c 0 with
          | None => None
          | Some (o, c) => Some (o :: objs, c)
          end
      end
  end.

Definition free_all (objs : list Z) (c : kmem_cache) : kmem_cache :=
  fold_left kmem_cache_free objs c.

End Params.

(** The values of [slab.h] used in the scenarios: a header of six
    words, objects up to an eighth of a page in the small layout, eight
    objects asked for per large slab. *)
Definition HDR : Z := 48.
Definition CUTOFF : Z := 512.
Definition NBUF : Z := 8.

(** A cache of 64-byte objects with the given alignment and one page to
    grow into, at 0x200000; the header of that page's slab. *)
Definition cache64 (al : Z) : kmem_cache :=
  __kmem_cache_create 64 al [0x200000] [].
Definition slab0 : Z := 0x200000 + PGSIZE - HDR.

(** What a run leaves of the first slab: where it is, its busy count and
    its size in objects. *)
Definition slab_view (r : option (list Z * kmem_cache))
    : option (slab_place * Z * Z) :=
  match r with
  | None => None
  | Some (_, c) =>
      Some (place_of c slab0, num_busy_obj (slabs c slab0),
            num_total_obj (slabs c slab0))
  end.

(** The run [r] followed by the freeing of the objects [pick] selects
    among those it allocated. *)
Definition then_free (pick : list Z -> list Z)
    (r : option (list Z * kmem_cache)) : option (list Z * kmem_cache) :=
  match r with
  | None => None
  | Some (objs, c) => Some ([], free_all HDR CUTOFF (pick objs) c)
  end.

End Slab.

(** * futex.c: wait and wake on a user address *)

Module Futex.

(** [__futex] and what the calls reach.  The queue holds the addresses
    of its elements, head first; [e_pthread] and [e_uaddr] are the
    fields of the elements, [ints] the integers at user addresses and
    [pth_state] the state field of the threads.  The calls run under
    [__futex.lock], one at a time.  [cache_objs] lists what
    [kmem_cache_alloc] on the element cache will return,
    [cache_freed] what was handed to [kmem_cache_free], and
    [made_runnable] the threads handed to [uthread_runnable], each in
    the order of the calls. *)
Record futex_data : Type := mk_futex {
  initialized : bool;
  queue : list Z;
  e_pthread : Z -> Z;
  e_uaddr : Z -> Z;
  ints : Z -> Z;
  pth_state : Z -> Z;
  made_runnable : list Z;
  cache_objs : list Z;
  cache_freed : list Z;
  errno : Z;
}.

Definition set_queue (v : list Z) (f : futex_data) : futex_data :=
  mk_futex (initialized f) v (e_pthread f) (e_uaddr f) (ints f) (pth_state f)
    (made_runnable f) (cache_objs f) (cache_freed f) (errno f).
Definition set_e_pthread (e v : Z) (f : futex_data) : futex_data :=
  mk_futex (initialized f) (queue f) (fupd (e_pthread f) e v) (e_uaddr f)
    (ints f) (pth_state f) (made_runnable f) (cache_objs f) (cache_freed f)
    (errno f).
Definition set_e_uaddr (e v : Z) (f : futex_data) : futex_data :=
  mk_futex (initialized f) (queue f) (e_pthread f) (fupd (e_uaddr f) e v)
    (ints f) (pth_state f) (made_runnable f) (cache_objs f) (cache_freed f)
    (errno f).
Definition set_pth_state (t v : Z) (f : futex_data) : futex_data :=
  mk_futex (initialized f) (queue f) (e_pthread f) (e_uaddr f) (ints f)
    (fupd (pth_state f) t v) (made_runnable f) (cache_objs f) (cache_freed f)
    (errno f).
Definition set_cache_objs (v : list Z) (f : futex_data) : futex_data :=
  mk_futex (initialized f) (queue f) (e_pthread f) (e_uaddr f) (ints f)
    (pth_state f) (made_runnable f) v (cache_freed f) (errno f).
Definition set_errno (v : Z) (f : futex_data) : futex_data :=
  mk_futex (initialized f) (queue f) (e_pthread f) (e_uaddr f) (ints f)
    (pth_state f) (made_runnable f) (cache_objs f) (cache_freed f) v.

(** [uthread_runnable] and [kmem_cache_free] on the element cache. *)
Definition uthread_runnable (t : Z) (f : futex_data) : futex_data :=
  mk_futex (initialized f) (queue f) (e_pthread f) (e_uaddr f) (ints f)
    (pth_state f) (made_runnable f ++ [t]) (cache_objs f) (cache_freed f)
    (errno f).
Definition element_free (e : Z) (f : futex_data) : futex_data :=
  mk_futex (initialized f) (queue f) (e_pthread f) (e_uaddr f) (ints f)
    (pth_state f) (made_runnable f) (cache_objs f) (cache_freed f ++ [e])
    (errno f).

(** [futex_init]: the first call empties the queue. *)
Definition futex_init (f : futex_data) : futex_data :=
  if initialized f then f else
  mk_futex true [] (e_pthread f) (e_uaddr f) (ints f) (pth_state f)
    (made_runnable f) (cache_objs f) (cache_freed f) (errno f).

(** The loop of [futex_wake] from the element [e] on: [todo] is the
    queue from [e], the next pointer is read before [e] is removed. *)
Fixpoint wake_loop (todo : list Z) (uaddr count : Z) (f : futex_data)
    : futex_data :=
  match todo with
  | [] => f
  | e :: n =>
      if count >? 0 then
        if e_uaddr f e =? uaddr then
          let f := set_queue (list_remove e (queue f)) f in
          let f := uthread_runnable (e_pthread f e) f in
          let f := element_free e f in
          wake_loop n uaddr (count - 1) f
        else wake_loop n uaddr count f
      else f
  end.

Definition futex_wake (f : futex_data) (uaddr count : Z) : Z * futex_data :=
  (0, wake_loop (queue f) uaddr count f).

Section Constants.

(** What the headers define: the state of a thread blocked on a mutex,
    the two operations, and the error number of a call that is not
    implemented. *)
Variable PTH_BLK_MUTEX : Z.
Variable FUTEX_WAIT : Z.
Variable FUTEX_WAKE : Z.
Variable ENOSYS : Z.

(** [__futex_block], run for the thread [self] that yields. *)
Definition __futex_block (f : futex_data) (self e : Z) : futex_data :=
  let f := set_e_pthread e self f in
  let f := set_pth_state (e_pthread f e) PTH_BLK_MUTEX f in
  set_queue (queue f ++ [e]) f.

(** [futex_wait], called by the thread [self]: [None] when the element
    cache does not return. *)
Definition futex_wait (f : futex_data) (self uaddr val : Z)
    : option (Z * futex_data) :=
  if ints f uaddr =? val then
    match cache_objs f with
    | [] => None
    | e :: rest =>
        let f := set_cache_objs rest f in
        let f := set_e_uaddr e uaddr f in
        Some (0, __futex_block f self e)
    end
  else Some (0, f).

(** [futex]: [None] when an assertion fails or the call does not
    return. *)
Definition futex (f : futex_data) (self uaddr op val timeout uaddr2 val3 : Z)
    : option (Z * futex_data) :=
  if negb (timeout =? 0) then None else
  if negb (uaddr2 =? 0) then None else
  if negb (val3 =? 0) then None else
  let f := futex_init f in
  if op =? FUTEX_WAIT then futex_wait f self uaddr val
  else if op =? FUTEX_WAKE then Some (futex_wake f uaddr val)
  else Some (-1, set_errno ENOSYS f).

End Constants.

(** The elements of a list that wait on [uaddr], and the others. *)
Definition waits_on (f : futex_data) (uaddr : Z) (e : Z) : bool :=
  e_uaddr f e =? uaddr.

Definition waiters (f : futex_data) (uaddr : Z) : list Z :=
  filter (waits_on f uaddr) (queue f).

Definition others (f : futex_data) (uaddr : Z) : list Z :=
  filter (fun e => negb (waits_on f uaddr e)) (queue f).

End Futex.

(** * slab.c: the list of all caches *)

(** The second half of [__kmem_cache_create]: the new cache [kc] is
    linked into [kmem_caches] behind the caches at the front whose
    objects are smaller, or at the head when there is none.  [sizes]
    gives the [obj_size] of a cache by its address. *)
Fixpoint kmem_caches_insert (sizes : Z -> Z) (kc : Z) (l : list Z) : list Z :=
  match l with
  | [] => [kc]
  | i :: l' =>
      if sizes i <? sizes kc then i :: kmem_caches_insert sizes kc l'
      else kc :: l
  end.

(** * Properties of states *)

(** A tag that heads the free list of its size and is marked free. *)
Definition heads_bucket (a : arena) (bt : Z) : Prop :=
  status_of a bt = BTAG_FREE
  /\ hd_error (free_segs a (LOG2_DOWN (size_of a bt))) = Some bt.


(** Every tag on the allocation hash is marked allocated (the second
    loop of [__arena_asserter]). *)
Definition hash_allocated (a : arena) : bool :=
  forallb (fun bt => status_eqb (status_of a bt) BTAG_ALLOC) (alloc_hash a).


(** The tag [m] fills its span: the tag before it in the tree is a span
    tag with the start and the size of [m]. *)
Definition whole_span (a : arena) (m : Z) : option Z :=
  match rb_prev (all_segs a) m with
  | Some sp =>
      if status_eqb (status_of a sp) BTAG_SPAN
         && (start_of a sp =? start_of a m)
         && (size_of a sp =? size_of a m)
      then Some sp else None
  | None => None
  end.

Fixpoint nodupb (l : list Z) : bool :=
  match l with
  | [] => true
  | x :: l' => negb (existsb (Z.eqb x) l') && nodupb l'
  end.


(** A merge leaves alone what is not the tree, the free lists, the
    unused list or the tags. *)
Definition same_books (a a' : arena) : Prop :=
  ffunc a' = ffunc a /\ amt_total_segs a' = amt_total_segs a
  /\ amt_alloc_segs a' = amt_alloc_segs a /\ nr_allocs a' = nr_allocs a
  /\ alloc_hash a' = alloc_hash a /\ quantum a' = quantum a
  /\ afunc a' = afunc a /\ source a' = source a.


(** Two tags of the tree touch and are both free: [left.start +
    left.size == right.start], whatever lies between them in the tree. *)
Definition touching_free (a : arena) (l r : Z) : bool :=
  status_eqb (status_of a l) BTAG_FREE
  && status_eqb (status_of a r) BTAG_FREE
  && (wadd (start_of a l) (size_of a l) =? start_of a r).



(** [R] holds of every two neighbours of the list. *)
Fixpoint chain (R : Z -> Z -> bool) (l : list Z) : bool :=
  match l with
  | x :: ((y :: _) as l') => R x y && chain R l'
  | _ => true
  end.

(** No two neighbours of the tree are free tags that touch. *)
Definition coalesced (a : arena) : bool :=
  chain (fun x y => negb (touching_free a x y)) (all_segs a).

(** A tag describes a segment of the address space: it is not empty and
    does not wrap. *)
Definition tag_ok (a : arena) (bt : Z) : bool :=
  (0 <=? start_of a bt) && (0 <? size_of a bt)
  && (start_of a bt + size_of a bt <? WORD).

(** Neighbours of the tree are in address order: a span tag is not
    above the tag that follows it, a segment ends where the next tag
    starts or below. *)
Definition ordered_pair (a : arena) (x y : Z) : bool :=
  if status_eqb (status_of a x) BTAG_SPAN
  then start_of a x <=? start_of a y
  else start_of a x + size_of a x <=? start_of a y.

(** The tree holds no tag twice, its tags are segments, in order. *)
Definition segs_ok (a : arena) : bool :=
  nodupb (all_segs a) && forallb (tag_ok a) (all_segs a)
  && chain (ordered_pair a) (all_segs a).

(** The last element of a list, and whether [R] holds between the last
    element of one list and the first of the next. *)
Fixpoint last_error (l : list Z) : option Z :=
  match l with
  | [] => None
  | [x] => Some x
  | _ :: l' => last_error l'
  end.

Definition link (R : Z -> Z -> bool) (l1 l2 : list Z) : bool :=
  match last_error l1, hd_error l2 with
  | Some p, Some y => R p y
  | _, _ => true
  end.



(** The tree invariant of [segs_ok], as a proposition; and the relation
    "not two free tags that touch". *)
Definition tree_inv (a : arena) : Prop :=
  NoDup (all_segs a)
  /\ forallb (tag_ok a) (all_segs a) = true
  /\ chain (ordered_pair a) (all_segs a) = true.



(** Every tag on a free list is in the tree, on the list of its size;
    no unused tag is in the tree. *)
Definition lists_ok (a : arena) : bool :=
  forallb (fun i =>
             forallb (fun bt => existsb (Z.eqb bt) (all_segs a)
                                && (LOG2_DOWN (size_of a bt) =? i))
               (free_segs a i))
    (map Z.of_nat (seq 0 (Z.to_nat ARENA_NR_FREE_LISTS)))
  && forallb (fun bt => negb (existsb (Z.eqb bt) (all_segs a)))
       (unused_btags a).

Definition in_word (x : Z) : bool := (0 <=? x) && (x <? WORD).

(** The counters are machine words and the quantum is not 0. *)
Definition words_ok (a : arena) : bool :=
  in_word (amt_total_segs a) && in_word (amt_alloc_segs a)
  && in_word (nr_allocs a) && (0 <? quantum a).

(** No free tag fills its span (such a span goes back to the source at
    the free that empties it). *)
Definition no_idle_span (a : arena) : bool :=
  forallb (fun bt => negb (status_eqb (status_of a bt) BTAG_FREE)
                     || match whole_span a bt with
                        | None => true
                        | Some _ => false
                        end) (all_segs a).

(** The state an instant-fit allocation can be undone from: the tree in
    order and coalesced, no idle span, the lists consistent, a spare
    boundary tag at hand. *)
Definition settled (a : arena) : bool :=
  segs_ok a && coalesced a && no_idle_span a && lists_ok a && words_ok a
  && __has_enough_btags a 1.


(** [__account_alloc] in two pieces: the fields it writes when it splits
    the tag [bt] and gives the rest to [new], and the closing
    bookkeeping of the allocation. *)
Definition split_fields (a : arena) (bt size new : Z) : arena :=
  let a := set_start new (wadd (start_of a bt) size) a in
  let a := set_size new (wsub (size_of a bt) size) a in
  let a := set_size bt size a in
  __track_free_seg a new.

Definition alloc_counted (a : arena) (bt size : Z) : arena :=
  let a := __track_alloc_seg a bt in
  let a := set_amt_alloc_segs (wadd (amt_alloc_segs a) size) a in
  set_nr_allocs (wadd (nr_allocs a) 1) a.

(** [free_from_arena] up to the marking of the freed tag. *)
Definition free_marked (a : arena) (bt size : Z) : arena :=
  let a := set_alloc_hash (list_remove bt (alloc_hash a)) a in
  let a := set_amt_alloc_segs (wsub (amt_alloc_segs a) size) a in
  let a := set_nr_allocs (wsub (nr_allocs a) 1) a in
  __track_free_seg a bt.

(** A step leaves the list of import results as it found it in [a]. *)
Definition imports_kept {A : Type} (r : res A) (a : arena) : Prop :=
  match r with
  | Panic => True
  | Ret _ a' => afunc a' = afunc a
  end.

(** * Properties of the code beyond the claims: what they are stated with *)

(** The tag [bt] holds the allocation of [size] at [p]: it is marked
    allocated and is the latest entry of the allocation hash. *)
Definition served (a : arena) (bt p size : Z) : Prop :=
  start_of a bt = p /\ size_of a bt = size
  /\ status_of a bt = BTAG_ALLOC /\ hd_error (alloc_hash a) = Some bt.

(** The range [p, p + size) crosses no multiple of [nocross]. *)
Definition no_cross (p size nocross : Z) : Prop :=
  p / nocross = (p + size - 1) / nocross.

(** The tags of a list start in ascending order. *)
Definition starts_sorted (a : arena) (l : list Z) : bool :=
  chain (fun x y => start_of a x <=? start_of a y) l.

(** The state a constrained search is run in: the tree in order, the
    lists consistent with it, a quantum, and the two boundary tags a
    split may need at hand. *)
Definition searchable (a : arena) : bool :=
  segs_ok a && lists_ok a && (0 <? quantum a) && __has_enough_btags a 2.

(** A step leaves the quantum as it found it in [a]. *)
Definition quantum_kept {A : Type} (r : res A) (a : arena) : Prop :=
  match r with
  | Panic => True
  | Ret _ a' => quantum a' = quantum a
  end.

(** The sums of [__arena_asserter] before they are cut to a machine
    word: what a tag adds to the amount and to the number of the tags
    of a status, and the sum over a list. *)
Definition zsum (f : Z -> Z) (l : list Z) : Z :=
  fold_right (fun x acc => f x + acc) 0 l.

Definition contrib (a : arena) (st : btag_status_t) (bt : Z) : Z :=
  if status_eqb (status_of a bt) st then size_of a bt else 0.

Definition counted (a : arena) (st : btag_status_t) (bt : Z) : Z :=
  if status_eqb (status_of a bt) st then 1 else 0.

(** Every tag of the allocation hash is in the tree. *)
Definition hash_in_tree (a : arena) : bool :=
  forallb (fun bt => existsb (Z.eqb bt) (all_segs a)) (alloc_hash a).

(** The books of an arena are in order: the counters are what
    [__arena_asserter] computes from the tree, the tree and the hash
    hold no tag twice, and the tags of the hash are tags of the tree
    that are marked allocated. *)
Definition books_ok (a : arena) : bool :=
  asserter_counters a && nodupb (all_segs a) && hash_in_tree a
  && hash_allocated a && nodupb (alloc_hash a).

(** From [a] to [a'] the three sums of the asserter have moved by
    [dF], [dA] and [dN], each up to a multiple of the word. *)
Definition same_sums (a a' : arena) (dF dA dN : Z) : Prop :=
  wrap (zsum (contrib a' BTAG_FREE) (all_segs a'))
  = wrap (zsum (contrib a BTAG_FREE) (all_segs a) + dF)
  /\ wrap (zsum (contrib a' BTAG_ALLOC) (all_segs a'))
     = wrap (zsum (contrib a BTAG_ALLOC) (all_segs a) + dA)
  /\ wrap (zsum (counted a' BTAG_ALLOC) (all_segs a'))
     = wrap (zsum (counted a BTAG_ALLOC) (all_segs a) + dN).

(** The slab [s] of a small layout holds [total] objects of [osz] bytes
    from [page] on, the first [busy] of them handed out, and its free
    list runs through the others in address order and ends in null. *)
Definition slab_threaded (c : Slab.kmem_cache) (s page osz total : Z)
    (busy : nat) : Prop :=
  Slab.slabs c s
  = Slab.mk_slab osz (Z.of_nat busy) total
      (if Z.of_nat busy <? total then page + Z.of_nat busy * osz else 0) []
  /\ forall i, (busy <= i)%nat -> Z.of_nat i < total ->
       Slab.words c (page + Z.of_nat i * osz + Slab.obj_size c)
       = if Z.of_nat (S i) <? total then page + Z.of_nat (S i) * osz else 0.

(** [slab_threaded], as a check that runs. *)
Definition slab_eqb (x y : Slab.kmem_slab) : bool :=
  (Slab.slab_obj_size x =? Slab.slab_obj_size y)
  && (Slab.num_busy_obj x =? Slab.num_busy_obj y)
  && (Slab.num_total_obj x =? Slab.num_total_obj y)
  && (Slab.free_small_obj x =? Slab.free_small_obj y)
  && forallb (fun p => fst p =? snd p)
       (combine (Slab.bufctl_freelist x) (Slab.bufctl_freelist y))
  && (length (Slab.bufctl_freelist x) =? length (Slab.bufctl_freelist y))%nat.

Definition slab_threadedb (c : Slab.kmem_cache) (s page osz total : Z)
    (busy : nat) : bool :=
  slab_eqb (Slab.slabs c s)
    (Slab.mk_slab osz (Z.of_nat busy) total
       (if Z.of_nat busy <? total then page + Z.of_nat busy * osz else 0) [])
  && forallb (fun i =>
                Slab.words c (page + Z.of_nat i * osz + Slab.obj_size c)
                =? (if Z.of_nat (S i) <? total
                    then page + Z.of_nat (S i) * osz else 0))
       (seq busy (Z.to_nat total - busy)).

(** Two caches hold the same: their lists, their counter, and, at every
    address, the same slab header and the same word. *)
Definition same_cache (c c' : Slab.kmem_cache) : Prop :=
  Slab.full_slab_list c' = Slab.full_slab_list c
  /\ Slab.partial_slab_list c' = Slab.partial_slab_list c
  /\ Slab.empty_slab_list c' = Slab.empty_slab_list c
  /\ Slab.nr_cur_alloc c' = Slab.nr_cur_alloc c
  /\ Slab.obj_size c' = Slab.obj_size c
  /\ Slab.kpages c' = Slab.kpages c
  /\ (forall x, Slab.slabs c' x = Slab.slabs c x)
  /\ (forall p, Slab.words c' p = Slab.words c p).

(** The caches of a list are in the order of their object sizes. *)
Definition by_size (sizes : Z -> Z) (l : list Z) : bool :=
  chain (fun x y => sizes x <=? sizes y) l.

(** Every tag on a free list is marked free (the first loop of
    [__arena_asserter] asserts it). *)
Definition lists_free (a : arena) : bool :=
  forallb (fun i =>
             forallb (fun bt => status_eqb (status_of a bt) BTAG_FREE)
               (free_segs a i))
    (map Z.of_nat (seq 0 (Z.to_nat ARENA_NR_FREE_LISTS))).

(** No tag of the tree starts at address 0. *)
Definition above_null (a : arena) : bool :=
  forallb (fun bt => 0 <? start_of a bt) (all_segs a).

(** The free lists from [k] on are empty. *)
Definition no_list_from (a : arena) (k : Z) : bool :=
  forallb (fun i => (i <? k) || match free_segs a i with
                                | [] => true
                                | _ :: _ => false
                                end)
    (map Z.of_nat (seq 0 (Z.to_nat ARENA_NR_FREE_LISTS))).

(** From [a0] to [a] the arena has kept its source, its kind, its
    quantum, its import scale and its allocations, and its free lists
    from [k] on are empty. *)
Definition starved (a0 a : arena) (k : Z) : Prop :=
  source a = source a0 /\ is_base a = is_base a0
  /\ quantum a = quantum a0 /\ import_scale a = import_scale a0
  /\ amt_alloc_segs a = amt_alloc_segs a0 /\ nr_allocs a = nr_allocs a0
  /\ alloc_hash a = alloc_hash a0
  /\ forall i, k <= i < ARENA_NR_FREE_LISTS -> free_segs a i = [].

(** * Properties of states: what the amended claims are stated with *)

(** The allocation hash records no start address twice. *)
Definition hash_starts_once (a : arena) : bool :=
  nodupb (map (start_of a) (alloc_hash a)).

(** The tags of [l] are segment tags that lie end to end from the
    address [s] to the address [e]. *)
Fixpoint tiles (a : arena) (s e : Z) (l : list Z) : bool :=
  match l with
  | [] => s =? e
  | t :: l' =>
      negb (status_eqb (status_of a t) BTAG_SPAN) && (start_of a t =? s)
      && tiles a (s + size_of a t) e l'
  end.

(** The tree holds the span tag [sp] followed by the segments [inside]
    of that span, which fill it from end to end; what follows them, if
    anything, is the tag of another span. *)
Definition span_of (a : arena) (pre : list Z) (sp : Z) (inside post : list Z)
    : Prop :=
  all_segs a = pre ++ sp :: inside ++ post
  /\ status_of a sp = BTAG_SPAN
  /\ tiles a (start_of a sp) (start_of a sp + size_of a sp) inside = true
  /\ match post with
     | [] => True
     | x :: _ => status_of a x = BTAG_SPAN
     end.

(** Every segment of [inside] other than [bt] is free. *)
Definition rest_free (a : arena) (bt : Z) (inside : list Z) : bool :=
  forallb (fun t => (t =? bt) || status_eqb (status_of a t) BTAG_FREE) inside.

(** The tree is in order and no two neighbours of it are free tags
    that touch. *)
Definition tidy (a : arena) : Prop := tree_inv a /\ coalesced a = true.

(** The addresses of the boundary tags carved from the page at [tags]. *)
Definition page_tags (tags : Z) : list Z :=
  map (fun i => wadd tags (Z.of_nat i * BTAG_SZ))
    (seq 0 (Z.to_nat (PGSIZE / BTAG_SZ))).

(** The tags of the page at [tags] are new to the arena: they are
    distinct, and none of them is a tag of the unused list or of the
    tree. *)
Definition tags_fresh (a : arena) (tags : Z) : bool :=
  nodupb (page_tags tags ++ unused_btags a)
  && forallb (fun t => negb (existsb (Z.eqb t) (all_segs a))) (page_tags tags).

(** The memory the arena takes its boundary tags from holds none of its
    tags: the unused tags are distinct and, in a base arena, every free
    segment of a page or more is fresh memory; in another arena, every
    page the base arena will hand out is. *)
Definition tag_supply (a : arena) : bool :=
  nodupb (unused_btags a)
  && (if is_base a
      then forallb (fun bt => negb (status_eqb (status_of a bt) BTAG_FREE)
                              || (size_of a bt <? PGSIZE)
                              || tags_fresh a (start_of a bt)) (all_segs a)
      else forallb (fun pg => (pg =? 0) || tags_fresh a pg) (base_pages a)).

(** [k] boundary tags can be had without harm: the unused tags are
    distinct and outside the tree, and there are [k] of them or every
    page to come is fresh. *)
Definition tags_ready (a : arena) (k : Z) : Prop :=
  NoDup (unused_btags a)
  /\ (forall u, In u (unused_btags a) -> ~ In u (all_segs a))
  /\ (k <= Z.of_nat (length (unused_btags a))
      \/ forall pg, In pg (base_pages a) -> pg <> 0 -> tags_fresh a pg = true).

(** What the claim compares: the tree with its tags, the free lists,
    the allocation hash and the three counters. *)
Definition same_segments (a a' : arena) : Prop :=
  all_segs a' = all_segs a
  /\ (forall bt, In bt (all_segs a) -> bts a' bt = bts a bt)
  /\ (forall i, free_segs a' i = free_segs a i)
  /\ alloc_hash a' = alloc_hash a
  /\ counters a' = counters a.

(** Every tag on a free list is a tag of the tree. *)
Definition lists_in_tree (a : arena) : Prop :=
  forall j bt, 0 <= j < ARENA_NR_FREE_LISTS -> In bt (free_segs a j) ->
               In bt (all_segs a).

(** * Scenarios *)

(** The page the base arena hands out for tags in the scenarios. *)
Definition TAG_PAGE : Z := 0x700000.

(** An arena as [arena_create] leaves it when given no source and no
    initial span: not a base arena, no tags yet, the cursor word zero. *)
Definition fresh_arena (quantum : Z) : arena :=
  arena_init quantum false [] [TAG_PAGE] 0 mem0.

(** One segment added to a fresh arena. *)
Definition one_seg (quantum base size : Z) : res Z :=
  arena_add (fresh_arena quantum) base size 0.

(** Some tag of the tree is allocated and starts at [p]. *)
Definition allocated_at (a : arena) (p : Z) : bool :=
  existsb (fun bt => status_eqb (status_of a bt) BTAG_ALLOC
                     && (start_of a bt =? p)) (all_segs a).

(** [n] next-fit allocations of [size] in a row: the addresses returned,
    first call first ([None] for a call that panics). *)
Fixpoint nextfit_run (n : nat) (a : arena) (size flags : Z)
    : list (option Z) :=
  match n with
  | O => []
  | S n' =>
      match arena_alloc a size flags with
      | Panic => [None]
      | Ret p a' => Some p :: nextfit_run n' a' size flags
      end
  end.

(** The state after the calls of [nextfit_run]. *)
Fixpoint nextfit_state (n : nat) (a : arena) (size flags : Z) : res Z :=
  match n with
  | O => Ret 0 a
  | S n' =>
      match arena_alloc a size flags with
      | Panic => Panic
      | Ret _ a' => nextfit_state n' a' size flags
      end
  end.

(** The best-fit trace: a segment of 0x300, an instant-fit allocation of
    0x100, a best-fit one of 0x200 that the scan of list 9 serves, both
    freed, and a best-fit allocation of 0x200 again. *)
Definition bestfit_trace : res Z :=
  let r := one_seg 0x100 0x1000 0x300 in
  let r := and_then r (fun a => arena_alloc a 0x100 ARENA_INSTANTFIT) in
  let r := and_then r (fun a => arena_alloc a 0x200 ARENA_BESTFIT) in
  let r := and_then r (fun a => arena_free a 0x1000 0x100) in
  let r := and_then r (fun a => arena_free a 0x1100 0x200) in
  and_then r (fun a => arena_alloc a 0x200 ARENA_BESTFIT).




Definition NEXTFIT_ATOMIC : Z := Z.lor ARENA_NEXTFIT MEM_ATOMIC.

(** The next-fit scenario moved off address 0: the segment
    [0x1000, 0x2000) with quantum 0x100, two next-fit allocations, and
    the first one freed. *)
Definition nextfit_shifted : res unit :=
  let r := one_seg 0x100 0x1000 0x1000 in
  let r := and_then r (fun a => nextfit_state 2 a 0x100 NEXTFIT_ATOMIC) in
  and_then r (fun a => arena_free a 0x1000 0x100).

(** The nocross request of the scenario, on the state [r]. *)
Definition nocross_request (r : res Z) (flags : Z) : res Z :=
  and_then r (fun a => arena_xalloc a 0x800 0x100 0 0x1000 0 0 flags).

(** An allocation of one quantum of 0x100 at 0x1000, to be freed. *)
Definition one_alloc : res Z :=
  and_then (one_seg 0x100 0x1000 0x1000)
    (fun a => arena_alloc a 0x100 0).

Definition is_panic {A : Type} (r : res A) : bool :=
  match r with
  | Panic => true
  | Ret _ _ => false
  end.

(** No style bit (instant fit by default) and each of the three. *)
Definition alloc_styles : list Z :=
  [0; ARENA_BESTFIT; ARENA_INSTANTFIT; ARENA_NEXTFIT].

(** The state a call left (the fresh arena if it panicked). *)
Definition state_of {A : Type} (r : res A) : arena :=
  match r with
  | Panic => fresh_arena 1
  | Ret _ a => a
  end.

(** A child arena: a source that will hand out 0x10000, imports scaled
    by two, quantum 1; and the allocation of 0x800 that imports the span
    [0x10000, 0x11000). *)
Definition child_arena : arena :=
  set_import_scale 1 (arena_init 1 true [0x10000] [TAG_PAGE] 0 mem0).

Definition child_alloc : res Z := arena_alloc child_arena 0x800 0.



(** Two free segments of one size, apart from each other, and a next-fit
    round trip of that size. *)
Definition two_apart : res Z :=
  and_then (one_seg 0x100 0x1000 0x100) (fun a => arena_add a 0x3000 0x100 0).

Definition nextfit_round_trip : res unit :=
  and_then (and_then two_apart (fun a => arena_alloc a 0x100 ARENA_NEXTFIT))
    (fun a => arena_free a 0x1000 0x100).


(** * Scenarios for the further properties *)

(** The segment [0x1000, 0x4000) with quantum 1, and constrained
    requests on it. *)
Definition three_pages : arena := state_of (one_seg 1 0x1000 0x3000).

Definition phased_request : res Z :=
  arena_xalloc three_pages 0x400 0x1000 0xc00 0x1000 0 0 0.

Definition bounded_request : res Z :=
  arena_xalloc three_pages 0x800 0x100 0 0 0x1000 0x3000 0.



(** A futex with nobody waiting, every user integer 7, and two
    elements left in its cache. *)
Definition futex0 : Futex.futex_data :=
  Futex.mk_futex true [] (fun _ => 0) (fun _ => 0) (fun _ => 7) (fun _ => 0)
    [] [0x9000; 0x9040] [] 0.

(** The cache of 64-byte objects aligned to 8 after three allocations,
    and after a fourth. *)
Definition three_out : Slab.kmem_cache :=
  match Slab.alloc_n Slab.HDR Slab.CUTOFF Slab.NBUF 3 (Slab.cache64 8) with
  | Some (_, c) => c
  | None => Slab.cache64 8
  end.

Definition four_out : Slab.kmem_cache :=
  match Slab.kmem_cache_alloc Slab.HDR Slab.CUTOFF Slab.NBUF three_out 0 with
  | Some (_, c) => c
  | None => three_out
  end.

(** Three caches, of 32, 64 and 256 bytes, and a new one of 64. *)
Definition cache_sizes (kc : Z) : Z :=
  if kc =? 0xa000 then 32 else if kc =? 0xb000 then 64
  else if kc =? 0xc000 then 256 else 64.

(** A cache of 1024-byte objects, in the large layout: pages at
    0x300000 to grow into, a slab header at 0x400000 and fifteen
    bufctls behind it; and the cache after one allocation. *)
Definition cache1k : Slab.kmem_cache :=
  Slab.__kmem_cache_create 1024 8 [0x300000]
    (0x400000 :: map (fun i => 0x400100 + 0x40 * Z.of_nat i) (seq 0 15)).

Definition one_large : Slab.kmem_cache :=
  match Slab.kmem_cache_alloc Slab.HDR Slab.CUTOFF Slab.NBUF cache1k 0 with
  | Some (_, c) => c
  | None => cache1k
  end.

Definition two_large : Slab.kmem_cache :=
  match Slab.kmem_cache_alloc Slab.HDR Slab.CUTOFF Slab.NBUF one_large 0 with
  | Some (_, c) => c
  | None => one_large
  end.

(** A child arena that imports what is asked for and no more: quantum
    0x100, import scale 0, and a source that will hand out two spans. *)
Definition plain_child : arena :=
  arena_init 0x100 true [0x10000; 0x20000] [TAG_PAGE] 0 mem0.

(** * Scenarios for the amended claims *)

(** A child arena that imports four times what is asked for, after two
    allocations of 0x400 in the span [0x10000, 0x11000) and the free of
    the first: the span holds a free, an allocated and a free segment. *)
Definition span_three : arena :=
  let a := set_import_scale 2 (arena_init 1 true [0x10000] [TAG_PAGE] 0 mem0) in
  let r := arena_alloc a 0x400 0 in
  let r := and_then r (fun a => arena_alloc a 0x400 0) in
  state_of (and_then r (fun a => arena_free a 0x10000 0x400)).

(** * Lemmas: words *)

Lemma WORD_pos : 0 < WORD.
Proof. reflexivity. Qed.

Lemma wrap_range x : 0 <= wrap x < WORD.
Proof. unfold wrap. apply Z.mod_pos_bound. exact WORD_pos. Qed.

Lemma wrap_small x : 0 <= x < WORD -> wrap x = x.
Proof. intros H. unfold wrap. apply Z.mod_small. exact H. Qed.

Lemma wadd_range x y : 0 <= wadd x y < WORD.
Proof. apply wrap_range. Qed.

Lemma wsub_range x y : 0 <= wsub x y < WORD.
Proof. apply wrap_range. Qed.

Lemma wadd_wsub s t : wadd s (wsub t s) = wrap t.
Proof.
  unfold wadd, wsub, wrap. rewrite Zplus_mod_idemp_r. f_equal. lia.
Qed.


Lemma wadd_small x y : 0 <= x + y < WORD -> wadd x y = x + y.
Proof. apply wrap_small. Qed.

Lemma wsub_small x y : 0 <= x - y < WORD -> wsub x y = x - y.
Proof. apply wrap_small. Qed.

(** * Lemmas: reading a state after a write *)

Create Rewrite HintDb fields.

Lemma start_of_set_is_base v a x : start_of (set_is_base v a) x = start_of a x.
Proof. reflexivity. Qed.

#[global] Hint Rewrite start_of_set_is_base : fields.

Lemma size_of_set_is_base v a x : size_of (set_is_base v a) x = size_of a x.
Proof. reflexivity. Qed.

#[global] Hint Rewrite size_of_set_is_base : fields.

Lemma status_of_set_is_base v a x : status_of (set_is_base v a) x = status_of a x.
Proof. reflexivity. Qed.

#[global] Hint Rewrite status_of_set_is_base : fields.

Lemma start_of_set_all_segs v a x : start_of (set_all_segs v a) x = start_of a x.
Proof. reflexivity. Qed.

#[global] Hint Rewrite start_of_set_all_segs : fields.

Lemma size_of_set_all_segs v a x : size_of (set_all_segs v a) x = size_of a x.
Proof. reflexivity. Qed.

#[global] Hint Rewrite size_of_set_all_segs : fields.

Lemma status_of_set_all_segs v a x : status_of (set_all_segs v a) x = status_of a x.
Proof. reflexivity. Qed.

#[global] Hint Rewrite status_of_set_all_segs : fields.

Lemma start_of_set_unused_btags v a x : start_of (set_unused_btags v a) x = start_of a x.
Proof. reflexivity. Qed.

#[global] Hint Rewrite start_of_set_unused_btags : fields.

Lemma size_of_set_unused_btags v a x : size_of (set_unused_btags v a) x = size_of a x.
Proof. reflexivity. Qed.

#[global] Hint Rewrite size_of_set_unused_btags : fields.

Lemma status_of_set_unused_btags v a x : status_of (set_unused_btags v a) x = status_of a x.
Proof. reflexivity. Qed.

#[global] Hint Rewrite status_of_set_unused_btags : fields.

Lemma start_of_set_alloc_hash v a x : start_of (set_alloc_hash v a) x = start_of a x.
Proof. reflexivity. Qed.

#[global] Hint Rewrite start_of_set_alloc_hash : fields.

Lemma size_of_set_alloc_hash v a x : size_of (set_alloc_hash v a) x = size_of a x.
Proof. reflexivity. Qed.

#[global] Hint Rewrite size_of_set_alloc_hash : fields.

Lemma status_of_set_alloc_hash v a x : status_of (set_alloc_hash v a) x = status_of a x.
Proof. reflexivity. Qed.

#[global] Hint Rewrite status_of_set_alloc_hash : fields.

Lemma start_of_set_afunc v a x : start_of (set_afunc v a) x = start_of a x.
Proof. reflexivity. Qed.

#[global] Hint Rewrite start_of_set_afunc : fields.

Lemma size_of_set_afunc v a x : size_of (set_afunc v a) x = size_of a x.
Proof. reflexivity. Qed.

#[global] Hint Rewrite size_of_set_afunc : fields.

Lemma status_of_set_afunc v a x : status_of (set_afunc v a) x = status_of a x.
Proof. reflexivity. Qed.

#[global] Hint Rewrite status_of_set_afunc : fields.

Lemma start_of_set_ffunc v a x : start_of (set_ffunc v a) x = start_of a x.
Proof. reflexivity. Qed.

#[global] Hint Rewrite start_of_set_ffunc : fields.

Lemma size_of_set_ffunc v a x : size_of (set_ffunc v a) x = size_of a x.
Proof. reflexivity. Qed.

#[global] Hint Rewrite size_of_set_ffunc : fields.

Lemma status_of_set_ffunc v a x : status_of (set_ffunc v a) x = status_of a x.
Proof. reflexivity. Qed.

#[global] Hint Rewrite status_of_set_ffunc : fields.

Lemma start_of_set_amt_total_segs v a x : start_of (set_amt_total_segs v a) x = start_of a x.
Proof. reflexivity. Qed.

#[global] Hint Rewrite start_of_set_amt_total_segs : fields.

Lemma size_of_set_amt_total_segs v a x : size_of (set_amt_total_segs v a) x = size_of a x.
Proof. reflexivity. Qed.

#[global] Hint Rewrite size_of_set_amt_total_segs : fields.

Lemma status_of_set_amt_total_segs v a x : status_of (set_amt_total_segs v a) x = status_of a x.
Proof. reflexivity. Qed.

#[global] Hint Rewrite status_of_set_amt_total_segs : fields.

Lemma start_of_set_amt_alloc_segs v a x : start_of (set_amt_alloc_segs v a) x = start_of a x.
Proof. reflexivity. Qed.

#[global] Hint Rewrite start_of_set_amt_alloc_segs : fields.

Lemma size_of_set_amt_alloc_segs v a x : size_of (set_amt_alloc_segs v a) x = size_of a x.
Proof. reflexivity. Qed.

#[global] Hint Rewrite size_of_set_amt_alloc_segs : fields.

Lemma status_of_set_amt_alloc_segs v a x : status_of (set_amt_alloc_segs v a) x = status_of a x.
Proof. reflexivity. Qed.

#[global] Hint Rewrite status_of_set_amt_alloc_segs : fields.

Lemma start_of_set_nr_allocs v a x : start_of (set_nr_allocs v a) x = start_of a x.
Proof. reflexivity. Qed.

#[global] Hint Rewrite start_of_set_nr_allocs : fields.

Lemma size_of_set_nr_allocs v a x : size_of (set_nr_allocs v a) x = size_of a x.
Proof. reflexivity. Qed.

#[global] Hint Rewrite size_of_set_nr_allocs : fields.

Lemma status_of_set_nr_allocs v a x : status_of (set_nr_allocs v a) x = status_of a x.
Proof. reflexivity. Qed.

#[global] Hint Rewrite status_of_set_nr_allocs : fields.

Lemma start_of_set_last_nextfit_alloc v a x : start_of (set_last_nextfit_alloc v a) x = start_of a x.
Proof. reflexivity. Qed.

#[global] Hint Rewrite start_of_set_last_nextfit_alloc : fields.

Lemma size_of_set_last_nextfit_alloc v a x : size_of (set_last_nextfit_alloc v a) x = size_of a x.
Proof. reflexivity. Qed.

#[global] Hint Rewrite size_of_set_last_nextfit_alloc : fields.

Lemma status_of_set_last_nextfit_alloc v a x : status_of (set_last_nextfit_alloc v a) x = status_of a x.
Proof. reflexivity. Qed.

#[global] Hint Rewrite status_of_set_last_nextfit_alloc : fields.

Lemma start_of_set_free_segs v a x : start_of (set_free_segs v a) x = start_of a x.
Proof. reflexivity. Qed.

#[global] Hint Rewrite start_of_set_free_segs : fields.

Lemma size_of_set_free_segs v a x : size_of (set_free_segs v a) x = size_of a x.
Proof. reflexivity. Qed.

#[global] Hint Rewrite size_of_set_free_segs : fields.

Lemma status_of_set_free_segs v a x : status_of (set_free_segs v a) x = status_of a x.
Proof. reflexivity. Qed.

#[global] Hint Rewrite status_of_set_free_segs : fields.

Lemma start_of_set_base_pages v a x : start_of (set_base_pages v a) x = start_of a x.
Proof. reflexivity. Qed.

#[global] Hint Rewrite start_of_set_base_pages : fields.

Lemma size_of_set_base_pages v a x : size_of (set_base_pages v a) x = size_of a x.
Proof. reflexivity. Qed.

#[global] Hint Rewrite size_of_set_base_pages : fields.

Lemma status_of_set_base_pages v a x : status_of (set_base_pages v a) x = status_of a x.
Proof. reflexivity. Qed.

#[global] Hint Rewrite status_of_set_base_pages : fields.


Lemma start_of_set_start b v a x :
  start_of (set_start b v a) x = if x =? b then v else start_of a x.
Proof. unfold start_of, set_start, fupd. simpl. destruct (x =? b); reflexivity. Qed.
Lemma size_of_set_start b v a x : size_of (set_start b v a) x = size_of a x.
Proof.
  unfold size_of, set_start, fupd. simpl.
  destruct (Z.eqb_spec x b) as [->|]; reflexivity.
Qed.
Lemma status_of_set_start b v a x : status_of (set_start b v a) x = status_of a x.
Proof.
  unfold status_of, set_start, fupd. simpl.
  destruct (Z.eqb_spec x b) as [->|]; reflexivity.
Qed.
Lemma start_of_set_size b v a x : start_of (set_size b v a) x = start_of a x.
Proof.
  unfold start_of, set_size, fupd. simpl.
  destruct (Z.eqb_spec x b) as [->|]; reflexivity.
Qed.
Lemma size_of_set_size b v a x :
  size_of (set_size b v a) x = if x =? b then v else size_of a x.
Proof. unfold size_of, set_size, fupd. simpl. destruct (x =? b); reflexivity. Qed.
Lemma status_of_set_size b v a x : status_of (set_size b v a) x = status_of a x.
Proof.
  unfold status_of, set_size, fupd. simpl.
  destruct (Z.eqb_spec x b) as [->|]; reflexivity.
Qed.
Lemma start_of_set_status b v a x : start_of (set_status b v a) x = start_of a x.
Proof.
  unfold start_of, set_status, fupd. simpl.
  destruct (Z.eqb_spec x b) as [->|]; reflexivity.
Qed.
Lemma size_of_set_status b v a x : size_of (set_status b v a) x = size_of a x.
Proof.
  unfold size_of, set_status, fupd. simpl.
  destruct (Z.eqb_spec x b) as [->|]; reflexivity.
Qed.
Lemma status_of_set_status b v a x :
  status_of (set_status b v a) x = if x =? b then v else status_of a x.
Proof. unfold status_of, set_status, fupd. simpl. destruct (x =? b); reflexivity. Qed.
#[global] Hint Rewrite start_of_set_start size_of_set_start status_of_set_start
  start_of_set_size size_of_set_size status_of_set_size
  start_of_set_status size_of_set_status status_of_set_status : fields.

Lemma import_scale_set_start b v a : import_scale (set_start b v a) = import_scale a.
Proof. reflexivity. Qed.

#[global] Hint Rewrite import_scale_set_start : fields.

Lemma is_base_set_start b v a : is_base (set_start b v a) = is_base a.
Proof. reflexivity. Qed.

#[global] Hint Rewrite is_base_set_start : fields.

Lemma quantum_set_start b v a : quantum (set_start b v a) = quantum a.
Proof. reflexivity. Qed.

#[global] Hint Rewrite quantum_set_start : fields.

Lemma all_segs_set_start b v a : all_segs (set_start b v a) = all_segs a.
Proof. reflexivity. Qed.

#[global] Hint Rewrite all_segs_set_start : fields.

Lemma unused_btags_set_start b v a : unused_btags (set_start b v a) = unused_btags a.
Proof. reflexivity. Qed.

#[global] Hint Rewrite unused_btags_set_start : fields.

Lemma alloc_hash_set_start b v a : alloc_hash (set_start b v a) = alloc_hash a.
Proof. reflexivity. Qed.

#[global] Hint Rewrite alloc_hash_set_start : fields.

Lemma afunc_set_start b v a : afunc (set_start b v a) = afunc a.
Proof. reflexivity. Qed.

#[global] Hint Rewrite afunc_set_start : fields.

Lemma ffunc_set_start b v a : ffunc (set_start b v a) = ffunc a.
Proof. reflexivity. Qed.

#[global] Hint Rewrite ffunc_set_start : fields.

Lemma source_set_start b v a : source (set_start b v a) = source a.
Proof. reflexivity. Qed.

#[global] Hint Rewrite source_set_start : fields.

Lemma amt_total_segs_set_start b v a : amt_total_segs (set_start b v a) = amt_total_segs a.
Proof. reflexivity. Qed.

#[global] Hint Rewrite amt_total_segs_set_start : fields.

Lemma amt_alloc_segs_set_start b v a : amt_alloc_segs (set_start b v a) = amt_alloc_segs a.
Proof. reflexivity. Qed.

#[global] Hint Rewrite amt_alloc_segs_set_start : fields.

Lemma nr_allocs_set_start b v a : nr_allocs (set_start b v a) = nr_allocs a.
Proof. reflexivity. Qed.

#[global] Hint Rewrite nr_allocs_set_start : fields.

Lemma last_nextfit_alloc_set_start b v a : last_nextfit_alloc (set_start b v a) = last_nextfit_alloc a.
Proof. reflexivity. Qed.

#[global] Hint Rewrite last_nextfit_alloc_set_start : fields.

Lemma free_segs_set_start b v a : free_segs (set_start b v a) = free_segs a.
Proof. reflexivity. Qed.

#[global] Hint Rewrite free_segs_set_start : fields.

Lemma base_pages_set_start b v a : base_pages (set_start b v a) = base_pages a.
Proof. reflexivity. Qed.

#[global] Hint Rewrite base_pages_set_start : fields.

Lemma import_scale_set_size b v a : import_scale (set_size b v a) = import_scale a.
Proof. reflexivity. Qed.

#[global] Hint Rewrite import_scale_set_size : fields.

Lemma is_base_set_size b v a : is_base (set_size b v a) = is_base a.
Proof. reflexivity. Qed.

#[global] Hint Rewrite is_base_set_size : fields.

Lemma quantum_set_size b v a : quantum (set_size b v a) = quantum a.
Proof. reflexivity. Qed.

#[global] Hint Rewrite quantum_set_size : fields.

Lemma all_segs_set_size b v a : all_segs (set_size b v a) = all_segs a.
Proof. reflexivity. Qed.

#[global] Hint Rewrite all_segs_set_size : fields.

Lemma unused_btags_set_size b v a : unused_btags (set_size b v a) = unused_btags a.
Proof. reflexivity. Qed.

#[global] Hint Rewrite unused_btags_set_size : fields.

Lemma alloc_hash_set_size b v a : alloc_hash (set_size b v a) = alloc_hash a.
Proof. reflexivity. Qed.

#[global] Hint Rewrite alloc_hash_set_size : fields.

Lemma afunc_set_size b v a : afunc (set_size b v a) = afunc a.
Proof. reflexivity. Qed.

#[global] Hint Rewrite afunc_set_size : fields.

Lemma ffunc_set_size b v a : ffunc (set_size b v a) = ffunc a.
Proof. reflexivity. Qed.

#[global] Hint Rewrite ffunc_set_size : fields.

Lemma source_set_size b v a : source (set_size b v a) = source a.
Proof. reflexivity. Qed.

#[global] Hint Rewrite source_set_size : fields.

Lemma amt_total_segs_set_size b v a : amt_total_segs (set_size b v a) = amt_total_segs a.
Proof. reflexivity. Qed.

#[global] Hint Rewrite amt_total_segs_set_size : fields.

Lemma amt_alloc_segs_set_size b v a : amt_alloc_segs (set_size b v a) = amt_alloc_segs a.
Proof. reflexivity. Qed.

#[global] Hint Rewrite amt_alloc_segs_set_size : fields.

Lemma nr_allocs_set_size b v a : nr_allocs (set_size b v a) = nr_allocs a.
Proof. reflexivity. Qed.

#[global] Hint Rewrite nr_allocs_set_size : fields.

Lemma last_nextfit_alloc_set_size b v a : last_nextfit_alloc (set_size b v a) = last_nextfit_alloc a.
Proof. reflexivity. Qed.

#[global] Hint Rewrite last_nextfit_alloc_set_size : fields.

Lemma free_segs_set_size b v a : free_segs (set_size b v a) = free_segs a.
Proof. reflexivity. Qed.

#[global] Hint Rewrite free_segs_set_size : fields.

Lemma base_pages_set_size b v a : base_pages (set_size b v a) = base_pages a.
Proof. reflexivity. Qed.

#[global] Hint Rewrite base_pages_set_size : fields.

Lemma import_scale_set_status b v a : import_scale (set_status b v a) = import_scale a.
Proof. reflexivity. Qed.

#[global] Hint Rewrite import_scale_set_status : fields.

Lemma is_base_set_status b v a : is_base (set_status b v a) = is_base a.
Proof. reflexivity. Qed.

#[global] Hint Rewrite is_base_set_status : fields.

Lemma quantum_set_status b v a : quantum (set_status b v a) = quantum a.
Proof. reflexivity. Qed.

#[global] Hint Rewrite quantum_set_status : fields.

Lemma all_segs_set_status b v a : all_segs (set_status b v a) = all_segs a.
Proof. reflexivity. Qed.

#[global] Hint Rewrite all_segs_set_status : fields.

Lemma unused_btags_set_status b v a : unused_btags (set_status b v a) = unused_btags a.
Proof. reflexivity. Qed.

#[global] Hint Rewrite unused_btags_set_status : fields.

Lemma alloc_hash_set_status b v a : alloc_hash (set_status b v a) = alloc_hash a.
Proof. reflexivity. Qed.

#[global] Hint Rewrite alloc_hash_set_status : fields.

Lemma afunc_set_status b v a : afunc (set_status b v a) = afunc a.
Proof. reflexivity. Qed.

#[global] Hint Rewrite afunc_set_status : fields.

Lemma ffunc_set_status b v a : ffunc (set_status b v a) = ffunc a.
Proof. reflexivity. Qed.

#[global] Hint Rewrite ffunc_set_status : fields.

Lemma source_set_status b v a : source (set_status b v a) = source a.
Proof. reflexivity. Qed.

#[global] Hint Rewrite source_set_status : fields.

Lemma amt_total_segs_set_status b v a : amt_total_segs (set_status b v a) = amt_total_segs a.
Proof. reflexivity. Qed.

#[global] Hint Rewrite amt_total_segs_set_status : fields.

Lemma amt_alloc_segs_set_status b v a : amt_alloc_segs (set_status b v a) = amt_alloc_segs a.
Proof. reflexivity. Qed.

#[global] Hint Rewrite amt_alloc_segs_set_status : fields.

Lemma nr_allocs_set_status b v a : nr_allocs (set_status b v a) = nr_allocs a.
Proof. reflexivity. Qed.

#[global] Hint Rewrite nr_allocs_set_status : fields.

Lemma last_nextfit_alloc_set_status b v a : last_nextfit_alloc (set_status b v a) = last_nextfit_alloc a.
Proof. reflexivity. Qed.

#[global] Hint Rewrite last_nextfit_alloc_set_status : fields.

Lemma free_segs_set_status b v a : free_segs (set_status b v a) = free_segs a.
Proof. reflexivity. Qed.

#[global] Hint Rewrite free_segs_set_status : fields.

Lemma base_pages_set_status b v a : base_pages (set_status b v a) = base_pages a.
Proof. reflexivity. Qed.

#[global] Hint Rewrite base_pages_set_status : fields.

Lemma fupd_same {B : Type} (f : Z -> B) k v : fupd f k v k = v.
Proof. unfold fupd. rewrite Z.eqb_refl. reflexivity. Qed.

Lemma fupd_other {B : Type} (f : Z -> B) k v x : x <> k -> fupd f k v x = f x.
Proof. unfold fupd. intros H. destruct (Z.eqb_spec x k); [contradiction|reflexivity]. Qed.

(** * Lemmas: the other fields through the helpers *)

Lemma all_segs_track_free a b : all_segs (__track_free_seg a b) = all_segs a.
Proof. reflexivity. Qed.
Lemma unused_btags_track_free a b : unused_btags (__track_free_seg a b) = unused_btags a.
Proof. reflexivity. Qed.
Lemma alloc_hash_track_free a b : alloc_hash (__track_free_seg a b) = alloc_hash a.
Proof. reflexivity. Qed.
Lemma free_segs_track_free a b : free_segs (__track_free_seg a b) = fupd (free_segs a) (LOG2_DOWN (size_of a b)) (b :: free_segs a (LOG2_DOWN (size_of a b))).
Proof. reflexivity. Qed.
Lemma amt_total_segs_track_free a b : amt_total_segs (__track_free_seg a b) = amt_total_segs a.
Proof. reflexivity. Qed.
Lemma amt_alloc_segs_track_free a b : amt_alloc_segs (__track_free_seg a b) = amt_alloc_segs a.
Proof. reflexivity. Qed.
Lemma nr_allocs_track_free a b : nr_allocs (__track_free_seg a b) = nr_allocs a.
Proof. reflexivity. Qed.
Lemma ffunc_track_free a b : ffunc (__track_free_seg a b) = ffunc a.
Proof. reflexivity. Qed.
Lemma afunc_track_free a b : afunc (__track_free_seg a b) = afunc a.
Proof. reflexivity. Qed.
Lemma quantum_track_free a b : quantum (__track_free_seg a b) = quantum a.
Proof. reflexivity. Qed.
Lemma source_track_free a b : source (__track_free_seg a b) = source a.
Proof. reflexivity. Qed.
Lemma last_nextfit_alloc_track_free a b : last_nextfit_alloc (__track_free_seg a b) = last_nextfit_alloc a.
Proof. reflexivity. Qed.
Lemma base_pages_track_free a b : base_pages (__track_free_seg a b) = base_pages a.
Proof. reflexivity. Qed.
Lemma is_base_track_free a b : is_base (__track_free_seg a b) = is_base a.
Proof. reflexivity. Qed.
Lemma import_scale_track_free a b : import_scale (__track_free_seg a b) = import_scale a.
Proof. reflexivity. Qed.
Lemma all_segs_track_alloc a b : all_segs (__track_alloc_seg a b) = all_segs a.
Proof. reflexivity. Qed.
Lemma unused_btags_track_alloc a b : unused_btags (__track_alloc_seg a b) = unused_btags a.
Proof. reflexivity. Qed.
Lemma alloc_hash_track_alloc a b : alloc_hash (__track_alloc_seg a b) = b :: alloc_hash a.
Proof. reflexivity. Qed.
Lemma free_segs_track_alloc a b : free_segs (__track_alloc_seg a b) = free_segs a.
Proof. reflexivity. Qed.
Lemma amt_total_segs_track_alloc a b : amt_total_segs (__track_alloc_seg a b) = amt_total_segs a.
Proof. reflexivity. Qed.
Lemma amt_alloc_segs_track_alloc a b : amt_alloc_segs (__track_alloc_seg a b) = amt_alloc_segs a.
Proof. reflexivity. Qed.
Lemma nr_allocs_track_alloc a b : nr_allocs (__track_alloc_seg a b) = nr_allocs a.
Proof. reflexivity. Qed.
Lemma ffunc_track_alloc a b : ffunc (__track_alloc_seg a b) = ffunc a.
Proof. reflexivity. Qed.
Lemma afunc_track_alloc a b : afunc (__track_alloc_seg a b) = afunc a.
Proof. reflexivity. Qed.
Lemma quantum_track_alloc a b : quantum (__track_alloc_seg a b) = quantum a.
Proof. reflexivity. Qed.
Lemma source_track_alloc a b : source (__track_alloc_seg a b) = source a.
Proof. reflexivity. Qed.
Lemma last_nextfit_alloc_track_alloc a b : last_nextfit_alloc (__track_alloc_seg a b) = last_nextfit_alloc a.
Proof. reflexivity. Qed.
Lemma base_pages_track_alloc a b : base_pages (__track_alloc_seg a b) = base_pages a.
Proof. reflexivity. Qed.
Lemma is_base_track_alloc a b : is_base (__track_alloc_seg a b) = is_base a.
Proof. reflexivity. Qed.
Lemma import_scale_track_alloc a b : import_scale (__track_alloc_seg a b) = import_scale a.
Proof. reflexivity. Qed.
Lemma all_segs_untrack_free a b : all_segs (__untrack_free_seg a b) = all_segs a.
Proof. reflexivity. Qed.
Lemma unused_btags_untrack_free a b : unused_btags (__untrack_free_seg a b) = unused_btags a.
Proof. reflexivity. Qed.
Lemma alloc_hash_untrack_free a b : alloc_hash (__untrack_free_seg a b) = alloc_hash a.
Proof. reflexivity. Qed.
Lemma free_segs_untrack_free a b : free_segs (__untrack_free_seg a b) = fupd (free_segs a) (LOG2_DOWN (size_of a b)) (list_remove b (free_segs a (LOG2_DOWN (size_of a b)))).
Proof. reflexivity. Qed.
Lemma amt_total_segs_untrack_free a b : amt_total_segs (__untrack_free_seg a b) = amt_total_segs a.
Proof. reflexivity. Qed.
Lemma amt_alloc_segs_untrack_free a b : amt_alloc_segs (__untrack_free_seg a b) = amt_alloc_segs a.
Proof. reflexivity. Qed.
Lemma nr_allocs_untrack_free a b : nr_allocs (__untrack_free_seg a b) = nr_allocs a.
Proof. reflexivity. Qed.
Lemma ffunc_untrack_free a b : ffunc (__untrack_free_seg a b) = ffunc a.
Proof. reflexivity. Qed.
Lemma afunc_untrack_free a b : afunc (__untrack_free_seg a b) = afunc a.
Proof. reflexivity. Qed.
Lemma quantum_untrack_free a b : quantum (__untrack_free_seg a b) = quantum a.
Proof. reflexivity. Qed.
Lemma source_untrack_free a b : source (__untrack_free_seg a b) = source a.
Proof. reflexivity. Qed.
Lemma last_nextfit_alloc_untrack_free a b : last_nextfit_alloc (__untrack_free_seg a b) = last_nextfit_alloc a.
Proof. reflexivity. Qed.
Lemma base_pages_untrack_free a b : base_pages (__untrack_free_seg a b) = base_pages a.
Proof. reflexivity. Qed.
Lemma is_base_untrack_free a b : is_base (__untrack_free_seg a b) = is_base a.
Proof. reflexivity. Qed.
Lemma import_scale_untrack_free a b : import_scale (__untrack_free_seg a b) = import_scale a.
Proof. reflexivity. Qed.
Lemma all_segs_free_btag a b : all_segs (__free_btag a b) = all_segs a.
Proof. reflexivity. Qed.
Lemma unused_btags_free_btag a b : unused_btags (__free_btag a b) = b :: unused_btags a.
Proof. reflexivity. Qed.
Lemma alloc_hash_free_btag a b : alloc_hash (__free_btag a b) = alloc_hash a.
Proof. reflexivity. Qed.
Lemma free_segs_free_btag a b : free_segs (__free_btag a b) = free_segs a.
Proof. reflexivity. Qed.
Lemma amt_total_segs_free_btag a b : amt_total_segs (__free_btag a b) = amt_total_segs a.
Proof. reflexivity. Qed.
Lemma amt_alloc_segs_free_btag a b : amt_alloc_segs (__free_btag a b) = amt_alloc_segs a.
Proof. reflexivity. Qed.
Lemma nr_allocs_free_btag a b : nr_allocs (__free_btag a b) = nr_allocs a.
Proof. reflexivity. Qed.
Lemma ffunc_free_btag a b : ffunc (__free_btag a b) = ffunc a.
Proof. reflexivity. Qed.
Lemma afunc_free_btag a b : afunc (__free_btag a b) = afunc a.
Proof. reflexivity. Qed.
Lemma quantum_free_btag a b : quantum (__free_btag a b) = quantum a.
Proof. reflexivity. Qed.
Lemma source_free_btag a b : source (__free_btag a b) = source a.
Proof. reflexivity. Qed.
Lemma last_nextfit_alloc_free_btag a b : last_nextfit_alloc (__free_btag a b) = last_nextfit_alloc a.
Proof. reflexivity. Qed.
Lemma base_pages_free_btag a b : base_pages (__free_btag a b) = base_pages a.
Proof. reflexivity. Qed.
Lemma is_base_free_btag a b : is_base (__free_btag a b) = is_base a.
Proof. reflexivity. Qed.
Lemma import_scale_free_btag a b : import_scale (__free_btag a b) = import_scale a.
Proof. reflexivity. Qed.
#[global] Hint Rewrite all_segs_track_free
  unused_btags_track_free
  alloc_hash_track_free
  free_segs_track_free
  amt_total_segs_track_free
  amt_alloc_segs_track_free
  nr_allocs_track_free
  ffunc_track_free
  afunc_track_free
  quantum_track_free
  source_track_free
  last_nextfit_alloc_track_free
  base_pages_track_free
  is_base_track_free
  import_scale_track_free
  all_segs_track_alloc
  unused_btags_track_alloc
  alloc_hash_track_alloc
  free_segs_track_alloc
  amt_total_segs_track_alloc
  amt_alloc_segs_track_alloc
  nr_allocs_track_alloc
  ffunc_track_alloc
  afunc_track_alloc
  quantum_track_alloc
  source_track_alloc
  last_nextfit_alloc_track_alloc
  base_pages_track_alloc
  is_base_track_alloc
  import_scale_track_alloc
  all_segs_untrack_free
  unused_btags_untrack_free
  alloc_hash_untrack_free
  free_segs_untrack_free
  amt_total_segs_untrack_free
  amt_alloc_segs_untrack_free
  nr_allocs_untrack_free
  ffunc_untrack_free
  afunc_untrack_free
  quantum_untrack_free
  source_untrack_free
  last_nextfit_alloc_untrack_free
  base_pages_untrack_free
  is_base_untrack_free
  import_scale_untrack_free
  all_segs_free_btag
  unused_btags_free_btag
  alloc_hash_free_btag
  free_segs_free_btag
  amt_total_segs_free_btag
  amt_alloc_segs_free_btag
  nr_allocs_free_btag
  ffunc_free_btag
  afunc_free_btag
  quantum_free_btag
  source_free_btag
  last_nextfit_alloc_free_btag
  base_pages_free_btag
  is_base_free_btag
  import_scale_free_btag : fields.


(** * Lemmas: tags through the helpers *)

Lemma start_of_track_free a b x : start_of (__track_free_seg a b) x = start_of a x.
Proof. unfold __track_free_seg. autorewrite with fields. reflexivity. Qed.
Lemma size_of_track_free a b x : size_of (__track_free_seg a b) x = size_of a x.
Proof. unfold __track_free_seg. autorewrite with fields. reflexivity. Qed.
Lemma status_of_track_free a b x :
  status_of (__track_free_seg a b) x
  = if x =? b then BTAG_FREE else status_of a x.
Proof. unfold __track_free_seg. autorewrite with fields. reflexivity. Qed.

Lemma start_of_track_alloc a b x : start_of (__track_alloc_seg a b) x = start_of a x.
Proof. unfold __track_alloc_seg. autorewrite with fields. reflexivity. Qed.
Lemma size_of_track_alloc a b x : size_of (__track_alloc_seg a b) x = size_of a x.
Proof. unfold __track_alloc_seg. autorewrite with fields. reflexivity. Qed.
Lemma status_of_track_alloc a b x :
  status_of (__track_alloc_seg a b) x
  = if x =? b then BTAG_ALLOC else status_of a x.
Proof. unfold __track_alloc_seg. autorewrite with fields. reflexivity. Qed.

Lemma start_of_untrack_free a b x :
  start_of (__untrack_free_seg a b) x = start_of a x.
Proof. reflexivity. Qed.
Lemma size_of_untrack_free a b x :
  size_of (__untrack_free_seg a b) x = size_of a x.
Proof. reflexivity. Qed.
Lemma status_of_untrack_free a b x :
  status_of (__untrack_free_seg a b) x = status_of a x.
Proof. reflexivity. Qed.

Lemma start_of_free_btag a b x : start_of (__free_btag a b) x = start_of a x.
Proof. reflexivity. Qed.
Lemma size_of_free_btag a b x : size_of (__free_btag a b) x = size_of a x.
Proof. reflexivity. Qed.
Lemma status_of_free_btag a b x : status_of (__free_btag a b) x = status_of a x.
Proof. reflexivity. Qed.

#[global] Hint Rewrite start_of_track_free size_of_track_free status_of_track_free
  start_of_track_alloc size_of_track_alloc status_of_track_alloc
  start_of_untrack_free size_of_untrack_free status_of_untrack_free
  start_of_free_btag size_of_free_btag status_of_free_btag : fields.

Lemma insert_btag_bts a bt a' :
  __insert_btag a bt = Ret tt a' -> bts a' = bts a.
Proof.
  unfold __insert_btag. destruct (insert_walk a bt (all_segs a)); [|discriminate].
  intros H. injection H as <-. reflexivity.
Qed.

Lemma insert_btag_start a bt a' x :
  __insert_btag a bt = Ret tt a' -> start_of a' x = start_of a x.
Proof. intros H. unfold start_of. rewrite (insert_btag_bts _ _ _ H). reflexivity. Qed.

(** * Lemmas: [__find_sufficient] *)

Lemma find_sufficient_rec_range d s z size al ph nc :
  0 <= find_sufficient_rec d s z size al ph nc < WORD.
Proof.
  revert s z nc. induction d as [|d IH]; intros s z nc; simpl;
    repeat match goal with
           | |- context [if ?c then _ else _] => destruct c
           end;
    try (split; [reflexivity | reflexivity]);
    try apply wadd_range; try apply IH.
Qed.

Lemma find_sufficient_rec_nowrap d s z size al ph nc :
  let r := find_sufficient_rec d s z size al ph nc in
  r <> 0 -> r <= wadd r size.
Proof.
  revert s z nc. induction d as [|d IH]; intros s z nc; simpl;
    repeat match goal with
           | |- context [if ?c then _ else _] => destruct c eqn:?
           end;
    try (intros H; exfalso; apply H; reflexivity);
    try (intros _; lia);
    try apply IH.
Qed.

(** * Lemmas: where a served request starts *)

Lemma split_bt_at_start a bt at_ a' :
  __split_bt_at a bt at_ = Ret tt a' -> start_of a' bt = wrap at_.
Proof.
  unfold __split_bt_at, __get_btag.
  destruct (unused_btags a) as [|front rest]; [discriminate|].
  unfold bind. intros H. rewrite (insert_btag_start _ _ _ _ H). clear H.
  autorewrite with fields. rewrite !Z.eqb_refl.
  destruct (Z.eqb_spec bt front) as [->|Hne]; apply wadd_wsub.
Qed.

Lemma account_alloc_start a bt size r a' :
  __account_alloc a bt size None = Ret r a' ->
  start_of a' bt = start_of a bt \/ start_of a' bt = wadd (start_of a bt) size.
Proof.
  unfold __account_alloc.
  destruct (negb (status_eqb (status_of a bt) BTAG_FREE)); [discriminate|].
  destruct (size_of a bt =? size).
  - simpl. intros H. injection H as _ <-. left.
    autorewrite with fields. reflexivity.
  - destruct (negb (size_of a bt >? size)); [discriminate|].
    unfold __get_btag. destruct (unused_btags a) as [|new rest]; [discriminate|].
    unfold bind at 2 3. simpl fst. simpl snd.
    match goal with
    | |- bind (bind ?x _) _ = _ -> _ => destruct x as [|[] a1] eqn:Hins
    end; [discriminate|].
    simpl. intros H. injection H as _ <-.
    autorewrite with fields. rewrite (insert_btag_start _ _ _ _ Hins).
    autorewrite with fields.
    destruct (Z.eqb_spec bt new) as [->|Hne]; auto.
Qed.

(** A request served from the tag [bt] at the placement [try]: the
    address returned is not 0. *)
Lemma serve_nonzero a bt try size p a' :
  0 < try < WORD -> try <= wadd try size ->
  (do _, a <- (if negb (try =? start_of a bt) then __split_bt_at a bt try
               else Ret tt a);
   do _, a <- __account_alloc a bt size None;
   Ret (start_of a bt) a) = Ret p a' ->
  p <> 0.
Proof.
  intros Htry Hnw.
  assert (Hs : forall a1, (if negb (try =? start_of a bt) then __split_bt_at a bt try
               else Ret tt a) = Ret tt a1 -> start_of a1 bt = try).
  { intros a1. destruct (Z.eqb_spec try (start_of a bt)) as [He|Hne]; simpl.
    - intros H. injection H as <-. symmetry. exact He.
    - intros H. rewrite (split_bt_at_start _ _ _ _ H). apply wrap_small. lia. }
  destruct (if negb (try =? start_of a bt) then __split_bt_at a bt try else Ret tt a)
    as [|[] a1]; [discriminate|].
  specialize (Hs a1 eq_refl). simpl.
  destruct (__account_alloc a1 bt size None) as [|r a2] eqn:Hacc; [discriminate|].
  simpl. intros H. injection H as <- <-.
  destruct (account_alloc_start _ _ _ _ _ Hacc) as [-> | ->]; rewrite Hs; lia.
Qed.

Lemma find_sufficient_placement s z size al ph nc :
  let try := __find_sufficient s z size al ph nc in
  try <> 0 -> 0 < try < WORD /\ try <= wadd try size.
Proof.
  intros try H. split.
  - pose proof (find_sufficient_rec_range 1 s z size al ph nc) as R.
    fold (__find_sufficient s z size al ph nc) in R. fold try in R. lia.
  - apply (find_sufficient_rec_nowrap 1 s z size al ph nc H).
Qed.

(** * Lemmas: a search that returns 0 has taken nothing *)

Lemma min_max_scan_zero size align phase nocross maxaddr l : forall a p a',
  min_max_scan a size align phase nocross maxaddr l = Ret p a' ->
  p = 0 -> a' = a.
Proof.
  induction l as [|bt l IH]; intros a p a'; simpl.
  - intros H _. injection H as _ <-. reflexivity.
  - destruct (Z.eqb_spec (__find_sufficient (start_of a bt) (size_of a bt) size
                            align phase nocross) 0) as [|Hne].
    + apply IH.
    + simpl.
      destruct (negb (maxaddr =? 0) &&
                (wadd (__find_sufficient (start_of a bt) (size_of a bt) size
                         align phase nocross) size >? maxaddr)).
      * intros H _. injection H as _ <-. reflexivity.
      * intros H Hp. exfalso.
        destruct (find_sufficient_placement _ _ _ _ _ _ Hne) as [R N].
        exact (serve_nonzero (__untrack_free_seg a bt) bt _ size p a' R N H Hp).
Qed.

Lemma xalloc_min_max_zero a size align phase nocross minaddr maxaddr p a' :
  __xalloc_min_max a size align phase nocross minaddr maxaddr = Ret p a' ->
  p = 0 -> a' = a.
Proof. apply min_max_scan_zero. Qed.

Lemma first_sufficient_some a size align phase nocross l bt try :
  first_sufficient a size align phase nocross l = Some (bt, try) ->
  try = __find_sufficient (start_of a bt) (size_of a bt) size align phase nocross
  /\ try <> 0.
Proof.
  induction l as [|x l IH]; simpl; [discriminate|].
  destruct (Z.eqb_spec (__find_sufficient (start_of a x) (size_of a x) size
                          align phase nocross) 0) as [|Hne]; simpl.
  - exact IH.
  - intros H. injection H as <- <-. split; [reflexivity | exact Hne].
Qed.

Lemma xalloc_lists_loop_spec size align phase nocross n : forall a i r a',
  xalloc_lists_loop n a size align phase nocross i = (r, a') ->
  match r with
  | None => a' = a
  | Some (bt, try) =>
      bts a' = bts a
      /\ try = __find_sufficient (start_of a bt) (size_of a bt) size align
                 phase nocross
      /\ try <> 0
  end.
Proof.
  induction n as [|n IH]; intros a i r a'; simpl.
  - intros H. injection H as <- <-. reflexivity.
  - destruct (first_sufficient a size align phase nocross (free_segs a i))
      as [[bt try]|] eqn:Hf.
    + intros H. injection H as <- <-.
      split; [reflexivity | exact (first_sufficient_some _ _ _ _ _ _ _ _ Hf)].
    + apply IH.
Qed.

Lemma xalloc_from_freelists_zero a size align phase nocross inst p a' :
  __xalloc_from_freelists a size align phase nocross inst = Ret p a' ->
  p = 0 -> a' = a.
Proof.
  unfold __xalloc_from_freelists.
  destruct (wadd (ROUNDUP size align) phase <? size).
  { intros H _. injection H as _ <-. reflexivity. }
  match goal with
  | |- context [xalloc_lists_loop ?n a size align phase nocross ?i] =>
      destruct (xalloc_lists_loop n a size align phase nocross i)
        as [[[bt try]|] a1] eqn:Hl; apply xalloc_lists_loop_spec in Hl
  end.
  - destruct Hl as (Hb & Ht & Hne). intros H Hp. exfalso.
    assert (Hst : start_of a1 bt = start_of a bt)
      by (unfold start_of; rewrite Hb; reflexivity).
    assert (Hsz : size_of a1 bt = size_of a bt)
      by (unfold size_of; rewrite Hb; reflexivity).
    rewrite <- Hst, <- Hsz in Ht. subst try.
    destruct (find_sufficient_placement _ _ _ _ _ _ Hne) as [R N].
    exact (serve_nonzero a1 bt _ size p a' R N H Hp).
  - subst a1. intros H _. injection H as _ <-. reflexivity.
Qed.

Lemma xalloc_nextfit_zero a size align phase nocross p a' :
  __xalloc_nextfit a size align phase nocross = Ret p a' ->
  p = 0 -> a' = a.
Proof.
  unfold __xalloc_nextfit.
  destruct (__xalloc_min_max a size align phase nocross
              (wadd (last_nextfit_alloc a) (quantum a)) 0) as [|r1 a1] eqn:H1;
    [discriminate|].
  simpl. destruct (Z.eqb_spec r1 0) as [->|Hne1].
  - apply xalloc_min_max_zero in H1; [subst a1 | reflexivity].
    destruct (__xalloc_min_max a size align phase nocross (quantum a) 0)
      as [|r2 a2] eqn:H2; [discriminate|].
    simpl. destruct (Z.eqb_spec r2 0) as [->|Hne2].
    + apply xalloc_min_max_zero in H2; [subst a2 | reflexivity].
      intros H _. injection H as _ <-. reflexivity.
    + intros H Hp. injection H as <- _. contradiction.
  - simpl. destruct (Z.eqb_spec r1 0) as [|_]; [contradiction|].
    intros H Hp. injection H as <- _. contradiction.
Qed.



(** * Lemmas: free and coalesce *)

Lemma find_start_in a start l bt :
  find_start a start l = Some bt -> In bt l /\ start_of a bt = start.
Proof.
  induction l as [|x l IH]; simpl; [discriminate|].
  destruct (Z.eqb_spec (start_of a x) start) as [He|].
  - intros H. injection H as <-. auto.
  - intros H. destruct (IH H). auto.
Qed.

Lemma track_free_heads a bt : heads_bucket (__track_free_seg a bt) bt.
Proof.
  split.
  - autorewrite with fields. rewrite Z.eqb_refl. reflexivity.
  - autorewrite with fields. unfold __track_free_seg. simpl.
    rewrite fupd_same. reflexivity.
Qed.

Lemma merge_right_to_left_spec a left right merged a' :
  __merge_right_to_left a left right = (merged, a') ->
  if merged then heads_bucket a' left else a' = a.
Proof.
  unfold __merge_right_to_left.
  destruct (negb (status_eqb (status_of a left) BTAG_FREE)).
  { intros H. injection H as <- <-. reflexivity. }
  destruct (negb (status_eqb (status_of a right) BTAG_FREE)).
  { intros H. injection H as <- <-. reflexivity. }
  destruct (wadd (start_of a left) (size_of a left) =? start_of a right).
  - intros H. injection H as <- <-.
    match goal with
    | |- heads_bucket (__free_btag (set_all_segs _ (__track_free_seg ?x _)) _) _ =>
        pose proof (track_free_heads x left) as [Hs Hh]
    end.
    split; [exact Hs | exact Hh].
  - intros H. injection H as <- <-. reflexivity.
Qed.


(** The span check leaves the state alone, or hands back a span and puts
    the emptied tag first on the unused list. *)
Lemma coalesce_span_spec a bt to_free a' :
  coalesce_span a bt = (to_free, a') ->
  (to_free = (0, 0) /\ a' = a)
  \/ (exists sp, rb_prev (all_segs a) bt = Some sp
        /\ status_of a sp = BTAG_SPAN
        /\ start_of a sp = start_of a bt
        /\ size_of a sp = size_of a bt
        /\ to_free = (start_of a sp, size_of a sp)
        /\ unused_btags a' = bt :: sp :: unused_btags a
        /\ all_segs a' = list_remove bt (list_remove sp (all_segs a))).
Proof.
  unfold coalesce_span.
  destruct (rb_prev (all_segs a) bt) as [sp|].
  - destruct (status_eqb (status_of a sp) BTAG_SPAN) eqn:Hst; simpl.
    + destruct (Z.eqb_spec (start_of a sp) (start_of a bt)) as [Hs|]; simpl.
      * destruct (Z.eqb_spec (size_of a sp) (size_of a bt)) as [Hz|]; simpl.
        -- intros H. injection H as <- <-. right. exists sp.
           repeat split; try assumption; try reflexivity.
           destruct (status_of a sp); try discriminate; reflexivity.
        -- intros H. injection H as <- <-. left. auto.
      * intros H. injection H as <- <-. left. auto.
    + intros H. injection H as <- <-. left. auto.
  - intros H. injection H as <- <-. left. auto.
Qed.


Lemma bts_set_start_other b v a x : x <> b -> bts (set_start b v a) x = bts a x.
Proof. intros H. unfold set_start. simpl. apply fupd_other. exact H. Qed.
Lemma bts_set_size_other b v a x : x <> b -> bts (set_size b v a) x = bts a x.
Proof. intros H. unfold set_size. simpl. apply fupd_other. exact H. Qed.
Lemma bts_set_status_other b v a x : x <> b -> bts (set_status b v a) x = bts a x.
Proof. intros H. unfold set_status. simpl. apply fupd_other. exact H. Qed.
Lemma bts_track_free_other a b x : x <> b -> bts (__track_free_seg a b) x = bts a x.
Proof. intros H. unfold __track_free_seg. simpl. apply bts_set_status_other. exact H. Qed.
Lemma bts_track_alloc_other a b x : x <> b -> bts (__track_alloc_seg a b) x = bts a x.
Proof. intros H. unfold __track_alloc_seg. simpl. apply bts_set_status_other. exact H. Qed.

Lemma rb_prev_from_neq l : forall p bt q,
  p <> Some bt -> rb_prev_from p l bt = Some q -> q <> bt.
Proof.
  induction l as [|x l IH]; intros p bt q Hp; simpl; [discriminate|].
  destruct (Z.eqb_spec x bt) as [->|Hne].
  - intros -> ->. apply Hp. reflexivity.
  - apply IH. intros H. injection H as ->. apply Hne. reflexivity.
Qed.

Lemma rb_prev_neq l bt q : rb_prev l bt = Some q -> q <> bt.
Proof. apply rb_prev_from_neq. discriminate. Qed.

Lemma merge_right_to_left_true a left right a' :
  __merge_right_to_left a left right = (true, a') ->
  status_of a left = BTAG_FREE /\ status_of a right = BTAG_FREE
  /\ wadd (start_of a left) (size_of a left) = start_of a right.
Proof.
  unfold __merge_right_to_left.
  destruct (status_of a left) eqn:Hl; simpl; try discriminate.
  destruct (status_of a right) eqn:Hr; simpl; try discriminate.
  destruct (Z.eqb_spec (wadd (start_of a left) (size_of a left))
              (start_of a right)); [|discriminate].
  auto.
Qed.

(** A merge writes the left tag only, and not its start. *)
Lemma merge_right_to_left_frame a left right merged a' :
  __merge_right_to_left a left right = (merged, a') ->
  start_of a' left = start_of a left
  /\ forall x, x <> left -> bts a' x = bts a x.
Proof.
  unfold __merge_right_to_left.
  repeat match goal with
         | |- context [if ?c then _ else _] => destruct c
         end;
    intros H; injection H as <- <-; try (split; reflexivity).
  split.
  - autorewrite with fields. reflexivity.
  - intros x Hx.
    change (bts (__track_free_seg
                   (set_size left
                      (wadd (size_of (__untrack_free_seg (__untrack_free_seg a left) right) left)
                            (size_of (__untrack_free_seg (__untrack_free_seg a left) right) right))
                      (__untrack_free_seg (__untrack_free_seg a left) right))
                   left) x = bts a x).
    rewrite bts_track_free_other by exact Hx.
    rewrite bts_set_size_other by exact Hx. reflexivity.
Qed.



Lemma status_eqb_eq s t : status_eqb s t = true <-> s = t.
Proof. destruct s, t; simpl; split; congruence. Qed.

Lemma hash_allocated_spec a :
  hash_allocated a = true ->
  forall bt, In bt (alloc_hash a) -> status_of a bt = BTAG_ALLOC.
Proof.
  unfold hash_allocated. rewrite forallb_forall. intros H bt Hin.
  apply status_eqb_eq. exact (H bt Hin).
Qed.


(** * Lemmas: lists without repetition *)

Lemma existsb_eqb_In x l : existsb (Z.eqb x) l = true <-> In x l.
Proof.
  rewrite existsb_exists. split.
  - intros (y & Hy & He). apply Z.eqb_eq in He. subst y. exact Hy.
  - intros H. exists x. split; [exact H | apply Z.eqb_refl].
Qed.

Lemma nodupb_NoDup l : nodupb l = true -> NoDup l.
Proof.
  induction l as [|x l IH]; simpl; [constructor|].
  intros H. apply andb_true_iff in H. destruct H as [H1 H2].
  constructor; [|exact (IH H2)].
  intros Hin. apply existsb_eqb_In in Hin. rewrite Hin in H1. discriminate.
Qed.

Lemma list_remove_In x y l : In x (list_remove y l) -> In x l.
Proof.
  induction l as [|z l IH]; simpl; [auto|].
  destruct (z =? y); simpl; intuition.
Qed.

Lemma list_remove_NoDup y l : NoDup l -> NoDup (list_remove y l).
Proof.
  induction 1 as [|z l Hz Hl IH]; simpl; [constructor|].
  destruct (z =? y); [exact Hl|].
  constructor; [|exact IH].
  intros Hin. apply Hz. exact (list_remove_In _ _ _ Hin).
Qed.

Lemma list_remove_not_In x l : NoDup l -> ~ In x (list_remove x l).
Proof.
  induction 1 as [|z l Hz Hl IH]; simpl; [auto|].
  destruct (Z.eqb_spec z x) as [->|Hne]; [exact Hz|].
  simpl. intros [H|H]; [contradiction | exact (IH H)].
Qed.

(** * Lemmas: what the free path leaves of the tree and of the spans *)

Lemma merge_right_to_left_segs a left right merged a' :
  __merge_right_to_left a left right = (merged, a') ->
  all_segs a' = if merged then list_remove right (all_segs a) else all_segs a.
Proof.
  unfold __merge_right_to_left. intros H.
  repeat match type of H with
         | context [if ?c then _ else _] => destruct c
         end;
    injection H as <- <-; reflexivity.
Qed.

Lemma same_books_refl a : same_books a a.
Proof. repeat split. Qed.

Lemma same_books_trans a b c : same_books a b -> same_books b c -> same_books a c.
Proof.
  unfold same_books. intros (A1&A2&A3&A4&A5&A6&A7&A8) (B1&B2&B3&B4&B5&B6&B7&B8).
  repeat split; congruence.
Qed.

Lemma merge_right_to_left_books a left right merged a' :
  __merge_right_to_left a left right = (merged, a') -> same_books a a'.
Proof.
  unfold __merge_right_to_left. intros H.
  repeat match type of H with
         | context [if ?c then _ else _] => destruct c
         end;
    injection H as <- <-; try apply same_books_refl.
  unfold __free_btag, __track_free_seg, __untrack_free_seg. simpl.
  repeat split; autorewrite with fields; reflexivity.
Qed.

Lemma coalesce_merge_books a bt m a' :
  coalesce_merge a bt = (m, a') -> same_books a a'.
Proof.
  unfold coalesce_merge.
  set (a1 := match rb_next (all_segs a) bt with
             | Some bt_n => snd (__merge_right_to_left a bt bt_n)
             | None => a
             end).
  assert (B1 : same_books a a1).
  { subst a1. destruct (rb_next (all_segs a) bt) as [bt_n|];
      [|apply same_books_refl].
    destruct (__merge_right_to_left a bt bt_n) as [mg a2] eqn:Hm.
    exact (merge_right_to_left_books _ _ _ _ _ Hm). }
  clearbody a1.
  destruct (rb_prev (all_segs a1) bt) as [bt_p|].
  - destruct (__merge_right_to_left a1 bt_p bt) as [mg a2] eqn:Hm.
    intros H. injection H as _ <-.
    exact (same_books_trans _ _ _ B1 (merge_right_to_left_books _ _ _ _ _ Hm)).
  - intros H. injection H as _ <-. exact B1.
Qed.






Lemma rb_prev_from_In l : forall p bt q,
  rb_prev_from p l bt = Some q -> p = Some q \/ In q l.
Proof.
  induction l as [|x l IH]; intros p bt q; simpl; [discriminate|].
  destruct (x =? bt); [auto|].
  intros H. destruct (IH _ _ _ H) as [E|E]; [injection E as ->|]; auto.
Qed.

Lemma rb_prev_In l bt q : rb_prev l bt = Some q -> In q l.
Proof.
  intros H. destruct (rb_prev_from_In _ _ _ _ H) as [E|E];
    [discriminate | exact E].
Qed.


Lemma coalesce_span_whole a bt :
  coalesce_span a bt
  = match whole_span a bt with
    | Some sp =>
        ((start_of a sp, size_of a sp),
         __free_btag
           (set_all_segs
              (list_remove bt (list_remove sp (all_segs a)))
              (__free_btag
                 (set_all_segs (list_remove sp (all_segs a))
                    (__untrack_free_seg a bt)) sp)) bt)
    | None => ((0, 0), a)
    end.
Proof.
  unfold coalesce_span, whole_span.
  destruct (rb_prev (all_segs a) bt) as [sp|]; [|reflexivity].
  destruct (status_eqb _ _ && _ && _); reflexivity.
Qed.



(** * Lemmas: neighbours in a list *)



Lemma chain_cons R x l :
  chain R (x :: l) = link R [x] l && chain R l.
Proof. destruct l; reflexivity. Qed.

Lemma chain_app R l1 l2 :
  chain R (l1 ++ l2) = chain R l1 && link R l1 l2 && chain R l2.
Proof.
  induction l1 as [|x l1 IH]; [reflexivity|].
  destruct l1 as [|y l1].
  - simpl app. rewrite chain_cons. reflexivity.
  - change ((x :: y :: l1) ++ l2) with (x :: (y :: l1) ++ l2).
    change (chain R (x :: (y :: l1) ++ l2))
      with (R x y && chain R ((y :: l1) ++ l2)).
    rewrite IH.
    change (chain R (x :: y :: l1)) with (R x y && chain R (y :: l1)).
    change (link R (x :: y :: l1) l2) with (link R (y :: l1) l2).
    rewrite !andb_assoc. reflexivity.
Qed.






Lemma list_remove_absent x l : ~ In x l -> list_remove x l = l.
Proof.
  induction l as [|y l IH]; simpl; [reflexivity|].
  intros H. destruct (Z.eqb_spec y x) as [->|_]; [exfalso; auto|].
  rewrite IH by auto. reflexivity.
Qed.




(** * Lemmas: states that agree on the tags of a list *)







Lemma tag_ok_spec a x :
  tag_ok a x = true ->
  0 <= start_of a x /\ 0 < size_of a x /\ start_of a x + size_of a x < WORD.
Proof.
  unfold tag_ok. intros H.
  apply andb_true_iff in H. destruct H as [H H3].
  apply andb_true_iff in H. destruct H as [H1 H2].
  apply Z.leb_le in H1. apply Z.ltb_lt in H2. apply Z.ltb_lt in H3. auto.
Qed.


Lemma merge_right_to_left_size a left right a' :
  __merge_right_to_left a left right = (true, a') ->
  size_of a' left = wadd (size_of a left) (size_of a right)
  /\ status_of a' left = BTAG_FREE.
Proof.
  unfold __merge_right_to_left. intros H.
  repeat match type of H with
         | context [if ?c then _ else _] => destruct c
         end;
    try discriminate.
  injection H as <-. autorewrite with fields. rewrite !Z.eqb_refl. auto.
Qed.




(** * Lemmas: the merges keep the tree in order and coalesced *)


Lemma merge_right_to_left_fst a left right :
  fst (__merge_right_to_left a left right) = touching_free a left right.
Proof.
  unfold __merge_right_to_left, touching_free.
  destruct (status_eqb (status_of a left) BTAG_FREE); simpl; [|reflexivity].
  destruct (status_eqb (status_of a right) BTAG_FREE); simpl; [|reflexivity].
  destruct (wadd (start_of a left) (size_of a left) =? start_of a right);
    reflexivity.
Qed.

Lemma merge_right_to_left_false a left right a' :
  __merge_right_to_left a left right = (false, a') ->
  a' = a /\ touching_free a left right = false.
Proof.
  intros H. split.
  - exact (merge_right_to_left_spec _ _ _ _ _ H).
  - rewrite <- merge_right_to_left_fst, H. reflexivity.
Qed.

Lemma merge_right_to_left_NoDup a left right merged a' :
  __merge_right_to_left a left right = (merged, a') ->
  NoDup (all_segs a) -> NoDup (all_segs a').
Proof.
  intros H N. rewrite (merge_right_to_left_segs _ _ _ _ _ H).
  destruct merged; [apply list_remove_NoDup|]; exact N.
Qed.








Lemma NoDup_nodupb l : NoDup l -> nodupb l = true.
Proof.
  induction 1 as [|x l Hx Hl IH]; [reflexivity|]. simpl.
  rewrite IH, andb_true_r. apply negb_true_iff.
  destruct (existsb (Z.eqb x) l) eqn:E; [|reflexivity].
  apply existsb_eqb_In in E. contradiction.
Qed.

Lemma segs_ok_tree_inv a : segs_ok a = true <-> tree_inv a.
Proof.
  unfold segs_ok, tree_inv. rewrite !andb_true_iff. split.
  - intros [[H1 H2] H3]. auto using nodupb_NoDup.
  - intros (H1 & H2 & H3). auto using NoDup_nodupb.
Qed.


(** * Lemmas: the instant-fit allocation *)

Lemma get_from_freelists_loop_spec n : forall a i r a',
  get_from_freelists_loop n a i = (r, a') ->
  match r with
  | None => a' = a
  | Some bt =>
      exists j rest, i <= j < i + Z.of_nat n
        /\ free_segs a j = bt :: rest
        /\ a' = set_free_segs (fupd (free_segs a) j rest) a
  end.
Proof.
  induction n as [|n IH]; intros a i r a'.
  - simpl. intros H. injection H as <- <-. reflexivity.
  - cbn [get_from_freelists_loop].
    destruct (free_segs a i) as [|bt rest] eqn:Hf.
    + intros H. specialize (IH _ _ _ _ H). destruct r as [bt|]; [|exact IH].
      destruct IH as (j & rest & Hj & E1 & E2). exists j, rest.
      split; [lia | auto].
    + intros H. injection H as <- <-. exists i, rest.
      split; [lia | auto].
Qed.

Lemma get_from_freelists_spec a list_idx r a' :
  0 <= list_idx ->
  __get_from_freelists a list_idx = (r, a') ->
  match r with
  | None => a' = a
  | Some bt =>
      exists j rest, 0 <= j < ARENA_NR_FREE_LISTS
        /\ free_segs a j = bt :: rest
        /\ a' = set_free_segs (fupd (free_segs a) j rest) a
  end.
Proof.
  intros Hi H. unfold __get_from_freelists in H.
  apply get_from_freelists_loop_spec in H. destruct r as [bt|]; [|exact H].
  destruct H as (j & rest & Hj & E1 & E2). exists j, rest.
  split; [|auto]. unfold ARENA_NR_FREE_LISTS in *. lia.
Qed.

Lemma lists_ok_free a i bt :
  lists_ok a = true -> 0 <= i < ARENA_NR_FREE_LISTS -> In bt (free_segs a i) ->
  In bt (all_segs a) /\ LOG2_DOWN (size_of a bt) = i.
Proof.
  unfold lists_ok. intros H Hi Hin.
  apply andb_true_iff in H. destruct H as [H _].
  rewrite forallb_forall in H.
  assert (Hm : In i (map Z.of_nat (seq 0 (Z.to_nat ARENA_NR_FREE_LISTS)))).
  { apply in_map_iff. exists (Z.to_nat i). split; [lia|].
    apply in_seq. unfold ARENA_NR_FREE_LISTS in *. lia. }
  specialize (H i Hm). rewrite forallb_forall in H. specialize (H bt Hin).
  apply andb_true_iff in H. destruct H as [H1 H2].
  apply existsb_eqb_In in H1. apply Z.eqb_eq in H2. auto.
Qed.

Lemma lists_ok_unused a bt :
  lists_ok a = true -> In bt (unused_btags a) -> ~ In bt (all_segs a).
Proof.
  unfold lists_ok. intros H Hin.
  apply andb_true_iff in H. destruct H as [_ H].
  rewrite forallb_forall in H. specialize (H bt Hin).
  intros Hc. apply existsb_eqb_In in Hc. rewrite Hc in H. discriminate.
Qed.



Lemma account_alloc_unfold a bt size :
  __account_alloc a bt size None
  = if negb (status_eqb (status_of a bt) BTAG_FREE) then Panic else
    if size_of a bt =? size then Ret false (alloc_counted a bt size) else
    if negb (size_of a bt >? size) then Panic else
    match unused_btags a with
    | [] => Panic
    | new :: rest =>
        do _, a <- __insert_btag
                     (split_fields (set_unused_btags rest a) bt size new) new;
        Ret false (alloc_counted a bt size)
    end.
Proof.
  unfold __account_alloc, __get_btag.
  destruct (negb (status_eqb (status_of a bt) BTAG_FREE)); [reflexivity|].
  destruct (size_of a bt =? size); [reflexivity|].
  destruct (negb (size_of a bt >? size)); [reflexivity|].
  destruct (unused_btags a) as [|new rest]; [reflexivity|].
  simpl. unfold split_fields.
  destruct (__insert_btag _ new) as [|[] a1]; reflexivity.
Qed.

Lemma free_from_arena_unfold a addr size :
  free_from_arena a addr size
  = match find_start a addr (alloc_hash a) with
    | None => Panic
    | Some bt =>
        if negb (status_eqb (status_of a bt) BTAG_ALLOC) then Panic else
        if negb (size_of a bt =? size) then Panic else
        let '(m, a2) := coalesce_merge (free_marked a bt size) bt in
        let '((to_free_addr, to_free_sz), a3) := coalesce_span a2 m in
        let a3 := set_amt_total_segs (wsub (amt_total_segs a3) to_free_sz) a3 in
        if negb (to_free_addr =? 0)
        then Ret tt (set_ffunc (ffunc a3 ++ [(to_free_addr, to_free_sz)]) a3)
        else Ret tt a3
    end.
Proof.
  unfold free_from_arena, __untrack_alloc_seg, free_marked, __coalesce_free_seg.
  destruct (find_start a addr (alloc_hash a)) as [bt|]; [|reflexivity].
  autorewrite with fields.
  destruct (status_eqb (status_of a bt) BTAG_ALLOC); [|reflexivity].
  simpl. autorewrite with fields.
  destruct (negb (size_of a bt =? size)); [reflexivity|].
  destruct (coalesce_merge _ bt) as [m a2]. reflexivity.
Qed.

Lemma btag_eta (t : btag) : mk_btag (bt_start t) (bt_size t) (bt_status t) = t.
Proof. destruct t. reflexivity. Qed.

Lemma bts_eq a a' x :
  start_of a' x = start_of a x -> size_of a' x = size_of a x ->
  status_of a' x = status_of a x -> bts a' x = bts a x.
Proof.
  unfold start_of, size_of, status_of. intros H1 H2 H3.
  rewrite <- (btag_eta (bts a' x)), <- (btag_eta (bts a x)).
  rewrite H1, H2, H3. reflexivity.
Qed.




Lemma rb_next_In (l : list Z) x y : rb_next l x = Some y -> In y l.
Proof.
  induction l as [|z l IH]; simpl; [discriminate|].
  destruct (z =? x).
  - destruct l; simpl; [discriminate|]. intros H. injection H as ->. auto.
  - intros H. right. exact (IH H).
Qed.







Lemma list_remove_head x l : list_remove x (x :: l) = l.
Proof. simpl. rewrite Z.eqb_refl. reflexivity. Qed.






Lemma ordered_pair_le a x y :
  tag_ok a x = true -> ordered_pair a x y = true -> start_of a x <= start_of a y.
Proof.
  intros T. apply tag_ok_spec in T. unfold ordered_pair.
  destruct (status_eqb (status_of a x) BTAG_SPAN); intros H; apply Z.leb_le in H; lia.
Qed.





Lemma tags_alloc_counted a X sz y :
  start_of (alloc_counted a X sz) y = start_of a y
  /\ size_of (alloc_counted a X sz) y = size_of a y
  /\ status_of (alloc_counted a X sz) y
     = if y =? X then BTAG_ALLOC else status_of a y.
Proof.
  unfold alloc_counted, __track_alloc_seg. autorewrite with fields. simpl.
  autorewrite with fields. auto.
Qed.

Lemma tags_free_marked a X sz y :
  start_of (free_marked a X sz) y = start_of a y
  /\ size_of (free_marked a X sz) y = size_of a y
  /\ status_of (free_marked a X sz) y
     = if y =? X then BTAG_FREE else status_of a y.
Proof.
  unfold free_marked, __track_free_seg. autorewrite with fields. simpl.
  autorewrite with fields. auto.
Qed.

Lemma tags_split_fields a X sz Nn y :
  start_of (split_fields a X sz Nn) y
  = (if y =? Nn then wadd (start_of a X) sz else start_of a y)
  /\ size_of (split_fields a X sz Nn) y
     = (if y =? X then sz
        else if y =? Nn then wsub (size_of a X) sz else size_of a y)
  /\ status_of (split_fields a X sz Nn) y
     = if y =? Nn then BTAG_FREE else status_of a y.
Proof.
  unfold split_fields, __track_free_seg. autorewrite with fields. simpl.
  autorewrite with fields. auto.
Qed.





(** * Lemmas: the turns of the allocation loops

    No allocation step touches the list of import results, and a turn
    of [arena_alloc] or [arena_xalloc] that goes on has taken one
    address from it: the loops never use up their turns. *)

Lemma imports_kept_bind {A B : Type} (r : res A) (k : A -> arena -> res B) a :
  imports_kept r a ->
  (forall v a1, afunc a1 = afunc a -> imports_kept (k v a1) a) ->
  imports_kept (bind r k) a.
Proof.
  destruct r as [|v a1]; simpl; [trivial|]. intros H K. apply K. exact H.
Qed.

Lemma imports_kept_ret {A : Type} (v : A) a1 a :
  afunc a1 = afunc a -> imports_kept (Ret v a1) a.
Proof. intros H. exact H. Qed.

Lemma afunc_push_tags tags nr_bts a : afunc (push_tags tags nr_bts a) = afunc a.
Proof.
  unfold push_tags. generalize (seq 0 (Z.to_nat nr_bts)). intros l.
  revert a. induction l as [|x l IH]; intros a; simpl; [reflexivity|].
  rewrite IH. reflexivity.
Qed.

Ltac kept_step :=
  match goal with
  | |- imports_kept Panic _ => exact I
  | |- imports_kept (Ret _ _) _ =>
      apply imports_kept_ret; rewrite ?afunc_push_tags; assumption
  | |- imports_kept (bind _ _) _ => apply imports_kept_bind; [|intros ? ? ?]
  | |- imports_kept (if ?c then _ else _) _ => destruct c
  | |- imports_kept (match ?x with _ => _ end) _ => destruct x eqn:?
  end.

Lemma kept_insert_btag a0 a bt :
  afunc a0 = afunc a -> imports_kept (__insert_btag a0 bt) a.
Proof. intros H. unfold __insert_btag. repeat kept_step. Qed.

Lemma kept_get_btag a0 a :
  afunc a0 = afunc a -> imports_kept (__get_btag a0) a.
Proof. intros H. unfold __get_btag. repeat kept_step. Qed.

Create HintDb kept.
#[local] Hint Resolve kept_insert_btag kept_get_btag : kept.

Ltac kept := repeat kept_step; auto with kept.

Lemma kept_account_alloc a0 a bt size new :
  afunc a0 = afunc a -> imports_kept (__account_alloc a0 bt size new) a.
Proof. intros H. unfold __account_alloc. kept. Qed.
#[local] Hint Resolve kept_account_alloc : kept.

Lemma afunc_get_from_freelists_loop n : forall a i,
  afunc (snd (get_from_freelists_loop n a i)) = afunc a.
Proof.
  induction n as [|n IH]; intros a i; simpl; [reflexivity|].
  destruct (free_segs a i); [apply IH | reflexivity].
Qed.

Lemma afunc_get_from_freelists a i :
  afunc (snd (__get_from_freelists a i)) = afunc a.
Proof. apply afunc_get_from_freelists_loop. Qed.

Lemma kept_add_more_btags a0 a mem_flags :
  afunc a0 = afunc a -> imports_kept (__add_more_btags a0 mem_flags) a.
Proof.
  intros H. unfold __add_more_btags.
  pose proof (afunc_get_from_freelists a0 (LOG2_UP PGSIZE)) as G.
  destruct (__get_from_freelists a0 (LOG2_UP PGSIZE)) as [r a1].
  simpl in G. rewrite H in G.
  destruct (is_base a0); [destruct r as [bt|]|]; kept.
Qed.
#[local] Hint Resolve kept_add_more_btags : kept.

Lemma kept_get_enough_btags a0 a nr_needed mem_flags :
  afunc a0 = afunc a ->
  imports_kept (__get_enough_btags a0 nr_needed mem_flags) a.
Proof. intros H. unfold __get_enough_btags. kept. Qed.
#[local] Hint Resolve kept_get_enough_btags : kept.

Lemma kept_split_bt_at a0 a bt at_ :
  afunc a0 = afunc a -> imports_kept (__split_bt_at a0 bt at_) a.
Proof. intros H. unfold __split_bt_at. kept. Qed.
#[local] Hint Resolve kept_split_bt_at : kept.

Lemma kept_min_max_scan size align phase nocross maxaddr l : forall a0 a,
  afunc a0 = afunc a ->
  imports_kept (min_max_scan a0 size align phase nocross maxaddr l) a.
Proof.
  induction l as [|bt l IH]; intros a0 a H; simpl; kept.
Qed.
#[local] Hint Resolve kept_min_max_scan : kept.

Lemma kept_xalloc_min_max a0 a size align phase nocross minaddr maxaddr :
  afunc a0 = afunc a ->
  imports_kept (__xalloc_min_max a0 size align phase nocross minaddr maxaddr) a.
Proof. intros H. unfold __xalloc_min_max. kept. Qed.
#[local] Hint Resolve kept_xalloc_min_max : kept.

Lemma kept_xalloc_nextfit a0 a size align phase nocross :
  afunc a0 = afunc a ->
  imports_kept (__xalloc_nextfit a0 size align phase nocross) a.
Proof. intros H. unfold __xalloc_nextfit. kept. Qed.
#[local] Hint Resolve kept_xalloc_nextfit : kept.

Lemma afunc_xalloc_lists_loop size align phase nocross n : forall a i,
  afunc (snd (xalloc_lists_loop n a size align phase nocross i)) = afunc a.
Proof.
  induction n as [|n IH]; intros a i; simpl; [reflexivity|].
  destruct (first_sufficient a size align phase nocross (free_segs a i))
    as [[bt_i try]|]; [reflexivity | apply IH].
Qed.

Lemma kept_xalloc_from_freelists a0 a size align phase nocross instant :
  afunc a0 = afunc a ->
  imports_kept (__xalloc_from_freelists a0 size align phase nocross instant) a.
Proof.
  intros H. unfold __xalloc_from_freelists.
  destruct (wadd (ROUNDUP size align) phase <? size); [kept|].
  match goal with
  | |- context [xalloc_lists_loop ?n a0 size align phase nocross ?i] =>
      pose proof (afunc_xalloc_lists_loop size align phase nocross n a0 i) as G;
      destruct (xalloc_lists_loop n a0 size align phase nocross i) as [r a1]
  end.
  simpl in G. rewrite H in G. destruct r as [[bt_i try]|]; kept.
Qed.
#[local] Hint Resolve kept_xalloc_from_freelists : kept.

Lemma kept_alloc_bestfit a0 a size :
  afunc a0 = afunc a -> imports_kept (__alloc_bestfit a0 size) a.
Proof.
  intros H. unfold __alloc_bestfit.
  destruct (bestfit_scan a0 size None (free_segs a0 (LOG2_DOWN size)))
    as [b|]; [kept|].
  pose proof (afunc_get_from_freelists a0 (LOG2_DOWN size + 1)) as G.
  destruct (__get_from_freelists a0 (LOG2_DOWN size + 1)) as [r a1].
  simpl in G. rewrite H in G. destruct r; kept.
Qed.

Lemma kept_alloc_instantfit a0 a size :
  afunc a0 = afunc a -> imports_kept (__alloc_instantfit a0 size) a.
Proof.
  intros H. unfold __alloc_instantfit.
  pose proof (afunc_get_from_freelists a0 (LOG2_UP size)) as G.
  destruct (__get_from_freelists a0 (LOG2_UP size)) as [r a1].
  simpl in G. rewrite H in G. destruct r; kept.
Qed.
#[local] Hint Resolve kept_alloc_bestfit kept_alloc_instantfit : kept.

Lemma kept_alloc_from_arena a0 a size flags :
  afunc a0 = afunc a -> imports_kept (alloc_from_arena a0 size flags) a.
Proof.
  intros H. unfold alloc_from_arena, __alloc_nextfit. kept.
Qed.

Lemma kept_xalloc_from_arena a0 a size align phase nocross minaddr maxaddr flags :
  afunc a0 = afunc a ->
  imports_kept
    (xalloc_from_arena a0 size align phase nocross minaddr maxaddr flags) a.
Proof. intros H. unfold xalloc_from_arena. kept. Qed.

Lemma kept_arena_add a0 a base size flags :
  afunc a0 = afunc a -> imports_kept (__arena_add a0 base size flags) a.
Proof. intros H. unfold __arena_add. kept. Qed.

Lemma get_more_resources_turn a size flags a' :
  get_more_resources a size flags = Ret true a' ->
  S (length (afunc a')) = length (afunc a).
Proof.
  unfold get_more_resources. destruct (source a).
  - destruct (afunc a) as [|span rest] eqn:Ha; simpl; [discriminate|].
    destruct (span =? 0); [discriminate|].
    pose proof (kept_arena_add (set_afunc rest a) (set_afunc rest a) span
                  (MAX size (wshl size (import_scale a))) flags eq_refl) as K.
    destruct (__arena_add (set_afunc rest a) span
                (MAX size (wshl size (import_scale a))) flags) as [|added a1];
      [discriminate|].
    simpl in K. cbn [bind]. destruct (added =? 0); [discriminate|].
    intros H. injection H as <-. rewrite K. reflexivity.
  - destruct (negb (has_flag flags MEM_ATOMIC)); discriminate.
Qed.

(** More turns than [S (length (afunc a))] change nothing: the loop of
    [arena_alloc] ends before it has used them up. *)
Lemma arena_alloc_loop_turns t : forall a size flags,
  (length (afunc a) < t)%nat ->
  arena_alloc_loop t a size flags
  = arena_alloc_loop (S (length (afunc a))) a size flags.
Proof.
  induction t as [|t IH]; intros a size flags Ht; [lia|].
  cbn [arena_alloc_loop].
  pose proof (kept_alloc_from_arena a a size flags eq_refl) as K.
  destruct (alloc_from_arena a size flags) as [|ret a1]; [reflexivity|].
  simpl in K. cbn [bind]. destruct (negb (ret =? 0)); [reflexivity|].
  destruct (get_more_resources a1 size flags) as [|more a2] eqn:G;
    [reflexivity|].
  cbn [bind]. destruct more; [|reflexivity]. cbn [negb].
  apply get_more_resources_turn in G. rewrite K in G.
  rewrite IH by lia. rewrite <- G. reflexivity.
Qed.

Lemma arena_xalloc_loop_turns t :
  forall a size align phase nocross minaddr maxaddr flags,
  (length (afunc a) < t)%nat ->
  arena_xalloc_loop t a size align phase nocross minaddr maxaddr flags
  = arena_xalloc_loop (S (length (afunc a))) a size align phase nocross
      minaddr maxaddr flags.
Proof.
  induction t as [|t IH];
    intros a size align phase nocross minaddr maxaddr flags Ht; [lia|].
  cbn [arena_xalloc_loop].
  pose proof (kept_xalloc_from_arena a a size align phase nocross minaddr
                maxaddr flags eq_refl) as K.
  destruct (xalloc_from_arena a size align phase nocross minaddr maxaddr flags)
    as [|ret a1]; [reflexivity|].
  simpl in K. cbn [bind]. destruct (negb (ret =? 0)); [reflexivity|].
  destruct (wadd (wadd size align) phase <? size); [reflexivity|].
  destruct (get_more_resources a1 (wadd (wadd size align) phase) flags)
    as [|more a2] eqn:G; [reflexivity|].
  cbn [bind]. destruct more; [|reflexivity]. cbn [negb].
  apply get_more_resources_turn in G. rewrite K in G.
  rewrite IH by lia. rewrite <- G. reflexivity.
Qed.

Lemma get_more_resources_afunc a size flags more a' :
  get_more_resources a size flags = Ret more a' ->
  (length (afunc a') <= length (afunc a))%nat.
Proof.
  unfold get_more_resources. destruct (source a).
  - assert (Ht : (length (tl (afunc a)) <= length (afunc a))%nat).
    { destruct (afunc a); simpl; lia. }
    destruct (hd 0 (afunc a) =? 0).
    { intros H. injection H as _ <-. exact Ht. }
    pose proof (kept_arena_add (set_afunc (tl (afunc a)) a)
                  (set_afunc (tl (afunc a)) a) (hd 0 (afunc a))
                  (MAX size (wshl size (import_scale a))) flags eq_refl) as K.
    destruct (__arena_add (set_afunc (tl (afunc a)) a) (hd 0 (afunc a))
                (MAX size (wshl size (import_scale a))) flags) as [|added a1];
      [discriminate|].
    simpl in K. cbn [bind].
    destruct (added =? 0); intros H; injection H as _ <-; simpl; rewrite K;
      exact Ht.
  - destruct (negb (has_flag flags MEM_ATOMIC)); [discriminate|].
    intros H. injection H as _ <-. lia.
Qed.

(** What the loop of [arena_alloc] returns without having imported is
    what its first turn found. *)
Lemma arena_alloc_loop_first_turn t : forall a size flags p a1,
  arena_alloc_loop t a size flags = Ret p a1 ->
  (length (afunc a1) <= length (afunc a))%nat
  /\ (p <> 0 -> afunc a1 = afunc a ->
      alloc_from_arena a size flags = Ret p a1).
Proof.
  induction t as [|t IH]; intros a size flags p a1; [discriminate|].
  cbn [arena_alloc_loop].
  pose proof (kept_alloc_from_arena a a size flags eq_refl) as K.
  destruct (alloc_from_arena a size flags) as [|ret a0]; [discriminate|].
  simpl in K. cbn [bind]. destruct (Z.eqb_spec ret 0) as [Hr|Hr]; cbn [negb].
  2:{ intros H. injection H as <- <-. rewrite K. split; [lia | reflexivity]. }
  destruct (get_more_resources a0 size flags) as [|more a2] eqn:G;
    [discriminate|].
  cbn [bind]. pose proof (get_more_resources_afunc _ _ _ _ _ G) as L.
  rewrite K in L. destruct more; cbn [negb].
  - intros H. apply IH in H. destruct H as [H _].
    apply get_more_resources_turn in G. rewrite K in G.
    split; [lia|]. intros _ E. rewrite E in H. lia.
  - intros H. injection H as <- <-. split; [exact L|]. intros E. contradiction.
Qed.


(** * Properties: the literal scenarios *)

(** C1 (failing input).  On the segment [0x1000, 0x4000) with quantum 1,
    [arena_xalloc(size = 0x800, align = 0x1000, phase = 0xc00,
    nocross = 0x1000)] returns 0x1c00, and [0x1c00, 0x2400) crosses the
    boundary 0x2000: the retry of [__find_sufficient] adds the phase
    again and tests no boundary. *)
Theorem xalloc_nocross_crossed :
  ret_val (and_then (one_seg 1 0x1000 0x3000)
             (fun a => arena_xalloc a 0x800 0x1000 0xc00 0x1000 0 0 0))
  = Some 0x1c00
  /\ 0x1c00 / 0x1000 <> (0x1c00 + 0x800 - 1) / 0x1000.
Proof. split; [vm_compute; reflexivity | vm_compute; discriminate]. Qed.

(** C2 (failing input).  After the best-fit trace the last call has
    returned 0x1100 and the counters say one allocation of 0x200, while
    the tree holds the single free tag [0x1000, 0x1300): the closing
    assertions of [__arena_asserter] fail. *)
Theorem bestfit_trace_breaks_counters :
  ret_val bestfit_trace = Some 0x1100
  /\ final counters bestfit_trace = Some (0x300, 0x200, 1)
  /\ final segs bestfit_trace = Some [mk_btag 0x1000 0x300 BTAG_FREE]
  /\ final asserter_counters bestfit_trace = Some false.
Proof. repeat split; vm_compute; reflexivity. Qed.

(** C6 (counterexample).  In the arena whose only segment is
    [0x0, 0x1000), quantum 0x100, the two next-fit allocations do not
    return 0x0 then 0x100: under [MEM_ATOMIC] both return null and
    nothing is allocated, otherwise the first one panics. *)
Lemma nextfit_from_zero_fails :
  final (fun a => nextfit_run 2 a 0x100 NEXTFIT_ATOMIC) (one_seg 0x100 0 0x1000)
  = Some [Some 0; Some 0]
  /\ final nr_allocs
       (and_then (one_seg 0x100 0 0x1000)
          (fun a => nextfit_state 2 a 0x100 NEXTFIT_ATOMIC)) = Some 0
  /\ final (fun a => nextfit_run 2 a 0x100 ARENA_NEXTFIT) (one_seg 0x100 0 0x1000)
     = Some [None].
Proof. repeat split; vm_compute; reflexivity. Qed.

(** C6 (amended).  On [0x0, 0x1000) a next-fit allocation never
    succeeds: the search wants a tag that starts at or above its minimum
    address, which is at least one quantum, and 0 is its failure value.
    On [0x1000, 0x2000), quantum 0x100, two next-fit allocations return
    0x1000 then 0x1100; with 0x1000 freed the next ones return 0x1200 up
    to 0x1f00, and only then 0x1000. *)
Theorem nextfit_cursor_advances :
  final (fun a => nextfit_run 2 a 0x100 NEXTFIT_ATOMIC) (one_seg 0x100 0 0x1000)
  = Some [Some 0; Some 0]
  /\ final (fun a => nextfit_run 2 a 0x100 ARENA_NEXTFIT) (one_seg 0x100 0 0x1000)
     = Some [None]
  /\ final (fun a => nextfit_run 2 a 0x100 NEXTFIT_ATOMIC)
       (one_seg 0x100 0x1000 0x1000)
     = Some [Some 0x1000; Some 0x1100]
  /\ final (fun a => nextfit_run 15 a 0x100 NEXTFIT_ATOMIC) nextfit_shifted
     = Some [Some 0x1200; Some 0x1300; Some 0x1400; Some 0x1500; Some 0x1600;
             Some 0x1700; Some 0x1800; Some 0x1900; Some 0x1a00; Some 0x1b00;
             Some 0x1c00; Some 0x1d00; Some 0x1e00; Some 0x1f00; Some 0x1000].
Proof. repeat split; vm_compute; reflexivity. Qed.

(** C7 (counterexample).  On the free segment [0x0, 0x3000), quantum 1,
    the request [size = 0x800, align = 0x100, phase = 0, nocross =
    0x1000] allocates none of 0x0, 0x1000, 0x2000: without [MEM_ATOMIC]
    the call panics, with it the call returns null and the tree still
    holds the one free tag. *)
Lemma nocross_from_zero_fails :
  nocross_request (one_seg 1 0 0x3000) 0 = Panic
  /\ ret_val (nocross_request (one_seg 1 0 0x3000) MEM_ATOMIC) = Some 0
  /\ final segs (nocross_request (one_seg 1 0 0x3000) MEM_ATOMIC)
     = Some [mk_btag 0 0x3000 BTAG_FREE].
Proof. repeat split; vm_compute; reflexivity. Qed.

(** C7 (amended).  On [0x0, 0x3000) the request is not served, whatever
    the allocation style: the only placement [__find_sufficient] tries
    in the tag is 0x0, its failure value.  The call panics (out of
    memory) without [MEM_ATOMIC] and returns null with it, the arena
    holding no allocation; 0x800 is not returned.  On [0x1000, 0x4000)
    the same request returns 0x1000. *)
Theorem nocross_request_outcome :
  map (fun style => is_panic (nocross_request (one_seg 1 0 0x3000) style))
    alloc_styles = [true; true; true; true]
  /\ map (fun style =>
            ret_val (nocross_request (one_seg 1 0 0x3000)
                       (Z.lor style MEM_ATOMIC))) alloc_styles
     = [Some 0; Some 0; Some 0; Some 0]
  /\ map (fun style =>
            final nr_allocs (nocross_request (one_seg 1 0 0x3000)
                               (Z.lor style MEM_ATOMIC))) alloc_styles
     = [Some 0; Some 0; Some 0; Some 0]
  /\ ret_val (nocross_request (one_seg 1 0x1000 0x3000) 0) = Some 0x1000.
Proof. repeat split; vm_compute; reflexivity. Qed.


(** A next-fit round trip in a settled arena: the allocation takes the
    tag the tree search finds, which is second on its free list, and the
    free puts it back first.  The tree is restored, the order of the
    bucket is not. *)
Lemma nextfit_round_trip_reorders :
  final settled two_apart = Some true
  /\ final (fun a => map (start_of a) (free_segs a 8)) two_apart
     = Some [0x3000; 0x1000]
  /\ final (fun a => map (start_of a) (free_segs a 8)) nextfit_round_trip
     = Some [0x1000; 0x3000]
  /\ final segs nextfit_round_trip = final segs two_apart.
Proof.
  split; [vm_compute; reflexivity|].
  split; [vm_compute; reflexivity|].
  split; vm_compute; reflexivity.
Qed.



(** C9 (failing input).  A cache of 64-byte objects aligned to 2048: its
    slab holds one object.  The allocation fills the slab, which goes to
    the full list; freeing the object takes the busy count to 0 and
    moves the slab to the partial list, where it stays, since the test
    for an emptied slab is the [else] of the test for a slab that was
    full.  Allocating and freeing again ends the same way. *)
Theorem one_object_slab_not_emptied :
  Slab.slab_view (Slab.alloc_n Slab.HDR Slab.CUTOFF Slab.NBUF 1
                    (Slab.cache64 2048))
  = Some (Slab.on_full, 1, 1)
  /\ Slab.slab_view
       (Slab.then_free (fun objs => objs)
          (Slab.alloc_n Slab.HDR Slab.CUTOFF Slab.NBUF 1 (Slab.cache64 2048)))
     = Some (Slab.on_partial, 0, 1)
  /\ Slab.slab_view
       (Slab.then_free (fun objs => objs)
          (match Slab.then_free (fun objs => objs)
                   (Slab.alloc_n Slab.HDR Slab.CUTOFF Slab.NBUF 1
                      (Slab.cache64 2048)) with
           | Some (_, c) =>
               Slab.alloc_n Slab.HDR Slab.CUTOFF Slab.NBUF 1 c
           | None => None
           end))
     = Some (Slab.on_partial, 0, 1).
Proof. repeat split; vm_compute; reflexivity. Qed.

(** The same cache with the alignment 8 has slabs of 56 objects, and
    there the slab goes the way the claim says: partial up to the 55th
    allocation, full at the 56th, partial again when any one object is
    freed, empty when all are. *)
Lemma slab_of_56_lifecycle :
  Slab.slab_view (Slab.alloc_n Slab.HDR Slab.CUTOFF Slab.NBUF 55
                    (Slab.cache64 8))
  = Some (Slab.on_partial, 55, 56)
  /\ Slab.slab_view (Slab.alloc_n Slab.HDR Slab.CUTOFF Slab.NBUF 56
                       (Slab.cache64 8))
     = Some (Slab.on_full, 56, 56)
  /\ (forall k, (k < 56)%nat ->
        Slab.slab_view
          (Slab.then_free (fun objs => [nth k objs 0])
             (Slab.alloc_n Slab.HDR Slab.CUTOFF Slab.NBUF 56 (Slab.cache64 8)))
        = Some (Slab.on_partial, 55, 56))
  /\ Slab.slab_view
       (Slab.then_free (fun objs => objs)
          (Slab.alloc_n Slab.HDR Slab.CUTOFF Slab.NBUF 56 (Slab.cache64 8)))
     = Some (Slab.on_empty, 0, 56).
Proof.
  split; [vm_compute; reflexivity|].
  split; [vm_compute; reflexivity|].
  split; [|vm_compute; reflexivity].
  intros k Hk.
  do 56 (destruct k as [|k]; [vm_compute; reflexivity|]).
  lia.
Qed.

(** The span reclaim scenario: the allocation of 0x800 in the child
    arena imports [0x10000, 0x11000) and returns 0x10000; the free
    merges the segment with the rest of the span, hands the span back
    by one call of [ffunc] and leaves the tree empty. *)
Lemma span_reclaim_scenario :
  ret_val child_alloc = Some 0x10000
  /\ final segs child_alloc
     = Some [mk_btag 0x10000 0x1000 BTAG_SPAN; mk_btag 0x10000 0x800 BTAG_ALLOC;
             mk_btag 0x10800 0x800 BTAG_FREE]
  /\ final ffunc (and_then child_alloc (fun a => arena_free a 0x10000 0x800))
     = Some [(0x10000, 0x1000)]
  /\ final segs (and_then child_alloc (fun a => arena_free a 0x10000 0x800))
     = Some []
  /\ final counters (and_then child_alloc (fun a => arena_free a 0x10000 0x800))
     = Some (0, 0, 0).
Proof. repeat split; vm_compute; reflexivity. Qed.

(** * Properties: every state *)

(** C10.  [xalloc_from_arena], and [alloc_from_arena] under
    [ARENA_NEXTFIT], return 0 only when the search has taken no segment:
    the arena is then as the acquisition of boundary tags left it.  So
    an address these return for a segment they allocated is never 0: a
    tag whose placement would be address 0 is passed over like a tag
    that does not fit. *)
Theorem xalloc_zero_is_failure a size align phase nocross minaddr maxaddr flags :
  (forall p a',
     xalloc_from_arena a size align phase nocross minaddr maxaddr flags
     = Ret p a' ->
     p = 0 ->
     exists enough,
       __get_enough_btags a 2 (Z.land flags MEM_FLAGS) = Ret enough a')
  /\ (forall p a',
        has_flag flags ARENA_BESTFIT = false ->
        has_flag flags ARENA_NEXTFIT = true ->
        alloc_from_arena a size flags = Ret p a' ->
        p = 0 ->
        exists enough,
          __get_enough_btags a 1 (Z.land flags MEM_FLAGS) = Ret enough a').
Proof.
  split.
  - intros p a'. unfold xalloc_from_arena.
    destruct (__get_enough_btags a 2 (Z.land flags MEM_FLAGS))
      as [|enough a1]; [discriminate|].
    simpl. destruct enough; simpl.
    + intros H Hp. exists true. f_equal. symmetry. revert H Hp.
      destruct (negb (minaddr =? 0) || negb (maxaddr =? 0));
        [apply xalloc_min_max_zero|].
      destruct (has_flag flags ARENA_BESTFIT);
        [apply xalloc_from_freelists_zero|].
      destruct (has_flag flags ARENA_NEXTFIT);
        [apply xalloc_nextfit_zero | apply xalloc_from_freelists_zero].
    + intros H _. injection H as _ <-. exists false. reflexivity.
  - intros p a' Hb Hn. unfold alloc_from_arena.
    destruct (__get_enough_btags a 1 (Z.land flags MEM_FLAGS))
      as [|enough a1]; [discriminate|].
    simpl. destruct enough; simpl.
    + rewrite Hb, Hn. intros H Hp. exists true. f_equal. symmetry.
      exact (xalloc_nextfit_zero _ _ _ _ _ _ _ H Hp).
    + intros H _. injection H as _ <-. exists false. reflexivity.
Qed.

Lemma xalloc_zero_is_failure_witness :
  exists enough,
    __get_enough_btags (state_of (one_seg 1 0 0x3000)) 2
      (Z.land MEM_ATOMIC MEM_FLAGS)
    = Ret enough
        (state_of (xalloc_from_arena (state_of (one_seg 1 0 0x3000))
                     0x800 0x100 0 0x1000 0 0 MEM_ATOMIC)).
Proof.
  apply (proj1 (xalloc_zero_is_failure (state_of (one_seg 1 0 0x3000))
                  0x800 0x100 0 0x1000 0 0 MEM_ATOMIC) 0);
    [vm_compute; reflexivity | reflexivity].
Defined.









(** * Lemmas: powers of two and rounding *)

Lemma IS_PWR2_spec x : IS_PWR2 x = true -> exists k, 0 <= k /\ x = 2 ^ k.
Proof.
  unfold IS_PWR2. intros H. apply andb_true_iff in H. destruct H as [H0 H1].
  apply negb_true_iff, Z.eqb_neq in H0. apply Z.eqb_eq in H1.
  assert (Hpos : 0 < x).
  { destruct (Z.lt_trichotomy x 0) as [Hn|[Hz|Hp]]; [|contradiction|exact Hp].
    assert (Z.land x (x - 1) < 0) by (apply Z.land_neg; lia). lia. }
  exists (Z.log2 x). split; [apply Z.log2_nonneg|].
  destruct (Z.log2_spec x Hpos) as [Hlo Hhi].
  destruct (Z.eq_dec x (2 ^ Z.log2 x)) as [E|E]; [exact E|exfalso].
  assert (Hl : Z.log2 (x - 1) = Z.log2 x).
  { apply Z.log2_unique; [apply Z.log2_nonneg | lia]. }
  assert (B1 : Z.testbit x (Z.log2 x) = true) by (apply Z.bit_log2; lia).
  assert (B2 : Z.testbit (x - 1) (Z.log2 x) = true).
  { rewrite <- Hl. apply Z.bit_log2.
    pose proof (Z.pow_pos_nonneg 2 (Z.log2 x) ltac:(lia) (Z.log2_nonneg x)). lia. }
  assert (B : Z.testbit (Z.land x (x - 1)) (Z.log2 x) = true).
  { rewrite Z.land_spec, B1, B2. reflexivity. }
  rewrite H1, Z.bits_0 in B. discriminate.
Qed.

Lemma pow2_divides_WORD n :
  IS_PWR2 n = true -> 0 <= n < WORD -> 0 < n /\ (n | WORD).
Proof.
  intros H R. destruct (IS_PWR2_spec n H) as (k & Hk & ->).
  assert (Hp : 0 < 2 ^ k) by (apply Z.pow_pos_nonneg; lia).
  split; [exact Hp|].
  assert (k < 64).
  { destruct (Z.lt_ge_cases k 64) as [|Hge]; [assumption|exfalso].
    pose proof (Z.pow_le_mono_r 2 64 k ltac:(lia) Hge). unfold WORD in R. lia. }
  exists (2 ^ (64 - k)). unfold WORD. rewrite <- Z.pow_add_r by lia.
  f_equal. lia.
Qed.

Lemma pow2_comparable a b :
  IS_PWR2 a = true -> IS_PWR2 b = true -> a <= b -> (a | b).
Proof.
  intros Ha Hb Hle. destruct (IS_PWR2_spec a Ha) as (i & Hi & ->).
  destruct (IS_PWR2_spec b Hb) as (j & Hj & ->).
  assert (i <= j).
  { destruct (Z.le_gt_cases i j) as [|Hgt]; [assumption|exfalso].
    pose proof (Z.pow_lt_mono_r 2 j i ltac:(lia) Hi Hgt). lia. }
  exists (2 ^ (j - i)). rewrite <- Z.pow_add_r by lia. f_equal. lia.
Qed.

Lemma ROUNDDOWN_multiple x n : n <> 0 -> (n | ROUNDDOWN x n).
Proof.
  intros Hn. unfold ROUNDDOWN. exists (x / n).
  pose proof (Z.div_mod x n Hn). lia.
Qed.

Lemma ROUNDDOWN_range x n : 0 < n -> 0 <= x -> 0 <= ROUNDDOWN x n <= x.
Proof.
  intros Hn Hx. unfold ROUNDDOWN.
  pose proof (Z.mod_pos_bound x n Hn). pose proof (Z.mod_le x n Hx Hn). lia.
Qed.

Lemma ROUNDUP_multiple x n : n <> 0 -> (n | ROUNDUP x n).
Proof. intros Hn. apply ROUNDDOWN_multiple. exact Hn. Qed.

Lemma ROUNDUP_range x n : 0 < n -> 0 <= ROUNDUP x n < WORD.
Proof.
  intros Hn. unfold ROUNDUP. pose proof (wrap_range (x + n - 1)) as R.
  pose proof (ROUNDDOWN_range (wrap (x + n - 1)) n Hn (proj1 R)). lia.
Qed.

(** Rounding up without wrap-around: the least multiple at or above. *)
Lemma ROUNDUP_nowrap x n :
  0 < n -> 0 <= x -> x + n - 1 < WORD ->
  x <= ROUNDUP x n < x + n.
Proof.
  intros Hn Hx Hw. unfold ROUNDUP, ROUNDDOWN.
  rewrite wrap_small by lia.
  pose proof (Z.mod_pos_bound (x + n - 1) n Hn). lia.
Qed.

(** Rounding up with wrap-around lands below the argument. *)
Lemma ROUNDUP_wrapped x n :
  0 < n <= WORD -> 0 <= x < WORD -> WORD <= x + n - 1 -> ROUNDUP x n < x.
Proof.
  intros Hn Hx Hw. unfold ROUNDUP.
  assert (E : wrap (x + n - 1) = x + n - 1 - WORD).
  { unfold wrap. symmetry. apply Z.mod_unique_pos with (q := 1); lia. }
  rewrite E.
  pose proof (ROUNDDOWN_range (x + n - 1 - WORD) n ltac:(lia) ltac:(lia)). lia.
Qed.

Lemma multiple_below_WORD r n :
  0 < n -> (n | WORD) -> (n | r) -> 0 <= r < WORD -> r + n <= WORD.
Proof.
  intros Hn [w Hw] [m Hm] R. subst r. rewrite Hw in *.
  assert (m < w) by nia. nia.
Qed.

(** * Lemmas: the placements of [__find_sufficient] *)

(** The two ways [__find_sufficient] returns a placement: the first
    try, which fits and crosses nothing, or the try of the second call,
    from the boundary on. *)
Lemma find_sufficient_cases s z size al ph nc :
  let r := __find_sufficient s z size al ph nc in
  r <> 0 ->
  (let t := wadd (ROUNDUP s al) ph in
   r = t /\ s <= t /\ t <= wadd t size /\ wadd t size <= wadd s z
   /\ (nc = 0 \/ wadd t size <= ROUNDUP t nc))
  \/ (nc <> 0
      /\ let s0 := ROUNDUP s nc in
         let z0 := wsub z (wsub s0 s) in
         let t := wadd (ROUNDUP s0 al) ph in
         z0 <= z /\ s0 <= wadd s0 z0
         /\ r = t /\ s0 <= t /\ t <= wadd t size
         /\ wadd t size <= wadd s0 z0).
Proof.
  unfold __find_sufficient. cbn [find_sufficient_rec]. cbv zeta.
  set (t := wadd (ROUNDUP s al) ph).
  destruct (Z.ltb_spec t s); [intros Hr; exfalso; apply Hr; reflexivity|].
  destruct (Z.ltb_spec (wadd t size) t); [intros Hr; exfalso; apply Hr; reflexivity|].
  destruct (Z.gtb_spec (wadd t size) (wadd s z)); [intros Hr; exfalso; apply Hr; reflexivity|].
  destruct (Z.eqb_spec nc 0) as [Hn|Hn].
  { intros _. left. repeat split; auto; lia. }
  destruct (Z.geb_spec (ROUNDUP t nc) (wadd t size)).
  { intros _. left. repeat split; auto; lia. }
  set (s0 := ROUNDUP s nc). set (z0 := wsub z (wsub s0 s)).
  destruct (Z.gtb_spec z0 z); [intros Hr; exfalso; apply Hr; reflexivity|].
  destruct (Z.ltb_spec (wadd s0 z0) s0); [intros Hr; exfalso; apply Hr; reflexivity|].
  set (t2 := wadd (ROUNDUP s0 al) ph).
  destruct (Z.ltb_spec t2 s0); [intros Hr; exfalso; apply Hr; reflexivity|].
  destruct (Z.ltb_spec (wadd t2 size) t2); [intros Hr; exfalso; apply Hr; reflexivity|].
  destruct (Z.gtb_spec (wadd t2 size) (wadd s0 z0));
    [intros Hr; exfalso; apply Hr; reflexivity|].
  rewrite Z.eqb_refl. intros _. right.
  split; [exact Hn|]. repeat split; auto; lia.
Qed.

Lemma wadd_ge_nowrap t size :
  0 <= t < WORD -> 0 <= size < WORD -> t <= wadd t size ->
  wadd t size = t + size.
Proof.
  intros Ht Hs H. unfold wadd, wrap in *.
  destruct (Z.lt_ge_cases (t + size) WORD) as [Hlt|Hge].
  - apply Z.mod_small. lia.
  - exfalso.
    assert ((t + size) mod WORD = t + size - WORD).
    { symmetry. apply Z.mod_unique_pos with (q := 1); lia. }
    lia.
Qed.

(** The boundary the second call starts from is inside the tag, and what
    is left of the tag from there on ends where the tag ends. *)
Lemma find_sufficient_retry_range s z nc :
  0 < nc -> 0 <= s -> 0 <= z -> s + z < WORD ->
  let s0 := ROUNDUP s nc in
  let z0 := wsub z (wsub s0 s) in
  z0 <= z -> s <= s0 /\ s0 + z0 = s + z /\ 0 <= z0.
Proof.
  intros Hn Hs Hz Hw s0 z0 Hle.
  assert (R0 : 0 <= s0 < WORD) by (apply ROUNDUP_range; lia).
  destruct (Z.lt_ge_cases s0 s) as [Hlt|Hge].
  - exfalso. unfold z0 in Hle.
    assert (E1 : wsub s0 s = s0 - s + WORD).
    { unfold wsub, wrap. symmetry. apply Z.mod_unique_pos with (q := -1); lia. }
    assert (E2 : wsub z (wsub s0 s) = z - (s0 - s + WORD) + WORD).
    { rewrite E1. unfold wsub, wrap. symmetry.
      apply Z.mod_unique_pos with (q := -1); lia. }
    lia.
  - assert (E1 : wsub s0 s = s0 - s).
    { unfold wsub. apply wrap_small. lia. }
    destruct (Z.le_gt_cases (s0 - s) z) as [Hd|Hd].
    + assert (E2 : z0 = z - (s0 - s)).
      { unfold z0. rewrite E1. unfold wsub. apply wrap_small. lia. }
      lia.
    + exfalso. unfold z0 in Hle. rewrite E1 in Hle.
      assert (E2 : wsub z (s0 - s) = z - (s0 - s) + WORD).
      { unfold wsub, wrap. symmetry.
        apply Z.mod_unique_pos with (q := -1); lia. }
      lia.
Qed.

(** A placement lies inside the tag it was found in. *)
Lemma find_sufficient_in_tag s z size al ph nc :
  0 < al -> 0 <= nc -> 0 <= size < WORD ->
  0 <= s -> 0 <= z -> s + z < WORD ->
  let r := __find_sufficient s z size al ph nc in
  r <> 0 -> s <= r /\ r + size <= s + z.
Proof.
  intros Hal Hnc Hsz Hs Hz Hw r Hr.
  destruct (find_sufficient_cases s z size al ph nc Hr)
    as [(E & H1 & H2 & H3 & _) | (Hn & H)].
  - fold r in E. rewrite <- E in *.
    assert (Rr : 0 <= r < WORD) by (rewrite E; apply wadd_range).
    rewrite (wadd_ge_nowrap r size Rr Hsz H2) in H3.
    rewrite (wadd_small s z) in H3 by lia. lia.
  - cbv zeta in H. destruct H as (Hz0 & H0 & E & H1 & H2 & H3).
    fold r in E. rewrite <- E in *.
    destruct (find_sufficient_retry_range s z nc ltac:(lia) Hs Hz Hw Hz0)
      as (G1 & G2 & G3).
    assert (Rr : 0 <= r < WORD) by (rewrite E; apply wadd_range).
    rewrite (wadd_ge_nowrap r size Rr Hsz H2) in H3.
    rewrite (wadd_small (ROUNDUP s nc)) in H3 by lia. lia.
Qed.

(** A placement is [phase] beyond a multiple of [align]. *)
Lemma find_sufficient_congruent s z size al ph nc :
  IS_PWR2 al = true -> 0 <= al < WORD ->
  let r := __find_sufficient s z size al ph nc in
  r <> 0 -> r mod al = ph mod al.
Proof.
  intros Hp Ra r Hr. destruct (pow2_divides_WORD al Hp Ra) as [Hal Hd].
  assert (G : forall x, wadd (ROUNDUP x al) ph mod al = ph mod al).
  { intros x. unfold wadd, wrap.
    rewrite (Z.mod_mod_divide _ WORD al Hd).
    destruct (ROUNDUP_multiple x al ltac:(lia)) as [m Hm]. rewrite Hm.
    rewrite Z.add_comm. apply Z.mod_add. lia. }
  destruct (find_sufficient_cases s z size al ph nc Hr)
    as [(E & _) | (_ & H)].
  - fold r in E. rewrite E. apply G.
  - cbv zeta in H. destruct H as (_ & _ & E & _). fold r in E. rewrite E.
    apply G.
Qed.

Lemma div_between x m n : 0 < n -> m * n <= x < (m + 1) * n -> x / n = m.
Proof.
  intros Hn H. symmetry. apply Z.div_unique with (r := x - m * n); lia.
Qed.

(** A range that ends at or below the next boundary crosses none. *)
Lemma below_boundary_no_cross t size nc :
  0 < nc <= WORD -> 0 <= t < WORD -> 0 < size ->
  t + size <= ROUNDUP t nc ->
  t / nc = (t + size - 1) / nc.
Proof.
  intros Hn Ht Hs H.
  destruct (Z.lt_ge_cases (t + nc - 1) WORD) as [Hlt|Hge].
  - pose proof (ROUNDUP_nowrap t nc ltac:(lia) ltac:(lia) Hlt) as B.
    destruct (ROUNDUP_multiple t nc ltac:(lia)) as [m Hm].
    rewrite Hm in *.
    rewrite (div_between t (m - 1) nc) by lia.
    rewrite (div_between (t + size - 1) (m - 1) nc) by lia. reflexivity.
  - pose proof (ROUNDUP_wrapped t nc Hn Ht Hge). lia.
Qed.

(** From a boundary on, a range of [phase + size <= nocross] crosses
    no boundary. *)
Lemma from_boundary_no_cross s0 size al ph nc :
  IS_PWR2 al = true -> IS_PWR2 nc = true ->
  0 <= al < WORD -> 0 <= nc < WORD ->
  0 <= ph -> 0 < size -> ph + size <= nc ->
  (nc | s0) -> 0 <= s0 < WORD ->
  let t := wadd (ROUNDUP s0 al) ph in
  s0 <= t -> t / nc = (t + size - 1) / nc.
Proof.
  intros Pa Pn Ra Rn Hph Hsz Hfit Hd Rs t Hle.
  destruct (pow2_divides_WORD al Pa Ra) as [Hal Dal].
  destruct (pow2_divides_WORD nc Pn Rn) as [Hnc Dnc].
  assert (RR : 0 <= ROUNDUP s0 al < WORD) by (apply ROUNDUP_range; lia).
  assert (DR : (nc | ROUNDUP s0 al)).
  { destruct (Z.le_gt_cases al nc) as [Hc|Hc].
    - pose proof (pow2_comparable al nc Pa Pn Hc) as Dan.
      pose proof (multiple_below_WORD s0 nc Hnc Dnc Hd Rs) as Hb.
      assert (E : ROUNDUP s0 al = s0).
      { unfold ROUNDUP, ROUNDDOWN. rewrite wrap_small by lia.
        destruct (Z.divide_trans _ _ _ Dan Hd) as [m Hm]. rewrite Hm.
        replace (m * al + al - 1) with ((al - 1) + m * al) by lia.
        rewrite Z.mod_add by lia. rewrite Z.mod_small by lia. lia. }
      rewrite E. exact Hd.
    - pose proof (pow2_comparable nc al Pn Pa ltac:(lia)) as Dna.
      exact (Z.divide_trans _ _ _ Dna (ROUNDUP_multiple s0 al ltac:(lia))). }
  pose proof (multiple_below_WORD _ nc Hnc Dnc DR RR) as Hb.
  assert (E : t = ROUNDUP s0 al + ph).
  { unfold t. apply wadd_small. lia. }
  rewrite E. destruct DR as [m Hm]. rewrite Hm.
  rewrite (div_between (m * nc + ph) m nc) by lia.
  rewrite (div_between (m * nc + ph + size - 1) m nc) by lia. reflexivity.
Qed.

(** With [phase + size <= nocross] a placement crosses no boundary. *)
Lemma find_sufficient_no_cross s z size al ph nc :
  IS_PWR2 al = true -> IS_PWR2 nc = true ->
  0 <= al < WORD -> 0 <= nc < WORD ->
  0 <= ph -> 0 < size -> ph + size <= nc ->
  let r := __find_sufficient s z size al ph nc in
  r <> 0 -> r / nc = (r + size - 1) / nc.
Proof.
  intros Pa Pn Ra Rn Hph Hsz Hfit r Hr.
  destruct (pow2_divides_WORD nc Pn Rn) as [Hnc Dnc].
  destruct (find_sufficient_cases s z size al ph nc Hr)
    as [(E & H1 & H2 & H3 & H4) | (Hn & H)].
  - fold r in E. rewrite <- E in *.
    assert (Rr : 0 <= r < WORD) by (rewrite E; apply wadd_range).
    destruct H4 as [H4|H4]; [lia|].
    rewrite (wadd_ge_nowrap r size Rr ltac:(lia) H2) in H4.
    apply below_boundary_no_cross; auto; lia.
  - cbv zeta in H. destruct H as (_ & _ & E & H1 & _). fold r in E.
    rewrite E in *.
    apply from_boundary_no_cross; auto.
    + apply ROUNDUP_multiple. lia.
    + apply ROUNDUP_range. lia.
Qed.

(** * Lemmas: the address a constrained search returns *)

Lemma insert_btag_unused a bt a' :
  __insert_btag a bt = Ret tt a' -> unused_btags a' = unused_btags a.
Proof.
  unfold __insert_btag. destruct (insert_walk a bt (all_segs a));
    [|discriminate]. intros H. injection H as <-. reflexivity.
Qed.

Lemma insert_btag_status a bt a' x :
  __insert_btag a bt = Ret tt a' -> status_of a' x = status_of a x.
Proof.
  intros H. unfold status_of. rewrite (insert_btag_bts _ _ _ H). reflexivity.
Qed.

Lemma insert_btag_hash a bt a' :
  __insert_btag a bt = Ret tt a' -> alloc_hash a' = alloc_hash a.
Proof.
  unfold __insert_btag. destruct (insert_walk a bt (all_segs a));
    [|discriminate]. intros H. injection H as <-. reflexivity.
Qed.

Lemma alloc_counted_hash a bt size :
  alloc_hash (alloc_counted a bt size) = bt :: alloc_hash a.
Proof. reflexivity. Qed.

Lemma insert_btag_size a bt a' x :
  __insert_btag a bt = Ret tt a' -> size_of a' x = size_of a x.
Proof.
  intros H. unfold size_of. rewrite (insert_btag_bts _ _ _ H). reflexivity.
Qed.

Lemma split_bt_at_unused a bt at_ a' :
  __split_bt_at a bt at_ = Ret tt a' ->
  exists front rest,
    unused_btags a = front :: rest /\ unused_btags a' = rest.
Proof.
  unfold __split_bt_at, __get_btag.
  destruct (unused_btags a) as [|front rest] eqn:Hu; [discriminate|].
  unfold bind. intros H. exists front, rest. split; [reflexivity|].
  rewrite (insert_btag_unused _ _ _ H). reflexivity.
Qed.

Lemma split_bt_at_status a bt at_ a' :
  __split_bt_at a bt at_ = Ret tt a' ->
  hd_error (unused_btags a) <> Some bt -> status_of a' bt = status_of a bt.
Proof.
  unfold __split_bt_at, __get_btag.
  destruct (unused_btags a) as [|front rest] eqn:Hu; [discriminate|].
  unfold bind. intros H Hne. rewrite (insert_btag_status _ _ _ bt H).
  rewrite status_of_track_free, status_of_set_size, status_of_set_start,
    status_of_set_size, status_of_set_start, status_of_set_status,
    status_of_set_unused_btags.
  destruct (Z.eqb_spec bt front) as [->|]; [|reflexivity].
  exfalso. apply Hne. reflexivity.
Qed.

(** What [__account_alloc] leaves of the tag it allocates, when that tag
    is not on the unused list. *)
Lemma account_alloc_tag a bt size r a' :
  ~ In bt (unused_btags a) ->
  __account_alloc a bt size None = Ret r a' ->
  status_of a bt = BTAG_FREE /\ size <= size_of a bt
  /\ start_of a' bt = start_of a bt /\ size_of a' bt = size
  /\ status_of a' bt = BTAG_ALLOC /\ alloc_hash a' = bt :: alloc_hash a.
Proof.
  intros Hn. rewrite account_alloc_unfold.
  destruct (status_of a bt) eqn:Sx; cbn [status_eqb negb]; try discriminate.
  destruct (Z.eqb_spec (size_of a bt) size) as [Zx|Zx].
  - intros H. injection H as _ <-.
    destruct (tags_alloc_counted a bt size bt) as (E1 & E2 & E3).
    rewrite E1, E2, E3, Z.eqb_refl, alloc_counted_hash. repeat split; auto.
    lia.
  - destruct (Z.gtb_spec (size_of a bt) size) as [Hgt|]; [|discriminate].
    cbn [negb]. destruct (unused_btags a) as [|new rest] eqn:Hu; [discriminate|].
    assert (Hne : bt <> new) by (intros ->; apply Hn; left; reflexivity).
    destruct (__insert_btag _ new) as [|[] a1] eqn:Hi; [discriminate|].
    unfold bind. intros H. injection H as _ <-.
    destruct (tags_alloc_counted a1 bt size bt) as (E1 & E2 & E3).
    rewrite E1, E2, E3, Z.eqb_refl.
    rewrite (insert_btag_start _ _ _ bt Hi), (insert_btag_size _ _ _ bt Hi).
    destruct (tags_split_fields (set_unused_btags rest a) bt size new bt)
      as (P1 & P2 & _).
    rewrite P1, P2, Z.eqb_refl.
    destruct (Z.eqb_spec bt new); [contradiction|].
    assert (Hh : alloc_hash a1 = alloc_hash a).
    { rewrite (insert_btag_hash _ _ _ Hi). unfold split_fields.
      rewrite alloc_hash_track_free, alloc_hash_set_size, alloc_hash_set_size,
        alloc_hash_set_start. reflexivity. }
    repeat split; auto; [lia|].
    rewrite alloc_counted_hash, Hh. reflexivity.
Qed.

(** A request served from the tag [bt] at the placement [try]. *)
Lemma serve_spec a bt try size p a' :
  ~ In bt (unused_btags a) -> 0 <= try < WORD ->
  (do _, a <- (if negb (try =? start_of a bt) then __split_bt_at a bt try
               else Ret tt a);
   do _, a <- __account_alloc a bt size None;
   Ret (start_of a bt) a) = Ret p a' ->
  p = try /\ status_of a bt = BTAG_FREE
  /\ start_of a' bt = try /\ size_of a' bt = size
  /\ status_of a' bt = BTAG_ALLOC /\ hd_error (alloc_hash a') = Some bt.
Proof.
  intros Hn Htry.
  assert (Hs : forall a1,
             (if negb (try =? start_of a bt) then __split_bt_at a bt try
              else Ret tt a) = Ret tt a1 ->
             start_of a1 bt = try /\ status_of a1 bt = status_of a bt
             /\ ~ In bt (unused_btags a1)).
  { intros a1. destruct (Z.eqb_spec try (start_of a bt)) as [He|Hne]; simpl.
    - intros H. injection H as <-. auto.
    - intros H. destruct (split_bt_at_unused _ _ _ _ H)
        as (front & rest & U & U').
      rewrite (split_bt_at_start _ _ _ _ H), U', wrap_small by lia.
      split; [reflexivity|]. rewrite U in Hn. split.
      + apply (split_bt_at_status _ _ _ _ H). rewrite U. simpl.
        intros E. injection E as ->. apply Hn. left. reflexivity.
      + intros Hc. apply Hn. right. exact Hc. }
  destruct (if negb (try =? start_of a bt) then __split_bt_at a bt try
            else Ret tt a) as [|[] a1]; [discriminate|].
  destruct (Hs a1 eq_refl) as (S1 & S2 & S3). cbn [bind].
  destruct (__account_alloc a1 bt size None) as [|r a2] eqn:Hacc;
    [discriminate|].
  cbn [bind]. intros H. injection H as <- <-.
  destruct (account_alloc_tag _ _ _ _ _ S3 Hacc) as (A1 & A2 & A3 & A4 & A5 & A6).
  rewrite A3, A6, S1, <- S2. auto 10.
Qed.

(** * Lemmas: the tag a constrained search serves from *)

Lemma serve_served a bt try size p a' :
  ~ In bt (unused_btags a) -> 0 <= try < WORD ->
  (do _, a <- (if negb (try =? start_of a bt) then __split_bt_at a bt try
               else Ret tt a);
   do _, a <- __account_alloc a bt size None;
   Ret (start_of a bt) a) = Ret p a' ->
  p = try /\ status_of a bt = BTAG_FREE /\ served a' bt p size.
Proof.
  intros Hn Ht H. destruct (serve_spec _ _ _ _ _ _ Hn Ht H)
    as (E & S & S1 & S2 & S3 & S4).
  subst p. unfold served. auto 10.
Qed.

Lemma first_sufficient_In a size align phase nocross l bt try :
  first_sufficient a size align phase nocross l = Some (bt, try) -> In bt l.
Proof.
  induction l as [|x l IH]; simpl; [discriminate|].
  destruct (negb (_ =? 0)).
  - intros H. injection H as <- _. left. reflexivity.
  - intros H. right. exact (IH H).
Qed.

Lemma xalloc_lists_loop_mem size align phase nocross n : forall a i bt try a',
  xalloc_lists_loop n a size align phase nocross i = (Some (bt, try), a') ->
  exists j, i <= j < i + Z.of_nat n /\ In bt (free_segs a j)
    /\ unused_btags a' = unused_btags a /\ all_segs a' = all_segs a.
Proof.
  induction n as [|n IH]; intros a i bt try a'; [discriminate|].
  cbn [xalloc_lists_loop].
  destruct (first_sufficient a size align phase nocross (free_segs a i))
    as [[b t]|] eqn:F.
  - intros H. injection H as <- <- <-. exists i.
    split; [lia|]. split; [exact (first_sufficient_In _ _ _ _ _ _ _ _ F)|].
    split; reflexivity.
  - intros H. destruct (IH _ _ _ _ _ H) as (j & Hj & R).
    exists j. split; [lia | exact R].
Qed.

Lemma find_sufficient_word s z size al ph nc :
  0 <= __find_sufficient s z size al ph nc < WORD.
Proof. apply find_sufficient_rec_range. Qed.

Lemma xalloc_from_freelists_spec a size align phase nocross inst p a' :
  lists_ok a = true ->
  __xalloc_from_freelists a size align phase nocross inst = Ret p a' ->
  p <> 0 ->
  exists bt,
    In bt (all_segs a) /\ status_of a bt = BTAG_FREE
    /\ p = __find_sufficient (start_of a bt) (size_of a bt) size align phase
             nocross
    /\ served a' bt p size.
Proof.
  intros L. unfold __xalloc_from_freelists.
  destruct (wadd (ROUNDUP size align) phase <? size).
  { intros H. injection H as <- _. congruence. }
  set (idx := LOG2_DOWN (wadd (ROUNDUP size align) phase)
              + (if inst then 1 else 0)).
  assert (Hidx : 0 <= idx).
  { unfold idx, LOG2_DOWN.
    pose proof (Z.log2_nonneg (wadd (ROUNDUP size align) phase)).
    destruct inst; lia. }
  destruct (xalloc_lists_loop (Z.to_nat (ARENA_NR_FREE_LISTS - idx)) a size
              align phase nocross idx) as [[[bt try]|] a1] eqn:Hl.
  2:{ intros H. injection H as <- _. congruence. }
  pose proof (xalloc_lists_loop_spec _ _ _ _ _ _ _ _ _ Hl) as (B & Et & Nt).
  destruct (xalloc_lists_loop_mem _ _ _ _ _ _ _ _ _ _ Hl) as (j & Hj & Hin & U & T).
  assert (Hj' : 0 <= j < ARENA_NR_FREE_LISTS).
  { unfold ARENA_NR_FREE_LISTS in *. lia. }
  destruct (lists_ok_free a j bt L Hj' Hin) as [Ht _].
  assert (Hu : ~ In bt (unused_btags a1)).
  { rewrite U. intros Hc. exact (lists_ok_unused a bt L Hc Ht). }
  assert (Es : start_of a1 bt = start_of a bt)
    by (unfold start_of; rewrite B; reflexivity).
  assert (Ss : status_of a1 bt = status_of a bt)
    by (unfold status_of; rewrite B; reflexivity).
  intros H Hp.
  pose proof (find_sufficient_word (start_of a bt) (size_of a bt) size align
                phase nocross) as R. rewrite <- Et in R.
  destruct (serve_served _ _ _ _ _ _ Hu R H) as (E & S & Sv).
  exists bt. rewrite <- Ss, <- Et. auto.
Qed.

Lemma min_max_scan_spec size align phase nocross maxaddr l : forall a p a',
  (forall bt, In bt l -> ~ In bt (unused_btags a)) ->
  min_max_scan a size align phase nocross maxaddr l = Ret p a' ->
  p <> 0 ->
  exists bt,
    In bt l /\ status_of a bt = BTAG_FREE
    /\ p = __find_sufficient (start_of a bt) (size_of a bt) size align phase
             nocross
    /\ (maxaddr <> 0 -> wadd p size <= maxaddr)
    /\ served a' bt p size.
Proof.
  induction l as [|bt l IH]; intros a p a' Hu.
  { simpl. intros H. injection H as <- _. congruence. }
  cbn [min_max_scan].
  set (try := __find_sufficient (start_of a bt) (size_of a bt) size align
                phase nocross).
  destruct (Z.eqb_spec try 0) as [Hz|Hz].
  { intros H Hp. destruct (IH a p a') as (b & Hb & R); auto.
    - intros b Hb. apply Hu. right. exact Hb.
    - exists b. split; [right; exact Hb | exact R]. }
  destruct (negb (maxaddr =? 0) && (wadd try size >? maxaddr)) eqn:Hm.
  { intros H. injection H as <- _. congruence. }
  intros H Hp.
  assert (Hn : ~ In bt (unused_btags (__untrack_free_seg a bt))).
  { rewrite unused_btags_untrack_free. apply Hu. left. reflexivity. }
  pose proof (find_sufficient_word (start_of a bt) (size_of a bt) size align
                phase nocross) as R. fold try in R.
  destruct (serve_served _ _ _ _ _ _ Hn R H) as (E & S & Sv).
  rewrite status_of_untrack_free in S.
  exists bt. split; [left; reflexivity|]. split; [exact S|].
  split; [exact E|]. split; [|exact Sv].
  intros Hmax. apply andb_false_iff in Hm. destruct Hm as [Hm|Hm].
  - apply negb_false_iff, Z.eqb_eq in Hm. contradiction.
  - rewrite E. destruct (Z.gtb_spec (wadd try size) maxaddr); [discriminate|lia].
Qed.

Lemma least_upper_from_suffix a minaddr l : forall prev,
  exists l1, l = l1 ++ least_upper_from a minaddr prev l.
Proof.
  induction l as [|bt l IH]; intros prev; [exists []; reflexivity|].
  cbn [least_upper_from].
  destruct (__found_least_upper_btag a bt prev minaddr).
  - exists []. reflexivity.
  - destruct (IH (Some bt)) as [l1 E]. exists (bt :: l1). simpl.
    rewrite <- E. reflexivity.
Qed.

Lemma least_upper_from_head a minaddr l : forall prev bt l2,
  least_upper_from a minaddr prev l = bt :: l2 -> minaddr <= start_of a bt.
Proof.
  induction l as [|x l IH]; intros prev bt l2; [discriminate|].
  cbn [least_upper_from].
  destruct (__found_least_upper_btag a x prev minaddr) eqn:F.
  - intros H. injection H as <- _. unfold __found_least_upper_btag in F.
    destruct (Z.ltb_spec (start_of a x) minaddr); [discriminate | lia].
  - apply IH.
Qed.

Lemma starts_sorted_head a x l y :
  starts_sorted a (x :: l) = true -> In y l -> start_of a x <= start_of a y.
Proof.
  unfold starts_sorted. revert x. induction l as [|z l IH]; intros x S Hy;
    [destruct Hy|].
  change (chain (fun x y => start_of a x <=? start_of a y) (x :: z :: l))
    with ((start_of a x <=? start_of a z)
          && chain (fun x y => start_of a x <=? start_of a y) (z :: l)) in S.
  apply andb_true_iff in S. destruct S as [S1 S2]. apply Z.leb_le in S1.
  destruct Hy as [->|Hy]; [exact S1|]. pose proof (IH z S2 Hy). lia.
Qed.

(** In a sorted tree the search of [__xalloc_min_max] looks at tags that
    start at [minaddr] or above only. *)
Lemma least_upper_from_above a minaddr bt :
  starts_sorted a (all_segs a) = true ->
  In bt (least_upper_from a minaddr None (all_segs a)) ->
  minaddr <= start_of a bt.
Proof.
  intros S Hin.
  destruct (least_upper_from_suffix a minaddr (all_segs a) None) as [l1 E].
  destruct (least_upper_from a minaddr None (all_segs a)) as [|x l2] eqn:L;
    [destruct Hin|].
  pose proof (least_upper_from_head _ _ _ _ _ _ L) as Hx.
  destruct Hin as [->|Hin]; [exact Hx|].
  assert (S2 : starts_sorted a (x :: l2) = true).
  { unfold starts_sorted in *. rewrite E, chain_app in S.
    apply andb_true_iff in S. exact (proj2 S). }
  pose proof (starts_sorted_head a x l2 bt S2 Hin). lia.
Qed.

Lemma xalloc_min_max_spec a size align phase nocross minaddr maxaddr p a' :
  lists_ok a = true ->
  __xalloc_min_max a size align phase nocross minaddr maxaddr = Ret p a' ->
  p <> 0 ->
  exists bt,
    In bt (all_segs a) /\ status_of a bt = BTAG_FREE
    /\ p = __find_sufficient (start_of a bt) (size_of a bt) size align phase
             nocross
    /\ In bt (least_upper_from a minaddr None (all_segs a))
    /\ (maxaddr <> 0 -> wadd p size <= maxaddr)
    /\ served a' bt p size.
Proof.
  intros L H Hp. unfold __xalloc_min_max in H.
  destruct (least_upper_from_suffix a minaddr (all_segs a) None) as [l1 E].
  assert (Hsub : forall bt,
             In bt (least_upper_from a minaddr None (all_segs a)) ->
             In bt (all_segs a)).
  { intros bt Hb. rewrite E. apply in_or_app. right. exact Hb. }
  destruct (min_max_scan_spec _ _ _ _ _ _ _ _ _
              (fun bt Hb Hc => lists_ok_unused a bt L Hc (Hsub bt Hb)) H Hp)
    as (bt & Hb & S & Ep & Hm & Sv).
  exists bt. auto 10.
Qed.

Lemma served_set_cursor a bt p size v :
  served a bt p size -> served (set_last_nextfit_alloc v a) bt p size.
Proof.
  unfold served. rewrite start_of_set_last_nextfit_alloc,
    size_of_set_last_nextfit_alloc, status_of_set_last_nextfit_alloc.
  intros H. exact H.
Qed.

Lemma xalloc_nextfit_spec a size align phase nocross p a' :
  lists_ok a = true ->
  __xalloc_nextfit a size align phase nocross = Ret p a' ->
  p <> 0 ->
  exists bt,
    In bt (all_segs a) /\ status_of a bt = BTAG_FREE
    /\ p = __find_sufficient (start_of a bt) (size_of a bt) size align phase
             nocross
    /\ served a' bt p size.
Proof.
  intros L. unfold __xalloc_nextfit.
  destruct (__xalloc_min_max a size align phase nocross
              (wadd (last_nextfit_alloc a) (quantum a)) 0) as [|r1 a1] eqn:H1;
    [discriminate|].
  cbv beta iota delta [bind]. destruct (Z.eqb_spec r1 0) as [Hz|Hz].
  - pose proof (xalloc_min_max_zero _ _ _ _ _ _ _ _ _ H1 Hz) as ->.
    destruct (__xalloc_min_max a size align phase nocross (quantum a) 0)
      as [|r2 a2] eqn:H2; [discriminate|].
    destruct (Z.eqb_spec r2 0) as [Hz2|Hz2].
    + intros H. injection H as <- _. congruence.
    + intros H _. injection H as <- <-.
      destruct (xalloc_min_max_spec _ _ _ _ _ _ _ _ _ L H2 Hz2)
        as (bt & Hb & S & E & _ & _ & Sv).
      exists bt. auto using served_set_cursor.
  - destruct (Z.eqb_spec r1 0) as [|_]; [contradiction|].
    intros H _. injection H as <- <-.
    destruct (xalloc_min_max_spec _ _ _ _ _ _ _ _ _ L H1 Hz)
      as (bt & Hb & S & E & _ & _ & Sv).
    exists bt. auto using served_set_cursor.
Qed.

(** The placement behind a non-null result of [xalloc_from_arena]. *)
Lemma xalloc_from_arena_spec a size align phase nocross minaddr maxaddr flags
    p a' :
  lists_ok a = true -> __has_enough_btags a 2 = true ->
  xalloc_from_arena a size align phase nocross minaddr maxaddr flags
  = Ret p a' ->
  p <> 0 ->
  exists bt,
    In bt (all_segs a) /\ status_of a bt = BTAG_FREE
    /\ p = __find_sufficient (start_of a bt) (size_of a bt) size align phase
             nocross
    /\ served a' bt p size
    /\ (minaddr <> 0 \/ maxaddr <> 0 ->
        In bt (least_upper_from a minaddr None (all_segs a))
        /\ (maxaddr <> 0 -> wadd p size <= maxaddr)).
Proof.
  intros L E. unfold xalloc_from_arena, __get_enough_btags. rewrite E.
  unfold bind. cbn [negb].
  destruct (Z.eqb_spec minaddr 0) as [Hmin|Hmin];
    destruct (Z.eqb_spec maxaddr 0) as [Hmax|Hmax]; cbn [negb orb].
  2,3,4: intros H Hp;
    destruct (xalloc_min_max_spec _ _ _ _ _ _ _ _ _ L H Hp)
      as (bt & Hb & S & Ep & Hl & Hm & Sv); exists bt; auto 10.
  destruct (has_flag flags ARENA_BESTFIT).
  { intros H Hp.
    destruct (xalloc_from_freelists_spec _ _ _ _ _ _ _ _ L H Hp)
      as (bt & Hb & S & Ep & Sv). exists bt.
    do 4 (split; [assumption|]). intros [F|F]; contradiction. }
  destruct (has_flag flags ARENA_NEXTFIT).
  { intros H Hp.
    destruct (xalloc_nextfit_spec _ _ _ _ _ _ _ L H Hp)
      as (bt & Hb & S & Ep & Sv). exists bt.
    do 4 (split; [assumption|]). intros [F|F]; contradiction. }
  intros H Hp.
  destruct (xalloc_from_freelists_spec _ _ _ _ _ _ _ _ L H Hp)
    as (bt & Hb & S & Ep & Sv). exists bt.
  do 4 (split; [assumption|]). intros [F|F]; contradiction.
Qed.

(** What the loop of [arena_xalloc] returns without having imported is
    what its first turn found. *)
Lemma arena_xalloc_loop_first_turn t :
  forall a size align phase nocross minaddr maxaddr flags p a1,
  arena_xalloc_loop t a size align phase nocross minaddr maxaddr flags
  = Ret p a1 ->
  (length (afunc a1) <= length (afunc a))%nat
  /\ (p <> 0 -> afunc a1 = afunc a ->
      xalloc_from_arena a size align phase nocross minaddr maxaddr flags
      = Ret p a1).
Proof.
  induction t as [|t IH];
    intros a size align phase nocross minaddr maxaddr flags p a1;
    [discriminate|].
  cbn [arena_xalloc_loop].
  pose proof (kept_xalloc_from_arena a a size align phase nocross minaddr
                maxaddr flags eq_refl) as K.
  destruct (xalloc_from_arena a size align phase nocross minaddr maxaddr flags)
    as [|ret a0]; [discriminate|].
  simpl in K. unfold bind at 1.
  destruct (Z.eqb_spec ret 0) as [Hr|Hr]; cbn [negb].
  2:{ intros H. injection H as <- <-. rewrite K. split; [lia | reflexivity]. }
  destruct (wadd (wadd size align) phase <? size); [discriminate|].
  destruct (get_more_resources a0 (wadd (wadd size align) phase) flags)
    as [|more a2] eqn:G; [discriminate|].
  unfold bind. pose proof (get_more_resources_afunc _ _ _ _ _ G) as L.
  rewrite K in L. destruct more; cbn [negb].
  - intros H. apply IH in H. destruct H as [H _].
    apply get_more_resources_turn in G. rewrite K in G.
    split; [lia|]. intros _ E. rewrite E in H. lia.
  - intros H. injection H as <- <-. split; [exact L|]. intros E. contradiction.
Qed.

(** * Lemmas: [arena_xalloc] *)

Lemma searchable_spec a :
  searchable a = true ->
  tree_inv a /\ lists_ok a = true /\ 0 < quantum a
  /\ __has_enough_btags a 2 = true.
Proof.
  unfold searchable. intros H.
  do 3 (apply andb_true_iff in H; destruct H as [H ?]).
  apply segs_ok_tree_inv in H. apply Z.ltb_lt in H1. auto.
Qed.

Lemma tree_inv_sorted a : tree_inv a -> starts_sorted a (all_segs a) = true.
Proof.
  intros (_ & T & O). unfold starts_sorted.
  induction (all_segs a) as [|x l IH]; [reflexivity|].
  destruct l as [|y l]; [reflexivity|].
  change (chain (ordered_pair a) (x :: y :: l))
    with (ordered_pair a x y && chain (ordered_pair a) (y :: l)) in O.
  apply andb_true_iff in O. destruct O as [O1 O2].
  change (forallb (tag_ok a) (x :: y :: l))
    with (tag_ok a x && forallb (tag_ok a) (y :: l)) in T.
  apply andb_true_iff in T. destruct T as [T1 T2].
  change (chain (fun x y => start_of a x <=? start_of a y) (x :: y :: l))
    with ((start_of a x <=? start_of a y)
          && chain (fun x y => start_of a x <=? start_of a y) (y :: l)).
  rewrite (IH T2 O2), andb_true_r. apply Z.leb_le.
  exact (ordered_pair_le a x y T1 O1).
Qed.

(** A non-null result of [arena_xalloc] that imported nothing: the
    arguments passed the checks, and the first turn of the loop found
    the address. *)
Lemma arena_xalloc_inv a size align phase nocross minaddr maxaddr flags p a' :
  arena_xalloc a size align phase nocross minaddr maxaddr flags = Ret p a' ->
  p <> 0 -> afunc a' = afunc a ->
  IS_PWR2 align = true /\ (nocross = 0 \/ IS_PWR2 nocross = true)
  /\ xalloc_from_arena a (ROUNDUP size (quantum a)) align phase nocross
       minaddr maxaddr flags = Ret p a'.
Proof.
  unfold arena_xalloc. intros H Hp He.
  destruct (ROUNDUP size (quantum a) =? 0); [discriminate|].
  destruct (IS_PWR2 align) eqn:Pa; [|discriminate]. cbn [negb] in H.
  destruct (negb (nocross =? 0) && negb (IS_PWR2 nocross)) eqn:Pn;
    [discriminate|].
  destruct (negb (ALIGNED align (quantum a))); [discriminate|].
  destruct (negb (ALIGNED nocross (quantum a))); [discriminate|].
  destruct (negb (ALIGNED phase (quantum a))); [discriminate|].
  destruct (wadd (ROUNDUP size (quantum a)) align <? _); [discriminate|].
  destruct (wadd (ROUNDUP size (quantum a)) phase <? _); [discriminate|].
  destruct (wadd align phase <? align); [discriminate|].
  destruct (source a && _); [discriminate|].
  apply arena_xalloc_loop_first_turn in H. destruct H as [_ H].
  split; [reflexivity|]. split; [|exact (H Hp He)].
  apply andb_false_iff in Pn. destruct Pn as [Pn|Pn].
  - left. apply negb_false_iff, Z.eqb_eq in Pn. exact Pn.
  - right. apply negb_false_iff in Pn. exact Pn.
Qed.

Lemma tree_inv_tag a bt :
  tree_inv a -> In bt (all_segs a) ->
  0 <= start_of a bt /\ 0 < size_of a bt
  /\ start_of a bt + size_of a bt < WORD.
Proof.
  intros (_ & T & _) Hin. rewrite forallb_forall in T.
  apply tag_ok_spec. apply T. exact Hin.
Qed.

(** * Lemmas: no allocation step changes the quantum *)

Lemma quantum_kept_bind {A B : Type} (r : res A) (k : A -> arena -> res B) a :
  quantum_kept r a ->
  (forall v a1, quantum a1 = quantum a -> quantum_kept (k v a1) a) ->
  quantum_kept (bind r k) a.
Proof.
  destruct r as [|v a1]; simpl; [trivial|]. intros H K. apply K. exact H.
Qed.

Lemma quantum_kept_ret {A : Type} (v : A) a1 a :
  quantum a1 = quantum a -> quantum_kept (Ret v a1) a.
Proof. intros H. exact H. Qed.

Lemma quantum_push_tags tags nr_bts a : quantum (push_tags tags nr_bts a) = quantum a.
Proof.
  unfold push_tags. generalize (seq 0 (Z.to_nat nr_bts)). intros l.
  revert a. induction l as [|x l IH]; intros a; simpl; [reflexivity|].
  rewrite IH. reflexivity.
Qed.

Ltac qkept_step :=
  match goal with
  | |- quantum_kept Panic _ => exact I
  | |- quantum_kept (Ret _ _) _ =>
      apply quantum_kept_ret; rewrite ?quantum_push_tags; assumption
  | |- quantum_kept (bind _ _) _ => apply quantum_kept_bind; [|intros ? ? ?]
  | |- quantum_kept (if ?c then _ else _) _ => destruct c
  | |- quantum_kept (match ?x with _ => _ end) _ => destruct x eqn:?
  end.

Lemma qkept_insert_btag a0 a bt :
  quantum a0 = quantum a -> quantum_kept (__insert_btag a0 bt) a.
Proof. intros H. unfold __insert_btag. repeat qkept_step. Qed.

Lemma qkept_get_btag a0 a :
  quantum a0 = quantum a -> quantum_kept (__get_btag a0) a.
Proof. intros H. unfold __get_btag. repeat qkept_step. Qed.

Create HintDb qkept.
#[local] Hint Resolve qkept_insert_btag qkept_get_btag : qkept.

Ltac qkept := repeat qkept_step; auto with qkept.

Lemma qkept_account_alloc a0 a bt size new :
  quantum a0 = quantum a -> quantum_kept (__account_alloc a0 bt size new) a.
Proof. intros H. unfold __account_alloc. qkept. Qed.
#[local] Hint Resolve qkept_account_alloc : qkept.

Lemma quantum_get_from_freelists_loop n : forall a i,
  quantum (snd (get_from_freelists_loop n a i)) = quantum a.
Proof.
  induction n as [|n IH]; intros a i; simpl; [reflexivity|].
  destruct (free_segs a i); [apply IH | reflexivity].
Qed.

Lemma quantum_get_from_freelists a i :
  quantum (snd (__get_from_freelists a i)) = quantum a.
Proof. apply quantum_get_from_freelists_loop. Qed.

Lemma qkept_add_more_btags a0 a mem_flags :
  quantum a0 = quantum a -> quantum_kept (__add_more_btags a0 mem_flags) a.
Proof.
  intros H. unfold __add_more_btags.
  pose proof (quantum_get_from_freelists a0 (LOG2_UP PGSIZE)) as G.
  destruct (__get_from_freelists a0 (LOG2_UP PGSIZE)) as [r a1].
  simpl in G. rewrite H in G.
  destruct (is_base a0); [destruct r as [bt|]|]; qkept.
Qed.
#[local] Hint Resolve qkept_add_more_btags : qkept.

Lemma qkept_get_enough_btags a0 a nr_needed mem_flags :
  quantum a0 = quantum a ->
  quantum_kept (__get_enough_btags a0 nr_needed mem_flags) a.
Proof. intros H. unfold __get_enough_btags. qkept. Qed.
#[local] Hint Resolve qkept_get_enough_btags : qkept.

Lemma qkept_split_bt_at a0 a bt at_ :
  quantum a0 = quantum a -> quantum_kept (__split_bt_at a0 bt at_) a.
Proof. intros H. unfold __split_bt_at. qkept. Qed.
#[local] Hint Resolve qkept_split_bt_at : qkept.

Lemma qkept_min_max_scan size align phase nocross maxaddr l : forall a0 a,
  quantum a0 = quantum a ->
  quantum_kept (min_max_scan a0 size align phase nocross maxaddr l) a.
Proof.
  induction l as [|bt l IH]; intros a0 a H; simpl; qkept.
Qed.
#[local] Hint Resolve qkept_min_max_scan : qkept.

Lemma qkept_xalloc_min_max a0 a size align phase nocross minaddr maxaddr :
  quantum a0 = quantum a ->
  quantum_kept (__xalloc_min_max a0 size align phase nocross minaddr maxaddr) a.
Proof. intros H. unfold __xalloc_min_max. qkept. Qed.
#[local] Hint Resolve qkept_xalloc_min_max : qkept.

Lemma qkept_xalloc_nextfit a0 a size align phase nocross :
  quantum a0 = quantum a ->
  quantum_kept (__xalloc_nextfit a0 size align phase nocross) a.
Proof. intros H. unfold __xalloc_nextfit. qkept. Qed.
#[local] Hint Resolve qkept_xalloc_nextfit : qkept.

Lemma quantum_xalloc_lists_loop size align phase nocross n : forall a i,
  quantum (snd (xalloc_lists_loop n a size align phase nocross i)) = quantum a.
Proof.
  induction n as [|n IH]; intros a i; simpl; [reflexivity|].
  destruct (first_sufficient a size align phase nocross (free_segs a i))
    as [[bt_i try]|]; [reflexivity | apply IH].
Qed.

Lemma qkept_xalloc_from_freelists a0 a size align phase nocross instant :
  quantum a0 = quantum a ->
  quantum_kept (__xalloc_from_freelists a0 size align phase nocross instant) a.
Proof.
  intros H. unfold __xalloc_from_freelists.
  destruct (wadd (ROUNDUP size align) phase <? size); [qkept|].
  match goal with
  | |- context [xalloc_lists_loop ?n a0 size align phase nocross ?i] =>
      pose proof (quantum_xalloc_lists_loop size align phase nocross n a0 i) as G;
      destruct (xalloc_lists_loop n a0 size align phase nocross i) as [r a1]
  end.
  simpl in G. rewrite H in G. destruct r as [[bt_i try]|]; qkept.
Qed.
#[local] Hint Resolve qkept_xalloc_from_freelists : qkept.

Lemma qkept_alloc_bestfit a0 a size :
  quantum a0 = quantum a -> quantum_kept (__alloc_bestfit a0 size) a.
Proof.
  intros H. unfold __alloc_bestfit.
  destruct (bestfit_scan a0 size None (free_segs a0 (LOG2_DOWN size)))
    as [b|]; [qkept|].
  pose proof (quantum_get_from_freelists a0 (LOG2_DOWN size + 1)) as G.
  destruct (__get_from_freelists a0 (LOG2_DOWN size + 1)) as [r a1].
  simpl in G. rewrite H in G. destruct r; qkept.
Qed.

Lemma qkept_alloc_instantfit a0 a size :
  quantum a0 = quantum a -> quantum_kept (__alloc_instantfit a0 size) a.
Proof.
  intros H. unfold __alloc_instantfit.
  pose proof (quantum_get_from_freelists a0 (LOG2_UP size)) as G.
  destruct (__get_from_freelists a0 (LOG2_UP size)) as [r a1].
  simpl in G. rewrite H in G. destruct r; qkept.
Qed.
#[local] Hint Resolve qkept_alloc_bestfit qkept_alloc_instantfit : qkept.

Lemma qkept_alloc_from_arena a0 a size flags :
  quantum a0 = quantum a -> quantum_kept (alloc_from_arena a0 size flags) a.
Proof.
  intros H. unfold alloc_from_arena, __alloc_nextfit. qkept.
Qed.

Lemma qkept_xalloc_from_arena a0 a size align phase nocross minaddr maxaddr flags :
  quantum a0 = quantum a ->
  quantum_kept
    (xalloc_from_arena a0 size align phase nocross minaddr maxaddr flags) a.
Proof. intros H. unfold xalloc_from_arena. qkept. Qed.

Lemma qkept_arena_add a0 a base size flags :
  quantum a0 = quantum a -> quantum_kept (__arena_add a0 base size flags) a.
Proof. intros H. unfold __arena_add. qkept. Qed.

(** * Lemmas: what an allocation leaves can be freed *)

Lemma sizes_split_fields a bt size new :
  size_of (split_fields a bt size new) bt = size.
Proof.
  destruct (tags_split_fields a bt size new bt) as (_ & P & _).
  rewrite P, Z.eqb_refl. reflexivity.
Qed.

(** Whatever tag [__account_alloc] is given, it leaves it allocated,
    with the size asked for, first in the hash. *)
Lemma account_alloc_served a bt size new r a' :
  __account_alloc a bt size new = Ret r a' ->
  served a' bt (start_of a' bt) size.
Proof.
  unfold __account_alloc.
  destruct (negb (status_eqb (status_of a bt) BTAG_FREE)); [discriminate|].
  match goal with
  | |- bind ?x _ = _ -> _ => destruct x as [|ret a1] eqn:Hx
  end; [discriminate|].
  cbv beta iota delta [bind]. intros H. injection H as _ <-.
  assert (Hs : size_of a1 bt = size).
  { revert Hx. destruct (Z.eqb_spec (size_of a bt) size) as [Zx|Zx].
    - intros H. injection H as _ <-. exact Zx.
    - destruct (negb (size_of a bt >? size)); [discriminate|].
      match goal with
      | |- bind ?x _ = _ -> _ => destruct x as [|[n u] a2] eqn:Hn
      end; [discriminate|].
      cbv beta iota delta [bind fst snd].
      match goal with
      | |- match ?x with _ => _ end = _ -> _ => destruct x as [|[] a3] eqn:Hi
      end; [discriminate|].
      intros H. injection H as _ <-.
      rewrite (insert_btag_size _ _ _ bt Hi).
      rewrite size_of_track_free, size_of_set_size, Z.eqb_refl. reflexivity. }
  change (served (alloc_counted a1 bt size) bt
            (start_of (alloc_counted a1 bt size) bt) size).
  unfold served.
  destruct (tags_alloc_counted a1 bt size bt) as (E1 & E2 & E3).
  rewrite E2, E3, Z.eqb_refl, Hs, alloc_counted_hash. repeat split.
Qed.

Lemma serve_served_any a bt try size p a' :
  (do _, a <- (if negb (try =? start_of a bt) then __split_bt_at a bt try
               else Ret tt a);
   do _, a <- __account_alloc a bt size None;
   Ret (start_of a bt) a) = Ret p a' ->
  served a' bt p size.
Proof.
  destruct (if negb (try =? start_of a bt) then __split_bt_at a bt try
            else Ret tt a) as [|[] a1]; [discriminate|].
  cbv beta iota delta [bind].
  destruct (__account_alloc a1 bt size None) as [|r a2] eqn:Hacc;
    [discriminate|].
  intros H. injection H as <- <-. exact (account_alloc_served _ _ _ _ _ _ Hacc).
Qed.

Lemma min_max_scan_served size align phase nocross maxaddr l : forall a p a',
  min_max_scan a size align phase nocross maxaddr l = Ret p a' ->
  p <> 0 -> exists bt, served a' bt p size.
Proof.
  induction l as [|bt l IH]; intros a p a'.
  { simpl. intros H. injection H as <- _. congruence. }
  cbn [min_max_scan].
  destruct (_ =? 0); [apply IH|].
  destruct (negb (maxaddr =? 0) && _).
  { intros H. injection H as <- _. congruence. }
  intros H _. exists bt. exact (serve_served_any _ _ _ _ _ _ H).
Qed.

Lemma xalloc_from_freelists_served a size align phase nocross inst p a' :
  __xalloc_from_freelists a size align phase nocross inst = Ret p a' ->
  p <> 0 -> exists bt, served a' bt p size.
Proof.
  unfold __xalloc_from_freelists.
  destruct (wadd (ROUNDUP size align) phase <? size).
  { intros H. injection H as <- _. congruence. }
  match goal with
  | |- match ?x with _ => _ end = _ -> _ => destruct x as [[[bt try]|] a1]
  end.
  - intros H _. exists bt. exact (serve_served_any _ _ _ _ _ _ H).
  - intros H. injection H as <- _. congruence.
Qed.

Lemma xalloc_nextfit_served a size align phase nocross p a' :
  __xalloc_nextfit a size align phase nocross = Ret p a' ->
  p <> 0 -> exists bt, served a' bt p size.
Proof.
  unfold __xalloc_nextfit, __xalloc_min_max.
  match goal with
  | |- bind ?x _ = _ -> _ => destruct x as [|r1 a1] eqn:H1
  end; [discriminate|].
  cbv beta iota delta [bind]. destruct (Z.eqb_spec r1 0) as [Hz|Hz].
  - match goal with
    | |- match ?x with _ => _ end = _ -> _ => destruct x as [|r2 a2] eqn:H2
    end; [discriminate|].
    destruct (Z.eqb_spec r2 0) as [Hz2|Hz2].
    + intros H. injection H as <- _. congruence.
    + intros H _. injection H as <- <-.
      destruct (min_max_scan_served _ _ _ _ _ _ _ _ _ H2 Hz2) as [bt Sv].
      exists bt. apply served_set_cursor. exact Sv.
  - destruct (Z.eqb_spec r1 0) as [|_]; [contradiction|].
    intros H _. injection H as <- <-.
    destruct (min_max_scan_served _ _ _ _ _ _ _ _ _ H1 Hz) as [bt Sv].
    exists bt. apply served_set_cursor. exact Sv.
Qed.

Lemma alloc_from_arena_served a size flags p a' :
  alloc_from_arena a size flags = Ret p a' ->
  p <> 0 -> exists bt, served a' bt p size.
Proof.
  unfold alloc_from_arena.
  destruct (__get_enough_btags a 1 (Z.land flags MEM_FLAGS)) as [|enough a1];
    [discriminate|].
  cbv beta iota delta [bind]. destruct enough; cbn [negb].
  2:{ intros H. injection H as <- _. congruence. }
  destruct (has_flag flags ARENA_BESTFIT).
  { unfold __alloc_bestfit.
    match goal with
    | |- (let '(_, _) := ?x in _) = _ -> _ => destruct x as [[best|] a2]
    end.
    - destruct (__account_alloc a2 best size None) as [|r a3] eqn:Hacc;
        [discriminate|].
      cbv beta iota delta [bind]. intros H _. injection H as <- <-.
      exists best. exact (account_alloc_served _ _ _ _ _ _ Hacc).
    - intros H. injection H as <- _. congruence. }
  destruct (has_flag flags ARENA_NEXTFIT).
  { apply xalloc_nextfit_served. }
  unfold __alloc_instantfit.
  destruct (__get_from_freelists a1 (LOG2_UP size)) as [[ret|] a2].
  - destruct (__account_alloc a2 ret size None) as [|r a3] eqn:Hacc;
      [discriminate|].
    cbv beta iota delta [bind]. intros H _. injection H as <- <-.
    exists ret. exact (account_alloc_served _ _ _ _ _ _ Hacc).
  - intros H. injection H as <- _. congruence.
Qed.

Lemma xalloc_from_arena_served a size align phase nocross minaddr maxaddr flags
    p a' :
  xalloc_from_arena a size align phase nocross minaddr maxaddr flags
  = Ret p a' ->
  p <> 0 -> exists bt, served a' bt p size.
Proof.
  unfold xalloc_from_arena.
  destruct (__get_enough_btags a 2 (Z.land flags MEM_FLAGS)) as [|enough a1];
    [discriminate|].
  cbv beta iota delta [bind]. destruct enough; cbn [negb].
  2:{ intros H. injection H as <- _. congruence. }
  destruct (negb (minaddr =? 0) || negb (maxaddr =? 0)).
  { unfold __xalloc_min_max. apply min_max_scan_served. }
  destruct (has_flag flags ARENA_BESTFIT);
    [apply xalloc_from_freelists_served|].
  destruct (has_flag flags ARENA_NEXTFIT); [apply xalloc_nextfit_served|].
  apply xalloc_from_freelists_served.
Qed.

(** [free_from_arena] returns when the address is that of the latest
    allocation and the size is its size. *)
Lemma free_served_returns a bt p size :
  served a bt p size -> exists a2, free_from_arena a p size = Ret tt a2.
Proof.
  intros (S1 & S2 & S3 & S4). rewrite free_from_arena_unfold.
  destruct (alloc_hash a) as [|x h]; [discriminate|].
  injection S4 as ->. cbn [find_start]. rewrite S1, Z.eqb_refl, S3, S2, Z.eqb_refl.
  cbn [status_eqb negb].
  destruct (coalesce_merge (free_marked a bt size) bt) as [m a2].
  destruct (coalesce_span a2 m) as [[tfa tfs] a3]. cbv beta iota zeta.
  destruct (negb (tfa =? 0)); eexists; reflexivity.
Qed.

Lemma get_more_resources_quantum a size flags more a' :
  get_more_resources a size flags = Ret more a' -> quantum a' = quantum a.
Proof.
  unfold get_more_resources. destruct (source a).
  - destruct (hd 0 (afunc a) =? 0).
    { intros H. injection H as _ <-. reflexivity. }
    pose proof (qkept_arena_add (set_afunc (tl (afunc a)) a) a
                  (hd 0 (afunc a)) (MAX size (wshl size (import_scale a)))
                  flags eq_refl) as K.
    destruct (__arena_add (set_afunc (tl (afunc a)) a) (hd 0 (afunc a))
                (MAX size (wshl size (import_scale a))) flags) as [|added a1];
      [discriminate|].
    simpl in K. cbv beta iota delta [bind].
    destruct (added =? 0); intros H; injection H as _ <-; exact K.
  - destruct (negb (has_flag flags MEM_ATOMIC)); [discriminate|].
    intros H. injection H as _ <-. reflexivity.
Qed.

(** Whichever turn of the loop returns it, a non-null result of
    [arena_alloc] is the latest allocation of the state returned. *)
Lemma arena_alloc_loop_served t : forall a size flags p a',
  arena_alloc_loop t a size flags = Ret p a' -> p <> 0 ->
  (exists bt, served a' bt p size) /\ quantum a' = quantum a.
Proof.
  induction t as [|t IH]; intros a size flags p a'; [discriminate|].
  cbn [arena_alloc_loop].
  pose proof (qkept_alloc_from_arena a a size flags eq_refl) as K.
  destruct (alloc_from_arena a size flags) as [|ret a0] eqn:Ha; [discriminate|].
  simpl in K. cbv beta iota delta [bind].
  destruct (Z.eqb_spec ret 0) as [Hr|Hr]; cbn [negb].
  2:{ intros H Hp. injection H as <- <-. split; [|exact K].
      exact (alloc_from_arena_served _ _ _ _ _ Ha Hr). }
  destruct (get_more_resources a0 size flags) as [|more a2] eqn:G;
    [discriminate|].
  pose proof (get_more_resources_quantum _ _ _ _ _ G) as Q.
  destruct more; cbn [negb].
  - intros H Hp. destruct (IH _ _ _ _ _ H Hp) as [Sv Q2].
    split; [exact Sv|]. congruence.
  - intros H. injection H as <- _. congruence.
Qed.

Lemma arena_xalloc_loop_served t :
  forall a size align phase nocross minaddr maxaddr flags p a',
  arena_xalloc_loop t a size align phase nocross minaddr maxaddr flags
  = Ret p a' -> p <> 0 ->
  (exists bt, served a' bt p size) /\ quantum a' = quantum a.
Proof.
  induction t as [|t IH];
    intros a size align phase nocross minaddr maxaddr flags p a';
    [discriminate|].
  cbn [arena_xalloc_loop].
  pose proof (qkept_xalloc_from_arena a a size align phase nocross minaddr
                maxaddr flags eq_refl) as K.
  destruct (xalloc_from_arena a size align phase nocross minaddr maxaddr flags)
    as [|ret a0] eqn:Ha; [discriminate|].
  simpl in K. cbv beta iota delta [bind].
  destruct (Z.eqb_spec ret 0) as [Hr|Hr]; cbn [negb].
  2:{ intros H Hp. injection H as <- <-. split; [|exact K].
      exact (xalloc_from_arena_served _ _ _ _ _ _ _ _ _ _ Ha Hr). }
  cbv zeta. destruct (wadd (wadd size align) phase <? size); [discriminate|].
  destruct (get_more_resources a0 (wadd (wadd size align) phase) flags)
    as [|more a2] eqn:G; [discriminate|].
  pose proof (get_more_resources_quantum _ _ _ _ _ G) as Q.
  destruct more; cbn [negb].
  - intros H Hp. destruct (IH _ _ _ _ _ _ _ _ _ _ H Hp) as [Sv Q2].
    split; [exact Sv|]. congruence.
  - intros H. injection H as <- _. congruence.
Qed.

(** * Lemmas: the sums of the asserter *)

Lemma wrap_wrap x : wrap (wrap x) = wrap x.
Proof. unfold wrap. apply Z.mod_mod. unfold WORD. lia. Qed.

Lemma wrap_add_l x y : wrap (wrap x + y) = wrap (x + y).
Proof. unfold wrap. apply Zplus_mod_idemp_l. Qed.

Lemma wrap_add_r x y : wrap (x + wrap y) = wrap (x + y).
Proof. unfold wrap. apply Zplus_mod_idemp_r. Qed.

Lemma wrap_sub_l x y : wrap (wrap x - y) = wrap (x - y).
Proof. unfold wrap. apply Zminus_mod_idemp_l. Qed.

Lemma wrap_sub_r x y : wrap (x - wrap y) = wrap (x - y).
Proof. unfold wrap. apply Zminus_mod_idemp_r. Qed.

Lemma wrap_shift x y k : x = y + k * WORD -> wrap x = wrap y.
Proof. intros ->. unfold wrap. apply Z.mod_add. unfold WORD. lia. Qed.

Lemma wrap_diff x : exists k, wrap x = x + k * WORD.
Proof.
  exists (- (x / WORD)). unfold wrap.
  pose proof (Z.div_mod x WORD ltac:(unfold WORD; lia)). lia.
Qed.

Lemma zsum_app f l1 l2 : zsum f (l1 ++ l2) = zsum f l1 + zsum f l2.
Proof. induction l1 as [|x l1 IH]; simpl; [reflexivity | rewrite IH; lia]. Qed.

Lemma zsum_ext f g (l : list Z) :
  (forall x, In x l -> g x = f x) -> zsum g l = zsum f l.
Proof.
  induction l as [|x l IH]; intros H; simpl; [reflexivity|].
  rewrite (H x (or_introl eq_refl)), IH; [reflexivity|].
  intros y Hy. apply H. right. exact Hy.
Qed.

Lemma zsum_remove f (l : list Z) x :
  In x l -> zsum f l = f x + zsum f (list_remove x l).
Proof.
  induction l as [|y l IH]; intros Hin; [destruct Hin|]. simpl.
  destruct (Z.eqb_spec y x) as [->|Hne]; [reflexivity|].
  destruct Hin as [E|Hin]; [contradiction|]. simpl. rewrite (IH Hin). lia.
Qed.

Lemma zsum_update f g (l : list Z) x :
  NoDup l -> In x l -> (forall y, In y l -> y <> x -> g y = f y) ->
  zsum g l = zsum f l - f x + g x.
Proof.
  intros N Hin H. rewrite (zsum_remove g l x Hin), (zsum_remove f l x Hin).
  rewrite (zsum_ext f g (list_remove x l)); [lia|].
  intros y Hy. apply H.
  - exact (list_remove_In _ _ _ Hy).
  - intros ->. exact (list_remove_not_In _ _ N Hy).
Qed.

Lemma zsum_insert a f bt : forall l l',
  insert_walk a bt l = Some l' -> zsum f l' = f bt + zsum f l.
Proof.
  induction l as [|x l IH]; intros l'; simpl.
  - intros H. injection H as <-. reflexivity.
  - destruct (start_of a bt <? start_of a x).
    { intros H. injection H as <-. reflexivity. }
    destruct ((start_of a x <? start_of a bt) || _); [|discriminate].
    destruct (insert_walk a bt l) as [l0|]; [|discriminate].
    simpl. intros H. injection H as <-. simpl. rewrite (IH l0 eq_refl). lia.
Qed.

Lemma fold_amt a st (l : list Z) : forall acc,
  wrap acc = acc ->
  fold_left (fun acc bt_i =>
               if status_eqb (status_of a bt_i) st
               then wadd acc (size_of a bt_i) else acc) l acc
  = wrap (acc + zsum (contrib a st) l).
Proof.
  induction l as [|x l IH]; intros acc Hacc; simpl.
  - rewrite Z.add_0_r. symmetry. exact Hacc.
  - unfold contrib at 1. destruct (status_eqb (status_of a x) st).
    + rewrite IH by (unfold wadd; apply wrap_wrap).
      unfold wadd. rewrite wrap_add_l. f_equal. lia.
    + rewrite IH by exact Hacc. f_equal.
Qed.

Lemma seg_amt_zsum a st : seg_amt a st = wrap (zsum (contrib a st) (all_segs a)).
Proof. unfold seg_amt. rewrite fold_amt by reflexivity. reflexivity. Qed.

Lemma fold_nr a st (l : list Z) : forall acc,
  wrap acc = acc ->
  fold_left (fun acc bt_i =>
               if status_eqb (status_of a bt_i) st then wadd acc 1 else acc)
    l acc
  = wrap (acc + zsum (counted a st) l).
Proof.
  induction l as [|x l IH]; intros acc Hacc; simpl.
  - rewrite Z.add_0_r. symmetry. exact Hacc.
  - unfold counted at 1. destruct (status_eqb (status_of a x) st).
    + rewrite IH by (unfold wadd; apply wrap_wrap).
      unfold wadd. rewrite wrap_add_l. f_equal. lia.
    + rewrite IH by exact Hacc. f_equal.
Qed.

Lemma seg_nr_zsum a st : seg_nr a st = wrap (zsum (counted a st) (all_segs a)).
Proof. unfold seg_nr. rewrite fold_nr by reflexivity. reflexivity. Qed.

(** The closing assertions of [__arena_asserter], on the plain sums. *)
Lemma asserter_counters_spec a :
  asserter_counters a = true <->
  amt_total_segs a
  = wrap (zsum (contrib a BTAG_FREE) (all_segs a)
          + zsum (contrib a BTAG_ALLOC) (all_segs a))
  /\ amt_alloc_segs a = wrap (zsum (contrib a BTAG_ALLOC) (all_segs a))
  /\ nr_allocs a = wrap (zsum (counted a BTAG_ALLOC) (all_segs a)).
Proof.
  unfold asserter_counters. rewrite !andb_true_iff, !Z.eqb_eq.
  rewrite !seg_amt_zsum, seg_nr_zsum. unfold wadd.
  rewrite wrap_add_l, wrap_add_r. tauto.
Qed.

(** * Lemmas: what a free does to the sums *)

Lemma list_remove_keeps (x y : Z) l : In x l -> x <> y -> In x (list_remove y l).
Proof.
  induction l as [|z l IH]; intros Hin Hne; [destruct Hin|]. simpl.
  destruct (Z.eqb_spec z y) as [->|Hzy].
  - destruct Hin as [E|Hin]; [congruence | exact Hin].
  - destruct Hin as [E|Hin]; [left; exact E | right; auto].
Qed.

Lemma rb_next_neq (l : list Z) x y : NoDup l -> rb_next l x = Some y -> y <> x.
Proof.
  induction l as [|z l IH]; intros N; [discriminate|]. simpl.
  inversion N as [|? ? Hz N']; subst.
  destruct (Z.eqb_spec z x) as [->|Hne].
  - destruct l as [|w l]; simpl; [discriminate|].
    intros H. injection H as <-. intros ->. apply Hz. left. reflexivity.
  - apply IH. exact N'.
Qed.

Lemma contrib_eq a a' st x :
  bts a' x = bts a x -> contrib a' st x = contrib a st x.
Proof. unfold contrib, status_of, size_of. intros ->. reflexivity. Qed.

Lemma counted_eq a a' st x :
  bts a' x = bts a x -> counted a' st x = counted a st x.
Proof. unfold counted, status_of. intros ->. reflexivity. Qed.

Lemma same_sums_refl a : same_sums a a 0 0 0.
Proof. unfold same_sums. rewrite !Z.add_0_r. auto. Qed.

Lemma same_sums_trans a b c dF dA dN eF eA eN :
  same_sums a b dF dA dN -> same_sums b c eF eA eN ->
  same_sums a c (dF + eF) (dA + eA) (dN + eN).
Proof.
  unfold same_sums. intros (H1 & H2 & H3) (G1 & G2 & G3).
  rewrite G1, G2, G3.
  rewrite <- wrap_add_l, H1, wrap_add_l.
  rewrite <- (wrap_add_l (zsum (contrib b BTAG_ALLOC) _)), H2, wrap_add_l.
  rewrite <- (wrap_add_l (zsum (counted b BTAG_ALLOC) _)), H3, wrap_add_l.
  rewrite !Z.add_assoc. auto.
Qed.

(** A state with the tree of [a] whose tags are those of [a] but for
    the tag [x] of the tree. *)
Lemma sums_update a a' x :
  NoDup (all_segs a) -> In x (all_segs a) ->
  all_segs a' = all_segs a ->
  (forall y, In y (all_segs a) -> y <> x -> bts a' y = bts a y) ->
  same_sums a a'
    (contrib a' BTAG_FREE x - contrib a BTAG_FREE x)
    (contrib a' BTAG_ALLOC x - contrib a BTAG_ALLOC x)
    (counted a' BTAG_ALLOC x - counted a BTAG_ALLOC x).
Proof.
  intros N Hin Hs Hb. unfold same_sums. rewrite Hs.
  rewrite (zsum_update (contrib a BTAG_FREE) (contrib a' BTAG_FREE) _ x N Hin)
    by (intros y Hi Hy; apply contrib_eq, Hb; assumption).
  rewrite (zsum_update (contrib a BTAG_ALLOC) (contrib a' BTAG_ALLOC) _ x N Hin)
    by (intros y Hi Hy; apply contrib_eq, Hb; assumption).
  rewrite (zsum_update (counted a BTAG_ALLOC) (counted a' BTAG_ALLOC) _ x N Hin)
    by (intros y Hi Hy; apply counted_eq, Hb; assumption).
  repeat split; f_equal; lia.
Qed.

(** A state with the tags of [a] and its tree without the tag [x]. *)
Lemma sums_remove a a' x :
  In x (all_segs a) ->
  all_segs a' = list_remove x (all_segs a) ->
  (forall y, bts a' y = bts a y) ->
  same_sums a a' (- contrib a BTAG_FREE x) (- contrib a BTAG_ALLOC x)
    (- counted a BTAG_ALLOC x).
Proof.
  intros Hin Hs Hb. unfold same_sums. rewrite Hs.
  rewrite (zsum_remove (contrib a BTAG_FREE) _ x Hin).
  rewrite (zsum_remove (contrib a BTAG_ALLOC) _ x Hin).
  rewrite (zsum_remove (counted a BTAG_ALLOC) _ x Hin).
  rewrite (zsum_ext (contrib a BTAG_FREE) (contrib a' BTAG_FREE))
    by (intros y _; apply contrib_eq, Hb).
  rewrite (zsum_ext (contrib a BTAG_ALLOC) (contrib a' BTAG_ALLOC))
    by (intros y _; apply contrib_eq, Hb).
  rewrite (zsum_ext (counted a BTAG_ALLOC) (counted a' BTAG_ALLOC))
    by (intros y _; apply counted_eq, Hb).
  repeat split; f_equal; lia.
Qed.

(** A state with the tags of [a] and its tree with the tag [x] put in. *)
Lemma sums_insert a a' x u :
  __insert_btag a x = Ret u a' ->
  same_sums a a' (contrib a BTAG_FREE x) (contrib a BTAG_ALLOC x)
    (counted a BTAG_ALLOC x).
Proof.
  unfold __insert_btag. destruct (insert_walk a x (all_segs a)) as [l|] eqn:W;
    [|discriminate].
  intros H. injection H as _ <-. unfold same_sums.
  change (all_segs (set_all_segs l a)) with l.
  change (contrib (set_all_segs l a)) with (contrib a).
  change (counted (set_all_segs l a)) with (counted a).
  rewrite !(zsum_insert a _ x _ _ W). repeat split; f_equal; lia.
Qed.

Lemma same_sums_mod a a' dF dA dN eF eA eN :
  same_sums a a' dF dA dN ->
  wrap dF = wrap eF -> wrap dA = wrap eA -> wrap dN = wrap eN ->
  same_sums a a' eF eA eN.
Proof.
  unfold same_sums. intros (H1 & H2 & H3) E1 E2 E3.
  rewrite H1, H2, H3.
  rewrite <- (wrap_add_r _ dF), <- (wrap_add_r _ dA), <- (wrap_add_r _ dN).
  rewrite E1, E2, E3, !wrap_add_r. auto.
Qed.

Lemma contrib_free a x :
  status_of a x = BTAG_FREE ->
  contrib a BTAG_FREE x = size_of a x /\ contrib a BTAG_ALLOC x = 0
  /\ counted a BTAG_ALLOC x = 0.
Proof. unfold contrib, counted. intros ->. auto. Qed.

Lemma contrib_alloc a x :
  status_of a x = BTAG_ALLOC ->
  contrib a BTAG_FREE x = 0 /\ contrib a BTAG_ALLOC x = size_of a x
  /\ counted a BTAG_ALLOC x = 1.
Proof. unfold contrib, counted. intros ->. auto. Qed.

Lemma contrib_span a x :
  status_of a x = BTAG_SPAN ->
  contrib a BTAG_FREE x = 0 /\ contrib a BTAG_ALLOC x = 0
  /\ counted a BTAG_ALLOC x = 0.
Proof. unfold contrib, counted. intros ->. auto. Qed.

(** A merge moves size from one free tag to another: the sums stay. *)
Lemma merge_sums a L R a' :
  NoDup (all_segs a) -> In L (all_segs a) -> In R (all_segs a) -> L <> R ->
  __merge_right_to_left a L R = (true, a') ->
  same_sums a a' 0 0 0.
Proof.
  intros N HL HR Hne Hm.
  destruct (merge_right_to_left_true _ _ _ _ Hm) as (SL & SR & _).
  destruct (merge_right_to_left_size _ _ _ _ Hm) as (Z' & SL').
  destruct (merge_right_to_left_frame _ _ _ _ _ Hm) as (_ & Fr).
  pose proof (merge_right_to_left_segs _ _ _ _ _ Hm) as Hs. cbv iota in Hs.
  set (b := set_all_segs (all_segs a) a').
  assert (U : same_sums a b
                (contrib b BTAG_FREE L - contrib a BTAG_FREE L)
                (contrib b BTAG_ALLOC L - contrib a BTAG_ALLOC L)
                (counted b BTAG_ALLOC L - counted a BTAG_ALLOC L)).
  { apply sums_update; auto. intros y _ Hy. exact (Fr y Hy). }
  assert (Rm : same_sums b a' (- contrib b BTAG_FREE R)
                 (- contrib b BTAG_ALLOC R) (- counted b BTAG_ALLOC R)).
  { apply sums_remove; auto. }
  pose proof (same_sums_trans _ _ _ _ _ _ _ _ _ U Rm) as T.
  assert (SbL : status_of b L = BTAG_FREE) by exact SL'.
  assert (SbR : status_of b R = BTAG_FREE).
  { unfold status_of. change (bts b R) with (bts a' R).
    rewrite (Fr R (not_eq_sym Hne)). exact SR. }
  assert (ZbR : size_of b R = size_of a R).
  { unfold size_of. change (bts b R) with (bts a' R).
    rewrite (Fr R (not_eq_sym Hne)). reflexivity. }
  destruct (contrib_free a L SL) as (c1 & c2 & c3).
  destruct (contrib_free b L SbL) as (d1 & d2 & d3).
  destruct (contrib_free b R SbR) as (e1 & e2 & e3).
  rewrite c1, c2, c3, d1, d2, d3, e1, e2, e3 in T.
  apply (same_sums_mod _ _ _ _ _ _ _ _ T); [|reflexivity|reflexivity].
  change (size_of b L) with (size_of a' L). rewrite Z', ZbR.
  destruct (wrap_diff (size_of a L + size_of a R)) as [k Hk].
  unfold wadd. rewrite Hk. apply wrap_shift with (k := k). lia.
Qed.

(** The two merges of a free: the sums stay, the tree holds no tag
    twice, and the tag left for the freed segment is a free tag of the
    tree. *)
Lemma coalesce_merge_sums a bt m a2 :
  NoDup (all_segs a) -> In bt (all_segs a) -> status_of a bt = BTAG_FREE ->
  coalesce_merge a bt = (m, a2) ->
  same_sums a a2 0 0 0 /\ NoDup (all_segs a2) /\ In m (all_segs a2)
  /\ status_of a2 m = BTAG_FREE.
Proof.
  intros N Hin Sf. unfold coalesce_merge.
  set (a1 := match rb_next (all_segs a) bt with
             | Some bt_n => snd (__merge_right_to_left a bt bt_n)
             | None => a
             end).
  assert (H1 : same_sums a a1 0 0 0 /\ NoDup (all_segs a1)
               /\ In bt (all_segs a1) /\ status_of a1 bt = BTAG_FREE).
  { unfold a1. destruct (rb_next (all_segs a) bt) as [n|] eqn:Hn.
    2:{ split; [apply same_sums_refl | auto]. }
    destruct (__merge_right_to_left a bt n) as [mg a'] eqn:Hm. cbn [snd].
    destruct mg.
    - pose proof (rb_next_neq _ _ _ N Hn) as Hne.
      pose proof (rb_next_In _ _ _ Hn) as HnI.
      split; [exact (merge_sums _ _ _ _ N Hin HnI (not_eq_sym Hne) Hm)|].
      split; [exact (merge_right_to_left_NoDup _ _ _ _ _ Hm N)|].
      split.
      + rewrite (merge_right_to_left_segs _ _ _ _ _ Hm).
        apply list_remove_keeps; auto.
      + exact (proj2 (merge_right_to_left_size _ _ _ _ Hm)).
    - destruct (merge_right_to_left_false _ _ _ _ Hm) as [-> _].
      split; [apply same_sums_refl | auto]. }
  clearbody a1. destruct H1 as (S1 & N1 & I1 & F1).
  destruct (rb_prev (all_segs a1) bt) as [p|] eqn:Hp.
  2:{ intros H. injection H as <- <-. auto. }
  destruct (__merge_right_to_left a1 p bt) as [mg a'] eqn:Hm.
  intros H. injection H as <- <-. destruct mg.
  - pose proof (rb_prev_neq _ _ _ Hp) as Hne.
    pose proof (rb_prev_In _ _ _ Hp) as HpI.
    pose proof (merge_sums _ _ _ _ N1 HpI I1 Hne Hm) as S2.
    split.
    { apply (same_sums_mod _ _ _ _ _ _ _ _
               (same_sums_trans _ _ _ _ _ _ _ _ _ S1 S2)); reflexivity. }
    split; [exact (merge_right_to_left_NoDup _ _ _ _ _ Hm N1)|].
    split.
    + rewrite (merge_right_to_left_segs _ _ _ _ _ Hm).
      apply list_remove_keeps; auto.
    + exact (proj2 (merge_right_to_left_size _ _ _ _ Hm)).
  - destruct (merge_right_to_left_false _ _ _ _ Hm) as [-> _]. auto.
Qed.

Lemma coalesce_span_bts a m to_free a3 :
  coalesce_span a m = (to_free, a3) -> bts a3 = bts a.
Proof.
  rewrite coalesce_span_whole. destruct (whole_span a m).
  - intros H. injection H as _ <-. reflexivity.
  - intros H. injection H as _ <-. reflexivity.
Qed.

(** The span check of a free: a span that goes back takes its size off
    the free amount. *)
Lemma coalesce_span_sums a m tfa tfs a3 :
  NoDup (all_segs a) -> In m (all_segs a) -> status_of a m = BTAG_FREE ->
  coalesce_span a m = ((tfa, tfs), a3) ->
  same_sums a a3 (- tfs) 0 0 /\ NoDup (all_segs a3)
  /\ (forall x, In x (all_segs a3) -> In x (all_segs a)).
Proof.
  intros N Hin Sf H. pose proof (coalesce_span_bts _ _ _ _ H) as B.
  destruct (coalesce_span_spec _ _ _ _ H)
    as [[E ->] | (sp & Hp & Ss & _ & Zs & E & _ & Hs)].
  - injection E as _ ->. split; [apply same_sums_refl | auto].
  - injection E as _ ->.
    pose proof (rb_prev_neq _ _ _ Hp) as Hne.
    pose proof (rb_prev_In _ _ _ Hp) as HpI.
    set (b := set_all_segs (list_remove sp (all_segs a)) a).
    assert (R1 : same_sums a b (- contrib a BTAG_FREE sp)
                   (- contrib a BTAG_ALLOC sp) (- counted a BTAG_ALLOC sp)).
    { apply sums_remove; auto. }
    assert (R2 : same_sums b a3 (- contrib b BTAG_FREE m)
                   (- contrib b BTAG_ALLOC m) (- counted b BTAG_ALLOC m)).
    { apply sums_remove.
      - apply list_remove_keeps; auto.
      - exact Hs.
      - intros y. rewrite B. reflexivity. }
    pose proof (same_sums_trans _ _ _ _ _ _ _ _ _ R1 R2) as T.
    destruct (contrib_span a sp Ss) as (c1 & c2 & c3).
    assert (Sb : status_of b m = BTAG_FREE) by exact Sf.
    destruct (contrib_free b m Sb) as (d1 & d2 & d3).
    rewrite c1, c2, c3, d1, d2, d3 in T.
    change (size_of b m) with (size_of a m) in T. rewrite <- Zs in T.
    split; [exact T|]. split.
    + rewrite Hs. apply list_remove_NoDup, list_remove_NoDup. exact N.
    + intros x Hx. rewrite Hs in Hx.
      exact (list_remove_In _ _ _ (list_remove_In _ _ _ Hx)).
Qed.

(** Counters that move with the sums pass the asserter again. *)
Lemma counters_from_sums a a' dF dA dN :
  asserter_counters a = true -> same_sums a a' dF dA dN ->
  amt_total_segs a' = wrap (amt_total_segs a + dF + dA) ->
  amt_alloc_segs a' = wrap (amt_alloc_segs a + dA) ->
  nr_allocs a' = wrap (nr_allocs a + dN) ->
  asserter_counters a' = true.
Proof.
  intros C (S1 & S2 & S3) T A N.
  apply asserter_counters_spec in C. destruct C as (C1 & C2 & C3).
  apply asserter_counters_spec. rewrite T, A, N, C1, C2, C3.
  split; [|split].
  - rewrite <- (wrap_add_l (zsum (contrib a' BTAG_FREE) _)), S1, wrap_add_l.
    rewrite <- (wrap_add_r _ (zsum (contrib a' BTAG_ALLOC) _)), S2, wrap_add_r.
    rewrite <- Z.add_assoc, wrap_add_l. f_equal. lia.
  - rewrite S2, wrap_add_l. reflexivity.
  - rewrite S3, wrap_add_l. reflexivity.
Qed.

Lemma coalesce_span_counters a m to_free a3 :
  coalesce_span a m = (to_free, a3) -> counters a3 = counters a.
Proof.
  rewrite coalesce_span_whole. destruct (whole_span a m).
  - intros H. injection H as _ <-. reflexivity.
  - intros H. injection H as _ <-. reflexivity.
Qed.

Lemma hash_in_tree_spec a bt :
  hash_in_tree a = true -> In bt (alloc_hash a) -> In bt (all_segs a).
Proof.
  unfold hash_in_tree. rewrite forallb_forall. intros H Hin.
  apply existsb_eqb_In. exact (H bt Hin).
Qed.

Lemma free_from_arena_counters a addr size a' :
  asserter_counters a = true -> NoDup (all_segs a) ->
  hash_in_tree a = true ->
  free_from_arena a addr size = Ret tt a' ->
  asserter_counters a' = true.
Proof.
  intros C N Hh. rewrite free_from_arena_unfold.
  destruct (find_start a addr (alloc_hash a)) as [bt|] eqn:Hf; [|discriminate].
  destruct (find_start_in _ _ _ _ Hf) as [Hbh _].
  pose proof (hash_in_tree_spec a bt Hh Hbh) as Hin.
  destruct (status_of a bt) eqn:Sa; cbn [status_eqb negb]; try discriminate.
  destruct (Z.eqb_spec (size_of a bt) size) as [Zs|]; [|discriminate].
  cbn [negb]. set (m := free_marked a bt size).
  destruct (tags_free_marked a bt size bt) as (_ & M2 & M3).
  rewrite Z.eqb_refl in M3. fold m in M2, M3.
  assert (Mo : forall y, y <> bt -> bts m y = bts a y).
  { intros y Hy. destruct (tags_free_marked a bt size y) as (E1 & E2 & E3).
    fold m in E1, E2, E3. apply bts_eq; auto. rewrite E3.
    destruct (Z.eqb_spec y bt); [contradiction | reflexivity]. }
  assert (Ms : all_segs m = all_segs a) by reflexivity.
  pose proof (sums_update a m bt N Hin Ms (fun y _ Hy => Mo y Hy)) as S1.
  destruct (contrib_alloc a bt Sa) as (c1 & c2 & c3).
  destruct (contrib_free m bt M3) as (d1 & d2 & d3).
  rewrite c1, c2, c3, d1, d2, d3, M2, Zs in S1.
  assert (Nm : NoDup (all_segs m)) by (rewrite Ms; exact N).
  assert (Im : In bt (all_segs m)) by (rewrite Ms; exact Hin).
  destruct (coalesce_merge m bt) as [mm a2] eqn:Hc.
  destruct (coalesce_merge_sums _ _ _ _ Nm Im M3 Hc) as (S2 & N2 & I2 & F2).
  pose proof (coalesce_merge_books _ _ _ _ Hc) as (_ & B2 & B3 & B4 & _).
  destruct (coalesce_span a2 mm) as [[tfa tfs] a3] eqn:Hsp.
  destruct (coalesce_span_sums _ _ _ _ _ N2 I2 F2 Hsp) as (S3 & _ & _).
  pose proof (coalesce_span_counters _ _ _ _ Hsp) as K. unfold counters in K.
  injection K as K1 K2 K3.
  pose proof (same_sums_trans _ _ _ _ _ _ _ _ _
                (same_sums_trans _ _ _ _ _ _ _ _ _ S1 S2) S3) as S.
  set (a4 := set_amt_total_segs (wsub (amt_total_segs a3) tfs) a3).
  assert (C4 : asserter_counters a4 = true).
  { apply (counters_from_sums a a4 _ _ _ C S).
    - change (amt_total_segs a4) with (wsub (amt_total_segs a3) tfs).
      rewrite K1, B2. change (amt_total_segs m) with (amt_total_segs a).
      unfold wsub. f_equal. lia.
    - change (amt_alloc_segs a4) with (amt_alloc_segs a3).
      rewrite K2, B3.
      change (amt_alloc_segs m) with (wsub (amt_alloc_segs a) size).
      unfold wsub. f_equal. lia.
    - change (nr_allocs a4) with (nr_allocs a3). rewrite K3, B4.
      change (nr_allocs m) with (wsub (nr_allocs a) 1).
      unfold wsub. f_equal; lia. }
  cbv beta iota zeta. fold a4.
  destruct (negb (tfa =? 0)); intros H; injection H as <-; exact C4.
Qed.

(** * Lemmas: what an allocation does to the sums *)

Lemma insert_walk_In a bt : forall l l',
  insert_walk a bt l = Some l' -> forall x, In x l' <-> x = bt \/ In x l.
Proof.
  induction l as [|y l IH]; intros l'; simpl.
  - intros H. injection H as <-. intros x. simpl. intuition.
  - destruct (start_of a bt <? start_of a y).
    { intros H. injection H as <-. intros x. simpl. intuition. }
    destruct ((start_of a y <? start_of a bt) || _); [|discriminate].
    destruct (insert_walk a bt l) as [l0|]; [|discriminate].
    simpl. intros H. injection H as <-. intros x. simpl.
    rewrite (IH l0 eq_refl x). intuition.
Qed.

Lemma insert_walk_NoDup a bt : forall l l',
  NoDup l -> ~ In bt l -> insert_walk a bt l = Some l' -> NoDup l'.
Proof.
  induction l as [|y l IH]; intros l' N Hn; simpl.
  - intros H. injection H as <-. constructor; [exact Hn | exact N].
  - destruct (start_of a bt <? start_of a y).
    { intros H. injection H as <-. constructor; [exact Hn | exact N]. }
    destruct ((start_of a y <? start_of a bt) || _); [|discriminate].
    destruct (insert_walk a bt l) as [l0|] eqn:W; [|discriminate].
    simpl. intros H. injection H as <-.
    inversion N as [|? ? Hy N']; subst. constructor.
    + rewrite (insert_walk_In a bt l l0 W y). intros [E|Hc].
      * apply Hn. left. exact E.
      * exact (Hy Hc).
    + apply (IH l0 N'); [|reflexivity]. intros Hc. apply Hn. right. exact Hc.
Qed.

Lemma insert_btag_tree a bt u a' :
  __insert_btag a bt = Ret u a' ->
  NoDup (all_segs a) -> ~ In bt (all_segs a) ->
  NoDup (all_segs a')
  /\ (forall x, In x (all_segs a') <-> x = bt \/ In x (all_segs a)).
Proof.
  unfold __insert_btag. destruct (insert_walk a bt (all_segs a)) as [l|] eqn:W;
    [|discriminate].
  intros H N Hn. injection H as _ <-.
  change (all_segs (set_all_segs l a)) with l. split.
  - exact (insert_walk_NoDup _ _ _ _ N Hn W).
  - exact (insert_walk_In _ _ _ _ W).
Qed.

Lemma insert_btag_counters a bt u a' :
  __insert_btag a bt = Ret u a' -> counters a' = counters a.
Proof.
  unfold __insert_btag. destruct (insert_walk a bt (all_segs a));
    [|discriminate]. intros H. injection H as _ <-. reflexivity.
Qed.

(** The bookkeeping that ends [__account_alloc]: the tag [bt] of the
    tree, free so far, becomes an allocation of its size. *)
Lemma alloc_counted_sums a bt size :
  NoDup (all_segs a) -> In bt (all_segs a) ->
  status_of a bt = BTAG_FREE -> size_of a bt = size ->
  same_sums a (alloc_counted a bt size) (- size) size 1.
Proof.
  intros N Hin Sf Zs.
  assert (Hb : forall y, In y (all_segs a) -> y <> bt ->
                         bts (alloc_counted a bt size) y = bts a y).
  { intros y _ Hy.
    destruct (tags_alloc_counted a bt size y) as (E1 & E2 & E3).
    apply bts_eq; auto. rewrite E3.
    destruct (Z.eqb_spec y bt); [contradiction | reflexivity]. }
  pose proof (sums_update a (alloc_counted a bt size) bt N Hin eq_refl Hb) as S.
  destruct (tags_alloc_counted a bt size bt) as (_ & E2 & E3).
  rewrite Z.eqb_refl in E3.
  destruct (contrib_free a bt Sf) as (c1 & c2 & c3).
  destruct (contrib_alloc _ bt E3) as (d1 & d2 & d3).
  rewrite c1, c2, c3, d1, d2, d3, E2, Zs in S.
  apply (same_sums_mod _ _ _ _ _ _ _ _ S); f_equal; lia.
Qed.

Lemma alloc_counted_counters a bt size :
  counters (alloc_counted a bt size)
  = (amt_total_segs a, wadd (amt_alloc_segs a) size, wadd (nr_allocs a) 1).
Proof. reflexivity. Qed.

(** [__account_alloc] on a tag of the tree, with a spare tag that is
    not in the tree: the amount [size] moves from free to allocated. *)
Lemma account_alloc_sums a bt size r a' :
  NoDup (all_segs a) -> In bt (all_segs a) ->
  (forall n, hd_error (unused_btags a) = Some n -> ~ In n (all_segs a)) ->
  __account_alloc a bt size None = Ret r a' ->
  same_sums a a' (- size) size 1
  /\ counters a'
     = (amt_total_segs a, wadd (amt_alloc_segs a) size, wadd (nr_allocs a) 1)
  /\ NoDup (all_segs a').
Proof.
  intros N Hin Hu. rewrite account_alloc_unfold.
  destruct (status_of a bt) eqn:Sf; cbn [status_eqb negb]; try discriminate.
  destruct (Z.eqb_spec (size_of a bt) size) as [Zs|Zs].
  - intros H. injection H as _ <-.
    split; [exact (alloc_counted_sums a bt size N Hin Sf Zs)|].
    split; [apply alloc_counted_counters | exact N].
  - destruct (Z.gtb_spec (size_of a bt) size) as [Hgt|]; [|discriminate].
    cbn [negb]. destruct (unused_btags a) as [|new rest] eqn:Eu; [discriminate|].
    pose proof (Hu new eq_refl) as Hn.
    assert (Hne : bt <> new) by (intros ->; exact (Hn Hin)).
    set (s := split_fields (set_unused_btags rest a) bt size new).
    destruct (__insert_btag s new) as [|u a1] eqn:Hi; [discriminate|].
    destruct u.
    cbv beta iota delta [bind]. intros H. injection H as _ <-.
    (* the fields of the split *)
    assert (Ss : all_segs s = all_segs a).
    { unfold s, split_fields. rewrite all_segs_track_free, all_segs_set_size,
        all_segs_set_size, all_segs_set_start. reflexivity. }
    assert (Sb : forall y, In y (all_segs a) -> y <> bt -> bts s y = bts a y).
    { intros y Hy Hyb. assert (y <> new) by (intros ->; exact (Hn Hy)).
      destruct (tags_split_fields (set_unused_btags rest a) bt size new y)
        as (E1 & E2 & E3). fold s in E1, E2, E3.
      destruct (Z.eqb_spec y new); [contradiction|].
      destruct (Z.eqb_spec y bt); [contradiction|].
      apply bts_eq; assumption. }
    destruct (tags_split_fields (set_unused_btags rest a) bt size new bt)
      as (_ & B2 & B3). fold s in B2, B3. rewrite Z.eqb_refl in B2.
    destruct (Z.eqb_spec bt new); [contradiction|].
    destruct (tags_split_fields (set_unused_btags rest a) bt size new new)
      as (_ & W2 & W3). fold s in W2, W3. rewrite Z.eqb_refl in W2, W3.
    destruct (Z.eqb_spec new bt) as [E|_]; [symmetry in E; contradiction|].
    change (status_of (set_unused_btags rest a) bt) with (status_of a bt) in B3.
    change (size_of (set_unused_btags rest a) bt) with (size_of a bt) in W2.
    rewrite Sf in B3.
    pose proof (sums_update a s bt N Hin Ss Sb) as S1.
    destruct (contrib_free a bt Sf) as (c1 & c2 & c3).
    destruct (contrib_free s bt B3) as (d1 & d2 & d3).
    rewrite c1, c2, c3, d1, d2, d3, B2 in S1.
    pose proof (sums_insert _ _ _ _ Hi) as S2.
    destruct (contrib_free s new W3) as (e1 & e2 & e3).
    rewrite e1, e2, e3, W2 in S2.
    assert (Ns : NoDup (all_segs s)) by (rewrite Ss; exact N).
    assert (Hns : ~ In new (all_segs s)) by (rewrite Ss; exact Hn).
    destruct (insert_btag_tree _ _ _ _ Hi Ns Hns) as (N1 & I1).
    assert (Hin1 : In bt (all_segs a1)).
    { apply I1. right. rewrite Ss. exact Hin. }
    assert (Sf1 : status_of a1 bt = BTAG_FREE).
    { rewrite (insert_btag_status _ _ _ bt Hi). exact B3. }
    assert (Zs1 : size_of a1 bt = size).
    { rewrite (insert_btag_size _ _ _ bt Hi). exact B2. }
    pose proof (alloc_counted_sums a1 bt size N1 Hin1 Sf1 Zs1) as S3.
    pose proof (same_sums_trans _ _ _ _ _ _ _ _ _
                  (same_sums_trans _ _ _ _ _ _ _ _ _ S1 S2) S3) as S.
    split.
    { apply (same_sums_mod _ _ _ _ _ _ _ _ S); [|f_equal; lia|f_equal; lia].
      destruct (wrap_diff (size_of a bt - size)) as [k Hk].
      unfold wsub. rewrite Hk. apply wrap_shift with (k := k). lia. }
    split; [|exact N1].
    rewrite alloc_counted_counters.
    pose proof (insert_btag_counters _ _ _ _ Hi) as K. unfold counters in K.
    injection K as K1 K2 K3. rewrite K1, K2, K3. reflexivity.
Qed.

(** * Lemmas: a free keeps the hash in the tree *)

Lemma hash_in_tree_intro a :
  (forall bt, In bt (alloc_hash a) -> In bt (all_segs a)) ->
  hash_in_tree a = true.
Proof.
  intros H. unfold hash_in_tree. apply forallb_forall. intros bt Hin.
  apply existsb_eqb_In. exact (H bt Hin).
Qed.

Lemma hash_allocated_intro a :
  (forall bt, In bt (alloc_hash a) -> status_of a bt = BTAG_ALLOC) ->
  hash_allocated a = true.
Proof.
  intros H. unfold hash_allocated. apply forallb_forall. intros bt Hin.
  apply status_eqb_eq. exact (H bt Hin).
Qed.

Lemma books_ok_spec a :
  books_ok a = true <->
  asserter_counters a = true /\ NoDup (all_segs a)
  /\ (forall bt, In bt (alloc_hash a) ->
                 In bt (all_segs a) /\ status_of a bt = BTAG_ALLOC)
  /\ NoDup (alloc_hash a).
Proof.
  unfold books_ok. rewrite !andb_true_iff. split.
  - intros ((((C & N) & Ht) & Ha) & Nh).
    split; [exact C|]. split; [exact (nodupb_NoDup _ N)|].
    split; [|exact (nodupb_NoDup _ Nh)].
    intros bt Hin. split.
    + exact (hash_in_tree_spec a bt Ht Hin).
    + exact (hash_allocated_spec a Ha bt Hin).
  - intros (C & N & H & Nh).
    repeat split; auto using NoDup_nodupb.
    + apply hash_in_tree_intro. intros bt Hin. exact (proj1 (H bt Hin)).
    + apply hash_allocated_intro. intros bt Hin. exact (proj2 (H bt Hin)).
Qed.

(** A merge leaves an allocated tag in the tree, as it was. *)
Lemma merge_keeps_alloc a L R mg a' x :
  __merge_right_to_left a L R = (mg, a') ->
  In x (all_segs a) -> status_of a x = BTAG_ALLOC ->
  In x (all_segs a') /\ status_of a' x = BTAG_ALLOC.
Proof.
  intros Hm Hin Sx. destruct mg.
  - destruct (merge_right_to_left_true _ _ _ _ Hm) as (SL & SR & _).
    destruct (merge_right_to_left_frame _ _ _ _ _ Hm) as (_ & Fr).
    assert (x <> L) by congruence. assert (x <> R) by congruence.
    split.
    + rewrite (merge_right_to_left_segs _ _ _ _ _ Hm).
      apply list_remove_keeps; auto.
    + unfold status_of. rewrite (Fr x); auto.
  - destruct (merge_right_to_left_false _ _ _ _ Hm) as [-> _]. auto.
Qed.

Lemma coalesce_merge_keeps_alloc a bt m a2 x :
  coalesce_merge a bt = (m, a2) ->
  In x (all_segs a) -> status_of a x = BTAG_ALLOC ->
  In x (all_segs a2) /\ status_of a2 x = BTAG_ALLOC.
Proof.
  unfold coalesce_merge. intros H Hin Sx.
  set (a1 := match rb_next (all_segs a) bt with
             | Some bt_n => snd (__merge_right_to_left a bt bt_n)
             | None => a
             end) in H.
  assert (H1 : In x (all_segs a1) /\ status_of a1 x = BTAG_ALLOC).
  { unfold a1. destruct (rb_next (all_segs a) bt) as [n|]; [|auto].
    destruct (__merge_right_to_left a bt n) as [mg a'] eqn:Hm. cbn [snd].
    exact (merge_keeps_alloc _ _ _ _ _ _ Hm Hin Sx). }
  clearbody a1. destruct H1 as [I1 S1].
  destruct (rb_prev (all_segs a1) bt) as [p|].
  - destruct (__merge_right_to_left a1 p bt) as [mg a'] eqn:Hm.
    injection H as _ <-. exact (merge_keeps_alloc _ _ _ _ _ _ Hm I1 S1).
  - injection H as _ <-. auto.
Qed.

Lemma coalesce_span_keeps_alloc a m to_free a3 x :
  status_of a m = BTAG_FREE ->
  coalesce_span a m = (to_free, a3) ->
  In x (all_segs a) -> status_of a x = BTAG_ALLOC ->
  In x (all_segs a3) /\ status_of a3 x = BTAG_ALLOC.
Proof.
  intros Sm H Hin Sx. pose proof (coalesce_span_bts _ _ _ _ H) as B.
  unfold status_of. rewrite B. split; [|exact Sx].
  destruct (coalesce_span_spec _ _ _ _ H)
    as [[_ ->] | (sp & _ & Ss & _ & _ & _ & _ & Hs)]; [exact Hin|].
  rewrite Hs. assert (x <> sp) by congruence. assert (x <> m) by congruence.
  apply list_remove_keeps; auto. apply list_remove_keeps; auto.
Qed.

Lemma coalesce_span_hash a m to_free a3 :
  coalesce_span a m = (to_free, a3) -> alloc_hash a3 = alloc_hash a.
Proof.
  rewrite coalesce_span_whole. destruct (whole_span a m).
  - intros H. injection H as _ <-. reflexivity.
  - intros H. injection H as _ <-. reflexivity.
Qed.

(** [free_from_arena] keeps the books. *)
Lemma free_from_arena_books a addr size a' :
  books_ok a = true ->
  free_from_arena a addr size = Ret tt a' ->
  books_ok a' = true.
Proof.
  intros B Hf. apply books_ok_spec in B. destruct B as (C & N & Hh & Nh).
  apply books_ok_spec. split.
  { apply (free_from_arena_counters a addr size a' C N); [|exact Hf].
    apply hash_in_tree_intro. intros bt Hin. exact (proj1 (Hh bt Hin)). }
  revert Hf. rewrite free_from_arena_unfold.
  destruct (find_start a addr (alloc_hash a)) as [bt|] eqn:Hfs; [|discriminate].
  destruct (find_start_in _ _ _ _ Hfs) as [Hbh _].
  destruct (Hh bt Hbh) as [Hin Sa]. rewrite Sa. cbn [status_eqb negb].
  destruct (Z.eqb_spec (size_of a bt) size) as [Zs|]; [|discriminate].
  cbn [negb]. set (m := free_marked a bt size).
  destruct (tags_free_marked a bt size bt) as (_ & _ & M3).
  rewrite Z.eqb_refl in M3. fold m in M3.
  assert (Mo : forall y, y <> bt -> status_of m y = status_of a y).
  { intros y Hy. destruct (tags_free_marked a bt size y) as (_ & _ & E3).
    fold m in E3. rewrite E3.
    destruct (Z.eqb_spec y bt); [contradiction | reflexivity]. }
  assert (Mh : alloc_hash m = list_remove bt (alloc_hash a)) by reflexivity.
  assert (Hm : forall h, In h (alloc_hash m) ->
                         In h (all_segs m) /\ status_of m h = BTAG_ALLOC).
  { intros h Hhm. rewrite Mh in Hhm.
    assert (h <> bt).
    { intros ->. exact (list_remove_not_In _ _ Nh Hhm). }
    destruct (Hh h (list_remove_In _ _ _ Hhm)) as [I S].
    split; [exact I | rewrite Mo; auto]. }
  assert (Nm : NoDup (all_segs m)) by exact N.
  assert (Im : In bt (all_segs m)) by exact Hin.
  destruct (coalesce_merge m bt) as [mm a2] eqn:Hc.
  destruct (coalesce_merge_sums _ _ _ _ Nm Im M3 Hc) as (_ & N2 & I2 & F2).
  pose proof (coalesce_merge_books _ _ _ _ Hc) as (_ & _ & _ & _ & H2 & _).
  destruct (coalesce_span a2 mm) as [[tfa tfs] a3] eqn:Hsp.
  destruct (coalesce_span_sums _ _ _ _ _ N2 I2 F2 Hsp) as (_ & N3 & _).
  pose proof (coalesce_span_hash _ _ _ _ Hsp) as H3.
  assert (K : NoDup (all_segs a3)
              /\ (forall h, In h (alloc_hash a3) ->
                            In h (all_segs a3) /\ status_of a3 h = BTAG_ALLOC)
              /\ NoDup (alloc_hash a3)).
  { split; [exact N3|]. split.
    - intros h Hh3. rewrite H3, H2 in Hh3. destruct (Hm h Hh3) as [I S].
      destruct (coalesce_merge_keeps_alloc _ _ _ _ h Hc I S) as [I' S'].
      exact (coalesce_span_keeps_alloc _ _ _ _ h F2 Hsp I' S').
    - rewrite H3, H2, Mh. apply list_remove_NoDup. exact Nh. }
  cbv beta iota zeta.
  destruct (negb (tfa =? 0)); intros H; injection H as <-; exact K.
Qed.

(** * Lemmas: an allocation keeps the books *)

Lemma books_ok_free_segs v a : books_ok (set_free_segs v a) = books_ok a.
Proof. reflexivity. Qed.

Lemma books_ok_cursor v a : books_ok (set_last_nextfit_alloc v a) = books_ok a.
Proof. reflexivity. Qed.

Lemma insert_btag_any a bt u a' :
  __insert_btag a bt = Ret u a' ->
  bts a' = bts a /\ alloc_hash a' = alloc_hash a
  /\ unused_btags a' = unused_btags a.
Proof.
  unfold __insert_btag. destruct (insert_walk a bt (all_segs a));
    [|discriminate]. intros H. injection H as _ <-. auto.
Qed.

(** What [__account_alloc] leaves as it was. *)
Lemma account_alloc_frame a bt size r a' :
  In bt (all_segs a) ->
  (forall n, hd_error (unused_btags a) = Some n -> ~ In n (all_segs a)) ->
  NoDup (all_segs a) ->
  __account_alloc a bt size None = Ret r a' ->
  status_of a bt = BTAG_FREE
  /\ alloc_hash a' = bt :: alloc_hash a
  /\ status_of a' bt = BTAG_ALLOC
  /\ (forall x, In x (all_segs a) -> In x (all_segs a'))
  /\ (forall x, In x (all_segs a) -> x <> bt -> bts a' x = bts a x).
Proof.
  intros Hin Hu N. rewrite account_alloc_unfold.
  destruct (status_of a bt) eqn:Sf; cbn [status_eqb negb]; try discriminate.
  assert (Ac : forall b x, x <> bt ->
                 bts (alloc_counted b bt size) x = bts b x).
  { intros b x Hx. destruct (tags_alloc_counted b bt size x) as (E1 & E2 & E3).
    apply bts_eq; auto. rewrite E3.
    destruct (Z.eqb_spec x bt); [contradiction | reflexivity]. }
  assert (Ab : forall b, status_of (alloc_counted b bt size) bt = BTAG_ALLOC).
  { intros b. destruct (tags_alloc_counted b bt size bt) as (_ & _ & E3).
    rewrite Z.eqb_refl in E3. exact E3. }
  destruct (Z.eqb_spec (size_of a bt) size) as [Zs|Zs].
  - intros H. injection H as _ <-.
    split; [reflexivity|]. split; [apply alloc_counted_hash|].
    split; [apply Ab|]. split; [auto|]. intros x _ Hx. apply Ac, Hx.
  - destruct (negb (size_of a bt >? size)); [discriminate|].
    destruct (unused_btags a) as [|new rest] eqn:Eu; [discriminate|].
    pose proof (Hu new eq_refl) as Hn.
    set (s := split_fields (set_unused_btags rest a) bt size new).
    destruct (__insert_btag s new) as [|u a1] eqn:Hi; [discriminate|].
    cbv beta iota delta [bind]. intros H. injection H as _ <-.
    destruct (insert_btag_any _ _ _ _ Hi) as (B1 & H1 & _).
    assert (Ss : all_segs s = all_segs a).
    { unfold s, split_fields. rewrite all_segs_track_free, all_segs_set_size,
        all_segs_set_size, all_segs_set_start. reflexivity. }
    assert (Hs : alloc_hash s = alloc_hash a).
    { unfold s, split_fields. rewrite alloc_hash_track_free,
        alloc_hash_set_size, alloc_hash_set_size, alloc_hash_set_start.
      reflexivity. }
    assert (Ns : NoDup (all_segs s)) by (rewrite Ss; exact N).
    assert (Hns : ~ In new (all_segs s)) by (rewrite Ss; exact Hn).
    destruct (insert_btag_tree _ _ _ _ Hi Ns Hns) as (_ & I1).
    split; [reflexivity|]. split.
    { rewrite alloc_counted_hash, H1, Hs. reflexivity. }
    split; [apply Ab|]. split.
    { intros x Hx. change (In x (all_segs a1)). apply I1. right.
      rewrite Ss. exact Hx. }
    intros x Hx Hxb. rewrite Ac by exact Hxb. rewrite B1.
    assert (x <> new) by (intros ->; exact (Hn Hx)).
    destruct (tags_split_fields (set_unused_btags rest a) bt size new x)
      as (E1 & E2 & E3). fold s in E1, E2, E3.
    destruct (Z.eqb_spec x new); [contradiction|].
    destruct (Z.eqb_spec x bt); [contradiction|].
    apply bts_eq; assumption.
Qed.

Lemma tags_split_front a bt at_ front y :
  let s := __track_free_seg
             (set_size bt (wsub (size_of a bt) (wsub at_ (start_of a bt)))
                (set_start bt (wadd (start_of a bt) (wsub at_ (start_of a bt)))
                   (set_size front (wsub at_ (start_of a bt))
                      (set_start front (start_of a bt)
                         (set_status front BTAG_FREE a))))) front in
  bt <> front ->
  all_segs s = all_segs a /\ alloc_hash s = alloc_hash a
  /\ unused_btags s = unused_btags a /\ counters s = counters a
  /\ status_of s y = (if y =? front then BTAG_FREE else status_of a y)
  /\ size_of s y
     = (if y =? front then wsub at_ (start_of a bt)
        else if y =? bt
             then wsub (size_of a bt) (wsub at_ (start_of a bt))
             else size_of a y)
  /\ (y <> bt -> y <> front -> bts s y = bts a y).
Proof.
  intros s Hne. subst s.
  split. { rewrite all_segs_track_free. reflexivity. }
  split. { rewrite alloc_hash_track_free. reflexivity. }
  split; [reflexivity|]. split; [reflexivity|].
  split.
  { rewrite status_of_track_free, status_of_set_size, status_of_set_start,
      status_of_set_size, status_of_set_start, status_of_set_status.
    destruct (y =? front); reflexivity. }
  split.
  { rewrite size_of_track_free, size_of_set_size, size_of_set_start,
      size_of_set_size, size_of_set_start, size_of_set_status.
    destruct (Z.eqb_spec y bt) as [->|Hy].
    - destruct (Z.eqb_spec bt front); [contradiction | reflexivity].
    - reflexivity. }
  intros Hy Hf.
  rewrite bts_track_free_other, bts_set_size_other, bts_set_start_other,
    bts_set_size_other, bts_set_start_other, bts_set_status_other; auto.
Qed.

Lemma split_bt_at_form a bt at_ front rest :
  unused_btags a = front :: rest -> bt <> front ->
  __split_bt_at a bt at_
  = __insert_btag
      (__track_free_seg
         (set_size bt (wsub (size_of a bt) (wsub at_ (start_of a bt)))
            (set_start bt (wadd (start_of a bt) (wsub at_ (start_of a bt)))
               (set_size front (wsub at_ (start_of a bt))
                  (set_start front (start_of a bt)
                     (set_status front BTAG_FREE
                        (set_unused_btags rest a)))))) front) front.
Proof.
  intros Hu Hne. unfold __split_bt_at, __get_btag. rewrite Hu.
  cbv beta iota delta [bind]. cbv zeta.
  repeat first
    [ rewrite start_of_set_start | rewrite start_of_set_size
    | rewrite start_of_set_status | rewrite size_of_set_size
    | rewrite size_of_set_start | rewrite size_of_set_status
    | rewrite start_of_set_unused_btags | rewrite size_of_set_unused_btags
    | rewrite Z.eqb_refl ].
  destruct (Z.eqb_spec bt front); [contradiction|]. reflexivity.
Qed.

(** A split moves size from a free tag to a new free tag of the tree:
    the sums and the books stay. *)
Lemma split_bt_at_books a bt at_ a' :
  NoDup (all_segs a) -> In bt (all_segs a) -> status_of a bt = BTAG_FREE ->
  NoDup (unused_btags a) ->
  (forall u, In u (unused_btags a) -> ~ In u (all_segs a)) ->
  __split_bt_at a bt at_ = Ret tt a' ->
  same_sums a a' 0 0 0 /\ counters a' = counters a
  /\ NoDup (all_segs a') /\ alloc_hash a' = alloc_hash a
  /\ In bt (all_segs a') /\ status_of a' bt = BTAG_FREE
  /\ (forall x, In x (all_segs a) -> In x (all_segs a'))
  /\ (forall x, In x (all_segs a) -> x <> bt -> bts a' x = bts a x)
  /\ NoDup (unused_btags a')
  /\ (forall u, In u (unused_btags a') -> ~ In u (all_segs a')).
Proof.
  intros N Hin Sf Nu Hu.
  destruct (unused_btags a) as [|front rest] eqn:Eu.
  { unfold __split_bt_at, __get_btag. rewrite Eu. discriminate. }
  assert (Hn : ~ In front (all_segs a)) by (apply Hu; left; reflexivity).
  assert (Nu' : NoDup (front :: rest)) by exact Nu.
  assert (Hu' : forall u, In u (front :: rest) -> ~ In u (all_segs a))
    by exact Hu.
  clear Nu Hu. rename Nu' into Nu. rename Hu' into Hu.
  assert (Hne : bt <> front) by (intros ->; exact (Hn Hin)).
  rewrite (split_bt_at_form a bt at_ front rest Eu Hne).
  set (a0 := set_unused_btags rest a).
  pose proof (fun y => tags_split_front a0 bt at_ front y Hne) as T.
  cbv zeta in T.
  set (s := __track_free_seg _ front) in *.
  intros Hi.
  destruct (T bt) as (Ss & Hs & Us & Cs & _ & _ & _).
  change (all_segs a0) with (all_segs a) in Ss.
  change (alloc_hash a0) with (alloc_hash a) in Hs.
  change (unused_btags a0) with rest in Us.
  change (counters a0) with (counters a) in Cs.
  assert (Sb : forall y, In y (all_segs a) -> y <> bt -> bts s y = bts a y).
  { intros y Hy Hyb. assert (y <> front) by (intros ->; exact (Hn Hy)).
    destruct (T y) as (_ & _ & _ & _ & _ & _ & E). exact (E Hyb H). }
  destruct (T bt) as (_ & _ & _ & _ & B3 & B2 & _).
  destruct (T front) as (_ & _ & _ & _ & W3 & W2 & _).
  rewrite Z.eqb_refl in W3, W2.
  destruct (Z.eqb_spec bt front); [contradiction|]. rewrite Z.eqb_refl in B2.
  change (status_of a0 bt) with (status_of a bt) in B3. rewrite Sf in B3.
  change (size_of a0 bt) with (size_of a bt) in B2.
  change (start_of a0 bt) with (start_of a bt) in B2, W2.
  pose proof (sums_update a s bt N Hin Ss Sb) as S1.
  destruct (contrib_free a bt Sf) as (c1 & c2 & c3).
  destruct (contrib_free s bt B3) as (d1 & d2 & d3).
  rewrite c1, c2, c3, d1, d2, d3, B2 in S1.
  pose proof (sums_insert _ _ _ _ Hi) as S2.
  destruct (contrib_free s front W3) as (e1 & e2 & e3).
  rewrite e1, e2, e3, W2 in S2.
  assert (Ns : NoDup (all_segs s)) by (rewrite Ss; exact N).
  assert (Hns : ~ In front (all_segs s)) by (rewrite Ss; exact Hn).
  destruct (insert_btag_tree _ _ _ _ Hi Ns Hns) as (N1 & I1).
  destruct (insert_btag_any _ _ _ _ Hi) as (B1 & H1 & U1).
  pose proof (insert_btag_counters _ _ _ _ Hi) as K.
  pose proof (same_sums_trans _ _ _ _ _ _ _ _ _ S1 S2) as S.
  split.
  { apply (same_sums_mod _ _ _ _ _ _ _ _ S); [|reflexivity|reflexivity].
    set (d := wsub at_ (start_of a bt)).
    destruct (wrap_diff (size_of a bt - d)) as [k Hk].
    unfold wsub at 1. rewrite Hk. apply wrap_shift with (k := k). lia. }
  split; [rewrite K; exact Cs|]. split; [exact N1|].
  split; [rewrite H1; exact Hs|].
  split. { apply I1. right. rewrite Ss. exact Hin. }
  split. { unfold status_of. rewrite B1. exact B3. }
  split. { intros x Hx. apply I1. right. rewrite Ss. exact Hx. }
  split. { intros x Hx Hxb. rewrite B1. exact (Sb x Hx Hxb). }
  apply NoDup_cons_iff in Nu. destruct Nu as [Hfr Nr].
  rewrite U1, Us. split; [exact Nr|].
  intros u Hur Hc. apply I1 in Hc. destruct Hc as [->|Hc].
  - exact (Hfr Hur).
  - rewrite Ss in Hc. exact (Hu u (or_intror Hur) Hc).
Qed.

(** The step that serves a request from the tag [bt] of the tree:
    the books are in order afterwards. *)
Lemma serve_books a bt try size p a' :
  books_ok a = true -> In bt (all_segs a) ->
  NoDup (unused_btags a) ->
  (forall u, In u (unused_btags a) -> ~ In u (all_segs a)) ->
  (do _, a <- (if negb (try =? start_of a bt) then __split_bt_at a bt try
               else Ret tt a);
   do _, a <- __account_alloc a bt size None;
   Ret (start_of a bt) a) = Ret p a' ->
  books_ok a' = true.
Proof.
  intros B Hin Nu Hu. apply books_ok_spec in B.
  destruct B as (C & N & Hh & Nh).
  destruct (status_of a bt) eqn:Sa.
  2,3: (* the tag is not free: [__account_alloc] stops *)
    assert (Hx : forall a1, status_of a1 bt = status_of a bt ->
                   __account_alloc a1 bt size None = Panic)
      by (intros a1 E; unfold __account_alloc; rewrite E, Sa; reflexivity);
    destruct (negb (try =? start_of a bt));
    [ destruct (__split_bt_at a bt try) as [|[] a1] eqn:Hs; [discriminate|];
      cbv beta iota delta [bind];
      rewrite Hx; [discriminate|];
      apply (split_bt_at_status _ _ _ _ Hs);
      intros E; destruct (unused_btags a) as [|f r]; [discriminate|];
      injection E as ->; exact (Hu bt (or_introl eq_refl) Hin)
    | cbv beta iota delta [bind]; rewrite Hx; [discriminate | reflexivity] ].
  assert (St : exists a1,
             (if negb (try =? start_of a bt) then __split_bt_at a bt try
              else Ret tt a) = Ret tt a1
             /\ (same_sums a a1 0 0 0 /\ counters a1 = counters a
                 /\ NoDup (all_segs a1) /\ alloc_hash a1 = alloc_hash a
                 /\ In bt (all_segs a1) /\ status_of a1 bt = BTAG_FREE
                 /\ (forall x, In x (all_segs a) -> In x (all_segs a1))
                 /\ (forall x, In x (all_segs a) -> x <> bt ->
                               bts a1 x = bts a x)
                 /\ NoDup (unused_btags a1)
                 /\ (forall u, In u (unused_btags a1) ->
                               ~ In u (all_segs a1)))
             \/ (if negb (try =? start_of a bt) then __split_bt_at a bt try
                 else Ret tt a) = Panic).
  { destruct (negb (try =? start_of a bt)).
    - destruct (__split_bt_at a bt try) as [|[] a1] eqn:Hs;
        [exists a; right; reflexivity|].
      exists a1. left. split; [reflexivity|].
      exact (split_bt_at_books _ _ _ _ N Hin Sa Nu Hu Hs).
    - exists a. left. split; [reflexivity|].
      split; [apply same_sums_refl|]. auto 12. }
  destruct St as (a1 & [(-> & S1 & K1 & N1 & H1 & I1 & F1 & T1 & B1 & Nu1 & Hu1)
                       | ->]); [|discriminate].
  cbv beta iota delta [bind].
  destruct (__account_alloc a1 bt size None) as [|r a2] eqn:Hacc;
    [discriminate|].
  intros H. injection H as _ <-.
  assert (Hu1' : forall n, hd_error (unused_btags a1) = Some n ->
                           ~ In n (all_segs a1)).
  { intros n E. apply Hu1. destruct (unused_btags a1); [discriminate|].
    injection E as ->. left. reflexivity. }
  destruct (account_alloc_sums _ _ _ _ _ N1 I1 Hu1' Hacc) as (S2 & K2 & N2).
  destruct (account_alloc_frame _ _ _ _ _ I1 Hu1' N1 Hacc)
    as (_ & H2 & A2 & T2 & B2).
  apply books_ok_spec. split.
  { apply (counters_from_sums a a2 _ _ _ C
             (same_sums_trans _ _ _ _ _ _ _ _ _ S1 S2)).
    - unfold counters in K1, K2. injection K2 as -> _ _.
      injection K1 as -> _ _. unfold wrap. symmetry.
      rewrite <- (Z.mod_small (amt_total_segs a) WORD) at 2.
      + f_equal; lia.
      + apply asserter_counters_spec in C. destruct C as (-> & _).
        apply Z.mod_pos_bound. reflexivity.
    - unfold counters in K1, K2. injection K2 as _ -> _.
      injection K1 as _ -> _. unfold wadd. f_equal; lia.
    - unfold counters in K1, K2. injection K2 as _ _ ->.
      injection K1 as _ _ ->. unfold wadd. f_equal; lia. }
  split; [exact N2|].
  assert (Hnb : ~ In bt (alloc_hash a)).
  { intros Hc. destruct (Hh bt Hc) as [_ Sc]. congruence. }
  split.
  - rewrite H2, H1. intros h [<-|Hh1].
    + split; [apply T2; exact I1 | exact A2].
    + destruct (Hh h Hh1) as [Ih Sh].
      assert (h <> bt) by (intros ->; exact (Hnb Hh1)).
      split; [apply T2, T1; exact Ih|].
      unfold status_of. rewrite B2; auto. rewrite B1; auto.
  - rewrite H2, H1. constructor; assumption.
Qed.

(** [__account_alloc] alone, on a tag of the tree. *)
Lemma account_books a bt size r a' :
  books_ok a = true -> In bt (all_segs a) ->
  NoDup (unused_btags a) ->
  (forall u, In u (unused_btags a) -> ~ In u (all_segs a)) ->
  __account_alloc a bt size None = Ret r a' ->
  books_ok a' = true.
Proof.
  intros B Hin Nu Hu Hacc.
  apply (serve_books a bt (start_of a bt) size (start_of a' bt) a' B Hin Nu Hu).
  rewrite Z.eqb_refl. cbv beta iota delta [bind negb]. rewrite Hacc.
  reflexivity.
Qed.

Lemma min_max_scan_books size align phase nocross maxaddr l : forall a p a',
  books_ok a = true -> (forall bt, In bt l -> In bt (all_segs a)) ->
  NoDup (unused_btags a) ->
  (forall u, In u (unused_btags a) -> ~ In u (all_segs a)) ->
  min_max_scan a size align phase nocross maxaddr l = Ret p a' ->
  books_ok a' = true.
Proof.
  induction l as [|bt l IH]; intros a p a' B Hl Nu Hu.
  { simpl. intros H. injection H as _ <-. exact B. }
  cbn [min_max_scan].
  set (try := __find_sufficient (start_of a bt) (size_of a bt) size align
                phase nocross).
  destruct (try =? 0).
  { apply IH; auto. intros x Hx. apply Hl. right. exact Hx. }
  destruct (negb (maxaddr =? 0) && (wadd try size >? maxaddr)).
  { intros H. injection H as _ <-. exact B. }
  cbv zeta.
  apply (serve_books (__untrack_free_seg a bt) bt try size p a').
  - unfold __untrack_free_seg. rewrite books_ok_free_segs. exact B.
  - apply Hl. left. reflexivity.
  - exact Nu.
  - exact Hu.
Qed.

Lemma xalloc_min_max_books a size align phase nocross minaddr maxaddr p a' :
  books_ok a = true -> NoDup (unused_btags a) ->
  (forall u, In u (unused_btags a) -> ~ In u (all_segs a)) ->
  __xalloc_min_max a size align phase nocross minaddr maxaddr = Ret p a' ->
  books_ok a' = true.
Proof.
  intros B Nu Hu. unfold __xalloc_min_max.
  destruct (least_upper_from_suffix a minaddr (all_segs a) None) as [l1 E].
  apply min_max_scan_books; auto.
  intros bt Hb. rewrite E. apply in_or_app. right. exact Hb.
Qed.

Lemma xalloc_nextfit_books a size align phase nocross p a' :
  books_ok a = true -> NoDup (unused_btags a) ->
  (forall u, In u (unused_btags a) -> ~ In u (all_segs a)) ->
  __xalloc_nextfit a size align phase nocross = Ret p a' ->
  books_ok a' = true.
Proof.
  intros B Nu Hu. unfold __xalloc_nextfit.
  destruct (__xalloc_min_max a size align phase nocross
              (wadd (last_nextfit_alloc a) (quantum a)) 0) as [|r1 a1] eqn:H1;
    [discriminate|].
  cbv beta iota delta [bind]. destruct (Z.eqb_spec r1 0) as [Hz|Hz].
  - pose proof (xalloc_min_max_zero _ _ _ _ _ _ _ _ _ H1 Hz) as ->.
    destruct (__xalloc_min_max a size align phase nocross (quantum a) 0)
      as [|r2 a2] eqn:H2; [discriminate|].
    pose proof (xalloc_min_max_books _ _ _ _ _ _ _ _ _ B Nu Hu H2) as B2.
    destruct (r2 =? 0); intros H; injection H as _ <-;
      [exact B2 | rewrite books_ok_cursor; exact B2].
  - pose proof (xalloc_min_max_books _ _ _ _ _ _ _ _ _ B Nu Hu H1) as B1.
    destruct (Z.eqb_spec r1 0) as [|_]; [contradiction|].
    intros H. injection H as _ <-. rewrite books_ok_cursor. exact B1.
Qed.

Lemma books_xalloc_lists_loop size align phase nocross n : forall a i,
  books_ok (snd (xalloc_lists_loop n a size align phase nocross i))
  = books_ok a.
Proof.
  induction n as [|n IH]; intros a i; simpl; [reflexivity|].
  destruct (first_sufficient a size align phase nocross (free_segs a i))
    as [[bt_i try]|]; [reflexivity | apply IH].
Qed.

Lemma xalloc_from_freelists_books a size align phase nocross inst p a' :
  books_ok a = true -> lists_ok a = true -> NoDup (unused_btags a) ->
  __xalloc_from_freelists a size align phase nocross inst = Ret p a' ->
  books_ok a' = true.
Proof.
  intros B L Nu. unfold __xalloc_from_freelists.
  destruct (wadd (ROUNDUP size align) phase <? size).
  { intros H. injection H as _ <-. exact B. }
  set (idx := LOG2_DOWN (wadd (ROUNDUP size align) phase)
              + (if inst then 1 else 0)).
  assert (Hidx : 0 <= idx).
  { unfold idx, LOG2_DOWN.
    pose proof (Z.log2_nonneg (wadd (ROUNDUP size align) phase)).
    destruct inst; lia. }
  destruct (xalloc_lists_loop (Z.to_nat (ARENA_NR_FREE_LISTS - idx)) a size
              align phase nocross idx) as [[[bt try]|] a1] eqn:Hl.
  2:{ pose proof (xalloc_lists_loop_spec _ _ _ _ _ _ _ _ _ Hl) as ->.
      intros H. injection H as _ <-. exact B. }
  pose proof (xalloc_lists_loop_spec _ _ _ _ _ _ _ _ _ Hl) as (Bt & _ & _).
  destruct (xalloc_lists_loop_mem _ _ _ _ _ _ _ _ _ _ Hl) as (j & Hj & Hin & U & T).
  assert (Hj' : 0 <= j < ARENA_NR_FREE_LISTS).
  { unfold ARENA_NR_FREE_LISTS in *. lia. }
  destruct (lists_ok_free a j bt L Hj' Hin) as [Ht _].
  apply (serve_books a1 bt try size p a').
  - pose proof (books_xalloc_lists_loop size align phase nocross
                  (Z.to_nat (ARENA_NR_FREE_LISTS - idx)) a idx) as E.
    rewrite Hl in E. cbn [snd] in E. rewrite E. exact B.
  - rewrite T. exact Ht.
  - rewrite U. exact Nu.
  - rewrite U, T. intros u. apply lists_ok_unused. exact L.
Qed.

Lemma bestfit_scan_In a size : forall l best b,
  bestfit_scan a size best l = Some b -> best = Some b \/ In b l.
Proof.
  induction l as [|x l IH]; intros best b; simpl; [auto|].
  intros H. apply IH in H. destruct H as [H|H]; [|auto].
  destruct (size_of a x >=? size); [|auto].
  destruct best as [b0|].
  - destruct (size_of a b0 >? size_of a x); [|auto].
    injection H as <-. auto.
  - injection H as <-. auto.
Qed.

Lemma get_from_freelists_books a idx bt a1 :
  0 <= idx -> lists_ok a = true ->
  __get_from_freelists a idx = (Some bt, a1) ->
  In bt (all_segs a) /\ books_ok a1 = books_ok a
  /\ all_segs a1 = all_segs a /\ unused_btags a1 = unused_btags a.
Proof.
  intros Hi L H. apply (get_from_freelists_spec a idx _ _ Hi) in H.
  destruct H as (j & rest & Hj & Hf & ->).
  split; [|auto].
  apply (lists_ok_free a j bt L Hj). rewrite Hf. left. reflexivity.
Qed.

(** [alloc_from_arena] with a spare tag at hand keeps the books. *)
Lemma alloc_from_arena_books a size flags p a' :
  books_ok a = true -> lists_ok a = true -> NoDup (unused_btags a) ->
  __has_enough_btags a 1 = true -> 0 <= size < WORD ->
  alloc_from_arena a size flags = Ret p a' ->
  books_ok a' = true.
Proof.
  intros B L Nu E Hs. unfold alloc_from_arena, __get_enough_btags. rewrite E.
  cbv beta iota delta [bind negb].
  pose proof (fun u => lists_ok_unused a u L) as Hu.
  destruct (has_flag flags ARENA_BESTFIT).
  { unfold __alloc_bestfit.
    assert (Hidx : 0 <= LOG2_DOWN size < ARENA_NR_FREE_LISTS).
    { unfold LOG2_DOWN, ARENA_NR_FREE_LISTS. split; [apply Z.log2_nonneg|].
      destruct (Z.eq_dec size 0) as [->|]; [reflexivity|].
      apply Z.log2_lt_pow2; [lia|]. exact (proj2 Hs). }
    destruct (bestfit_scan a size None (free_segs a (LOG2_DOWN size)))
      as [b|] eqn:Hb.
    - apply bestfit_scan_In in Hb. destruct Hb as [Hb|Hb]; [discriminate|].
      destruct (lists_ok_free a _ b L Hidx Hb) as [Ht _].
      destruct (__account_alloc a b size None) as [|r a3] eqn:Hacc;
        [discriminate|].
      cbv beta iota delta [bind]. intros H. injection H as _ <-.
      exact (account_books _ _ _ _ _ B Ht Nu Hu Hacc).
    - destruct (__get_from_freelists a (LOG2_DOWN size + 1))
        as [[b|] a2] eqn:Hg.
      + destruct (get_from_freelists_books a (LOG2_DOWN size + 1) b a2
                    ltac:(lia) L Hg)
          as (Ht & B2 & T2 & U2).
        destruct (__account_alloc a2 b size None) as [|r a3] eqn:Hacc;
          [discriminate|].
        cbv beta iota delta [bind]. intros H. injection H as _ <-.
        apply (account_books a2 b size r a3); auto.
        * rewrite B2. exact B.
        * rewrite T2. exact Ht.
        * rewrite U2. exact Nu.
        * rewrite U2, T2. exact Hu.
      + pose proof (get_from_freelists_spec a (LOG2_DOWN size + 1) _ _
                      ltac:(lia) Hg) as Hz. cbv beta iota in Hz. subst a2.
        intros H. injection H as _ <-. exact B. }
  destruct (has_flag flags ARENA_NEXTFIT).
  { unfold __alloc_nextfit. apply xalloc_nextfit_books; auto. }
  unfold __alloc_instantfit.
  assert (Hup : 0 <= LOG2_UP size) by apply Z.log2_up_nonneg.
  destruct (__get_from_freelists a (LOG2_UP size)) as [[b|] a2] eqn:Hg.
  - destruct (get_from_freelists_books a _ b a2 Hup L Hg)
      as (Ht & B2 & T2 & U2).
    destruct (__account_alloc a2 b size None) as [|r a3] eqn:Hacc;
      [discriminate|].
    cbv beta iota delta [bind]. intros H. injection H as _ <-.
    apply (account_books a2 b size r a3); auto.
    + rewrite B2. exact B.
    + rewrite T2. exact Ht.
    + rewrite U2. exact Nu.
    + rewrite U2, T2. exact Hu.
  - pose proof (get_from_freelists_spec a _ _ _ Hup Hg) as Hz.
    cbv beta iota in Hz. subst a2.
    intros H. injection H as _ <-. exact B.
Qed.

(** [xalloc_from_arena] with two spare tags at hand keeps the books. *)
Lemma xalloc_from_arena_books a size align phase nocross minaddr maxaddr flags
    p a' :
  books_ok a = true -> lists_ok a = true -> NoDup (unused_btags a) ->
  __has_enough_btags a 2 = true ->
  xalloc_from_arena a size align phase nocross minaddr maxaddr flags
  = Ret p a' ->
  books_ok a' = true.
Proof.
  intros B L Nu E. unfold xalloc_from_arena, __get_enough_btags. rewrite E.
  cbv beta iota delta [bind]. cbn [negb].
  pose proof (fun u => lists_ok_unused a u L) as Hu.
  destruct (negb (minaddr =? 0) || negb (maxaddr =? 0)).
  { apply xalloc_min_max_books; auto. }
  destruct (has_flag flags ARENA_BESTFIT).
  { apply xalloc_from_freelists_books; auto. }
  destruct (has_flag flags ARENA_NEXTFIT).
  { apply xalloc_nextfit_books; auto. }
  apply xalloc_from_freelists_books; auto.
Qed.

(** * Lemmas: adding a segment keeps the books *)

(** A tag that is not in the tree is written and then inserted: the
    sums grow by what it holds. *)
Lemma fresh_insert_sums a s x u a' :
  ~ In x (all_segs a) -> all_segs s = all_segs a ->
  (forall y, y <> x -> bts s y = bts a y) ->
  __insert_btag s x = Ret u a' ->
  same_sums a a' (contrib s BTAG_FREE x) (contrib s BTAG_ALLOC x)
    (counted s BTAG_ALLOC x).
Proof.
  intros Hn Hs Hb Hi.
  assert (F : same_sums a s 0 0 0).
  { assert (E : forall y, In y (all_segs a) -> bts s y = bts a y).
    { intros y Hy. apply Hb. intros ->. exact (Hn Hy). }
    unfold same_sums. rewrite Hs, !Z.add_0_r.
    rewrite (zsum_ext (contrib a BTAG_FREE) (contrib s BTAG_FREE)),
      (zsum_ext (contrib a BTAG_ALLOC) (contrib s BTAG_ALLOC)),
      (zsum_ext (counted a BTAG_ALLOC) (counted s BTAG_ALLOC)); auto;
      intros y Hy; [apply counted_eq | apply contrib_eq | apply contrib_eq];
      exact (E y Hy). }
  exact (same_sums_trans _ _ _ _ _ _ _ _ _ F (sums_insert _ _ _ _ Hi)).
Qed.

(** What the insertion of a fresh tag leaves of the books. *)
Lemma fresh_insert_frame a s x u a' :
  NoDup (all_segs a) -> ~ In x (all_segs a) -> all_segs s = all_segs a ->
  (forall y, y <> x -> bts s y = bts a y) ->
  alloc_hash s = alloc_hash a -> unused_btags s = unused_btags a ->
  __insert_btag s x = Ret u a' ->
  NoDup (all_segs a')
  /\ (forall y, In y (all_segs a') <-> y = x \/ In y (all_segs a))
  /\ (forall y, y <> x -> bts a' y = bts a y)
  /\ bts a' x = bts s x
  /\ alloc_hash a' = alloc_hash a /\ unused_btags a' = unused_btags a
  /\ counters a' = counters s.
Proof.
  intros N Hn Hs Hb Hh Hu Hi.
  assert (Ns : NoDup (all_segs s)) by (rewrite Hs; exact N).
  assert (Hns : ~ In x (all_segs s)) by (rewrite Hs; exact Hn).
  destruct (insert_btag_tree _ _ _ _ Hi Ns Hns) as (N1 & I1).
  destruct (insert_btag_any _ _ _ _ Hi) as (B1 & H1 & U1).
  split; [exact N1|]. split.
  { intros y. rewrite (I1 y), Hs. reflexivity. }
  split. { intros y Hy. rewrite B1. exact (Hb y Hy). }
  split. { rewrite B1. reflexivity. }
  split; [congruence|]. split; [congruence|].
  exact (insert_btag_counters _ _ _ _ Hi).
Qed.

Lemma books_hash_kept a a' :
  (forall bt, In bt (alloc_hash a) ->
              In bt (all_segs a) /\ status_of a bt = BTAG_ALLOC) ->
  alloc_hash a' = alloc_hash a ->
  (forall y, In y (all_segs a) -> In y (all_segs a') /\ bts a' y = bts a y) ->
  forall bt, In bt (alloc_hash a') ->
             In bt (all_segs a') /\ status_of a' bt = BTAG_ALLOC.
Proof.
  intros Hh E K bt Hin. rewrite E in Hin. destruct (Hh bt Hin) as [I S].
  destruct (K bt I) as [I' B]. split; [exact I'|].
  unfold status_of. rewrite B. exact S.
Qed.

(** [__arena_add] with two spare tags at hand: the books stay in order
    and the total grows by the size added. *)
Lemma arena_add_books_gen a base size flags p a' :
  books_ok a = true -> NoDup (unused_btags a) ->
  (forall u, In u (unused_btags a) -> ~ In u (all_segs a)) ->
  __has_enough_btags a 2 = true ->
  __arena_add a base size flags = Ret p a' ->
  books_ok a' = true /\ p = base
  /\ amt_total_segs a' = wadd (amt_total_segs a) size.
Proof.
  intros B Nu Hu E. apply books_ok_spec in B. destruct B as (C & N & Hh & Nh).
  unfold __arena_add, __get_enough_btags. rewrite E.
  destruct (negb (assert_quantum_alignment a base size)); [discriminate|].
  destruct (negb (base <? wadd base size)); [discriminate|].
  cbv beta iota delta [bind]. cbn [negb]. unfold __get_btag.
  destruct (unused_btags a) as [|bt rest] eqn:Eu; [discriminate|].
  assert (Nu' : NoDup (bt :: rest)) by exact Nu.
  assert (Hu' : forall u, In u (bt :: rest) -> ~ In u (all_segs a)) by exact Hu.
  clear Nu Hu. apply NoDup_cons_iff in Nu'. destruct Nu' as [Hbr Nr].
  assert (Hbt : ~ In bt (all_segs a)) by (apply Hu'; left; reflexivity).
  (* the span tag of an arena with a source *)
  match goal with
  | |- match (if ?c then ?x else ?z) with _ => _ end = _ -> _ =>
      assert (St : forall a1, (if c then x else z) = Ret tt a1 ->
                same_sums a a1 0 0 0 /\ NoDup (all_segs a1)
                /\ ~ In bt (all_segs a1)
                /\ (forall t, In t (all_segs a) ->
                              In t (all_segs a1) /\ bts a1 t = bts a t)
                /\ alloc_hash a1 = alloc_hash a
                /\ counters a1 = counters a);
      [| destruct (if c then x else z) as [|[] a1]; [discriminate|];
         specialize (St a1 eq_refl) ]
  end.
  { intros a1. change (source (set_unused_btags rest a)) with (source a).
    destruct (source a).
    2:{ intros H. injection H as <-. split; [exact (same_sums_refl a)|].
        split; [exact N|]. split; [exact Hbt|].
        split; [intros t Ht; split; [exact Ht | reflexivity]|].
        split; reflexivity. }
    change (unused_btags (set_unused_btags rest a)) with rest.
    destruct rest as [|sp rest0]; [discriminate|].
    set (s := set_status sp BTAG_SPAN _). intros Hi.
    assert (Hsp : ~ In sp (all_segs a)).
    { apply Hu'. right. left. reflexivity. }
    assert (Ss : all_segs s = all_segs a).
    { unfold s. rewrite all_segs_set_status, all_segs_set_size,
        all_segs_set_start. reflexivity. }
    assert (Sb : forall y, y <> sp -> bts s y = bts a y).
    { intros y Hy. unfold s. rewrite bts_set_status_other,
        bts_set_size_other, bts_set_start_other; auto. }
    assert (Sh : alloc_hash s = alloc_hash a).
    { unfold s. rewrite alloc_hash_set_status, alloc_hash_set_size,
        alloc_hash_set_start. reflexivity. }
    assert (Su : unused_btags s = rest0).
    { unfold s. rewrite unused_btags_set_status, unused_btags_set_size,
        unused_btags_set_start. reflexivity. }
    assert (Sk : counters s = counters a) by reflexivity.
    assert (Sx : status_of s sp = BTAG_SPAN).
    { unfold s. rewrite status_of_set_status, Z.eqb_refl. reflexivity. }
    pose proof (fresh_insert_sums a s sp _ a1 Hsp Ss Sb Hi) as S1.
    destruct (contrib_span s sp Sx) as (c1 & c2 & c3).
    rewrite c1, c2, c3 in S1.
    assert (Ns : NoDup (all_segs s)) by (rewrite Ss; exact N).
    assert (Hns : ~ In sp (all_segs s)) by (rewrite Ss; exact Hsp).
    destruct (insert_btag_tree _ _ _ _ Hi Ns Hns) as (N1 & I1).
    destruct (insert_btag_any _ _ _ _ Hi) as (B1 & H1 & U1).
    split; [exact S1|]. split; [exact N1|]. split.
    { intros Hc. apply I1 in Hc. destruct Hc as [->|Hc].
      - apply Hbr. left. reflexivity.
      - rewrite Ss in Hc. exact (Hbt Hc). }
    split.
    { intros y Hy. split.
      - apply I1. right. rewrite Ss. exact Hy.
      - rewrite B1. apply Sb. intros ->. exact (Hsp Hy). }
    split; [congruence|].
    rewrite (insert_btag_counters _ _ _ _ Hi). exact Sk. }
  destruct St as (S1 & N1 & Hb1 & K1 & H1 & C1).
  set (s := __track_free_seg _ bt).
  destruct (__insert_btag s bt) as [|[] a2] eqn:Hi; [discriminate|].
  intros H. injection H as <- <-.
  assert (Ss : all_segs s = all_segs a1).
  { unfold s. rewrite all_segs_track_free. reflexivity. }
  assert (Sb : forall y, y <> bt -> bts s y = bts a1 y).
  { intros y Hy. unfold s. rewrite bts_track_free_other by exact Hy.
    change (bts (set_size bt size (set_start bt base a1)) y = bts a1 y).
    rewrite bts_set_size_other, bts_set_start_other; auto. }
  assert (Sh : alloc_hash s = alloc_hash a1).
  { unfold s. rewrite alloc_hash_track_free. reflexivity. }
  assert (Sx : status_of s bt = BTAG_FREE).
  { unfold s. rewrite status_of_track_free, Z.eqb_refl. reflexivity. }
  assert (Sz : size_of s bt = size).
  { unfold s. rewrite size_of_track_free.
    change (size_of (set_size bt size (set_start bt base a1)) bt = size).
    rewrite size_of_set_size, Z.eqb_refl. reflexivity. }
  assert (Sk : counters s
               = (wadd (amt_total_segs a1) size, amt_alloc_segs a1,
                  nr_allocs a1)) by reflexivity.
  pose proof (fresh_insert_sums a1 s bt _ a2 Hb1 Ss Sb Hi) as S2.
  destruct (contrib_free s bt Sx) as (c1 & c2 & c3).
  rewrite c1, c2, c3, Sz in S2.
  assert (Ns : NoDup (all_segs s)) by (rewrite Ss; exact N1).
  assert (Hns : ~ In bt (all_segs s)) by (rewrite Ss; exact Hb1).
  destruct (insert_btag_tree _ _ _ _ Hi Ns Hns) as (N2 & I2).
  destruct (insert_btag_any _ _ _ _ Hi) as (B2 & H2 & _).
  pose proof (insert_btag_counters _ _ _ _ Hi) as C2. rewrite Sk in C2.
  unfold counters in C1, C2. injection C1 as T1 A1 R1.
  injection C2 as T2 A2 R2.
  split; [|split; [reflexivity | rewrite T2, T1; reflexivity]].
  apply books_ok_spec. split.
  { apply (counters_from_sums a a2 _ _ _ C
             (same_sums_trans _ _ _ _ _ _ _ _ _ S1 S2)).
    - rewrite T2, T1. unfold wadd. f_equal; lia.
    - rewrite A2, A1. unfold wrap. symmetry. rewrite Z.add_0_r.
      apply asserter_counters_spec in C. destruct C as (_ & -> & _).
      apply Z.mod_mod. unfold WORD. lia.
    - rewrite R2, R1. unfold wrap. symmetry. rewrite Z.add_0_r.
      apply asserter_counters_spec in C. destruct C as (_ & _ & ->).
      apply Z.mod_mod. unfold WORD. lia. }
  split; [exact N2|]. split; [|rewrite H2, Sh, H1; exact Nh].
  apply (books_hash_kept a a2 Hh); [congruence|].
  intros y Hy. destruct (K1 y Hy) as [I B]. split.
  - apply I2. right. rewrite Ss. exact I.
  - rewrite B2, Sb; [exact B|]. intros ->. exact (Hb1 I).
Qed.

(** * Lemmas: the scan of best fit *)




(** * Lemmas: the loop of futex_wake *)

Lemma list_remove_middle e : forall done n,
  ~ In e done -> list_remove e (done ++ e :: n) = done ++ n.
Proof.
  induction done as [|x done IH]; intros n Hn; simpl.
  - rewrite Z.eqb_refl. reflexivity.
  - destruct (Z.eqb_spec e x) as [->|Hne].
    + exfalso. apply Hn. left. reflexivity.
    + destruct (Z.eqb_spec x e) as [E|_]; [congruence|].
      rewrite IH; [reflexivity|]. intros Hc. apply Hn. right. exact Hc.
Qed.

Lemma filter_none (p : Z -> bool) l :
  (forall x, In x l -> p x = false) -> filter p l = [].
Proof.
  induction l as [|x l IH]; intros H; simpl; [reflexivity|].
  rewrite (H x (or_introl eq_refl)). apply IH.
  intros y Hy. apply H. right. exact Hy.
Qed.

Lemma filter_all (p : Z -> bool) l :
  (forall x, In x l -> p x = true) -> filter p l = l.
Proof.
  induction l as [|x l IH]; intros H; simpl; [reflexivity|].
  rewrite (H x (or_introl eq_refl)). f_equal. apply IH.
  intros y Hy. apply H. right. exact Hy.
Qed.

(** The loop from the element that heads [todo], with the elements
    [done] before it all waiting on other addresses. *)
Lemma wake_loop_spec uaddr : forall todo done count f,
  Futex.queue f = done ++ todo ->
  (forall e, In e done -> Futex.waits_on f uaddr e = false) ->
  let f' := Futex.wake_loop todo uaddr count f in
  let ws := filter (Futex.waits_on f uaddr) todo in
  Futex.made_runnable f'
  = Futex.made_runnable f
    ++ map (Futex.e_pthread f) (firstn (Z.to_nat count) ws)
  /\ Futex.cache_freed f'
     = Futex.cache_freed f ++ firstn (Z.to_nat count) ws
  /\ Futex.waiters f' uaddr = skipn (Z.to_nat count) ws
  /\ Futex.others f' uaddr = Futex.others f uaddr
  /\ Futex.e_uaddr f' = Futex.e_uaddr f
  /\ Futex.e_pthread f' = Futex.e_pthread f
  /\ Futex.pth_state f' = Futex.pth_state f
  /\ Futex.ints f' = Futex.ints f
  /\ Futex.cache_objs f' = Futex.cache_objs f.
Proof.
  induction todo as [|e n IH]; intros done count f Hq Hd; cbv zeta.
  { cbn [Futex.wake_loop filter]. rewrite firstn_nil, skipn_nil, !app_nil_r.
    split; [reflexivity|]. split; [reflexivity|]. split; [|auto 10].
    unfold Futex.waiters. rewrite Hq, app_nil_r. apply filter_none. exact Hd. }
  cbn [Futex.wake_loop].
  destruct (Z.gtb_spec count 0) as [Hc|Hc].
  2:{ replace (Z.to_nat count) with O by lia.
      cbn [firstn skipn map]. rewrite !app_nil_r.
      split; [reflexivity|]. split; [reflexivity|]. split; [|auto 10].
      unfold Futex.waiters. rewrite Hq, filter_app, (filter_none _ done Hd).
      reflexivity. }
  cbn [filter].
  assert (Hw : Futex.waits_on f uaddr e = (Futex.e_uaddr f e =? uaddr))
    by reflexivity.
  destruct (Z.eqb_spec (Futex.e_uaddr f e) uaddr) as [He|He]; rewrite !Hw.
  - set (f1 := Futex.element_free e _).
    assert (Hin : ~ In e done).
    { intros Hc'. specialize (Hd e Hc'). unfold Futex.waits_on in Hd.
      apply Z.eqb_neq in Hd. contradiction. }
    assert (Hq1 : Futex.queue f1 = done ++ n).
    { change (Futex.queue f1) with (list_remove e (Futex.queue f)).
      rewrite Hq. apply list_remove_middle. exact Hin. }
    specialize (IH done (count - 1) f1 Hq1 Hd). cbv zeta in IH.
    change (Futex.waits_on f1 uaddr) with (Futex.waits_on f uaddr) in IH.
    destruct IH as (R & F & W & O & I1 & I2 & I3 & I4 & I5).
    replace (Z.to_nat count) with (S (Z.to_nat (count - 1))) by lia.
    cbn [firstn skipn map]. split.
    { rewrite R. change (Futex.made_runnable f1)
        with (Futex.made_runnable f ++ [Futex.e_pthread f e]).
      change (Futex.e_pthread f1) with (Futex.e_pthread f).
      rewrite <- app_assoc. reflexivity. }
    split.
    { rewrite F. change (Futex.cache_freed f1)
        with (Futex.cache_freed f ++ [e]).
      rewrite <- app_assoc. reflexivity. }
    split; [exact W|]. split.
    { rewrite O. unfold Futex.others.
      change (Futex.waits_on f1 uaddr) with (Futex.waits_on f uaddr).
      rewrite Hq1, Hq, !filter_app. cbn [filter]. rewrite Hw.
      reflexivity. }
    auto 10.
  - assert (Hd' : forall x, In x (done ++ [e]) ->
                            Futex.waits_on f uaddr x = false).
    { intros x Hx. apply in_app_or in Hx. destruct Hx as [Hx|[<-|[]]].
      - exact (Hd x Hx).
      - unfold Futex.waits_on. apply Z.eqb_neq. exact He. }
    assert (Hq' : Futex.queue f = (done ++ [e]) ++ n).
    { rewrite Hq, <- app_assoc. reflexivity. }
    exact (IH (done ++ [e]) count f Hq' Hd').
Qed.

(** [futex_wake] as a whole: who is woken, what is freed, who stays. *)
Lemma futex_wake_spec f uaddr count :
  let f' := snd (Futex.futex_wake f uaddr count) in
  Futex.made_runnable f'
  = Futex.made_runnable f
    ++ map (Futex.e_pthread f)
         (firstn (Z.to_nat count) (Futex.waiters f uaddr))
  /\ Futex.cache_freed f'
     = Futex.cache_freed f ++ firstn (Z.to_nat count) (Futex.waiters f uaddr)
  /\ Futex.waiters f' uaddr
     = skipn (Z.to_nat count) (Futex.waiters f uaddr)
  /\ Futex.others f' uaddr = Futex.others f uaddr.
Proof.
  cbv zeta. unfold Futex.futex_wake. cbn [snd].
  destruct (wake_loop_spec uaddr (Futex.queue f) [] count f eq_refl
              ltac:(intros e [])) as (R & F & W & O & _).
  auto.
Qed.

(** * Lemmas: the free list of a small slab *)

(** The loop of [kmem_cache_grow] links each object to the next and
    writes nothing else. *)
Lemma thread_small_spec step : forall n buf c,
  0 < step -> 0 <= buf -> 0 <= Slab.obj_size c ->
  buf + Z.of_nat n * step + Slab.obj_size c < WORD ->
  let r := Slab.thread_small n buf step c in
  fst r = buf + Z.of_nat n * step
  /\ (forall i, (i < n)%nat ->
        Slab.words (snd r) (buf + Z.of_nat i * step + Slab.obj_size c)
        = buf + Z.of_nat (S i) * step)
  /\ (forall p, p < buf + Slab.obj_size c ->
                Slab.words (snd r) p = Slab.words c p)
  /\ Slab.obj_size (snd r) = Slab.obj_size c
  /\ Slab.slabs (snd r) = Slab.slabs c
  /\ Slab.full_slab_list (snd r) = Slab.full_slab_list c
  /\ Slab.partial_slab_list (snd r) = Slab.partial_slab_list c
  /\ Slab.empty_slab_list (snd r) = Slab.empty_slab_list c
  /\ Slab.nr_cur_alloc (snd r) = Slab.nr_cur_alloc c
  /\ Slab.kpages (snd r) = Slab.kpages c.
Proof.
  induction n as [|n IH]; intros buf c Hs Hb Ho Hw; cbv zeta.
  { cbn [Slab.thread_small fst snd]. split; [cbn; lia|].
    split; [intros i Hi; lia|]. auto 10. }
  cbn [Slab.thread_small].
  set (c1 := Slab.set_word _ _ c).
  assert (E1 : wadd buf (Slab.obj_size c) = buf + Slab.obj_size c).
  { apply wadd_small. nia. }
  assert (E2 : wadd buf step = buf + step).
  { apply wadd_small. nia. }
  assert (W1 : forall p, Slab.words c1 p
                         = if p =? buf + Slab.obj_size c then buf + step
                           else Slab.words c p).
  { intros p. unfold c1. cbn [Slab.words Slab.set_word]. unfold fupd.
    rewrite E1, E2. reflexivity. }
  rewrite E2.
  assert (Hw' : buf + step + Z.of_nat n * step + Slab.obj_size c1 < WORD).
  { change (Slab.obj_size c1) with (Slab.obj_size c). nia. }
  specialize (IH (buf + step) c1 Hs ltac:(lia) Ho Hw'). cbv zeta in IH.
  destruct IH as (F & Wi & Wl & I1 & I2 & I3 & I4 & I5 & I6 & I7).
  change (Slab.obj_size c1) with (Slab.obj_size c) in Wi, Wl.
  split; [rewrite F; nia|]. split.
  { intros i Hi. destruct i as [|i].
    - rewrite Wl by nia. rewrite W1.
      replace (buf + Z.of_nat 0 * step + Slab.obj_size c)
        with (buf + Slab.obj_size c) by lia.
      rewrite Z.eqb_refl. nia.
    - replace (buf + Z.of_nat (S i) * step + Slab.obj_size c)
        with (buf + step + Z.of_nat i * step + Slab.obj_size c) by nia.
      rewrite (Wi i) by lia. nia. }
  split.
  { intros p Hp. rewrite Wl by nia. rewrite W1.
    destruct (Z.eqb_spec p (buf + Slab.obj_size c)); [lia | reflexivity]. }
  auto 10.
Qed.

(** The sizes of a small slab: the objects, with their link words, end
    below the slab header. *)
Lemma small_slab_sizes sizeof c :
  0 <= Slab.obj_size c <= PGSIZE -> 0 < Slab.align c <= PGSIZE ->
  0 <= sizeof <= PGSIZE ->
  let osz := ROUNDUP (wadd (Slab.obj_size c) Slab.PTR_SZ) (Slab.align c) in
  let total := wsub PGSIZE sizeof / osz in
  Slab.obj_size c + Slab.PTR_SZ <= osz
  /\ 0 <= total /\ total * osz <= PGSIZE - sizeof.
Proof.
  intros Ho Ha Hs osz total. unfold PGSIZE, Slab.PTR_SZ in *.
  assert (E : wadd (Slab.obj_size c) 8 = Slab.obj_size c + 8).
  { apply wadd_small. unfold WORD. lia. }
  assert (R : Slab.obj_size c + 8 <= osz < Slab.obj_size c + 8 + Slab.align c).
  { unfold osz. unfold Slab.PTR_SZ. rewrite E. apply ROUNDUP_nowrap; try lia.
    unfold WORD. lia. }
  assert (W : wsub 4096 sizeof = 4096 - sizeof).
  { apply wsub_small. unfold WORD. lia. }
  split; [lia|]. unfold total. unfold PGSIZE. rewrite W.
  split.
  - apply Z.div_pos; lia.
  - rewrite Z.mul_comm. apply Z.mul_div_le. lia.
Qed.

(** [kmem_cache_grow] in the small layout: the new slab, at the end of
    the page, heads the empty list with its free list threaded. *)
Lemma grow_small_spec sizeof cutoff nbuf c page rest :
  Slab.obj_size c <= cutoff ->
  Slab.kpages c = page :: rest -> 0 < page -> page + PGSIZE < WORD ->
  0 <= Slab.obj_size c <= PGSIZE -> 0 < Slab.align c <= PGSIZE ->
  0 <= sizeof <= PGSIZE ->
  let osz := ROUNDUP (wadd (Slab.obj_size c) Slab.PTR_SZ) (Slab.align c) in
  let total := wsub PGSIZE sizeof / osz in
  0 < total ->
  exists c1,
    Slab.kmem_cache_grow sizeof cutoff nbuf c = (true, c1)
    /\ slab_threaded c1 (page + PGSIZE - sizeof) page osz total 0
    /\ Slab.empty_slab_list c1
       = (page + PGSIZE - sizeof) :: Slab.empty_slab_list c
    /\ Slab.partial_slab_list c1 = Slab.partial_slab_list c
    /\ Slab.full_slab_list c1 = Slab.full_slab_list c
    /\ Slab.obj_size c1 = Slab.obj_size c
    /\ Slab.nr_cur_alloc c1 = Slab.nr_cur_alloc c
    /\ Slab.kpages c1 = rest.
Proof.
  intros Hc Hk Hp Hw Ho Ha Hs osz total Ht.
  destruct (small_slab_sizes sizeof c Ho Ha Hs) as (Z1 & Z2 & Z3).
  fold osz in Z1, Z3. fold total in Z2, Z3.
  assert (Hosz : 0 < osz) by (unfold Slab.PTR_SZ in Z1; lia).
  unfold Slab.kmem_cache_grow.
  destruct (Z.leb_spec (Slab.obj_size c) cutoff) as [_|]; [|lia].
  rewrite Hk. cbn [hd tl].
  destruct (Z.eqb_spec page 0) as [|_]; [lia|].
  change (Slab.obj_size (Slab.set_kpages rest c)) with (Slab.obj_size c).
  change (Slab.align (Slab.set_kpages rest c)) with (Slab.align c).
  fold osz. fold total.
  assert (Es : wsub (wadd page PGSIZE) sizeof = page + PGSIZE - sizeof).
  { rewrite wadd_small by (unfold PGSIZE in *; lia).
    apply wsub_small. unfold PGSIZE in *. lia. }
  rewrite Es. set (s := page + PGSIZE - sizeof).
  set (c0 := Slab.set_slab s _ (Slab.set_kpages rest c)).
  assert (Hn : Z.of_nat (Z.to_nat (total - 1)) = total - 1) by lia.
  assert (Hfit : page + Z.of_nat (Z.to_nat (total - 1)) * osz
                 + Slab.obj_size c0 < WORD).
  { change (Slab.obj_size c0) with (Slab.obj_size c). rewrite Hn.
    unfold Slab.PTR_SZ, PGSIZE in *. nia. }
  pose proof (thread_small_spec osz (Z.to_nat (total - 1)) page c0 Hosz
                ltac:(lia) (proj1 Ho) Hfit) as T.
  cbv zeta in T.
  destruct (Slab.thread_small (Z.to_nat (total - 1)) page osz c0)
    as [buf c1] eqn:Hth.
  cbn [fst snd] in T.
  destruct T as (F & Wi & _ & I1 & I2 & I3 & I4 & I5 & I6 & I7).
  change (Slab.obj_size c0) with (Slab.obj_size c) in Wi, I1.
  rewrite Hn in F.
  assert (Eb : wadd buf (Slab.obj_size c) = buf + Slab.obj_size c).
  { apply wadd_small. rewrite F.
    unfold Slab.PTR_SZ, PGSIZE in *. nia. }
  eexists. split; [reflexivity|].
  cbn [Slab.empty_slab_list Slab.set_empty Slab.set_word
         Slab.partial_slab_list Slab.full_slab_list Slab.obj_size
         Slab.nr_cur_alloc Slab.kpages Slab.slabs Slab.words].
  unfold slab_threaded.
  cbn [Slab.slabs Slab.words Slab.set_empty Slab.set_word Slab.obj_size].
  rewrite I1, I2, I3, I4, I5, I6, I7.
  split; [|auto 10]. split.
  - unfold c0. cbn [Slab.slabs Slab.set_slab]. unfold fupd.
    rewrite Z.eqb_refl. destruct (Z.ltb_spec (Z.of_nat 0) total); [|lia].
    f_equal. cbn. lia.
  - intros i _ Hi. rewrite Eb. unfold fupd.
    destruct (Z.ltb_spec (Z.of_nat (S i)) total) as [Hl|Hl].
    + destruct (Z.eqb_spec (page + Z.of_nat i * osz + Slab.obj_size c)
                  (buf + Slab.obj_size c)) as [E|_]; [nia|].
      apply Wi. lia.
    + assert (Z.of_nat i = total - 1) by lia.
      destruct (Z.eqb_spec (page + Z.of_nat i * osz + Slab.obj_size c)
                  (buf + Slab.obj_size c)) as [_|E]; [reflexivity|].
      exfalso. apply E. rewrite F. nia.
Qed.

Ltac slab_cbn :=
  cbn -[wadd wsub Z.add Z.mul Z.of_nat Z.ltb Z.eqb Z.leb fupd list_remove
        ROUNDUP ROUNDDOWN PGSIZE].

Ltac slab_cbn_in H :=
  cbn -[wadd wsub Z.add Z.mul Z.of_nat Z.ltb Z.eqb Z.leb fupd list_remove
        ROUNDUP ROUNDDOWN PGSIZE] in H.

(** [kmem_cache_alloc] from the slab that heads the partial list, in
    the small layout: the next object of the free list. *)
Lemma alloc_partial_head sizeof cutoff nbuf c s pr page osz total busy :
  Slab.obj_size c <= cutoff ->
  Slab.partial_slab_list c = s :: pr ->
  slab_threaded c s page osz total busy ->
  Z.of_nat busy < total ->
  0 <= page -> 0 <= Slab.obj_size c <= osz -> 0 < osz ->
  page + total * osz < WORD ->
  exists c',
    Slab.kmem_cache_alloc sizeof cutoff nbuf c 0
    = Some (page + Z.of_nat busy * osz, c')
    /\ slab_threaded c' s page osz total (S busy)
    /\ Slab.partial_slab_list c'
       = (if Z.of_nat (S busy) <? total then s :: pr else pr)
    /\ Slab.full_slab_list c'
       = (if Z.of_nat (S busy) <? total then Slab.full_slab_list c
          else s :: Slab.full_slab_list c)
    /\ Slab.empty_slab_list c' = Slab.empty_slab_list c
    /\ Slab.obj_size c' = Slab.obj_size c
    /\ Slab.nr_cur_alloc c' = wadd (Slab.nr_cur_alloc c) 1
    /\ Slab.kpages c' = Slab.kpages c.
Proof.
  intros Hc Hp (Hs & Hw) Hb Hpg Ho Hosz Hfit.
  assert (Htot : total <= total * osz) by nia.
  destruct c as [osize al fl pl el nr sl bc wd kp so].
  cbn [Slab.obj_size Slab.partial_slab_list Slab.slabs Slab.words] in *.
  subst pl.
  unfold Slab.kmem_cache_alloc, Slab.set_free_small_obj, Slab.set_busy.
  slab_cbn.
  destruct (Z.leb_spec osize cutoff) as [_|]; [|lia].
  rewrite Hs. slab_cbn.
  repeat (rewrite fupd_same; slab_cbn).
  destruct (Z.ltb_spec (Z.of_nat busy) total) as [_|]; [|lia].
  assert (Eo : wadd (page + Z.of_nat busy * osz) osize
               = page + Z.of_nat busy * osz + osize).
  { apply wadd_small. nia. }
  rewrite Eo, (Hw busy (le_n _) Hb).
  assert (Eb : wadd (Z.of_nat busy) 1 = Z.of_nat (S busy)).
  { rewrite wadd_small; lia. }
  rewrite Eb.
  destruct (Z.eqb_spec (Z.of_nat (S busy)) total) as [Et|Et];
    (eexists; split; [reflexivity|]); unfold slab_threaded; slab_cbn;
    rewrite ?fupd_same; rewrite ?Z.eqb_refl;
    destruct (Z.ltb_spec (Z.of_nat (S busy)) total) as [Hl|Hl]; try lia.
  - cbn [list_remove]. rewrite Z.eqb_refl.
    split; [|auto 10]. split; [reflexivity|]. intros i Hi Hit. lia.
  - split; [|auto 10]. split; [reflexivity|]. intros i Hi Hit.
    apply Hw; lia.
Qed.

(** [kmem_cache_alloc] with no partial slab and no empty one: the cache
    grows, and the new slab is the one allocated from. *)
Lemma alloc_after_grow sizeof cutoff nbuf c c1 s er :
  Slab.partial_slab_list c = [] -> Slab.empty_slab_list c = [] ->
  Slab.kmem_cache_grow sizeof cutoff nbuf c = (true, c1) ->
  Slab.partial_slab_list c1 = [] -> Slab.empty_slab_list c1 = s :: er ->
  Slab.kmem_cache_alloc sizeof cutoff nbuf c 0
  = Slab.kmem_cache_alloc sizeof cutoff nbuf
      (Slab.set_partial [s] (Slab.set_empty er c1)) 0.
Proof.
  intros Hp He Hg Hp1 He1. unfold Slab.kmem_cache_alloc at 1.
  rewrite Hp, He, Hg. cbv beta iota. cbn [negb]. rewrite !He1. cbn [hd].
  rewrite !list_remove_head.
  change (Slab.partial_slab_list (Slab.set_empty er c1))
    with (Slab.partial_slab_list c1).
  rewrite Hp1. unfold Slab.kmem_cache_alloc.
  change (Slab.partial_slab_list (Slab.set_partial [s] (Slab.set_empty er c1)))
    with [s].
  reflexivity.
Qed.

(** [kmem_cache_alloc] with no partial slab: the first empty slab
    becomes the partial one. *)
Lemma alloc_from_empty sizeof cutoff nbuf c s er :
  Slab.partial_slab_list c = [] -> Slab.empty_slab_list c = s :: er ->
  Slab.kmem_cache_alloc sizeof cutoff nbuf c 0
  = Slab.kmem_cache_alloc sizeof cutoff nbuf
      (Slab.set_partial [s] (Slab.set_empty er c)) 0.
Proof.
  intros Hp He. unfold Slab.kmem_cache_alloc at 1.
  rewrite Hp, He. cbv beta iota. cbn [negb]. rewrite !He. cbn [hd].
  rewrite !list_remove_head.
  change (Slab.partial_slab_list (Slab.set_empty er c))
    with (Slab.partial_slab_list c).
  rewrite Hp. unfold Slab.kmem_cache_alloc.
  change (Slab.partial_slab_list (Slab.set_partial [s] (Slab.set_empty er c)))
    with [s].
  reflexivity.
Qed.

Lemma alloc_n_step sizeof cutoff nbuf k c :
  Slab.alloc_n sizeof cutoff nbuf (S k) c
  = match Slab.alloc_n sizeof cutoff nbuf k c with
    | None => None
    | Some (objs, c1) =>
        match Slab.kmem_cache_alloc sizeof cutoff nbuf c1 0 with
        | None => None
        | Some (o, c2) => Some (o :: objs, c2)
        end
    end.
Proof. reflexivity. Qed.

(** The first allocation of a run, taken apart from the others. *)
Lemma alloc_n_first sizeof cutoff nbuf c o0 c1 :
  Slab.kmem_cache_alloc sizeof cutoff nbuf c 0 = Some (o0, c1) ->
  forall k,
    Slab.alloc_n sizeof cutoff nbuf (S k) c
    = match Slab.alloc_n sizeof cutoff nbuf k c1 with
      | None => None
      | Some (objs, c') => Some (objs ++ [o0], c')
      end.
Proof.
  intros H. induction k as [|k IH].
  - rewrite alloc_n_step. cbn [Slab.alloc_n]. rewrite H. reflexivity.
  - rewrite alloc_n_step, IH, (alloc_n_step _ _ _ k c1).
    destruct (Slab.alloc_n sizeof cutoff nbuf k c1) as [[objs c']|];
      [|reflexivity].
    destruct (Slab.kmem_cache_alloc sizeof cutoff nbuf c' 0) as [[o c2]|];
      reflexivity.
Qed.

Lemma iter_wadd_one k n :
  Nat.iter (S k) (fun x => wadd x 1) n = wrap (n + Z.of_nat (S k)).
Proof.
  induction k as [|k IH].
  - reflexivity.
  - change (Nat.iter (S (S k)) (fun x => wadd x 1) n)
      with (wadd (Nat.iter (S k) (fun x => wadd x 1) n) 1).
    rewrite IH. unfold wadd. rewrite wrap_add_l. f_equal. lia.
Qed.

(** Allocations in a row from the slab that heads the partial list. *)
Lemma alloc_n_threaded sizeof cutoff nbuf s pr page osz total : forall k c busy,
  Slab.obj_size c <= cutoff ->
  Slab.partial_slab_list c = s :: pr ->
  slab_threaded c s page osz total busy ->
  Z.of_nat (busy + k) <= total -> Z.of_nat busy < total ->
  0 <= page -> 0 <= Slab.obj_size c <= osz -> 0 < osz ->
  page + total * osz < WORD ->
  exists c',
    Slab.alloc_n sizeof cutoff nbuf k c
    = Some (rev (map (fun i => page + Z.of_nat i * osz) (seq busy k)), c')
    /\ slab_threaded c' s page osz total (busy + k)
    /\ Slab.partial_slab_list c'
       = (if Z.of_nat (busy + k) <? total then s :: pr else pr)
    /\ Slab.full_slab_list c'
       = (if Z.of_nat (busy + k) <? total then Slab.full_slab_list c
          else s :: Slab.full_slab_list c)
    /\ Slab.empty_slab_list c' = Slab.empty_slab_list c
    /\ Slab.obj_size c' = Slab.obj_size c
    /\ Slab.nr_cur_alloc c'
       = Nat.iter k (fun x => wadd x 1) (Slab.nr_cur_alloc c)
    /\ Slab.kpages c' = Slab.kpages c.
Proof.
  induction k as [|k IH]; intros c busy Hc Hp Ht Hk Hb Hpg Ho Hosz Hfit.
  { exists c. rewrite Nat.add_0_r. cbn [Slab.alloc_n seq map rev Nat.iter].
    destruct (Z.ltb_spec (Z.of_nat busy) total); [|lia]. auto 10. }
  destruct (IH c busy Hc Hp Ht ltac:(lia) Hb Hpg Ho Hosz Hfit)
    as (c1 & E1 & T1 & P1 & F1 & M1 & O1 & N1 & K1).
  destruct (Z.ltb_spec (Z.of_nat (busy + k)) total) as [Hl|]; [|lia].
  destruct (alloc_partial_head sizeof cutoff nbuf c1 s pr page osz total
              (busy + k) ltac:(lia) P1 T1 Hl Hpg ltac:(lia) Hosz Hfit)
    as (c2 & E2 & T2 & P2 & F2 & M2 & O2 & N2 & K2).
  exists c2. rewrite alloc_n_step, E1, E2.
  replace (busy + S k)%nat with (S (busy + k)) by lia.
  split.
  { rewrite seq_S, map_app, rev_app_distr. reflexivity. }
  split; [exact T2|]. split; [exact P2|]. split.
  { rewrite F2, F1. reflexivity. }
  split; [congruence|]. split; [congruence|]. split; [|congruence].
  rewrite N2, N1. reflexivity.
Qed.

(** The slab of an object of a small slab is found from the object's
    page. *)
Lemma slab_of_object sizeof page off :
  0 <= page -> page mod PGSIZE = 0 -> page + PGSIZE < WORD ->
  0 <= sizeof <= PGSIZE -> 0 <= off < PGSIZE ->
  wsub (wadd (ROUNDDOWN (page + off) PGSIZE) PGSIZE) sizeof
  = page + PGSIZE - sizeof.
Proof.
  intros Hp Ha Hw Hs Ho.
  assert (E : ROUNDDOWN (page + off) PGSIZE = page).
  { unfold ROUNDDOWN. rewrite Z.add_mod by (unfold PGSIZE; lia).
    rewrite Ha, Z.add_0_l, Z.mod_mod by (unfold PGSIZE; lia).
    rewrite (Z.mod_small off) by lia. lia. }
  rewrite E, wadd_small by (unfold PGSIZE in *; lia).
  apply wsub_small. unfold PGSIZE in *. lia.
Qed.

(** [kmem_cache_free] of the object handed out last by a small slab:
    the object heads the free list again. *)
Lemma free_threaded sizeof cutoff c s page osz total busy :
  Slab.obj_size c <= cutoff ->
  slab_threaded c s page osz total (S busy) ->
  Z.of_nat (S busy) <= total ->
  s = page + PGSIZE - sizeof ->
  0 <= page -> page mod PGSIZE = 0 -> page + PGSIZE < WORD ->
  0 <= sizeof <= PGSIZE ->
  0 <= Slab.obj_size c <= osz -> 0 < osz ->
  total * osz <= PGSIZE - sizeof ->
  let c2 := Slab.kmem_cache_free sizeof cutoff c (page + Z.of_nat busy * osz) in
  slab_threaded c2 s page osz total busy
  /\ Slab.full_slab_list c2
     = (if Z.of_nat (S busy) =? total
        then list_remove s (Slab.full_slab_list c)
        else Slab.full_slab_list c)
  /\ Slab.partial_slab_list c2
     = (if Z.of_nat (S busy) =? total then s :: Slab.partial_slab_list c
        else if Z.of_nat busy =? 0
             then list_remove s (Slab.partial_slab_list c)
             else Slab.partial_slab_list c)
  /\ Slab.empty_slab_list c2
     = (if Z.of_nat (S busy) =? total then Slab.empty_slab_list c
        else if Z.of_nat busy =? 0 then s :: Slab.empty_slab_list c
             else Slab.empty_slab_list c)
  /\ Slab.nr_cur_alloc c2 = wsub (Slab.nr_cur_alloc c) 1
  /\ Slab.obj_size c2 = Slab.obj_size c
  /\ Slab.kpages c2 = Slab.kpages c
  /\ (forall x, x <> s -> Slab.slabs c2 x = Slab.slabs c x)
  /\ (forall p, p <> page + Z.of_nat busy * osz + Slab.obj_size c ->
                Slab.words c2 p = Slab.words c p).
Proof.
  intros Hc (Hs & Hw) Hb Es Hpg Hal Hfit Hsz Ho Hosz Htot.
  assert (Hoff : 0 <= Z.of_nat busy * osz < PGSIZE) by nia.
  pose proof (slab_of_object sizeof page _ Hpg Hal Hfit Hsz Hoff) as Eslab.
  rewrite <- Es in Eslab.
  destruct c as [osize al fl pl el nr sl bc wd kp so].
  cbn [Slab.obj_size Slab.partial_slab_list Slab.slabs Slab.words
         Slab.full_slab_list Slab.empty_slab_list Slab.nr_cur_alloc
         Slab.kpages] in *.
  unfold Slab.kmem_cache_free, Slab.set_free_small_obj, Slab.set_busy.
  slab_cbn.
  destruct (Z.leb_spec osize cutoff) as [_|]; [|lia].
  rewrite Eslab. slab_cbn.
  repeat (rewrite fupd_same; slab_cbn).
  rewrite Hs. slab_cbn.
  assert (Eo : wadd (page + Z.of_nat busy * osz) osize
               = page + Z.of_nat busy * osz + osize).
  { apply wadd_small. unfold PGSIZE in *. nia. }
  assert (Eb : wsub (Z.of_nat (S busy)) 1 = Z.of_nat busy).
  { rewrite wsub_small; [lia|]. unfold PGSIZE in *. nia. }
  assert (Eb1 : wadd (Z.of_nat busy) 1 = Z.of_nat (S busy)).
  { rewrite wadd_small; [lia|]. unfold PGSIZE in *. nia. }
  rewrite Eo, Eb, Eb1.
  assert (Hth : forall wd',
             wd' = fupd wd (page + Z.of_nat busy * osz + osize)
                     (if Z.of_nat (S busy) <? total
                      then page + Z.of_nat (S busy) * osz else 0) ->
             forall i, (busy <= i)%nat -> Z.of_nat i < total ->
               wd' (page + Z.of_nat i * osz + osize)
               = if Z.of_nat (S i) <? total
                 then page + Z.of_nat (S i) * osz else 0).
  { intros wd' -> i Hi Hit. unfold fupd.
    destruct (Z.eqb_spec (page + Z.of_nat i * osz + osize)
                (page + Z.of_nat busy * osz + osize)) as [E|E].
    - assert (i = busy) by nia. subst i. reflexivity.
    - apply Hw; [|exact Hit]. assert (i <> busy) by (intros ->; lia). lia. }
  assert (Hfr : forall x, x <> s ->
             fupd (fupd sl s
                     (Slab.mk_slab osz (Z.of_nat (S busy)) total
                        (page + Z.of_nat busy * osz) []))
               s (Slab.mk_slab osz (Z.of_nat busy) total
                    (page + Z.of_nat busy * osz) []) x = sl x).
  { intros x Hx. rewrite !fupd_other by exact Hx. reflexivity. }
  assert (Hwo : forall p, p <> page + Z.of_nat busy * osz + osize ->
             fupd wd (page + Z.of_nat busy * osz + osize)
               (if Z.of_nat (S busy) <? total
                then page + Z.of_nat (S busy) * osz else 0) p = wd p).
  { intros p Hp. apply fupd_other. exact Hp. }
  unfold slab_threaded.
  destruct (Z.ltb_spec (Z.of_nat busy) total) as [_|]; [|lia].
  destruct (Z.eqb_spec (Z.of_nat (S busy)) total) as [Et|Et];
    [|destruct (Z.eqb_spec (Z.of_nat busy) 0) as [E0|E0]];
    slab_cbn; rewrite ?fupd_same;
    (split; [split; [reflexivity | exact (Hth _ eq_refl)]|]);
    auto 10.
Qed.

Lemma list_eqb_eq : forall l1 l2 : list Z,
  forallb (fun p => fst p =? snd p) (combine l1 l2) = true ->
  (length l1 =? length l2)%nat = true -> l1 = l2.
Proof.
  induction l1 as [|x l1 IH]; intros [|y l2]; simpl; try discriminate.
  - reflexivity.
  - intros H L. apply andb_true_iff in H. destruct H as [E H].
    apply Z.eqb_eq in E. subst y. f_equal. exact (IH l2 H L).
Qed.

Lemma slab_eqb_eq x y : slab_eqb x y = true -> x = y.
Proof.
  unfold slab_eqb. intros H.
  repeat (apply andb_true_iff in H; destruct H as [H ?]).
  destruct x, y. cbn [Slab.slab_obj_size Slab.num_busy_obj Slab.num_total_obj
                        Slab.free_small_obj Slab.bufctl_freelist] in *.
  repeat match goal with
         | E : (_ =? _) = true |- _ => apply Z.eqb_eq in E
         end.
  subst. f_equal. apply list_eqb_eq; assumption.
Qed.

Lemma slab_threadedb_spec c s page osz total busy :
  slab_threadedb c s page osz total busy = true ->
  slab_threaded c s page osz total busy.
Proof.
  unfold slab_threadedb, slab_threaded. intros H.
  apply andb_true_iff in H. destruct H as [E F].
  split; [exact (slab_eqb_eq _ _ E)|].
  intros i Hi Hit. rewrite forallb_forall in F.
  apply Z.eqb_eq. apply F. apply in_seq. lia.
Qed.

(** What [kmem_cache_alloc] from the head of the partial list leaves
    alone: the other slabs and every word. *)
Lemma alloc_partial_frame sizeof cutoff nbuf c s pr o c' :
  Slab.obj_size c <= cutoff ->
  Slab.partial_slab_list c = s :: pr ->
  Slab.kmem_cache_alloc sizeof cutoff nbuf c 0 = Some (o, c') ->
  (forall x, x <> s -> Slab.slabs c' x = Slab.slabs c x)
  /\ (forall p, Slab.words c' p = Slab.words c p).
Proof.
  intros Hc Hp.
  destruct c as [osize al fl pl el nr sl bc wd kp so].
  cbn [Slab.obj_size Slab.partial_slab_list] in *. subst pl.
  unfold Slab.kmem_cache_alloc, Slab.set_free_small_obj, Slab.set_busy.
  slab_cbn.
  destruct (Z.leb_spec osize cutoff) as [_|]; [|lia].
  slab_cbn.
  match goal with
  | |- context [if ?b then _ else _] => destruct b
  end; slab_cbn; intros H; injection H as _ <-; slab_cbn;
    (split; [intros x Hx; rewrite !fupd_other by exact Hx; reflexivity
            | reflexivity]).
Qed.

(** * Lemmas: a large slab *)

(** [kmem_cache_alloc] from the slab that heads the partial list, in
    the large layout, and [kmem_cache_free] of the object returned. *)
Lemma large_round_trip sizeof cutoff nbuf c s pr osz total busy fso b bl buf :
  cutoff < Slab.obj_size c ->
  Slab.partial_slab_list c = s :: pr ->
  Slab.slabs c s = Slab.mk_slab osz busy total fso (b :: bl) ->
  Slab.bufctls c b = Slab.mk_bufctl buf s ->
  Slab.words c (wadd buf (Slab.obj_size c)) = b ->
  0 <= busy < total -> total < WORD ->
  0 <= Slab.nr_cur_alloc c < WORD ->
  exists c1,
    Slab.kmem_cache_alloc sizeof cutoff nbuf c 0 = Some (buf, c1)
    /\ let c2 := Slab.kmem_cache_free sizeof cutoff c1 buf in
       Slab.full_slab_list c2 = Slab.full_slab_list c
       /\ Slab.partial_slab_list c2
          = (if busy + 1 =? total then s :: pr
             else if busy =? 0 then pr else s :: pr)
       /\ Slab.empty_slab_list c2
          = (if busy + 1 =? total then Slab.empty_slab_list c
             else if busy =? 0 then s :: Slab.empty_slab_list c
                  else Slab.empty_slab_list c)
       /\ Slab.nr_cur_alloc c2 = Slab.nr_cur_alloc c
       /\ Slab.obj_size c2 = Slab.obj_size c
       /\ Slab.kpages c2 = Slab.kpages c
       /\ (forall x, Slab.slabs c2 x = Slab.slabs c x)
       /\ (forall p, Slab.words c2 p = Slab.words c p)
       /\ (forall x, Slab.bufctls c2 x = Slab.bufctls c x).
Proof.
  intros Hc Hp Hs Hb Hw Hbusy Ht Hnr.
  destruct c as [osize al fl pl el nr sl bc wd kp so].
  cbn [Slab.obj_size Slab.partial_slab_list Slab.slabs Slab.words
         Slab.bufctls Slab.nr_cur_alloc Slab.full_slab_list
         Slab.empty_slab_list Slab.kpages] in *.
  subst pl.
  assert (Eb : wadd busy 1 = busy + 1) by (apply wadd_small; lia).
  assert (Eb' : wsub (busy + 1) 1 = busy) by (rewrite wsub_small; lia).
  assert (En : wsub (wadd nr 1) 1 = nr).
  { unfold wsub, wadd. rewrite wrap_sub_l.
    replace (nr + 1 - 1) with nr by lia. apply wrap_small. exact Hnr. }
  assert (Hsl : forall r1 r2 r3 x,
             fupd (fupd (fupd (fupd sl s r1) s r2) s r3) s (sl s) x = sl x).
  { intros r1 r2 r3 x. unfold fupd. destruct (x =? s) eqn:E; [|reflexivity].
    apply Z.eqb_eq in E. subst x. reflexivity. }
  unfold Slab.kmem_cache_alloc, Slab.kmem_cache_free,
    Slab.set_bufctl_freelist, Slab.set_busy.
  slab_cbn.
  destruct (Z.leb_spec osize cutoff) as [|_]; [lia|].
  slab_cbn. rewrite Hs. slab_cbn.
  repeat (rewrite fupd_same; slab_cbn).
  rewrite Hb. slab_cbn. rewrite Eb.
  destruct (Z.eqb_spec (busy + 1) total) as [Et|Et]; slab_cbn;
    (eexists; split; [reflexivity|]); slab_cbn;
    destruct (Z.leb_spec osize cutoff) as [|_]; try lia; slab_cbn;
    rewrite Hw, Hb; slab_cbn;
    repeat (rewrite fupd_same; slab_cbn);
    rewrite Eb', Eb, En.
  - destruct (Z.eqb_spec (busy + 1) total) as [_|]; [|lia]. slab_cbn.
    rewrite !list_remove_head.
    repeat (split; [reflexivity|]). split; [|auto].
    intros x. rewrite <- Hs. apply Hsl.
  - destruct (Z.eqb_spec (busy + 1) total) as [|_]; [lia|].
    destruct (Z.eqb_spec busy 0) as [E0|E0]; slab_cbn;
      rewrite ?list_remove_head;
      (repeat (split; [reflexivity|])); (split; [|auto]);
      intros x; rewrite <- Hs; apply Hsl.
Qed.

(** * Lemmas: the list of caches *)

Lemma kmem_caches_insert_split sizes kc : forall l,
  exists l1 l2,
    l = l1 ++ l2 /\ kmem_caches_insert sizes kc l = l1 ++ kc :: l2
    /\ (forall x, In x l1 -> sizes x < sizes kc)
    /\ (forall x, hd_error l2 = Some x -> sizes kc <= sizes x).
Proof.
  induction l as [|i l IH]; cbn [kmem_caches_insert].
  { exists [], []. split; [reflexivity|]. split; [reflexivity|].
    split; [intros x []|discriminate]. }
  destruct (Z.ltb_spec (sizes i) (sizes kc)) as [Hl|Hl].
  - destruct IH as (l1 & l2 & -> & -> & H1 & H2).
    exists (i :: l1), l2. split; [reflexivity|]. split; [reflexivity|].
    split; [|exact H2]. intros x [<-|Hx]; [exact Hl | exact (H1 x Hx)].
  - exists [], (i :: l). split; [reflexivity|]. split; [reflexivity|].
    split; [intros x []|]. intros x E. injection E as <-. exact Hl.
Qed.

Lemma by_size_from sizes x l :
  by_size sizes (x :: l) = true -> forall y, In y l -> sizes x <= sizes y.
Proof.
  revert x. induction l as [|z l IH]; intros x H y []; unfold by_size in *;
    cbn [chain] in H; apply andb_true_iff in H; destruct H as [E H];
    apply Z.leb_le in E.
  - subst z. exact E.
  - specialize (IH z H y H0). lia.
Qed.

Lemma by_size_insert sizes kc : forall l,
  by_size sizes l = true -> by_size sizes (kmem_caches_insert sizes kc l) = true.
Proof.
  induction l as [|i l IH]; intros H; cbn [kmem_caches_insert]; [reflexivity|].
  destruct (Z.ltb_spec (sizes i) (sizes kc)) as [Hl|Hl].
  - assert (Hs : by_size sizes l = true).
    { unfold by_size in *. destruct l as [|z l]; [reflexivity|].
      cbn [chain] in H. apply andb_true_iff in H. exact (proj2 H). }
    specialize (IH Hs). unfold by_size in *.
    destruct l as [|z l]; cbn [kmem_caches_insert] in *.
    + cbn [chain]. rewrite andb_true_r. apply Z.leb_le. lia.
    + destruct (Z.ltb_spec (sizes z) (sizes kc)).
      * cbn [chain] in H |- *. apply andb_true_iff in H.
        rewrite (proj1 H). exact IH.
      * cbn [chain]. cbn [chain] in IH. rewrite IH.
        rewrite andb_true_r. apply Z.leb_le. lia.
  - unfold by_size in *. cbn [chain] in H |- *. rewrite H, andb_true_r.
    apply Z.leb_le. exact Hl.
Qed.

(** * Lemmas: instant fit finds a segment *)

Lemma chain_suffix R l1 l2 : chain R (l1 ++ l2) = true -> chain R l2 = true.
Proof.
  rewrite chain_app. intros H. apply andb_true_iff in H. exact (proj2 H).
Qed.

Lemma starts_sorted_before a x : forall l1 l2 y,
  starts_sorted a (l1 ++ x :: l2) = true -> In y l1 ->
  start_of a y <= start_of a x.
Proof.
  induction l1 as [|z l1 IH]; intros l2 y S []; cbn [app] in S.
  - subst z. apply (starts_sorted_head a y (l1 ++ x :: l2) x S).
    apply in_or_app. right. left. reflexivity.
  - apply (IH l2 y); [|assumption].
    unfold starts_sorted in *. exact (chain_suffix _ [z] _ S).
Qed.

(** In an ordered tree no tag starts inside a segment. *)
Lemma tree_gap a bt y :
  tree_inv a -> In bt (all_segs a) -> status_of a bt <> BTAG_SPAN ->
  In y (all_segs a) ->
  start_of a y <= start_of a bt
  \/ start_of a bt + size_of a bt <= start_of a y.
Proof.
  intros T Hb Sb Hy. pose proof (tree_inv_sorted a T) as S.
  destruct T as (_ & _ & O).
  destruct (in_split _ _ Hb) as (l1 & l2 & E). rewrite E in *.
  apply in_app_or in Hy. destruct Hy as [Hy|[<-|Hy]].
  - left. exact (starts_sorted_before a bt l1 l2 y S Hy).
  - left. lia.
  - right. apply chain_suffix in O. unfold starts_sorted in S.
    apply chain_suffix in S.
    destruct l2 as [|z l2]; [destruct Hy|].
    change (chain (ordered_pair a) (bt :: z :: l2))
      with (ordered_pair a bt z && chain (ordered_pair a) (z :: l2)) in O.
    apply andb_true_iff in O. destruct O as [O1 _].
    unfold ordered_pair in O1.
    destruct (status_of a bt) eqn:Eb; cbn [status_eqb] in O1;
      try congruence; apply Z.leb_le in O1;
      (assert (Hz : start_of a z <= start_of a y);
       [destruct Hy as [<-|Hy]; [lia|];
        apply (starts_sorted_head a z l2 y); [|exact Hy];
        exact (chain_suffix _ [bt] _ S)
       | lia]).
Qed.

Lemma insert_walk_some a bt : forall l,
  (forall y, In y l -> start_of a y <> start_of a bt) ->
  exists l', insert_walk a bt l = Some l'.
Proof.
  induction l as [|y l IH]; intros H; cbn [insert_walk]; [eauto|].
  destruct (Z.ltb_spec (start_of a bt) (start_of a y)) as [H1|H1]; [eauto|].
  destruct (Z.ltb_spec (start_of a y) (start_of a bt)) as [Hl|Hl];
    cbn [orb].
  - destruct (IH (fun z Hz => H z (or_intror Hz))) as [l' ->]. cbn. eauto.
  - destruct (status_eqb (status_of a y) BTAG_SPAN).
    + destruct (IH (fun z Hz => H z (or_intror Hz))) as [l' ->]. cbn. eauto.
    + exfalso. apply (H y (or_introl eq_refl)). lia.
Qed.

Lemma get_from_freelists_loop_some n : forall a i j,
  i <= j < i + Z.of_nat n -> free_segs a j <> [] ->
  exists bt k rest,
    i <= k <= j /\ free_segs a k = bt :: rest
    /\ (forall m, i <= m < k -> free_segs a m = [])
    /\ get_from_freelists_loop n a i
       = (Some bt, set_free_segs (fupd (free_segs a) k rest) a).
Proof.
  induction n as [|n IH]; intros a i j Hj Hne; [lia|].
  cbn [get_from_freelists_loop].
  destruct (free_segs a i) as [|bt rest] eqn:Hf.
  - destruct (Z.eq_dec i j) as [->|Hij]; [congruence|].
    destruct (IH a (i + 1) j ltac:(lia) Hne)
      as (bt & k & rest & Hk & E & Hm & L).
    exists bt, k, rest. split; [lia|]. split; [exact E|]. split; [|exact L].
    intros m Hmk. destruct (Z.eq_dec m i) as [->|]; [exact Hf|].
    apply Hm. lia.
  - exists bt, i, rest. split; [lia|]. split; [exact Hf|].
    split; [intros m Hm; lia | reflexivity].
Qed.

Lemma lists_free_spec a i bt :
  lists_free a = true -> 0 <= i < ARENA_NR_FREE_LISTS ->
  In bt (free_segs a i) -> status_of a bt = BTAG_FREE.
Proof.
  unfold lists_free. intros H Hi Hin. rewrite forallb_forall in H.
  assert (Hm : In i (map Z.of_nat (seq 0 (Z.to_nat ARENA_NR_FREE_LISTS)))).
  { apply in_map_iff. exists (Z.to_nat i). split; [lia|].
    apply in_seq. unfold ARENA_NR_FREE_LISTS in *. lia. }
  specialize (H i Hm). rewrite forallb_forall in H.
  apply status_eqb_eq. exact (H bt Hin).
Qed.

(** A tag of the list [k] is large enough for every size whose
    [LOG2_UP] is [k] or below. *)
Lemma bucket_fits size sz k :
  0 < size -> 0 < sz -> LOG2_UP size <= k -> LOG2_DOWN sz = k -> size <= sz.
Proof.
  unfold LOG2_UP, LOG2_DOWN. intros Hs Hz Hu Hd.
  pose proof (Z.log2_spec sz Hz) as [L _]. rewrite Hd in L.
  assert (U : size <= 2 ^ Z.log2_up size).
  { destruct (Z.eq_dec size 1) as [->|]; [cbn; lia|].
    apply (Z.log2_up_spec size). lia. }
  pose proof (Z.log2_up_nonneg size).
  assert (2 ^ Z.log2_up size <= 2 ^ k) by (apply Z.pow_le_mono_r; lia).
  lia.
Qed.

(** [__account_alloc] returns on a free tag of an ordered tree that is
    large enough, with a spare tag at hand. *)
Lemma account_alloc_returns a bt size :
  tree_inv a -> In bt (all_segs a) -> status_of a bt = BTAG_FREE ->
  0 < size <= size_of a bt -> unused_btags a <> [] ->
  (forall u, In u (unused_btags a) -> ~ In u (all_segs a)) ->
  exists r a', __account_alloc a bt size None = Ret r a'.
Proof.
  intros T Hin Sf Hs Hne Hu. rewrite account_alloc_unfold. rewrite Sf.
  cbn [status_eqb negb].
  destruct (Z.eqb_spec (size_of a bt) size) as [|Hz]; [eauto|].
  destruct (Z.gtb_spec (size_of a bt) size) as [_|]; [|lia]. cbn [negb].
  destruct (unused_btags a) as [|new rest] eqn:Eu; [congruence|].
  assert (Hn : ~ In new (all_segs a)) by (apply Hu; left; reflexivity).
  set (s := split_fields (set_unused_btags rest a) bt size new).
  assert (Ss : all_segs s = all_segs a).
  { unfold s, split_fields. rewrite all_segs_track_free, all_segs_set_size,
      all_segs_set_size, all_segs_set_start. reflexivity. }
  assert (Tb : tag_ok a bt = true).
  { destruct T as (_ & Tk & _). rewrite forallb_forall in Tk.
    exact (Tk bt Hin). }
  apply tag_ok_spec in Tb.
  assert (Sn : start_of s new = start_of a bt + size).
  { destruct (tags_split_fields (set_unused_btags rest a) bt size new new)
      as (E & _). fold s in E. rewrite E, Z.eqb_refl.
    change (start_of (set_unused_btags rest a) bt) with (start_of a bt).
    apply wadd_small. lia. }
  assert (Hw : forall y, In y (all_segs s) -> start_of s y <> start_of s new).
  { intros y Hy. rewrite Ss in Hy. rewrite Sn.
    assert (y <> new) by (intros ->; exact (Hn Hy)).
    destruct (tags_split_fields (set_unused_btags rest a) bt size new y)
      as (E & _). fold s in E. rewrite E.
    destruct (Z.eqb_spec y new); [contradiction|].
    change (start_of (set_unused_btags rest a) y) with (start_of a y).
    assert (Sb : status_of a bt <> BTAG_SPAN) by congruence.
    destruct (tree_gap a bt y T Hin Sb Hy); lia. }
  unfold __insert_btag.
  destruct (insert_walk_some s new (all_segs s) Hw) as [l' ->].
  cbv beta iota delta [bind]. eauto.
Qed.

(** Instant fit, with a spare tag at hand, serves from the head of the
    first list that is not empty. *)
Lemma alloc_instantfit_finds a size j :
  tree_inv a -> lists_ok a = true -> lists_free a = true ->
  __has_enough_btags a 1 = true -> 0 < size ->
  LOG2_UP size <= j < ARENA_NR_FREE_LISTS -> free_segs a j <> [] ->
  exists bt k a',
    LOG2_UP size <= k <= j /\ hd_error (free_segs a k) = Some bt
    /\ (forall i, LOG2_UP size <= i < k -> free_segs a i = [])
    /\ __alloc_instantfit a size = Ret (start_of a bt) a'.
Proof.
  intros T L Lf E Hs Hj Hne. unfold __alloc_instantfit, __get_from_freelists.
  assert (Hup : 0 <= LOG2_UP size) by apply Z.log2_up_nonneg.
  destruct (get_from_freelists_loop_some
              (Z.to_nat (ARENA_NR_FREE_LISTS - LOG2_UP size)) a (LOG2_UP size)
              j ltac:(lia) Hne) as (bt & k & rest & Hk & Ef & Hm & ->).
  assert (Hk' : 0 <= k < ARENA_NR_FREE_LISTS) by lia.
  assert (Hbk : In bt (free_segs a k)) by (rewrite Ef; left; reflexivity).
  destruct (lists_ok_free a k bt L Hk' Hbk) as [Ht Hlog].
  pose proof (lists_free_spec a k bt Lf Hk' Hbk) as Sf.
  assert (Tb : tag_ok a bt = true).
  { destruct T as (_ & Tk & _). rewrite forallb_forall in Tk.
    exact (Tk bt Ht). }
  apply tag_ok_spec in Tb.
  assert (Hfit : size <= size_of a bt).
  { apply (bucket_fits size (size_of a bt) k); lia. }
  set (a2 := set_free_segs (fupd (free_segs a) k rest) a).
  assert (Hu : unused_btags a2 <> []).
  { change (unused_btags a2) with (unused_btags a).
    unfold __has_enough_btags in E. apply andb_true_iff in E.
    destruct E as [_ E]. apply Z.leb_le in E.
    destruct (unused_btags a); [cbn in E; lia | discriminate]. }
  destruct (account_alloc_returns a2 bt size T Ht Sf ltac:(split; [lia|exact Hfit])
              Hu (fun u Hc => lists_ok_unused a u L Hc)) as (r & a3 & Hacc).
  rewrite Hacc. cbv beta iota delta [bind].
  assert (Hnu : ~ In bt (unused_btags a2)).
  { intros Hc. exact (lists_ok_unused a bt L Hc Ht). }
  destruct (account_alloc_tag _ _ _ _ _ Hnu Hacc) as (_ & _ & Es & _).
  exists bt, k, a3. split; [lia|]. split; [rewrite Ef; reflexivity|].
  split; [exact Hm | rewrite Es; reflexivity].
Qed.

(** * Lemmas: next fit *)

(** A search of [__xalloc_min_max] without [nocross] that finds an
    address finds it at [minaddr] or above. *)
Lemma xalloc_min_max_from a size align phase minaddr p a' :
  tree_inv a -> lists_ok a = true -> 0 < align -> 0 <= size < WORD ->
  __xalloc_min_max a size align phase 0 minaddr 0 = Ret p a' -> p <> 0 ->
  minaddr <= p.
Proof.
  intros T L Ha Hs H Hp.
  destruct (xalloc_min_max_spec _ _ _ _ _ _ _ _ _ L H Hp)
    as (bt & Hb & Sf & Ep & Hl & _ & _).
  destruct (tree_inv_tag a bt T Hb) as (T1 & T2 & T3).
  pose proof (least_upper_from_above a minaddr bt (tree_inv_sorted a T) Hl).
  assert (Hin : start_of a bt <= p /\ p + size <= start_of a bt + size_of a bt).
  { rewrite Ep in Hp |- *. apply find_sufficient_in_tag; auto; lia. }
  lia.
Qed.

Lemma has_enough_btags_less a n m :
  __has_enough_btags a n = true -> 1 <= m <= n ->
  __has_enough_btags a m = true.
Proof.
  unfold __has_enough_btags. intros H Hm.
  apply andb_true_iff in H. destruct H as [H1 H2].
  apply Z.leb_le in H1, H2. apply andb_true_iff.
  split; apply Z.leb_le; lia.
Qed.

(** * Lemmas: instant fit and imports *)

Lemma starved_refl a k :
  (forall i, k <= i < ARENA_NR_FREE_LISTS -> free_segs a i = []) ->
  starved a a k.
Proof. intros H. unfold starved. auto 10. Qed.

Lemma no_list_from_spec a k :
  no_list_from a k = true ->
  forall i, k <= i < ARENA_NR_FREE_LISTS -> 0 <= i -> free_segs a i = [].
Proof.
  unfold no_list_from. rewrite forallb_forall. intros H i Hi H0.
  assert (Hm : In i (map Z.of_nat (seq 0 (Z.to_nat ARENA_NR_FREE_LISTS)))).
  { apply in_map_iff. exists (Z.to_nat i). split; [lia|].
    apply in_seq. unfold ARENA_NR_FREE_LISTS in *. lia. }
  specialize (H i Hm). apply orb_true_iff in H. destruct H as [H|H].
  - apply Z.ltb_lt in H. lia.
  - destruct (free_segs a i); [reflexivity | discriminate].
Qed.

(** Steps that leave the free lists and the settings alone. *)
Lemma push_tags_frame tags nr a :
  source (push_tags tags nr a) = source a
  /\ is_base (push_tags tags nr a) = is_base a
  /\ quantum (push_tags tags nr a) = quantum a
  /\ import_scale (push_tags tags nr a) = import_scale a
  /\ amt_alloc_segs (push_tags tags nr a) = amt_alloc_segs a
  /\ nr_allocs (push_tags tags nr a) = nr_allocs a
  /\ alloc_hash (push_tags tags nr a) = alloc_hash a
  /\ free_segs (push_tags tags nr a) = free_segs a.
Proof.
  unfold push_tags. generalize (seq 0 (Z.to_nat nr)). intros l. revert a.
  induction l as [|x l IH]; intros a; cbn [fold_left]; [auto 10|].
  destruct (IH (__free_btag a (wadd tags (Z.of_nat x * BTAG_SZ))))
    as (H1 & H2 & H3 & H4 & H5 & H6 & H7 & H8).
  rewrite H1, H2, H3, H4, H5, H6, H7, H8. auto 10.
Qed.

Lemma starved_same a0 a a' k :
  starved a0 a k ->
  source a' = source a -> is_base a' = is_base a ->
  quantum a' = quantum a -> import_scale a' = import_scale a ->
  amt_alloc_segs a' = amt_alloc_segs a -> nr_allocs a' = nr_allocs a ->
  alloc_hash a' = alloc_hash a ->
  (forall i, k <= i < ARENA_NR_FREE_LISTS -> free_segs a' i = free_segs a i) ->
  starved a0 a' k.
Proof.
  unfold starved.
  intros (H1 & H2 & H3 & H4 & H5 & H6 & H7 & H8) E1 E2 E3 E4 E5 E6 E7 E8.
  rewrite E1, E2, E3, E4, E5, E6, E7. repeat (split; [assumption|]).
  intros i Hi. rewrite (E8 i Hi). exact (H8 i Hi).
Qed.

Lemma starved_get_enough_btags a0 a k nr flags r a' :
  starved a0 a k -> is_base a0 = false ->
  __get_enough_btags a nr flags = Ret r a' -> starved a0 a' k.
Proof.
  intros S Hb. assert (Hb' : is_base a = false).
  { destruct S as (_ & E & _). congruence. }
  unfold __get_enough_btags.
  destruct (__has_enough_btags a nr).
  { intros H. injection H as _ <-. exact S. }
  unfold __add_more_btags. rewrite Hb'. cbv zeta.
  destruct (hd 0 (base_pages a) =? 0).
  - cbv beta iota delta [bind]. cbn [Z.eqb].
    destruct (has_flag flags MEM_ATOMIC); [|discriminate].
    intros H. injection H as _ <-.
    apply (starved_same a0 a _ k S); reflexivity.
  - cbv beta iota delta [bind].
    set (a1 := push_tags _ _ _).
    assert (S1 : starved a0 a1 k).
    { destruct (push_tags_frame (hd 0 (base_pages a)) (PGSIZE / BTAG_SZ)
                  (set_base_pages (tl (base_pages a)) a))
        as (H1 & H2 & H3 & H4 & H5 & H6 & H7 & H8).
      fold a1 in H1, H2, H3, H4, H5, H6, H7, H8.
      apply (starved_same a0 a a1 k S); try assumption.
      intros i _. rewrite H8. reflexivity. }
    destruct (hd 0 (base_pages a) =? 0).
    + destruct (has_flag flags MEM_ATOMIC); [|discriminate].
      intros H. injection H as _ <-. exact S1.
    + destruct (__has_enough_btags a1 nr); [|discriminate].
      intros H. injection H as _ <-. exact S1.
Qed.

Lemma starved_insert_btag a0 a k bt u a' :
  starved a0 a k -> __insert_btag a bt = Ret u a' -> starved a0 a' k.
Proof.
  intros S. unfold __insert_btag.
  destruct (insert_walk a bt (all_segs a)); [|discriminate].
  intros H. injection H as _ <-.
  apply (starved_same a0 a _ k S); reflexivity.
Qed.

Lemma get_from_freelists_loop_none n : forall a i,
  (forall j, i <= j < i + Z.of_nat n -> free_segs a j = []) ->
  get_from_freelists_loop n a i = (None, a).
Proof.
  induction n as [|n IH]; intros a i H; cbn [get_from_freelists_loop];
    [reflexivity|].
  rewrite (H i) by lia. apply IH. intros j Hj. apply H. lia.
Qed.

(** Instant fit finds nothing while the lists from [LOG2_UP size] on
    are empty. *)
Lemma starved_alloc_from_arena a0 a size flags p a' :
  starved a0 a (LOG2_UP size) -> is_base a0 = false ->
  has_flag flags ARENA_BESTFIT = false ->
  has_flag flags ARENA_NEXTFIT = false ->
  alloc_from_arena a size flags = Ret p a' ->
  p = 0 /\ starved a0 a' (LOG2_UP size).
Proof.
  intros S Hb Fb Fn. unfold alloc_from_arena.
  destruct (__get_enough_btags a 1 (Z.land flags MEM_FLAGS))
    as [|enough a1] eqn:G; [discriminate|].
  pose proof (starved_get_enough_btags _ _ _ _ _ _ _ S Hb G) as S1.
  cbv beta iota delta [bind]. destruct enough; cbn [negb].
  2:{ intros H. injection H as <- <-. auto. }
  rewrite Fb, Fn. unfold __alloc_instantfit, __get_from_freelists.
  rewrite get_from_freelists_loop_none.
  - intros H. injection H as <- <-. auto.
  - intros j Hj. destruct S1 as (_ & _ & _ & _ & _ & _ & _ & E). apply E.
    pose proof (Z.log2_up_nonneg size). unfold LOG2_UP in *.
    unfold ARENA_NR_FREE_LISTS in *. lia.
Qed.

Lemma starved_get_btag a0 a k bt a' :
  starved a0 a k -> __get_btag a = Ret bt a' -> starved a0 a' k.
Proof.
  intros S. unfold __get_btag. destruct (unused_btags a); [discriminate|].
  intros H. injection H as _ <-.
  apply (starved_same a0 a _ k S); reflexivity.
Qed.

(** [__arena_add] puts its segment on the list of its size. *)
Lemma starved_arena_add a0 a k base size flags p a' :
  starved a0 a k -> is_base a0 = false -> LOG2_DOWN size < k ->
  __arena_add a base size flags = Ret p a' -> starved a0 a' k.
Proof.
  intros S Hb Hk. unfold __arena_add.
  destruct (negb (assert_quantum_alignment a base size)); [discriminate|].
  destruct (negb (base <? wadd base size)); [discriminate|].
  destruct (__get_enough_btags a 2 (Z.land flags MEM_FLAGS))
    as [|enough a1] eqn:G; [discriminate|].
  pose proof (starved_get_enough_btags _ _ _ _ _ _ _ S Hb G) as S1.
  cbv beta iota delta [bind]. destruct enough; cbn [negb].
  2:{ intros H. injection H as _ <-. exact S1. }
  destruct (__get_btag a1) as [|bt a2] eqn:G2; [discriminate|].
  pose proof (starved_get_btag _ _ _ _ _ S1 G2) as S2.
  assert (St : forall a3,
             (if source a2
              then
                match __get_btag a2 with
                | Panic => Panic
                | Ret span_bt a =>
                    __insert_btag
                      (set_status span_bt BTAG_SPAN
                         (set_size span_bt size (set_start span_bt base a)))
                      span_bt
                end
              else Ret tt a2) = Ret tt a3 -> starved a0 a3 k).
  { intros a3. destruct (source a2).
    - destruct (__get_btag a2) as [|sp a4] eqn:G4; [discriminate|].
      pose proof (starved_get_btag _ _ _ _ _ S2 G4) as S4.
      apply starved_insert_btag.
      apply (starved_same a0 a4 _ k S4); reflexivity.
    - intros H. injection H as <-. exact S2. }
  match goal with
  | |- match ?x with _ => _ end = _ -> _ =>
      destruct x as [|[] a3] eqn:G3; [discriminate|]
  end.
  specialize (St a3 eq_refl).
  set (s := __track_free_seg _ bt).
  destruct (__insert_btag s bt) as [|[] a5] eqn:G5; [discriminate|].
  intros H. injection H as _ <-.
  apply (starved_insert_btag a0 s k bt tt a5); [|exact G5].
  apply (starved_same a0 a3 s k St); try reflexivity.
  intros i Hi. unfold s, __track_free_seg. cbv zeta.
  cbn [free_segs set_free_segs].
  rewrite size_of_set_amt_total_segs, size_of_set_size, Z.eqb_refl.
  rewrite fupd_other by lia. reflexivity.
Qed.

(** The loop of [arena_alloc] under instant fit, while no import lands
    on a list the search looks at: it ends with null. *)
Lemma starved_loop a0 size flags : forall t a p a',
  starved a0 a (LOG2_UP size) -> source a0 = true -> is_base a0 = false ->
  has_flag flags ARENA_BESTFIT = false ->
  has_flag flags ARENA_NEXTFIT = false ->
  LOG2_DOWN (MAX size (wshl size (import_scale a0))) < LOG2_UP size ->
  arena_alloc_loop t a size flags = Ret p a' ->
  p = 0 /\ starved a0 a' (LOG2_UP size).
Proof.
  induction t as [|t IH]; intros a p a' S Hs Hb Fb Fn Hk; [discriminate|].
  cbn [arena_alloc_loop].
  destruct (alloc_from_arena a size flags) as [|ret a1] eqn:Ha;
    [discriminate|].
  destruct (starved_alloc_from_arena _ _ _ _ _ _ S Hb Fb Fn Ha) as [-> S1].
  cbv beta iota delta [bind]. cbn [Z.eqb negb].
  unfold get_more_resources.
  set (a2 := set_afunc (tl (afunc a1)) a1).
  assert (S2 : starved a0 a2 (LOG2_UP size)).
  { apply (starved_same a0 a1 a2 _ S1); reflexivity. }
  destruct S1 as (E1 & _ & _ & E4 & _). rewrite E1, Hs, E4. cbv zeta.
  fold a2.
  destruct (hd 0 (afunc a1) =? 0).
  { cbv beta iota delta [bind]. cbn [negb]. intros H. injection H as <- <-.
    auto. }
  destruct (__arena_add a2 (hd 0 (afunc a1))
              (MAX size (wshl size (import_scale a0))) flags)
    as [|added a3] eqn:Hadd; [discriminate|].
  pose proof (starved_arena_add _ _ _ _ _ _ _ _ S2 Hb Hk Hadd) as S3.
  cbv beta iota delta [bind]. destruct (added =? 0).
  { cbv beta iota delta [bind]. cbn [negb]. intros H. injection H as <- <-.
    split; [reflexivity|].
    apply (starved_same a0 a3 _ _ S3); reflexivity. }
  cbv beta iota delta [bind]. cbn [negb].
  apply (IH a3 p a' S3 Hs Hb Fb Fn Hk).
Qed.

(** * Further properties: constrained allocation *)

(** Closed side conditions, by evaluation. *)
Ltac by_compute :=
  first [ vm_compute; reflexivity | lia | unfold WORD; lia
        | apply Z.leb_le; vm_compute; reflexivity ].

(** X1.  What [arena_xalloc] returns lies in free space: in a
    searchable arena, a non-null result [p] that needed no import is
    such that [p, p + size), with the size rounded up to the quantum,
    is inside one tag of the tree that was free before the call. *)
Theorem xalloc_in_free_tag a size align phase nocross minaddr maxaddr flags
    p a' :
  searchable a = true ->
  arena_xalloc a size align phase nocross minaddr maxaddr flags = Ret p a' ->
  p <> 0 -> afunc a' = afunc a ->
  exists bt,
    In bt (all_segs a) /\ status_of a bt = BTAG_FREE
    /\ start_of a bt <= p
    /\ p + ROUNDUP size (quantum a) <= start_of a bt + size_of a bt.
Proof.
  intros S H Hp He.
  destruct (searchable_spec a S) as (T & L & Q & E).
  destruct (arena_xalloc_inv _ _ _ _ _ _ _ _ _ _ H Hp He) as (Pa & Pn & Hx).
  destruct (xalloc_from_arena_spec _ _ _ _ _ _ _ _ _ _ L E Hx Hp)
    as (bt & Hb & Sf & Ep & _ & _).
  exists bt. split; [exact Hb|]. split; [exact Sf|].
  destruct (tree_inv_tag a bt T Hb) as (T1 & T2 & T3).
  destruct (IS_PWR2_spec align Pa) as (k & Hk & Ek).
  assert (Hal : 0 < align) by (rewrite Ek; apply Z.pow_pos_nonneg; lia).
  assert (Hnc : 0 <= nocross).
  { destruct Pn as [->|Pn]; [lia|].
    destruct (IS_PWR2_spec nocross Pn) as (j & Hj & ->).
    apply Z.pow_nonneg. lia. }
  pose proof (ROUNDUP_range size (quantum a) Q) as Rs.
  rewrite Ep in Hp |- *.
  apply find_sufficient_in_tag; auto; lia.
Qed.

Lemma xalloc_in_free_tag_witness :
  exists bt,
    In bt (all_segs three_pages) /\ status_of three_pages bt = BTAG_FREE
    /\ start_of three_pages bt <= 0x1c00
    /\ 0x1c00 + ROUNDUP 0x400 (quantum three_pages)
       <= start_of three_pages bt + size_of three_pages bt.
Proof.
  apply (xalloc_in_free_tag three_pages 0x400 0x1000 0xc00 0x1000 0 0 0 0x1c00
           (state_of phased_request));
    by_compute.
Defined.

(** X2.  What [arena_xalloc] returns is [phase] beyond a multiple of
    [align]: in a searchable arena, a non-null result [p] that needed
    no import has [p mod align = phase mod align]. *)
Theorem xalloc_align_phase a size align phase nocross minaddr maxaddr flags
    p a' :
  searchable a = true -> 0 <= align < WORD ->
  arena_xalloc a size align phase nocross minaddr maxaddr flags = Ret p a' ->
  p <> 0 -> afunc a' = afunc a ->
  p mod align = phase mod align.
Proof.
  intros S Ra H Hp He.
  destruct (searchable_spec a S) as (T & L & Q & E).
  destruct (arena_xalloc_inv _ _ _ _ _ _ _ _ _ _ H Hp He) as (Pa & Pn & Hx).
  destruct (xalloc_from_arena_spec _ _ _ _ _ _ _ _ _ _ L E Hx Hp)
    as (bt & Hb & Sf & Ep & _ & _).
  rewrite Ep in Hp |- *. apply find_sufficient_congruent; auto.
Qed.

Lemma xalloc_align_phase_witness : 0x1c00 mod 0x1000 = 0xc00 mod 0x1000.
Proof.
  apply (xalloc_align_phase three_pages 0x400 0x1000 0xc00 0x1000 0 0 0 0x1c00
           (state_of phased_request));
    by_compute.
Defined.

(** X3.  [minaddr] and [maxaddr] are honoured: in a searchable arena, a
    non-null result [p] of [arena_xalloc] is at [minaddr] or above, and
    with a [maxaddr] set the range ends at [maxaddr] or below. *)
Theorem xalloc_min_max_bounds a size align phase nocross minaddr maxaddr flags
    p a' :
  searchable a = true ->
  arena_xalloc a size align phase nocross minaddr maxaddr flags = Ret p a' ->
  p <> 0 -> afunc a' = afunc a ->
  minaddr <= p
  /\ (maxaddr <> 0 -> p + ROUNDUP size (quantum a) <= maxaddr).
Proof.
  intros S H Hp He.
  destruct (searchable_spec a S) as (T & L & Q & E).
  destruct (arena_xalloc_inv _ _ _ _ _ _ _ _ _ _ H Hp He) as (Pa & Pn & Hx).
  destruct (xalloc_from_arena_spec _ _ _ _ _ _ _ _ _ _ L E Hx Hp)
    as (bt & Hb & Sf & Ep & _ & Hm).
  destruct (tree_inv_tag a bt T Hb) as (T1 & T2 & T3).
  destruct (IS_PWR2_spec align Pa) as (k & Hk & Ek).
  assert (Hal : 0 < align) by (rewrite Ek; apply Z.pow_pos_nonneg; lia).
  assert (Hnc : 0 <= nocross).
  { destruct Pn as [->|Pn]; [lia|].
    destruct (IS_PWR2_spec nocross Pn) as (j & Hj & ->).
    apply Z.pow_nonneg. lia. }
  pose proof (ROUNDUP_range size (quantum a) Q) as Rs.
  assert (Hin : start_of a bt <= p
                /\ p + ROUNDUP size (quantum a)
                   <= start_of a bt + size_of a bt).
  { rewrite Ep in Hp |- *. apply find_sufficient_in_tag; auto; lia. }
  assert (Rp : 0 <= p < WORD) by (rewrite Ep; apply find_sufficient_word).
  split.
  - destruct (Z.eq_dec minaddr 0) as [->|Hmin]; [lia|].
    destruct (Hm (or_introl Hmin)) as [Hl _].
    pose proof (least_upper_from_above a minaddr bt (tree_inv_sorted a T) Hl).
    lia.
  - intros Hmax. destruct (Hm (or_intror Hmax)) as [_ Hle].
    specialize (Hle Hmax). rewrite wadd_small in Hle by lia. exact Hle.
Qed.

Lemma xalloc_min_max_bounds_witness :
  0x1000 <= 0x1000
  /\ (0x3000 <> 0 -> 0x1000 + ROUNDUP 0x800 (quantum three_pages) <= 0x3000).
Proof.
  apply (xalloc_min_max_bounds three_pages 0x800 0x100 0 0 0x1000 0x3000 0
           0x1000 (state_of bounded_request));
    by_compute.
Defined.

(** X4.  [nocross] is honoured when the phase leaves room for the
    request: in a searchable arena, with [phase] and the rounded size
    together not above [nocross], the range of a non-null result of
    [arena_xalloc] crosses no multiple of [nocross]. *)
Theorem xalloc_no_cross_small_phase a size align phase nocross minaddr maxaddr
    flags p a' :
  searchable a = true ->
  0 <= align < WORD -> 0 < nocross < WORD -> 0 <= phase ->
  phase + ROUNDUP size (quantum a) <= nocross ->
  arena_xalloc a size align phase nocross minaddr maxaddr flags = Ret p a' ->
  p <> 0 -> afunc a' = afunc a ->
  no_cross p (ROUNDUP size (quantum a)) nocross.
Proof.
  intros S Ra Rn Hph Hfit H Hp He.
  destruct (searchable_spec a S) as (T & L & Q & E).
  assert (Hsz : ROUNDUP size (quantum a) <> 0).
  { unfold arena_xalloc in H.
    destruct (Z.eqb_spec (ROUNDUP size (quantum a)) 0); [discriminate|].
    assumption. }
  destruct (arena_xalloc_inv _ _ _ _ _ _ _ _ _ _ H Hp He) as (Pa & Pn & Hx).
  destruct (xalloc_from_arena_spec _ _ _ _ _ _ _ _ _ _ L E Hx Hp)
    as (bt & Hb & Sf & Ep & _ & _).
  destruct Pn as [Pn|Pn]; [lia|].
  pose proof (ROUNDUP_range size (quantum a) Q) as Rs.
  unfold no_cross. rewrite Ep in Hp |- *.
  apply find_sufficient_no_cross; auto; lia.
Qed.

Lemma xalloc_no_cross_small_phase_witness :
  no_cross 0x1c00 (ROUNDUP 0x400 (quantum three_pages)) 0x1000.
Proof.
  apply (xalloc_no_cross_small_phase three_pages 0x400 0x1000 0xc00 0x1000 0 0
           0 0x1c00 (state_of phased_request));
    by_compute.
Defined.

(** * Further properties: allocation and free together *)

(** X5.  What [arena_alloc] returns can be freed: after a call that
    returned a non-null address, whatever the policy and however many
    imports it took, [arena_free] of that address with the same size
    returns (it does not panic). *)
Theorem alloc_result_can_be_freed a n flags p a' :
  arena_alloc a n flags = Ret p a' -> p <> 0 ->
  exists a2, arena_free a' p n = Ret tt a2.
Proof.
  unfold arena_alloc, arena_free. intros H Hp.
  destruct (ROUNDUP n (quantum a) =? 0); [discriminate|].
  destruct (arena_alloc_loop_served _ _ _ _ _ _ H Hp) as [[bt Sv] Q].
  rewrite Q. exact (free_served_returns _ _ _ _ Sv).
Qed.

Lemma alloc_result_can_be_freed_witness :
  exists a2, arena_free (state_of one_alloc) 0x1000 0x100 = Ret tt a2.
Proof.
  apply (alloc_result_can_be_freed (state_of (one_seg 0x100 0x1000 0x1000))
           0x100 0 0x1000 (state_of one_alloc)); by_compute.
Defined.

(** X6.  What [arena_xalloc] returns can be freed: after a call that
    returned a non-null address, [arena_xfree] of that address with the
    same size returns. *)
Theorem xalloc_result_can_be_freed a size align phase nocross minaddr maxaddr
    flags p a' :
  arena_xalloc a size align phase nocross minaddr maxaddr flags = Ret p a' ->
  p <> 0 ->
  exists a2, arena_xfree a' p size = Ret tt a2.
Proof.
  unfold arena_xalloc, arena_xfree. intros H Hp.
  repeat match type of H with
         | (if ?c then Panic else _) = _ => destruct c; [discriminate|]
         end.
  destruct (arena_xalloc_loop_served _ _ _ _ _ _ _ _ _ _ _ H Hp) as [[bt Sv] Q].
  rewrite Q. exact (free_served_returns _ _ _ _ Sv).
Qed.

Lemma xalloc_result_can_be_freed_witness :
  exists a2, arena_xfree (state_of phased_request) 0x1c00 0x400 = Ret tt a2.
Proof.
  apply (xalloc_result_can_be_freed three_pages 0x400 0x1000 0xc00 0x1000 0 0
           0 0x1c00 (state_of phased_request)); by_compute.
Defined.

(** * Further properties: the books of an arena *)

(** X7.  A free keeps the books in order: when the counters of an arena
    are the sums [__arena_asserter] computes from the tree, the tree
    and the hash hold no tag twice and the hash holds allocated tags of
    the tree, then all of this holds again after an [arena_free] that
    returns, whatever it merged or gave back to the source. *)
Theorem free_keeps_books a addr size a' :
  books_ok a = true -> arena_free a addr size = Ret tt a' ->
  books_ok a' = true.
Proof.
  unfold arena_free. intros B H. exact (free_from_arena_books _ _ _ _ B H).
Qed.

Lemma free_keeps_books_witness :
  books_ok (state_of (arena_free (state_of one_alloc) 0x1000 0x100)) = true.
Proof.
  apply (free_keeps_books (state_of one_alloc) 0x1000 0x100); by_compute.
Defined.

(** X8.  An allocation served from the arena's own free segments keeps
    the books in order: with the free lists consistent with the tree,
    the unused tags distinct and one of them at hand, a call of
    [arena_alloc] that returns a non-null address without an import
    leaves the counters equal to the sums over the tree, for each of
    the three allocation styles. *)
Theorem alloc_keeps_books a size flags p a' :
  books_ok a = true -> lists_ok a = true ->
  nodupb (unused_btags a) = true -> __has_enough_btags a 1 = true ->
  0 < quantum a ->
  arena_alloc a size flags = Ret p a' -> p <> 0 -> afunc a' = afunc a ->
  books_ok a' = true.
Proof.
  intros B L Nu E Q H Hp He. unfold arena_alloc in H.
  destruct (ROUNDUP size (quantum a) =? 0); [discriminate|].
  apply arena_alloc_loop_first_turn in H. destruct H as [_ H].
  apply (alloc_from_arena_books a (ROUNDUP size (quantum a)) flags p a');
    auto using nodupb_NoDup, ROUNDUP_range.
Qed.

Lemma alloc_keeps_books_witness : books_ok (state_of one_alloc) = true.
Proof.
  apply (alloc_keeps_books (state_of (one_seg 0x100 0x1000 0x1000)) 0x100 0
           0x1000 (state_of one_alloc)); by_compute.
Defined.

(** X9.  A constrained allocation keeps the books in order: with the
    free lists consistent with the tree, the unused tags distinct and
    two of them at hand, a call of [arena_xalloc] that returns a
    non-null address without an import leaves the counters equal to the
    sums over the tree, also when it splits the tag at both ends. *)
Theorem xalloc_keeps_books a size align phase nocross minaddr maxaddr flags
    p a' :
  books_ok a = true -> lists_ok a = true ->
  nodupb (unused_btags a) = true -> __has_enough_btags a 2 = true ->
  arena_xalloc a size align phase nocross minaddr maxaddr flags = Ret p a' ->
  p <> 0 -> afunc a' = afunc a ->
  books_ok a' = true.
Proof.
  intros B L Nu E H Hp He.
  destruct (arena_xalloc_inv _ _ _ _ _ _ _ _ _ _ H Hp He) as (_ & _ & Hx).
  apply (xalloc_from_arena_books _ _ _ _ _ _ _ _ _ _ B L
           (nodupb_NoDup _ Nu) E Hx).
Qed.

Lemma xalloc_keeps_books_witness : books_ok (state_of phased_request) = true.
Proof.
  apply (xalloc_keeps_books three_pages 0x400 0x1000 0xc00 0x1000 0 0 0 0x1c00
           (state_of phased_request)); by_compute.
Defined.

(** X10.  Adding a segment keeps the books in order: with the unused
    tags distinct, none of them in the tree and two of them at hand, an
    [arena_add] that returns hands back [base], leaves the counters
    equal to the sums over the tree, and has raised the total by the
    size added. *)
Theorem arena_add_keeps_books a base size flags p a' :
  books_ok a = true -> lists_ok a = true ->
  nodupb (unused_btags a) = true -> __has_enough_btags a 2 = true ->
  arena_add a base size flags = Ret p a' ->
  books_ok a' = true /\ p = base
  /\ amt_total_segs a' = wadd (amt_total_segs a) size.
Proof.
  intros B L Nu E. unfold arena_add. destruct (source a); [discriminate|].
  apply arena_add_books_gen; auto using nodupb_NoDup.
  intros u. apply lists_ok_unused. exact L.
Qed.

Lemma arena_add_keeps_books_witness :
  books_ok (state_of (arena_add three_pages 0x8000 0x1000 0)) = true
  /\ 0x8000 = 0x8000
  /\ amt_total_segs (state_of (arena_add three_pages 0x8000 0x1000 0))
     = wadd (amt_total_segs three_pages) 0x1000.
Proof.
  apply (arena_add_keeps_books three_pages 0x8000 0x1000 0 0x8000);
    by_compute.
Defined.



(** * Further properties: the futex queue *)

(** X12.  [futex_wake] wakes the longest waiters first and no more
    than [count]: the threads made runnable are those of the first
    [count] elements of the queue that wait on [uaddr], in queue order,
    and these elements are the ones freed; the later waiters on
    [uaddr] stay queued in order, and so does every waiter on another
    address.  A [count] of zero or below wakes nobody. *)
Theorem futex_wake_fifo f uaddr count :
  let f' := snd (Futex.futex_wake f uaddr count) in
  Futex.made_runnable f'
  = Futex.made_runnable f
    ++ map (Futex.e_pthread f)
         (firstn (Z.to_nat count) (Futex.waiters f uaddr))
  /\ Futex.cache_freed f'
     = Futex.cache_freed f ++ firstn (Z.to_nat count) (Futex.waiters f uaddr)
  /\ Futex.waiters f' uaddr
     = skipn (Z.to_nat count) (Futex.waiters f uaddr)
  /\ Futex.others f' uaddr = Futex.others f uaddr.
Proof.
  cbv zeta. unfold Futex.futex_wake. cbn [snd].
  destruct (wake_loop_spec uaddr (Futex.queue f) [] count f eq_refl
              ltac:(intros e [])) as (R & F & W & O & _).
  auto.
Qed.

(** X13.  A thread that went to wait is woken in its turn: after a
    [futex_wait] that found the value it expected and queued a fresh
    element, a [futex_wake] on the same address with a count above the
    number of earlier waiters makes runnable those waiters, in order,
    and then the thread, and leaves no waiter on the address. *)
Theorem futex_waiter_woken blk f self uaddr val count f1 :
  Futex.ints f uaddr = val ->
  ~ In (hd 0 (Futex.cache_objs f)) (Futex.queue f) ->
  Futex.futex_wait blk f self uaddr val = Some (0, f1) ->
  Z.of_nat (length (Futex.waiters f uaddr)) < count ->
  Futex.made_runnable (snd (Futex.futex_wake f1 uaddr count))
  = Futex.made_runnable f
    ++ map (Futex.e_pthread f) (Futex.waiters f uaddr) ++ [self]
  /\ Futex.waiters (snd (Futex.futex_wake f1 uaddr count)) uaddr = [].
Proof.
  intros Hv Hn Hw Hc. unfold Futex.futex_wait in Hw.
  rewrite Hv, Z.eqb_refl in Hw.
  destruct (Futex.cache_objs f) as [|e rest]; [discriminate|].
  cbn [hd] in Hn. injection Hw as <-.
  set (f1 := Futex.__futex_block blk _ self e).
  assert (Q1 : Futex.queue f1 = Futex.queue f ++ [e]) by reflexivity.
  assert (U1 : forall x, x <> e -> Futex.e_uaddr f1 x = Futex.e_uaddr f x).
  { intros x Hx. change (Futex.e_uaddr f1 x)
      with (fupd (Futex.e_uaddr f) e uaddr x).
    unfold fupd. destruct (Z.eqb_spec x e); [contradiction | reflexivity]. }
  assert (P1 : forall x, x <> e -> Futex.e_pthread f1 x = Futex.e_pthread f x).
  { intros x Hx. change (Futex.e_pthread f1 x)
      with (fupd (Futex.e_pthread f) e self x).
    unfold fupd. destruct (Z.eqb_spec x e); [contradiction | reflexivity]. }
  assert (Ue : Futex.e_uaddr f1 e = uaddr).
  { change (Futex.e_uaddr f1 e) with (fupd (Futex.e_uaddr f) e uaddr e).
    unfold fupd. rewrite Z.eqb_refl. reflexivity. }
  assert (Pe : Futex.e_pthread f1 e = self).
  { change (Futex.e_pthread f1 e) with (fupd (Futex.e_pthread f) e self e).
    unfold fupd. rewrite Z.eqb_refl. reflexivity. }
  assert (W1 : Futex.waiters f1 uaddr = Futex.waiters f uaddr ++ [e]).
  { unfold Futex.waiters. rewrite Q1, filter_app. cbn [filter].
    unfold Futex.waits_on at 2. rewrite Ue, Z.eqb_refl. f_equal.
    apply filter_ext_in. intros x Hx. unfold Futex.waits_on.
    rewrite U1; [reflexivity|]. intros ->. exact (Hn Hx). }
  assert (M1 : map (Futex.e_pthread f1) (Futex.waiters f uaddr)
               = map (Futex.e_pthread f) (Futex.waiters f uaddr)).
  { apply map_ext_in. intros x Hx. apply P1. intros ->.
    unfold Futex.waiters in Hx. apply filter_In in Hx. exact (Hn (proj1 Hx)). }
  destruct (futex_wake_spec f1 uaddr count) as (R & _ & W & _).
  cbv zeta in R, W. rewrite R, W, W1.
  assert (L : (length (Futex.waiters f uaddr ++ [e]) <= Z.to_nat count)%nat).
  { rewrite length_app. cbn [length]. lia. }
  rewrite firstn_all2 by exact L. rewrite skipn_all2 by exact L.
  split; [|reflexivity].
  rewrite map_app, M1. cbn [map]. rewrite Pe. reflexivity.
Qed.

Lemma futex_waiter_woken_witness :
  Futex.made_runnable
    (snd (Futex.futex_wake
            (match Futex.futex_wait 1 futex0 0x21 0x500 7 with
             | Some (_, f) => f
             | None => futex0
             end) 0x500 1))
  = Futex.made_runnable futex0
    ++ map (Futex.e_pthread futex0) (Futex.waiters futex0 0x500) ++ [0x21]
  /\ Futex.waiters
       (snd (Futex.futex_wake
               (match Futex.futex_wait 1 futex0 0x21 0x500 7 with
                | Some (_, f) => f
                | None => futex0
                end) 0x500 1)) 0x500 = [].
Proof.
  apply (futex_waiter_woken 1 futex0 0x21 0x500 7 1);
    [by_compute | intros [] | by_compute | by_compute].
Defined.

(** * Further properties: the slab caches *)

(** X14.  A cache without slabs hands out the objects of its first
    page in address order: in the small layout, with a page to grow
    into, the first [k] calls of [kmem_cache_alloc], for [k] up to the
    number of objects of a slab, return the page's address and then
    one address every rounded object size; one page is taken, the slab
    at the end of that page counts [k] busy objects and is on the full
    list once all its objects are out, on the partial list before. *)
Theorem fresh_slab_objects sizeof cutoff nbuf c page rest k :
  Slab.obj_size c <= cutoff ->
  Slab.full_slab_list c = [] -> Slab.partial_slab_list c = [] ->
  Slab.empty_slab_list c = [] ->
  Slab.kpages c = page :: rest -> 0 < page -> page + PGSIZE < WORD ->
  0 <= Slab.obj_size c <= PGSIZE -> 0 < Slab.align c <= PGSIZE ->
  0 <= sizeof <= PGSIZE ->
  (0 < k)%nat ->
  Z.of_nat k
  <= wsub PGSIZE sizeof
     / ROUNDUP (wadd (Slab.obj_size c) Slab.PTR_SZ) (Slab.align c) ->
  exists c',
    Slab.alloc_n sizeof cutoff nbuf k c
    = Some (rev (map (fun i =>
                        page
                        + Z.of_nat i
                          * ROUNDUP (wadd (Slab.obj_size c) Slab.PTR_SZ)
                              (Slab.align c))
                   (seq 0 k)), c')
    /\ Slab.place_of c' (page + PGSIZE - sizeof)
       = (if Z.of_nat k
             =? wsub PGSIZE sizeof
                / ROUNDUP (wadd (Slab.obj_size c) Slab.PTR_SZ) (Slab.align c)
          then Slab.on_full else Slab.on_partial)
    /\ Slab.num_busy_obj (Slab.slabs c' (page + PGSIZE - sizeof))
       = Z.of_nat k
    /\ Slab.nr_cur_alloc c' = wrap (Slab.nr_cur_alloc c + Z.of_nat k)
    /\ Slab.kpages c' = rest.
Proof.
  intros Hc Hf Hp He Hk Hpg Hw Ho Ha Hs Hk0 Hkt.
  set (osz := ROUNDUP (wadd (Slab.obj_size c) Slab.PTR_SZ) (Slab.align c))
    in *.
  set (total := wsub PGSIZE sizeof / osz) in *.
  set (s := page + PGSIZE - sizeof).
  destruct (small_slab_sizes sizeof c Ho Ha Hs) as (Z1 & Z2 & Z3).
  fold osz in Z1, Z3. fold total in Z2, Z3.
  assert (Hosz : 0 < osz) by (unfold Slab.PTR_SZ in Z1; lia).
  assert (Ht : 0 < total) by lia.
  assert (H1' : Z.of_nat 1 <= total) by lia.
  destruct (grow_small_spec sizeof cutoff nbuf c page rest Hc Hk Hpg Hw Ho Ha
              Hs Ht) as (c1 & G & T1 & E1 & P1 & F1 & O1 & N1 & K1).
  fold osz total s in T1, E1.
  rewrite He in E1. rewrite Hp in P1. rewrite Hf in F1.
  set (c2 := Slab.set_partial [s] (Slab.set_empty [] c1)).
  assert (T2 : slab_threaded c2 s page osz total 0) by exact T1.
  assert (Hfit : page + total * osz < WORD).
  { unfold PGSIZE in *. lia. }
  assert (Ho2 : 0 <= Slab.obj_size c2 <= osz).
  { change (Slab.obj_size c2) with (Slab.obj_size c1). rewrite O1.
    unfold Slab.PTR_SZ in Z1. lia. }
  assert (Hc2 : Slab.obj_size c2 <= cutoff).
  { change (Slab.obj_size c2) with (Slab.obj_size c1). rewrite O1. exact Hc. }
  destruct (alloc_partial_head sizeof cutoff nbuf c2 s [] page osz total 0
              Hc2 eq_refl T2 ltac:(lia) ltac:(lia) Ho2 Hosz Hfit)
    as (c3 & A3 & T3 & P3 & F3 & M3 & O3 & N3 & K3).
  unfold c2 in A3.
  rewrite <- (alloc_after_grow sizeof cutoff nbuf c c1 s [] Hp He G P1 E1)
    in A3.
  change (Slab.full_slab_list c2) with (Slab.full_slab_list c1) in F3.
  change (Slab.nr_cur_alloc c2) with (Slab.nr_cur_alloc c1) in N3.
  change (Slab.kpages c2) with (Slab.kpages c1) in K3.
  change (Slab.obj_size c2) with (Slab.obj_size c1) in O3.
  rewrite F1 in F3. rewrite N1 in N3. rewrite K1 in K3. rewrite O1 in O3.
  destruct k as [|k]; [lia|].
  rewrite (alloc_n_first sizeof cutoff nbuf c _ c3 A3 k).
  change (page + Z.of_nat 0 * osz) with (page + 0).
  destruct k as [|k].
  { (* one allocation *)
    exists c3. cbn [Slab.alloc_n seq map rev app].
    split; [reflexivity|]. destruct T3 as [S3 _].
    split.
    { unfold Slab.place_of, Slab.mem_list. rewrite F3, P3.
      destruct (Z.ltb_spec (Z.of_nat 1) total) as [Hl|Hl];
        destruct (Z.eqb_spec (Z.of_nat 1) total) as [Hq|Hq]; try lia;
        cbn [existsb]; rewrite ?Z.eqb_refl; reflexivity. }
    split; [rewrite S3; reflexivity|]. split; [|exact K3].
    rewrite N3. unfold wadd. reflexivity. }
  assert (H1 : Z.of_nat 1 < total) by lia.
  destruct (Z.ltb_spec (Z.of_nat 1) total) as [_|]; [|lia].
  unfold Slab.PTR_SZ in Z1.
  destruct (alloc_n_threaded sizeof cutoff nbuf s [] page osz total (S k) c3 1%nat
              ltac:(lia) P3 T3 ltac:(lia) H1 ltac:(lia) ltac:(lia) Hosz Hfit)
    as (c4 & A4 & T4 & P4 & F4 & M4 & O4 & N4 & K4).
  exists c4. rewrite A4. split.
  { reflexivity. }
  destruct T4 as [S4 _]. split.
  { unfold Slab.place_of, Slab.mem_list. rewrite F4, P4, F3.
    replace (1 + S k)%nat with (S (S k)) by lia.
    destruct (Z.ltb_spec (Z.of_nat (S (S k))) total) as [Hl|Hl];
      destruct (Z.eqb_spec (Z.of_nat (S (S k))) total) as [Hq|Hq]; try lia;
      cbn [existsb]; rewrite ?Z.eqb_refl; reflexivity. }
  split; [rewrite S4; cbn [Slab.num_busy_obj]; f_equal; lia|].
  split; [|congruence].
  rewrite N4, N3, iter_wadd_one. unfold wadd. rewrite wrap_add_l.
  f_equal. lia.
Qed.

Lemma fresh_slab_objects_witness :
  exists c',
    Slab.alloc_n Slab.HDR Slab.CUTOFF Slab.NBUF 3 (Slab.cache64 8)
    = Some (rev (map (fun i =>
                        0x200000
                        + Z.of_nat i
                          * ROUNDUP (wadd (Slab.obj_size (Slab.cache64 8))
                                       Slab.PTR_SZ)
                              (Slab.align (Slab.cache64 8)))
                   (seq 0 3)), c')
    /\ Slab.place_of c' (0x200000 + PGSIZE - Slab.HDR)
       = (if Z.of_nat 3
             =? wsub PGSIZE Slab.HDR
                / ROUNDUP (wadd (Slab.obj_size (Slab.cache64 8)) Slab.PTR_SZ)
                    (Slab.align (Slab.cache64 8))
          then Slab.on_full else Slab.on_partial)
    /\ Slab.num_busy_obj (Slab.slabs c' (0x200000 + PGSIZE - Slab.HDR))
       = Z.of_nat 3
    /\ Slab.nr_cur_alloc c'
       = wrap (Slab.nr_cur_alloc (Slab.cache64 8) + Z.of_nat 3)
    /\ Slab.kpages c' = [].
Proof.
  apply (fresh_slab_objects Slab.HDR Slab.CUTOFF Slab.NBUF (Slab.cache64 8)
           0x200000 [] 3);
    first [by_compute | split; by_compute].
Defined.

(** X15.  Allocating an object and freeing it again leaves a small
    slab cache as it was.  The slab at the end of the page [page], with
    its free list threaded through the objects not handed out, either
    heads the partial list with some objects out, or heads the empty
    list of a cache without partial slab and holds more than one
    object.  Then [kmem_cache_alloc] returns the next object of the
    page, and after [kmem_cache_free] of that object the three lists,
    the counter, every slab header and every word of object memory are
    what they were. *)
Theorem slab_alloc_free_round_trip sizeof cutoff nbuf c page osz total busy
    rest o c1 :
  Slab.obj_size c <= cutoff ->
  slab_threadedb c (page + PGSIZE - sizeof) page osz total busy = true ->
  (Slab.partial_slab_list c = (page + PGSIZE - sizeof) :: rest
   /\ (0 < busy)%nat /\ Z.of_nat busy < total)
  \/ (Slab.partial_slab_list c = []
      /\ Slab.empty_slab_list c = (page + PGSIZE - sizeof) :: rest
      /\ busy = O /\ 1 < total) ->
  0 <= page -> page mod PGSIZE = 0 -> page + PGSIZE < WORD ->
  0 <= sizeof <= PGSIZE ->
  0 <= Slab.obj_size c <= osz -> 0 < osz ->
  total * osz <= PGSIZE - sizeof ->
  0 <= Slab.nr_cur_alloc c < WORD ->
  Slab.kmem_cache_alloc sizeof cutoff nbuf c 0 = Some (o, c1) ->
  o = page + Z.of_nat busy * osz
  /\ same_cache c (Slab.kmem_cache_free sizeof cutoff c1 o).
Proof.
  intros Hc Tb Hl Hpg Hal Hfit Hsz Ho Hosz Htot Hnr Ha.
  set (s := page + PGSIZE - sizeof) in *.
  pose proof (slab_threadedb_spec _ _ _ _ _ _ Tb) as T.
  assert (Hw : page + total * osz < WORD) by (unfold PGSIZE in *; lia).
  (* the cache the object is taken from, with the slab on the partial
     list *)
  assert (St : exists c0 pr,
             Slab.kmem_cache_alloc sizeof cutoff nbuf c0 0 = Some (o, c1)
             /\ Slab.partial_slab_list c0 = s :: pr
             /\ slab_threaded c0 s page osz total busy
             /\ Slab.obj_size c0 = Slab.obj_size c
             /\ Slab.full_slab_list c0 = Slab.full_slab_list c
             /\ Slab.nr_cur_alloc c0 = Slab.nr_cur_alloc c
             /\ Slab.kpages c0 = Slab.kpages c
             /\ Slab.slabs c0 = Slab.slabs c /\ Slab.words c0 = Slab.words c
             /\ Z.of_nat busy < total
             /\ ((0 < busy)%nat /\ c0 = c
                 \/ busy = O /\ 1 < total /\ pr = []
                    /\ Slab.partial_slab_list c = []
                    /\ Slab.empty_slab_list c = s :: Slab.empty_slab_list c0)).
  { destruct Hl as [(Hp & Hb & Hbt) | (Hp & He & Hb & Ht)].
    - exists c, rest. auto 15.
    - exists (Slab.set_partial [s] (Slab.set_empty rest c)), [].
      rewrite <- (alloc_from_empty sizeof cutoff nbuf c s rest Hp He).
      split; [exact Ha|]. split; [reflexivity|]. split; [exact T|].
      do 6 (split; [reflexivity|]). split; [lia|]. right.
      subst busy. auto 10. }
  destruct St as (c0 & pr & A0 & P0 & T0 & O0 & F0 & N0 & K0 & S0 & W0 & Hbt
                  & Hcase).
  assert (Hc0 : Slab.obj_size c0 <= cutoff) by (rewrite O0; exact Hc).
  assert (Ho0 : 0 <= Slab.obj_size c0 <= osz) by (rewrite O0; exact Ho).
  destruct (alloc_partial_head sizeof cutoff nbuf c0 s pr page osz total busy
              Hc0 P0 T0 Hbt Hpg Ho0 Hosz Hw)
    as (c1' & A1 & T1 & P1 & F1 & M1 & O1 & N1 & K1).
  rewrite A0 in A1. injection A1 as -> <-.
  split; [reflexivity|].
  destruct (alloc_partial_frame sizeof cutoff nbuf c0 s pr _ c1 Hc0 P0 A0)
    as (Sf & Wf).
  assert (Hc1 : Slab.obj_size c1 <= cutoff) by (rewrite O1; exact Hc0).
  assert (Ho1 : 0 <= Slab.obj_size c1 <= osz) by (rewrite O1; exact Ho0).
  pose proof (free_threaded sizeof cutoff c1 s page osz total busy Hc1 T1
                ltac:(lia) eq_refl Hpg Hal Hfit Hsz Ho1 Hosz Htot) as Fr.
  cbv zeta in Fr.
  set (c2 := Slab.kmem_cache_free sizeof cutoff c1 _) in *.
  destruct Fr as (T2 & F2 & P2 & E2 & N2 & O2 & K2 & S2 & W2).
  assert (Hn : Slab.nr_cur_alloc c2 = Slab.nr_cur_alloc c).
  { rewrite N2, N1, N0. unfold wsub, wadd. rewrite wrap_sub_l.
    replace (Slab.nr_cur_alloc c + 1 - 1) with (Slab.nr_cur_alloc c) by lia.
    apply wrap_small. exact Hnr. }
  assert (Hsl : forall x, Slab.slabs c2 x = Slab.slabs c x).
  { intros x. destruct (Z.eq_dec x s) as [->|Hx].
    - rewrite (proj1 T2), <- S0. symmetry. exact (proj1 T0).
    - rewrite (S2 x Hx), (Sf x Hx), S0. reflexivity. }
  assert (Hwd : forall p, Slab.words c2 p = Slab.words c p).
  { intros p.
    destruct (Z.eq_dec p (page + Z.of_nat busy * osz + Slab.obj_size c1))
      as [->|Hp].
    - rewrite <- O2 at 1. rewrite (proj2 T2 busy (le_n _) Hbt).
      rewrite <- W0, O1. symmetry. exact (proj2 T0 busy (le_n _) Hbt).
    - rewrite (W2 p Hp), Wf, W0. reflexivity. }
  unfold same_cache.
  rewrite F2, P2, E2, F1, P1, M1, O2, O1, O0, K2, K1, K0, F0.
  destruct (Z.eqb_spec (Z.of_nat (S busy)) total) as [Et|Et].
  - destruct (Z.ltb_spec (Z.of_nat (S busy)) total) as [|_]; [lia|].
    rewrite list_remove_head.
    destruct Hcase as [(Hb & ->) | (Hb & Ht & _)]; [|lia].
    rewrite P0. auto 10.
  - destruct (Z.ltb_spec (Z.of_nat (S busy)) total) as [_|]; [|lia].
    destruct Hcase as [(Hb & ->) | (Hb & Ht & -> & Hp & He)].
    + destruct (Z.eqb_spec (Z.of_nat busy) 0) as [|_]; [lia|].
      rewrite P0. auto 10.
    + subst busy. cbn [Z.of_nat Z.eqb]. rewrite list_remove_head.
      rewrite Hp, He. auto 10.
Qed.

Lemma slab_alloc_free_round_trip_witness :
  0x2000d8 = 0x200000 + Z.of_nat 3 * 72
  /\ same_cache three_out
       (Slab.kmem_cache_free Slab.HDR Slab.CUTOFF four_out 0x2000d8).
Proof.
  apply (slab_alloc_free_round_trip Slab.HDR Slab.CUTOFF Slab.NBUF three_out
           0x200000 72 56 3 [] 0x2000d8 four_out);
    first [ by_compute | split; by_compute
          | left; split; [by_compute | split; by_compute] ].
Defined.

(** X16.  The list of all caches stays in the order of the object
    sizes: when it is in that order, [__kmem_cache_create] links the new
    cache behind every cache with smaller objects and in front of every
    cache whose objects are as large or larger, those of its own size
    included, and moves no other cache. *)
Theorem kmem_caches_stay_sorted sizes kc l :
  by_size sizes l = true ->
  by_size sizes (kmem_caches_insert sizes kc l) = true
  /\ exists l1 l2,
       l = l1 ++ l2 /\ kmem_caches_insert sizes kc l = l1 ++ kc :: l2
       /\ (forall x, In x l1 -> sizes x < sizes kc)
       /\ (forall x, In x l2 -> sizes kc <= sizes x).
Proof.
  intros H. split; [exact (by_size_insert sizes kc l H)|].
  destruct (kmem_caches_insert_split sizes kc l) as (l1 & l2 & E & Ei & H1 & H2).
  exists l1, l2. split; [exact E|]. split; [exact Ei|]. split; [exact H1|].
  destruct l2 as [|y l2]; [intros x []|].
  specialize (H2 y eq_refl).
  assert (Hs : by_size sizes (y :: l2) = true).
  { subst l. clear - H. induction l1 as [|z l1 IH]; [exact H|].
    apply IH. unfold by_size in *. cbn [app] in H.
    destruct (l1 ++ y :: l2) as [|w r] eqn:E; [reflexivity|].
    cbn [chain] in H. apply andb_true_iff in H. exact (proj2 H). }
  intros x [<-|Hx]; [exact H2|].
  pose proof (by_size_from sizes y l2 Hs x Hx). lia.
Qed.

Lemma kmem_caches_stay_sorted_witness :
  by_size cache_sizes
    (kmem_caches_insert cache_sizes 0xd000 [0xa000; 0xb000; 0xc000]) = true
  /\ exists l1 l2,
       [0xa000; 0xb000; 0xc000] = l1 ++ l2
       /\ kmem_caches_insert cache_sizes 0xd000 [0xa000; 0xb000; 0xc000]
          = l1 ++ 0xd000 :: l2
       /\ (forall x, In x l1 -> cache_sizes x < cache_sizes 0xd000)
       /\ (forall x, In x l2 -> cache_sizes 0xd000 <= cache_sizes x).
Proof.
  apply (kmem_caches_stay_sorted cache_sizes 0xd000 [0xa000; 0xb000; 0xc000]).
  by_compute.
Defined.

(** * Further properties: instant fit *)

(** X17.  Instant fit does not search and does not fail: in an arena
    with the tree in order, the free lists consistent with it and
    holding free tags, no tag at address 0 and a spare tag at hand,
    [arena_alloc] without a style flag returns as soon as some free
    list at or above [LOG2_UP] of the rounded size is not empty.  The
    address is the start of the tag that heads the first such list,
    and nothing is imported. *)
Theorem instantfit_succeeds a size flags j :
  segs_ok a = true -> lists_ok a = true -> lists_free a = true ->
  above_null a = true -> __has_enough_btags a 1 = true -> 0 < quantum a ->
  has_flag flags ARENA_BESTFIT = false ->
  has_flag flags ARENA_NEXTFIT = false ->
  ROUNDUP size (quantum a) <> 0 ->
  LOG2_UP (ROUNDUP size (quantum a)) <= j < ARENA_NR_FREE_LISTS ->
  free_segs a j <> [] ->
  exists bt k a',
    LOG2_UP (ROUNDUP size (quantum a)) <= k <= j
    /\ hd_error (free_segs a k) = Some bt
    /\ (forall i, LOG2_UP (ROUNDUP size (quantum a)) <= i < k ->
                  free_segs a i = [])
    /\ arena_alloc a size flags = Ret (start_of a bt) a'
    /\ start_of a bt <> 0 /\ afunc a' = afunc a.
Proof.
  intros S L Lf An E Q Fb Fn Hz Hj Hne.
  apply segs_ok_tree_inv in S.
  pose proof (ROUNDUP_range size (quantum a) Q) as R.
  destruct (alloc_instantfit_finds a (ROUNDUP size (quantum a)) j S L Lf E
              ltac:(lia) Hj Hne) as (bt & k & a' & Hk & Hh & Hm & Ha).
  assert (Hk0 : 0 <= k < ARENA_NR_FREE_LISTS).
  { pose proof (Z.log2_up_nonneg (ROUNDUP size (quantum a))).
    unfold LOG2_UP in Hk. lia. }
  assert (Hin : In bt (all_segs a)).
  { apply (lists_ok_free a k bt L Hk0).
    destruct (free_segs a k); [discriminate|]. injection Hh as ->.
    left. reflexivity. }
  assert (Hp : 0 < start_of a bt).
  { unfold above_null in An. rewrite forallb_forall in An.
    apply Z.ltb_lt. exact (An bt Hin). }
  assert (Hk' : afunc a' = afunc a).
  { pose proof (kept_alloc_instantfit a a (ROUNDUP size (quantum a)) eq_refl)
      as K. rewrite Ha in K. exact K. }
  exists bt, k, a'. split; [exact Hk|]. split; [exact Hh|].
  split; [exact Hm|]. split; [|split; [lia | exact Hk']].
  unfold arena_alloc.
  destruct (Z.eqb_spec (ROUNDUP size (quantum a)) 0) as [|_]; [contradiction|].
  cbn [arena_alloc_loop]. unfold alloc_from_arena, __get_enough_btags.
  rewrite E, Fb, Fn. cbv beta iota delta [bind]. cbn [negb]. rewrite Ha.
  destruct (Z.eqb_spec (start_of a bt) 0) as [|_]; [lia|]. reflexivity.
Qed.

Lemma instantfit_succeeds_witness :
  exists bt k a',
    LOG2_UP (ROUNDUP 0x800 (quantum three_pages)) <= k <= 13
    /\ hd_error (free_segs three_pages k) = Some bt
    /\ (forall i, LOG2_UP (ROUNDUP 0x800 (quantum three_pages)) <= i < k ->
                  free_segs three_pages i = [])
    /\ arena_alloc three_pages 0x800 0 = Ret (start_of three_pages bt) a'
    /\ start_of three_pages bt <> 0 /\ afunc a' = afunc three_pages.
Proof.
  apply (instantfit_succeeds three_pages 0x800 0 13);
    first [by_compute | split; by_compute | discriminate].
Defined.

(** * Further properties: next fit *)

(** X18.  Next fit goes on from where it last allocated: in a
    searchable arena, when [arena_alloc] with [ARENA_NEXTFIT] returns a
    non-null address without an import, the cursor
    [last_nextfit_alloc] is that address afterwards; and the address is
    at or above the old cursor plus one quantum, or else the search
    from there found nothing and the address, found by the search from
    the bottom, is at or above one quantum. *)
Theorem nextfit_from_cursor a size flags p a' :
  searchable a = true ->
  has_flag flags ARENA_BESTFIT = false ->
  has_flag flags ARENA_NEXTFIT = true ->
  arena_alloc a size flags = Ret p a' -> p <> 0 -> afunc a' = afunc a ->
  last_nextfit_alloc a' = p
  /\ (wadd (last_nextfit_alloc a) (quantum a) <= p
      \/ (__xalloc_min_max a (ROUNDUP size (quantum a)) (quantum a) 0 0
            (wadd (last_nextfit_alloc a) (quantum a)) 0 = Ret 0 a
          /\ quantum a <= p)).
Proof.
  intros S Fb Fn H Hp He.
  destruct (searchable_spec a S) as (T & L & Q & E).
  pose proof (has_enough_btags_less a 2 1 E ltac:(lia)) as E1.
  pose proof (ROUNDUP_range size (quantum a) Q) as R.
  unfold arena_alloc in H.
  destruct (ROUNDUP size (quantum a) =? 0); [discriminate|].
  apply arena_alloc_loop_first_turn in H. destruct H as [_ H].
  specialize (H Hp He). revert H.
  unfold alloc_from_arena, __get_enough_btags. rewrite E1, Fb, Fn.
  cbv beta iota delta [bind]. cbn [negb].
  unfold __alloc_nextfit, __xalloc_nextfit.
  destruct (__xalloc_min_max a (ROUNDUP size (quantum a)) (quantum a) 0 0
              (wadd (last_nextfit_alloc a) (quantum a)) 0)
    as [|r1 a1] eqn:H1; [discriminate|].
  cbv beta iota delta [bind]. destruct (Z.eqb_spec r1 0) as [Hz|Hz].
  - pose proof (xalloc_min_max_zero _ _ _ _ _ _ _ _ _ H1 Hz) as ->.
    destruct (__xalloc_min_max a (ROUNDUP size (quantum a)) (quantum a) 0 0
                (quantum a) 0) as [|r2 a2] eqn:H2; [discriminate|].
    destruct (Z.eqb_spec r2 0) as [Hz2|Hz2].
    + intros H. injection H as <- _. congruence.
    + intros H. injection H as <- <-. split; [reflexivity|]. right.
      subst r1. split; [reflexivity|].
      exact (xalloc_min_max_from _ _ _ _ _ _ _ T L Q R H2 Hz2).
  - destruct (Z.eqb_spec r1 0) as [|_]; [contradiction|].
    intros H. injection H as <- <-. split; [reflexivity|]. left.
    exact (xalloc_min_max_from _ _ _ _ _ _ _ T L Q R H1 Hz).
Qed.

Lemma nextfit_from_cursor_witness :
  last_nextfit_alloc
    (state_of (arena_alloc (state_of (one_seg 0x100 0x1000 0x1000)) 0x100
                 ARENA_NEXTFIT)) = 0x1000
  /\ (wadd (last_nextfit_alloc (state_of (one_seg 0x100 0x1000 0x1000)))
        (quantum (state_of (one_seg 0x100 0x1000 0x1000))) <= 0x1000
      \/ (__xalloc_min_max (state_of (one_seg 0x100 0x1000 0x1000))
            (ROUNDUP 0x100 (quantum (state_of (one_seg 0x100 0x1000 0x1000))))
            (quantum (state_of (one_seg 0x100 0x1000 0x1000))) 0 0
            (wadd (last_nextfit_alloc (state_of (one_seg 0x100 0x1000 0x1000)))
               (quantum (state_of (one_seg 0x100 0x1000 0x1000)))) 0
          = Ret 0 (state_of (one_seg 0x100 0x1000 0x1000))
          /\ quantum (state_of (one_seg 0x100 0x1000 0x1000)) <= 0x1000)).
Proof.
  apply (nextfit_from_cursor (state_of (one_seg 0x100 0x1000 0x1000)) 0x100
           ARENA_NEXTFIT 0x1000); by_compute.
Defined.

(** X19.  Allocating an object and freeing it again leaves a large
    slab cache as it was.  The slab [s] keeps a bufctl [b] at the head
    of its free list, the bufctl names the buffer [buf] and the slab,
    and the word behind the buffer names the bufctl; the slab heads the
    partial list with some objects out, or the empty list of a cache
    without partial slab and holds more than one object.  Then
    [kmem_cache_alloc] returns [buf], and after [kmem_cache_free] of
    [buf] the three lists, the counter, every slab header, every word
    and every bufctl are what they were. *)
Theorem large_slab_round_trip sizeof cutoff nbuf c s rest osz total busy fso
    b bl buf o c1 :
  cutoff < Slab.obj_size c ->
  Slab.slabs c s = Slab.mk_slab osz busy total fso (b :: bl) ->
  Slab.bufctls c b = Slab.mk_bufctl buf s ->
  Slab.words c (wadd buf (Slab.obj_size c)) = b ->
  (Slab.partial_slab_list c = s :: rest /\ 0 < busy < total)
  \/ (Slab.partial_slab_list c = [] /\ Slab.empty_slab_list c = s :: rest
      /\ busy = 0 /\ 1 < total) ->
  total < WORD -> 0 <= Slab.nr_cur_alloc c < WORD ->
  Slab.kmem_cache_alloc sizeof cutoff nbuf c 0 = Some (o, c1) ->
  o = buf
  /\ same_cache c (Slab.kmem_cache_free sizeof cutoff c1 o)
  /\ forall x, Slab.bufctls (Slab.kmem_cache_free sizeof cutoff c1 o) x
               = Slab.bufctls c x.
Proof.
  intros Hc Hs Hb Hw Hl Ht Hnr Ha.
  destruct Hl as [(Hp & Hbusy) | (Hp & He & -> & H1)].
  - destruct (large_round_trip sizeof cutoff nbuf c s rest osz total busy fso
                b bl buf Hc Hp Hs Hb Hw ltac:(lia) Ht Hnr)
      as (c1' & A & R). rewrite Ha in A. injection A as -> <-.
    cbv zeta in R. destruct R as (F & P & E & N & O & K & S & W & B).
    split; [reflexivity|]. split; [|exact B]. unfold same_cache.
    rewrite F, P, E, Hp.
    destruct (busy + 1 =? total); [auto 10|].
    destruct (Z.eqb_spec busy 0); [lia | auto 10].
  - rewrite (alloc_from_empty sizeof cutoff nbuf c s rest Hp He) in Ha.
    set (c0 := Slab.set_partial [s] (Slab.set_empty rest c)) in *.
    destruct (large_round_trip sizeof cutoff nbuf c0 s [] osz total 0 fso
                b bl buf Hc eq_refl Hs Hb Hw ltac:(lia) Ht Hnr)
      as (c1' & A & R). rewrite Ha in A. injection A as -> <-.
    cbv zeta in R. destruct R as (F & P & E & N & O & K & S & W & B).
    split; [reflexivity|]. split; [|exact B]. unfold same_cache.
    rewrite F, P, E, Hp, He.
    destruct (Z.eqb_spec (0 + 1) total); [lia|]. cbn [Z.eqb].
    auto 10.
Qed.

Lemma large_slab_round_trip_witness :
  0x303468 = 0x303468
  /\ same_cache one_large
       (Slab.kmem_cache_free Slab.HDR Slab.CUTOFF two_large 0x303468)
  /\ forall x,
       Slab.bufctls
         (Slab.kmem_cache_free Slab.HDR Slab.CUTOFF two_large 0x303468) x
       = Slab.bufctls one_large x.
Proof.
  apply (large_slab_round_trip Slab.HDR Slab.CUTOFF Slab.NBUF one_large
           0x400000 [] 1032 15 1 0 0x400440
           (tl (Slab.bufctl_freelist (Slab.slabs one_large 0x400000)))
           0x303468 0x303468 two_large);
    first [ by_compute | split; by_compute
          | left; split; [by_compute | split; by_compute] ].
Defined.

(** * Further properties: instant fit and imports *)

(** X20.  Instant fit cannot use an import that is too small for its
    lists: in an arena with a source, when the free lists from
    [LOG2_UP] of the rounded size on are empty and the size imported
    for the request, [MAX(size, size << import_scale)], falls on a
    lower list, every span the source hands out is added to the arena
    and passed over: [arena_alloc] without a style flag, if it
    returns, returns null and has allocated nothing.  With import
    scale 0 this is the case of every size that is not a power of
    two. *)
Theorem instantfit_import_starves a size flags p a' :
  source a = true -> is_base a = false ->
  has_flag flags ARENA_BESTFIT = false ->
  has_flag flags ARENA_NEXTFIT = false ->
  no_list_from a (LOG2_UP (ROUNDUP size (quantum a))) = true ->
  LOG2_DOWN (MAX (ROUNDUP size (quantum a))
               (wshl (ROUNDUP size (quantum a)) (import_scale a)))
  < LOG2_UP (ROUNDUP size (quantum a)) ->
  arena_alloc a size flags = Ret p a' ->
  p = 0 /\ nr_allocs a' = nr_allocs a
  /\ amt_alloc_segs a' = amt_alloc_segs a /\ alloc_hash a' = alloc_hash a.
Proof.
  intros Hs Hb Fb Fn Hl Hk. unfold arena_alloc.
  destruct (ROUNDUP size (quantum a) =? 0); [discriminate|].
  intros H.
  assert (S : starved a a (LOG2_UP (ROUNDUP size (quantum a)))).
  { apply starved_refl. intros i Hi.
    apply (no_list_from_spec a _ Hl i Hi).
    pose proof (Z.log2_up_nonneg (ROUNDUP size (quantum a))).
    unfold LOG2_UP in Hi. lia. }
  destruct (starved_loop a _ flags _ a p a' S Hs Hb Fb Fn Hk H)
    as (-> & _ & _ & _ & _ & E5 & E6 & E7 & _).
  auto.
Qed.

Lemma instantfit_import_starves_witness :
  0 = 0
  /\ nr_allocs (state_of (arena_alloc plain_child 0x300 0))
     = nr_allocs plain_child
  /\ amt_alloc_segs (state_of (arena_alloc plain_child 0x300 0))
     = amt_alloc_segs plain_child
  /\ alloc_hash (state_of (arena_alloc plain_child 0x300 0))
     = alloc_hash plain_child.
Proof.
  apply (instantfit_import_starves plain_child 0x300 0 0
           (state_of (arena_alloc plain_child 0x300 0)));
    by_compute.
Defined.
